(** * Block synchronisation engine of fractal: the downloader

    A shallow embedding of the downloader of package [blockchain]: the
    status gossiper ([broadcastStatus]), the ancestor finder
    ([findAncestor]), the skeleton builder of [multiplexDownload], the
    chunk task ([downloadTask.Do]) and the dispatcher
    ([assignDownloadTask]).

    Conventions.
    - [uint64] values are integers of [Z]; every arithmetic operation of
      the source that can wrap is written with [u64]; [int(x)] of a
      [uint64] is [int_of_u64].
    - [common.Hash] is a 256-bit value, modelled by its integer value;
      [emptyHash] is [0].
    - Requests to a peer are answered by an oracle; [None] is a failed
      request (timeout or closed channel).  Every function that talks to
      a peer also returns the requests it has issued, newest first.
    - Loops that the source does not bound syntactically take a fuel. *)

From Stdlib Require Import ZArith Lia Bool List Sorted.
From stdpp Require Import base tactics option list gmap strings.

Local Open Scope Z_scope.

(** ** Machine integers *)

Definition u64 (z : Z) : Z := z mod 2 ^ 64.

(** [int(x)] for [x : uint64] on a 64-bit platform. *)
Definition int_of_u64 (z : Z) : Z := if z <? 2 ^ 63 then z else z - 2 ^ 64.

Abbreviation Hash := Z (only parsing).

Definition emptyHash : Hash := 0.

Definition maxKnownBlocks : Z := 1024.

(** ** Status gossiper *)

Record NewBlockHashesData := mkNewBlockHashesData {
  nb_Hash : Hash;
  nb_Number : Z;
  nb_TD : Z
}.

(** [Downloader], reduced to the two fields that [broadcastStatus]
    reads and writes. *)
Record Downloader := mkDownloader {
  maxNumber : Z;
  knownBlocks : gset Z
}.

(** What [broadcastStatus] hands to the router. *)
Inductive outMsg :=
| SendBroadcast (data : NewBlockHashesData).

Section Gossiper.

(** [mapset.Set.Pop] removes an arbitrary element: the element is
    chosen by [pick]. *)
Variable pick : gset Z -> Z.

Definition Pop (s : gset Z) : gset Z := s ∖ {[ pick s ]}.

(** [for dl.knownBlocks.Cardinality() >= maxKnownBlocks { Pop() }] *)
Fixpoint evict (fuel : nat) (s : gset Z) : gset Z :=
  match fuel with
  | O => s
  | S fuel' =>
      if maxKnownBlocks <=? Z.of_nat (size s) then evict fuel' (Pop s) else s
  end.

Definition broadcastStatus (dl : Downloader) (blockhash : NewBlockHashesData)
  : Downloader * list outMsg :=
  if (nb_Number blockhash <=? maxNumber dl)
     && bool_decide (nb_Hash blockhash ∈ knownBlocks dl)
  then (dl, [])
  else
    let kb := evict (size (knownBlocks dl)) (knownBlocks dl) in
    ({| maxNumber := nb_Number blockhash;
        knownBlocks := {[ nb_Hash blockhash ]} ∪ kb |},
     [SendBroadcast blockhash]).

(** A run of the gossiper over a sequence of announcements, with the
    messages sent, oldest first. *)
Fixpoint gossip (dl : Downloader) (anns : list NewBlockHashesData)
  : Downloader * list outMsg :=
  match anns with
  | [] => (dl, [])
  | a :: rest =>
      let '(dl1, out1) := broadcastStatus dl a in
      let '(dl2, out2) := gossip dl1 rest in
      (dl2, out1 ++ out2)
  end.

End Gossiper.

(** The downloader as [NewDownloader] makes it: [maxNumber] is zero and
    [knownBlocks] is empty. *)
Definition NewDownloader : Downloader := {| maxNumber := 0; knownBlocks := ∅ |}.

(** A [Pop] that takes the least element in the order of [elements]. *)
Definition pick_first (s : gset Z) : Z := default 0 (head (elements s)).


(** ** Request client *)

(** [getBlcokHashByNumber{Number, Amount, Skip, Reverse}] *)
Record getBlcokHashByNumber := mkHashReq {
  rq_Number : Z;
  rq_Amount : Z;
  rq_Skip : Z;
  rq_Reverse : bool
}.

Inductive error :=
| ErrRequest          (* "timeout" or "channel closed", from [waitEvent] *)
| ErrWrongLength.     (* "wrong length of block hash" *)

(** ** Ancestor finder *)

(** How a call of [findAncestor] ends; [Spinning] is a loop that has
    used up its fuel. *)
Inductive outcome :=
| Returned (a : Z)
| Failed (e : error)
| Spinning.

(** The variables the closure given to [sort.Search] captures, and the
    requests sent so far. *)
Record probing := mkProbing {
  pr_err : option error;
  luckResult : Z;
  pr_sent : list getBlcokHashByNumber
}.

(** [sort.Search] of the Go library, with the state of the closure
    threaded through the calls of [f]:
    [for i < j { h := int(uint(i+j) >> 1); if !f(h) { i = h + 1 } else { j = h } }]. *)
Fixpoint search_loop {S : Type} (fuel : nat) (f : Z -> S -> bool * S)
  (i j : Z) (st : S) : Z * S :=
  match fuel with
  | O => (i, st)
  | Datatypes.S fuel' =>
      if i <? j then
        let h := Z.shiftr (i + j) 1 in
        let '(b, st') := f h st in
        if negb b then search_loop fuel' f (h + 1) j st'
        else search_loop fuel' f i h st'
      else (i, st)
  end.

(** An [int] has 64 bits, so the interval is halved at most 64 times. *)
Definition sort_Search {S : Type} (n : Z) (f : Z -> S -> bool * S) (st : S)
  : Z * S :=
  search_loop 64 f 0 n st.

Section Ancestor.

(** [getBlockHashes] towards the peer of the search. *)
Variable getBlockHashes : getBlcokHashByNumber -> option (list Z).

(** [dl.blockchain.HasBlock] *)
Variable HasBlock : Z -> Z -> bool.

(** The bulk probe:
    [for i, hash := range hashes { if HasBlock(hash, headNumber-uint64(i)) {...} }] *)
Fixpoint scan_tail (headNumber : Z) (i : Z) (hashes : list Z) : option Z :=
  match hashes with
  | [] => None
  | hash :: rest =>
      if HasBlock hash (u64 (headNumber - i)) then Some (u64 (headNumber - i))
      else scan_tail headNumber (i + 1) rest
  end.

(** The closure given to [sort.Search]. *)
Definition probe (searchStart : Z) (n : Z) (st : probing) : bool * probing :=
  if bool_decide (pr_err st <> None) || negb (luckResult st =? 0) then (false, st)
  else
    let targetNumber := u64 (u64 n + searchStart) in
    let rq := mkHashReq targetNumber 2 0 false in
    let sent := rq :: pr_sent st in
    match getBlockHashes rq with
    | None => (false, mkProbing (Some ErrRequest) (luckResult st) sent)
    | Some hashes =>
        match hashes with
        | [] => (false, mkProbing (Some ErrWrongLength) (luckResult st) sent)
        | hash0 :: _ =>
            let hasBlock0 := HasBlock hash0 targetNumber in
            if (Z.of_nat (length hashes) =? 2) && hasBlock0
               && negb (HasBlock (nth 1 hashes 0) (u64 (targetNumber + 1)))
            then (false, mkProbing (pr_err st) targetNumber sent)
            else (negb hasBlock0, mkProbing (pr_err st) (luckResult st) sent)
        end
    end.

(** [for headNumber > 0 { ... }], the binary-search phase. *)
Fixpoint binary_phase (fuel : nat) (headNumber searchStart : Z)
  (sent : list getBlcokHashByNumber) : outcome * list getBlcokHashByNumber :=
  match fuel with
  | O => (Spinning, sent)
  | S fuel' =>
      if 0 <? headNumber then
        let searchLength := u64 (headNumber - searchStart + 1) in
        let '(searchResult, st) :=
          sort_Search (int_of_u64 searchLength) (probe searchStart)
            (mkProbing None 0 sent) in
        match pr_err st with
        | Some e => (Failed e, pr_sent st)
        | None =>
            if negb (luckResult st =? 0) then (Returned (luckResult st), pr_sent st)
            else if 0 <? searchResult
            then (Returned (u64 (u64 (u64 searchResult + searchStart) - 1)), pr_sent st)
            else binary_phase fuel' (u64 (searchStart - 1)) (searchStart / 2) (pr_sent st)
        end
      else (Returned 0, sent)
  end.

Definition findAncestor (fuel : nat) (headNumber searchStart : Z)
  : outcome * list getBlcokHashByNumber :=
  if headNumber <? 1 then (Returned 0, [])
  else
    let searchLength := u64 (u64 (u64 (headNumber - searchStart) + 1) + 1) in
    let searchLength := if 32 <? searchLength then 32 else searchLength in
    let rq := mkHashReq headNumber searchLength 0 true in
    match getBlockHashes rq with
    | None => (Failed ErrRequest, [rq])
    | Some hashes =>
        match scan_tail headNumber 0 hashes with
        | Some a => (Returned a, [rq])
        | None =>
            binary_phase fuel (u64 (headNumber - Z.of_nat (length hashes)))
              (searchStart / 2) [rq]
        end
    end.

End Ancestor.

(** Modelled from the spec: the handler with which a peer answers
    [DownloaderGetBlockHashMsg] is not in this file.  Section 4.3: the reply
    holds [amount] block hashes starting at [startNumber], stepping by
    [skip+1], forward or reverse.  A peer has no hash to give outside its
    chain [0 .. peer_head], so the reply ends there. *)
Fixpoint chain_hashes (peer_hash_at : Z -> Z) (peer_head : Z)
  (amount : nat) (number step : Z) : list Z :=
  match amount with
  | O => []
  | S amount' =>
      if (0 <=? number) && (number <=? peer_head)
      then peer_hash_at number
             :: chain_hashes peer_hash_at peer_head amount' (number + step) step
      else []
  end.

Definition peer_reply (peer_hash_at : Z -> Z) (peer_head : Z)
  (rq : getBlcokHashByNumber) : option (list Z) :=
  Some (chain_hashes peer_hash_at peer_head (Z.to_nat (rq_Amount rq)) (rq_Number rq)
          (if rq_Reverse rq then - (rq_Skip rq + 1) else rq_Skip rq + 1)).


(** ** Peers, headers and blocks *)

(** [stationStatus], without the channel and the mutex; the station is
    given by its name. *)
Record stationStatus := mkStatus {
  station : string;
  td : Z;
  currentNumber : Z;
  currentBlockHash : Hash;
  ancestor : Z
}.

(** [types.Header]: the parent hash, [Number.Uint64()] and the fields the
    downloader does not look at. *)
Record Header := mkHeader {
  ParentHash : Hash;
  NumberU64 : Z;
  hd_rest : Z
}.

Record Body := mkBody { Transactions : list Z }.

Record Block := mkBlock {
  blk_header : Header;
  blk_txs : list Z
}.

(** [types.NewBlockWithHeader(header)] and [.WithBody(txs)] *)
Definition NewBlockWithHeader (h : Header) : Block := mkBlock h [].
Definition WithBody (b : Block) (txs : list Z) : Block := mkBlock (blk_header b) txs.

(** [getBlockHeadersData{hashOrNumber{Number}, Amount, Skip, Reverse}] *)
Record getBlockHeadersData := mkHeaderReq {
  hr_Number : Z;
  hr_Amount : Z;
  hr_Skip : Z;
  hr_Reverse : bool
}.

Inductive request :=
| ReqHashes (rq : getBlcokHashByNumber)
| ReqHeaders (rq : getBlockHeadersData)
| ReqBodies (hashes : list Z).

(** ** Download task *)

Record downloadTask := mkTask {
  worker : option stationStatus;
  startNumber : Z;
  startHash : Hash;
  endNumber : Z;
  endHash : Hash;
  blocks : list Block;
  errorTotal : Z
}.

Definition set_worker (t : downloadTask) (w : stationStatus) : downloadTask :=
  mkTask (Some w) (startNumber t) (startHash t) (endNumber t) (endHash t)
    (blocks t) (errorTotal t).

(** The deferred function of [Do]: [task.errorTotal++] and the send on
    [task.result], here the returned task. *)
Definition deliver (t : downloadTask) (bs : list Block) : downloadTask :=
  mkTask (worker t) (startNumber t) (startHash t) (endNumber t) (endHash t)
    bs (errorTotal t + 1).

(** The result of code that can hit a run-time panic or block for ever. *)
Inductive run (A : Type) :=
| Ok (a : A)
| Panic
| Stuck.
Arguments Ok {A} a.
Arguments Panic {A}.
Arguments Stuck {A}.

Section Task.

(** [Header.Hash()] *)
Variable header_hash : Header -> Z.

(** The replies the worker of a task gives to the three requests of
    [Do]; the task, with its worker and its [errorTotal], identifies the
    attempt. *)
Variable net_hashes : downloadTask -> getBlcokHashByNumber -> option (list Z).
Variable net_headers : downloadTask -> getBlockHeadersData -> option (list Header).
Variable net_bodies : downloadTask -> list Z -> option (list Body).

Definition block_hash (b : Block) : Z := header_hash (blk_header b).

(** [for i := 1; i < len(headers); i++ { if headers[i].ParentHash != headers[i-1].Hash() || ... { return } }] *)
Fixpoint headers_linked (prev : Header) (rest : list Header) : bool :=
  match rest with
  | [] => true
  | h :: rest' =>
      if negb (ParentHash h =? header_hash prev)
         || negb (NumberU64 h =? u64 (NumberU64 prev + 1))
      then false
      else headers_linked h rest'
  end.

(** [reqHashes]: the hashes of the headers whose hash is not empty. *)
Definition body_hashes (headers : list Header) : list Z :=
  filter (fun h => h <> emptyHash) (map header_hash headers).

(** The loop that fills [blocks]; [None] is an index out of range in
    [bodies]. *)
Fixpoint build_blocks (headers : list Header) (bodies : list Body)
  : option (list Block) :=
  match headers with
  | [] => Some []
  | header :: rest =>
      if header_hash header =? emptyHash then
        match build_blocks rest bodies with
        | Some bs => Some (NewBlockWithHeader header :: bs)
        | None => None
        end
      else
        match bodies with
        | [] => None
        | body :: bodies' =>
            match build_blocks rest bodies' with
            | Some bs =>
                Some (WithBody (NewBlockWithHeader header) (Transactions body) :: bs)
            | None => None
            end
        end
  end.

(** [downloadTask.Do]: the task as it is sent on the result channel, and
    the requests made to the worker, newest first. *)
Definition Do (task : downloadTask) : run (downloadTask * list request) :=
  match worker task with
  | None => Panic
  | Some w =>
      if currentNumber w <? endNumber task then Ok (deliver task (blocks task), [])
      else
        let reqHash :=
          if endNumber task =? startNumber task
          then mkHashReq (startNumber task) 1 0 false
          else mkHashReq (startNumber task) 2
                 (u64 (u64 (endNumber task - startNumber task) - 1)) false in
        let sent1 := [ReqHashes reqHash] in
        match net_hashes task reqHash with
        | None => Ok (deliver task (blocks task), sent1)
        | Some hashes =>
            if negb (Z.of_nat (length hashes) =? rq_Amount reqHash)
               || negb (default 0 (head hashes) =? startHash task)
               || negb (default 0 (last hashes) =? endHash task)
            then Ok (deliver task (blocks task), sent1)
            else
              let downloadAmount := u64 (u64 (endNumber task - startNumber task) + 1) in
              let rqH := mkHeaderReq (startNumber task) downloadAmount 0 false in
              let sent2 := ReqHeaders rqH :: sent1 in
              match net_headers task rqH with
              | None => Ok (deliver task (blocks task), sent2)
              | Some headers =>
                  if negb (Z.of_nat (length headers) =? int_of_u64 downloadAmount)
                  then Ok (deliver task (blocks task), sent2)
                  else
                    match head headers, last headers with
                    | Some first, Some final =>
                        if negb (NumberU64 first =? startNumber task)
                           || negb (header_hash first =? startHash task)
                           || negb (NumberU64 final =? endNumber task)
                           || negb (header_hash final =? endHash task)
                        then Ok (deliver task (blocks task), sent2)
                        else if negb (headers_linked first (tail headers))
                        then Ok (deliver task (blocks task), sent2)
                        else
                          let reqHashes := body_hashes headers in
                          let sent3 := ReqBodies reqHashes :: sent2 in
                          match net_bodies task reqHashes with
                          | None => Ok (deliver task (blocks task), sent3)
                          | Some bodies =>
                              if negb (length bodies =? length reqHashes)%nat
                              then Ok (deliver task (blocks task), sent3)
                              else
                                match build_blocks headers bodies with
                                | Some bs => Ok (deliver task bs, sent3)
                                | None => Panic
                                end
                          end
                    | _, _ => Panic      (* headers[0] of an empty reply *)
                    end
              end
        end
  end.

End Task.


(** ** Task dispatcher *)

(** A [stack] is a list whose head is the top: [push] conses, [pop]
    takes the head, [clear] empties. *)

Definition maxTask : Z := 16.

(** What the dispatcher does, newest first. *)
Inductive event :=
| EvLaunch (task : downloadTask)       (* [go task.Do()] *)
| EvResult (task : downloadTask)       (* [task := <-resultCh] *)
| EvClear.                             (* [taskes.clear()] *)

(** The local variables of [assignDownloadTask]; [running] holds the
    tasks whose goroutine has not yet been received from. *)
Record dispatcher := mkDispatcher {
  workers : list stationStatus;
  taskes : list downloadTask;
  taskCount : Z;
  running : list downloadTask;
  insertList : gmap Z (list Block);
  events : list event
}.

(** The loop that fills [taskes]:
    [for i := len(numbers) - 1; i > 0; i-- { taskes.push(...) }];
    [Panic] is an index out of range in [hashes]. *)
Fixpoint push_tasks (i : nat) (hashes numbers : list Z)
  (taskes : list downloadTask) : run (list downloadTask) :=
  match i with
  | O => Ok taskes
  | S i' =>
      match numbers !! i', hashes !! i', numbers !! i, hashes !! i with
      | Some sn, Some sh, Some en, Some eh =>
          push_tasks i' hashes numbers (mkTask None sn sh en eh [] 0 :: taskes)
      | _, _, _, _ => Panic
      end
  end.

Definition getReadyTask (d : dispatcher) : option downloadTask * dispatcher :=
  match workers d with
  | [] => (None, d)
  | w :: ws =>
      match taskes d with
      | [] => (None, d)
      | task :: ts =>
          (Some (set_worker task w),
           mkDispatcher ws ts (taskCount d) (running d) (insertList d) (events d))
      end
  end.

(** [doTask]: [for taskCount < maxTask { ... }] *)
Fixpoint doTask_loop (fuel : nat) (d : dispatcher) : dispatcher :=
  match fuel with
  | O => d
  | S fuel' =>
      if taskCount d <? maxTask then
        match getReadyTask d with
        | (None, d') => d'
        | (Some task, d') =>
            doTask_loop fuel'
              (mkDispatcher (workers d') (taskes d') (taskCount d' + 1)
                 (task :: running d') (insertList d') (EvLaunch task :: events d'))
        end
      else d
  end.

Definition doTask (d : dispatcher) : dispatcher :=
  doTask_loop (Z.to_nat (maxTask - taskCount d)) d.

(** The body of the collecting loop, after [task := <-resultCh] and
    [taskCount--]. *)
Definition handle_result (d : dispatcher) (task : downloadTask) : dispatcher :=
  if (length (blocks task) =? 0)%nat then
    if 5 <? errorTotal task
    then mkDispatcher (workers d) [] (taskCount d) (running d) (insertList d)
           (EvClear :: events d)
    else mkDispatcher (workers d) (task :: taskes d) (taskCount d) (running d)
           (insertList d) (events d)
  else
    mkDispatcher (from_option (fun w => w :: workers d) (workers d) (worker task))
      (taskes d) (taskCount d) (running d)
      (<[ startNumber task := blocks task ]> (insertList d)) (events d).

(** The elements of [l] but the one at index [k]. *)
Definition drop_nth {A : Type} (k : nat) (l : list A) : list A :=
  take k l ++ drop (S k) l.

Section Dispatcher.

Variable header_hash : Header -> Z.
Variable net_hashes : downloadTask -> getBlcokHashByNumber -> option (list Z).
Variable net_headers : downloadTask -> getBlockHeadersData -> option (list Header).
Variable net_bodies : downloadTask -> list Z -> option (list Body).

(** The order in which the running tasks send on [resultCh]: at the
    step with [fuel] left, the task at index [sched fuel] (modulo the
    number of running tasks) is received. *)
Variable sched : nat -> nat.

(** [for doTask(); taskCount > 0; doTask() { ... }], entered after the
    first [doTask()]. *)
Fixpoint collect (fuel : nat) (d : dispatcher) : run dispatcher :=
  match fuel with
  | O => Stuck
  | S fuel' =>
      if 0 <? taskCount d then
        let k := (sched fuel' mod length (running d))%nat in
        match running d !! k with
        | None => Stuck              (* nothing will ever be sent *)
        | Some started =>
            match Do header_hash net_hashes net_headers net_bodies started with
            | Ok (task, _) =>
                let d1 := mkDispatcher (workers d) (taskes d) (taskCount d - 1)
                            (drop_nth k (running d)) (insertList d)
                            (EvResult task :: events d) in
                collect fuel' (doTask (handle_result d1 task))
            | Panic => Panic
            | Stuck => Stuck
            end
        end
      else Ok d
  end.

(** The chain store: its state is abstract; [InsertChain] gives the new
    state, the index and the error. *)
Variable Chain : Type.
Variable InsertChain : Chain -> list Block -> Chain * Z * option error.

(** What the inserting loop does to the outside, oldest first. *)
Inductive effect :=
| FxInsertChain (bs : list Block)
| FxSleepSecond.

(** [for _, start := range numbers[:len(numbers)-1] { ... }] with the
    final [return numbers[len(numbers)-1], nil]. *)
Fixpoint insert_loop (starts : list Z) (final : Z) (ins : gmap Z (list Block))
  (c : Chain) : run (Z * option error) * Chain * list effect :=
  match starts with
  | [] => (Ok (final, None), c, [])
  | start :: rest =>
      match ins !! start with
      | None => (Ok (u64 (start - 1), None), c, [])
      | Some bs =>
          match InsertChain c bs with
          | (c1, _, None) =>
              let '(r, c2, fx) := insert_loop rest final ins c1 in
              (r, c2, FxInsertChain bs :: fx)
          | (c1, _, Some _) =>
              match InsertChain c1 bs with
              | (c2, _, None) =>
                  let '(r, c3, fx) := insert_loop rest final ins c2 in
                  (r, c3, FxInsertChain bs :: FxSleepSecond :: FxInsertChain bs :: fx)
              | (c2, index, Some err) =>
                  match bs !! Z.to_nat index with
                  | Some b =>
                      if 0 <=? index then
                        (Ok (u64 (NumberU64 (blk_header b) - 1), Some err), c2,
                         [FxInsertChain bs; FxSleepSecond; FxInsertChain bs])
                      else (Panic, c2, [FxInsertChain bs; FxSleepSecond; FxInsertChain bs])
                  | None => (Panic, c2, [FxInsertChain bs; FxSleepSecond; FxInsertChain bs])
                  end
              end
          end
      end
  end.

(** The dispatcher as [assignDownloadTask] sets it up: every registered
    peer is a worker ([remotes] in the order the map is ranged over). *)
Definition init_dispatcher (remotes : list stationStatus)
  (taskes : list downloadTask) : dispatcher :=
  mkDispatcher (rev remotes) taskes 0 [] ∅ [].

(** A task fails at most six times and succeeds at most once. *)
Definition collect_fuel (taskes : list downloadTask) : nat :=
  S (6 * length taskes).

Definition assignDownloadTask (remotes : list stationStatus)
  (hashes numbers : list Z) (c : Chain)
  : run (Z * option error) * Chain * list effect * list event :=
  match push_tasks (length numbers - 1) hashes numbers [] with
  | Ok ts =>
      match collect (collect_fuel ts) (doTask (init_dispatcher remotes ts)) with
      | Ok d =>
          match last numbers with
          | Some final =>
              let '(r, c', fx) :=
                insert_loop (removelast numbers) final (insertList d) c in
              (r, c', fx, events d)
          | None => (Panic, c, [], events d)   (* numbers[:len(numbers)-1] *)
          end
      | Panic => (Panic, c, [], [])
      | Stuck => (Stuck, c, [], [])
      end
  | Panic => (Panic, c, [], [])
  | Stuck => (Stuck, c, [], [])
  end.

End Dispatcher.


(** ** Sync controller: one round *)

(** [for i := downloadStart; i <= downloadEnd; i += downloadSkip + 1 { numbers = append(numbers, i) }] *)
Fixpoint skeleton_numbers (fuel : nat) (i downloadEnd downloadSkip : Z) : list Z :=
  match fuel with
  | O => []
  | S fuel' =>
      if i <=? downloadEnd
      then i :: skeleton_numbers fuel' (u64 (i + u64 (downloadSkip + 1)))
                  downloadEnd downloadSkip
      else []
  end.

Section Round.

(** [getBlockHashes] from the search station to the peer of the round. *)
Variable getBlockHashes : getBlcokHashByNumber -> option (list Z).

(** The part of [multiplexDownload] between [findAncestor] and
    [assignDownloadTask]: the range of the round and its skeleton.  The
    result is [Ok None] where the source returns [false], and otherwise
    [numbers] and [hashes]; with it the requests sent, newest first. *)
Definition skeleton (ancestor statusNumber : Z)
  : run (option (list Z * list Z)) * list getBlcokHashByNumber :=
  let downloadStart := u64 (ancestor + 1) in
  let downloadAmount := u64 (statusNumber - ancestor) in
  if downloadAmount =? 0 then (Ok None, [])
  else
    let downloadAmount := if 1024 <? downloadAmount then 1024 else downloadAmount in
    let downloadEnd := u64 (ancestor + downloadAmount) in
    let downloadBulk := 64 in
    let downloadSkip := downloadBulk in
    let numbers :=
      skeleton_numbers (Z.to_nat downloadAmount) downloadStart downloadEnd downloadSkip in
    let rq1 := mkHashReq downloadStart (Z.of_nat (length numbers)) downloadSkip false in
    match getBlockHashes rq1 with
    | None => (Ok None, [rq1])
    | Some hashes =>
        if negb (length hashes =? length numbers)%nat then (Ok None, [rq1])
        else
          match last numbers with
          | None => (Panic, [rq1])          (* numbers[len(numbers)-1] *)
          | Some final =>
              let duplicate (numbers hashes : list Z) :=
                if (length numbers =? 1)%nat
                then (numbers ++ [default 0 (head numbers)],
                      hashes ++ [default 0 (head hashes)])
                else (numbers, hashes) in
              if negb (final =? downloadEnd) then
                let rq2 := mkHashReq downloadEnd 1 0 false in
                match getBlockHashes rq2 with
                | None => (Ok None, [rq2; rq1])
                | Some hash =>
                    if negb (length hash =? 1)%nat then (Ok None, [rq2; rq1])
                    else (Ok (Some (duplicate (numbers ++ [downloadEnd]) (hashes ++ hash))),
                          [rq2; rq1])
                end
              else (Ok (Some (duplicate numbers hashes)), [rq1])
          end
    end.

Variable HasBlock : Z -> Z -> bool.

(** The head of the local chain when the round starts: [head.NumberU64()]
    and [GetTd(head.Hash(), head.NumberU64())]. *)
Variable localNumber : Z.
Variable localTD : Z.

(** [multiplexDownload] up to the call of [assignDownloadTask]: [Ok None]
    where the source returns [false]. *)
Definition plan_round (fuel : nat) (status : option stationStatus)
  : run (option (list Z * list Z)) * list getBlcokHashByNumber :=
  match status with
  | None => (Ok None, [])
  | Some status =>
      if td status <=? localTD then (Ok None, [])
      else
        let statusNumber := currentNumber status in
        let headNumber := if statusNumber <? localNumber then statusNumber else localNumber in
        match findAncestor getBlockHashes HasBlock fuel headNumber
                (u64 (ancestor status + 1)) with
        | (Returned ancestor, sent) =>
            let '(r, sent') := skeleton ancestor statusNumber in
            (r, sent' ++ sent)
        | (Failed _, sent) => (Ok None, sent)
        | (Spinning, sent) => (Stuck, sent)
        end
  end.

End Round.


(** ** Invariants of the ancestor finder *)

Section FixedChainInvariants.

Variable peer_hash_at : Z -> Z.
Variable peer_head : Z.
Variable HasBlock : Z -> Z -> bool.

(** The local chain holds the block of the remote chain at height [k]. *)
Definition shared (k : Z) : bool := HasBlock (peer_hash_at k) k.

(** A lucky hit that [luckResult] can record. *)
Definition lucky_at (t : Z) : Prop :=
  0 <= t /\ shared t = true /\ t < peer_head /\ shared (t + 1) = false.

(** The invariant of [sort.Search] over the heights
    [searchStart .. headNumber], with [n = headNumber - searchStart + 1]. *)
Definition search_inv (headNumber searchStart n : Z) (i j : Z) (st : probing) : Prop :=
  (pr_err st = None ->
     (luckResult st <> 0 -> lucky_at (luckResult st))
     /\ (luckResult st = 0 ->
         (0 < i -> shared (searchStart + i - 1) = true
                   /\ searchStart + i - 1 <= peer_head)
         /\ (j < n -> shared (searchStart + j) = false)))
  /\ (headNumber <= peer_head -> pr_err st = None)
  /\ 0 <= i /\ j <= n.

(** The invariant of the loop of the binary-search phase. *)
Definition phase_inv (headNumber searchStart : Z) : Prop :=
  0 <= headNumber < 2 ^ 63 - 1 /\ 0 <= searchStart < 2 ^ 63
  /\ (headNumber + 1 <= peer_head -> shared (headNumber + 1) = false)
  /\ (headNumber < searchStart ->
      forall k, headNumber < k <= peer_head -> shared k = false).

(** The heights left to search lie on the remote chain. *)
Definition in_range (headNumber searchStart : Z) : Prop :=
  headNumber <= peer_head /\ (headNumber = 0 \/ searchStart <= headNumber).

End FixedChainInvariants.

Section LuckyHitInvariants.

Variable getBlockHashes : getBlcokHashByNumber -> option (list Z).
Variable HasBlock : Z -> Z -> bool.

(** The probe of height [t] is a lucky hit: two hashes, the local chain
    has the first at [t] and has not the second at [t + 1]. *)
Definition lucky_probe (rq : getBlcokHashByNumber) : Prop :=
  exists t h0 h1 : Z,
    rq = mkHashReq t 2 0 false
    /\ getBlockHashes rq = Some [h0; h1]
    /\ HasBlock h0 t = true /\ HasBlock h1 (u64 (t + 1)) = false.

Definition unlucky (sent : list getBlcokHashByNumber) : Prop :=
  Forall (fun rq => ~ lucky_probe rq) sent.

(** The requests sent so far, during [sort.Search]: only the newest
    can be a lucky hit, and then [luckResult] holds its height, or the
    height is 0 and the search has just ended at index 1. *)
Definition trace_inv (searchStart : Z) (i j : Z) (st : probing) : Prop :=
  unlucky (tail (pr_sent st))
  /\ (forall rq, head (pr_sent st) = Some rq -> lucky_probe rq ->
      pr_err st = None
      /\ ((rq_Number rq <> 0 /\ luckResult st = rq_Number rq)
          \/ (rq_Number rq = 0 /\ luckResult st = 0 /\ searchStart = 0
              /\ i = 1 /\ j = 1)))
  /\ 0 <= i /\ j < 2 ^ 63.

End LuckyHitInvariants.


(** ** Predicates of the statements *)

(** The checks of [Do] on a chunk of headers, as the specification words
    them: adjacent headers are linked by parent hash and consecutive
    numbers, and the first and the last are the boundaries of the task. *)
Definition hash_linked_chunk (header_hash : Header -> Z) (task : downloadTask)
  (headers : list Header) : Prop :=
  (forall (i : nat) (h h' : Header),
      headers !! i = Some h -> headers !! S i = Some h' ->
      ParentHash h' = header_hash h /\ NumberU64 h' = NumberU64 h + 1)
  /\ (exists first final : Header,
         head headers = Some first /\ last headers = Some final
         /\ NumberU64 first = startNumber task /\ header_hash first = startHash task
         /\ NumberU64 final = endNumber task /\ header_hash final = endHash task)
  /\ Z.of_nat (length headers) = endNumber task - startNumber task + 1.


(** ** Invariants of the dispatcher *)

(** A task as [assignDownloadTask] makes it and as it stays while it is
    retried: a range within [uint64], no blocks yet. *)
Definition task_wf (t : downloadTask) : Prop :=
  0 <= startNumber t <= endNumber t /\ endNumber t < 2 ^ 63
  /\ blocks t = [] /\ 0 <= errorTotal t.

(** The runs a task has left, at most: one, and one more for each
    failure below the budget. *)
Definition task_weight (t : downloadTask) : nat :=
  S (Z.to_nat (5 - errorTotal t)).

Definition weight (d : dispatcher) : nat :=
  sum_list_with task_weight (taskes d ++ running d).

Definition dispatcher_inv (d : dispatcher) : Prop :=
  taskCount d = Z.of_nat (length (running d))
  /\ Forall task_wf (taskes d)
  /\ Forall (fun t => task_wf t /\ is_Some (worker t)) (running d).

(** The effects of the inserting loop follow [starts]: for each start in
    turn, one [InsertChain] of its blocks, or two with the sleep between
    them; the loop may end before the last start. *)
Inductive inserts_in_order (ins : gmap Z (list Block))
  : list Z -> list effect -> Prop :=
| in_order_end (starts : list Z) : inserts_in_order ins starts []
| in_order_once (start : Z) (rest : list Z) (bs : list Block) (fx : list effect) :
    ins !! start = Some bs ->
    inserts_in_order ins rest fx ->
    inserts_in_order ins (start :: rest) (FxInsertChain bs :: fx)
| in_order_retry (start : Z) (rest : list Z) (bs : list Block) (fx : list effect) :
    ins !! start = Some bs ->
    inserts_in_order ins rest fx ->
    inserts_in_order ins (start :: rest)
      (FxInsertChain bs :: FxSleepSecond :: FxInsertChain bs :: fx).

(** The first start of [starts] that has no blocks in [ins]. *)
Fixpoint first_missing (ins : gmap Z (list Block)) (starts : list Z) : option Z :=
  match starts with
  | [] => None
  | start :: rest =>
      match ins !! start with
      | None => Some start
      | Some _ => first_missing ins rest
      end
  end.

(** Once the queue has been cleared, with the launches in [before]
    made: the queue holds only tasks that have run, and every later
    launch is of a task that has run. *)
Definition only_retries (before : list event) (d : dispatcher) : Prop :=
  Forall (fun t => 1 <= errorTotal t) (taskes d)
  /\ Forall (fun t => 0 <= errorTotal t) (running d)
  /\ (forall t, EvLaunch t ∈ events d -> EvLaunch t ∈ before \/ 1 <= errorTotal t).

(** Every entry of [insertList] is a chunk that starts at its key. *)
Definition chunks_linked (header_hash : Header -> Z) (ins : gmap Z (list Block))
  : Prop :=
  forall (s : Z) (bs : list Block),
    ins !! s = Some bs ->
    bs <> []
    /\ exists task,
         startNumber task = s
         /\ 0 <= startNumber task <= endNumber task /\ endNumber task < 2 ^ 63
         /\ hash_linked_chunk header_hash task (map blk_header bs).

(** [numbers] as the skeleton gives them: in [uint64] with room to
    spare, never decreasing. *)
Definition numbers_wf (numbers : list Z) : Prop :=
  forall (k : nat) (a b : Z),
    numbers !! k = Some a -> numbers !! S k = Some b -> 0 <= a <= b /\ b < 2 ^ 63.

(** The effects without the retries: a sleep and the [InsertChain] after
    it are left out. *)
Fixpoint first_attempts (fx : list effect) : list effect :=
  match fx with
  | [] => []
  | FxSleepSecond :: rest =>
      match rest with
      | [] => []
      | _ :: rest' => first_attempts rest'
      end
  | e :: rest => e :: first_attempts rest
  end.

(** The number of the first block of every [InsertChain], in the order
    of the calls. *)
Definition inserted_numbers (fx : list effect) : list Z :=
  flat_map (fun e =>
              match e with
              | FxInsertChain (b :: _) => [NumberU64 (blk_header b)]
              | _ => []
              end) fx.

Section DispatcherInvariants.

Variable header_hash : Header -> Z.
Variable net_hashes : downloadTask -> getBlcokHashByNumber -> option (list Z).
Variable net_headers : downloadTask -> getBlockHeadersData -> option (list Header).
Variable net_bodies : downloadTask -> list Z -> option (list Body).

(** [go task.Do()] on the task on top of the queue with the worker on
    top of the pool. *)
Definition launched (d : dispatcher) (w : stationStatus) (ws : list stationStatus)
  (t : downloadTask) (ts : list downloadTask) : dispatcher :=
  mkDispatcher ws ts (taskCount d + 1) (set_worker t w :: running d)
    (insertList d) (EvLaunch (set_worker t w) :: events d).

(** The dispatcher after [task := <-resultCh; taskCount--] and the body
    of the loop, where [task] is what the goroutine at index [k] sends. *)
Definition received (d : dispatcher) (k : nat) (task : downloadTask) : dispatcher :=
  handle_result
    (mkDispatcher (workers d) (taskes d) (taskCount d - 1) (drop_nth k (running d))
       (insertList d) (EvResult task :: events d)) task.

(** A property that every launch and every receipt keep. *)
Definition kept (P : dispatcher -> Prop) : Prop :=
  (forall d w ws t ts,
      workers d = w :: ws -> taskes d = t :: ts -> P d -> P (launched d w ws t ts))
  /\ (forall d k started task sent,
         running d !! k = Some started ->
         Do header_hash net_hashes net_headers net_bodies started = Ok (task, sent) ->
         P d -> P (received d k task)).

End DispatcherInvariants.


(** ** The range and the skeleton of a round, in closed form *)

(** The range of a round and the points of its skeleton, as the
    specification words them: at most 1024 blocks after [ancestor], and
    every 65th number from [ancestor + 1] on. *)
Definition round_amount (ancestor statusNumber : Z) : Z :=
  Z.min (statusNumber - ancestor) 1024.

Definition skeleton_points (ancestor amount : Z) : list Z :=
  (fun k => ancestor + 1 + 65 * k) <$> seqZ 0 ((amount - 1) / 65 + 1).

(** [go task.Do()] events. *)
Definition is_launch (e : event) : bool :=
  match e with EvLaunch _ => true | _ => false end.


(** ** A remote chain, a local chain and peers for the examples *)

(** The hash of the remote block at height [k]. *)
Definition demo_hash_at (k : Z) : Z := k + 1000.

(** A local chain that has the remote blocks up to height [fork] and no
    other. *)
Definition demo_HasBlock (fork : Z) (hash number : Z) : bool :=
  (hash =? number + 1000) && (number <=? fork).

(** The header of the remote block at height [k], and its hash. *)
Definition demo_header (k : Z) : Header := mkHeader (k + 999) k 0.
Definition demo_header_hash (h : Header) : Z := NumberU64 h + 1000.

(** A peer with 150 blocks that answers every request from its chain. *)
Definition demo_net_hashes (_ : downloadTask) (rq : getBlcokHashByNumber)
  : option (list Z) :=
  peer_reply demo_hash_at 150 rq.
Definition demo_net_headers (_ : downloadTask) (rq : getBlockHeadersData)
  : option (list Header) :=
  Some (map demo_header (seqZ (hr_Number rq) (hr_Amount rq))).
Definition demo_net_bodies (_ : downloadTask) (hashes : list Z)
  : option (list Body) :=
  Some (map (fun _ => mkBody []) hashes).

(** A peer that answers no request. *)
Definition mute_net_hashes (_ : downloadTask) (_ : getBlcokHashByNumber)
  : option (list Z) := None.

Definition demo_best : stationStatus := mkStatus "best" 100 150 1150 0.
Definition demo_low : stationStatus := mkStatus "low" 1 150 1150 0.

(** A chain store that takes every block: its state is the list of the
    blocks inserted. *)
Definition demo_InsertChain (c : list Block) (bs : list Block)
  : list Block * Z * option error := (c ++ bs, 0, None).

(** A chain store that refuses the block at height [bad]. *)
Definition picky_InsertChain (bad : Z) (c : list Block) (bs : list Block)
  : list Block * Z * option error :=
  match list_find (fun b => NumberU64 (blk_header b) = bad) bs with
  | Some (i, _) => (c ++ take i bs, Z.of_nat i, Some ErrRequest)
  | None => (c ++ bs, 0, None)
  end.


(** * The rest of the downloader

    The peer registry ([AddStation], [DelStation], [bestStation]), the
    status listener ([syncstatus]), the [stack] of the dispatcher and the
    controller ([multiplexDownload] and the loop that repeats it), with
    the invariants of the properties proved of them further down. *)

(** ** Invariants of the ancestor finder, for any peer *)

Section AnyPeerInvariants.

Variable getBlockHashes : getBlcokHashByNumber -> option (list Z).
Variable HasBlock : Z -> Z -> bool.

(** Among the requests [sent], the peer has answered one with a hash for
    height [a] whose block the local chain holds at [a]: the hash at index
    [i] of the reply to the reverse request from [headNumber], with
    [a = headNumber - i], or the first hash of the reply to the probe of
    [a]. *)
Definition vouched (headNumber : Z) (sent : list getBlcokHashByNumber) (a : Z)
  : Prop :=
  exists (rq : getBlcokHashByNumber) (hashes : list Z) (h : Z),
    rq ∈ sent /\ getBlockHashes rq = Some hashes /\ HasBlock h a = true
    /\ ((rq_Number rq = headNumber /\ rq_Reverse rq = true
         /\ exists i : nat, hashes !! i = Some h /\ a = u64 (headNumber - Z.of_nat i))
        \/ (rq = mkHashReq a 2 0 false /\ head hashes = Some h)).

(** The invariant of [sort.Search] for [vouched]. *)
Definition vouch_inv (headNumber searchStart : Z) (i j : Z) (st : probing) : Prop :=
  (luckResult st <> 0 -> vouched headNumber (pr_sent st) (luckResult st))
  /\ (pr_err st = None -> luckResult st = 0 -> 0 < i ->
      vouched headNumber (pr_sent st) (searchStart + i - 1))
  /\ 0 <= i < 2 ^ 63 /\ j < 2 ^ 63.

(** The request [rq] makes [findAncestor] fail with [e]: it is not
    answered, or it is a probe answered with no hash. *)
Definition failing (rq : getBlcokHashByNumber) (e : error) : Prop :=
  (getBlockHashes rq = None /\ e = ErrRequest)
  \/ (rq_Reverse rq = false /\ getBlockHashes rq = Some [] /\ e = ErrWrongLength).

(** The invariant of [sort.Search] for [failing]: an error is that of the
    newest request, and without an error the newest request has not
    failed. *)
Definition fail_inv (i j : Z) (st : probing) : Prop :=
  (forall e, pr_err st = Some e ->
     exists rq, head (pr_sent st) = Some rq /\ failing rq e)
  /\ (pr_err st = None ->
      forall rq e, head (pr_sent st) = Some rq -> ~ failing rq e)
  /\ 0 <= i < 2 ^ 63 /\ j < 2 ^ 63.

End AnyPeerInvariants.


(** ** Peer registry *)

(** [status.updateStatus(hash, number, td)] and [status.getStatus()] *)
Definition updateStatus (status : stationStatus) (hash : Hash) (number : Z)
  (td' : Z) : stationStatus :=
  mkStatus (station status) td' number hash (ancestor status).

Definition getStatus (status : stationStatus) : Hash * Z * Z :=
  (currentBlockHash status, currentNumber status, td status).

(** An entry of [dl.remotes]: the status with the channel [errCh] that
    [AddStation] has made for it.  A channel is named by the number of
    channels made before it. *)
Record remote := mkRemote {
  rm_status : stationStatus;
  errCh : nat
}.

(** The fields of [Downloader] that the registry works on: [remotes],
    the channels made and closed so far ([closed] newest first), and
    whether the buffered channel [downloadTrigger] holds its element. *)
Record Registry := mkRegistry {
  remotes : gmap string remote;
  chans : nat;
  closed : list nat;
  downloadTrigger : bool
}.

(** The registry of [NewDownloader]. *)
Definition NewRegistry : Registry := mkRegistry ∅ 0 [] false.

(** What is read of the chain store: [CurrentBlock()], as hash and
    number, and [GetTd]. *)
Record chainView := mkView {
  CurrentBlock : Hash * Z;
  GetTd : Hash -> Z -> Z
}.

(** [GetTd(head.Hash(), head.NumberU64())] for [head := CurrentBlock()] *)
Definition headTd (v : chainView) : Z :=
  GetTd v (fst (CurrentBlock v)) (snd (CurrentBlock v)).

(** [select { case dl.downloadTrigger <- struct{}{}: default: }] on a
    channel with room for one element. *)
Definition loopStart (reg : Registry) : Registry :=
  mkRegistry (remotes reg) (chans reg) (closed reg) true.

Definition getStationStatus (reg : Registry) (nameID : string) : option remote :=
  remotes reg !! nameID.

Definition setStationStatus (reg : Registry) (status : remote) : Registry :=
  mkRegistry (<[ station (rm_status status) := status ]> (remotes reg))
    (chans reg) (closed reg) (downloadTrigger reg).

Definition AddStation (v : chainView) (reg : Registry) (name : string)
  (td' : Z) (number : Z) (hash : Hash) : Registry :=
  let status := mkRemote (mkStatus name td' number hash 0) (chans reg) in
  let reg1 :=
    setStationStatus
      (mkRegistry (remotes reg) (S (chans reg)) (closed reg) (downloadTrigger reg))
      status in
  if headTd v <? td' then loopStart reg1 else reg1.

Definition DelStation (reg : Registry) (name : string) : Registry :=
  match remotes reg !! name with
  | Some status =>
      mkRegistry (delete name (remotes reg)) (chans reg)
        (errCh status :: closed reg) (downloadTrigger reg)
  | None => reg
  end.

(** The calls made to the registry, each with the chain store as it is
    at the call. *)
Inductive registryCall :=
| CallAdd (v : chainView) (name : string) (td' : Z) (number : Z) (hash : Hash)
| CallDel (name : string).

Definition call (reg : Registry) (op : registryCall) : Registry :=
  match op with
  | CallAdd v name td' number hash => AddStation v reg name td' number hash
  | CallDel name => DelStation reg name
  end.

Definition calls (reg : Registry) (ops : list registryCall) : Registry :=
  fold_left call ops reg.

(** [bestStation], on the statuses of [dl.remotes] in the order in which
    the [range] yields them:
    [if td := station.td; bestStation == nil || td.Cmp(bestTd) > 0 { bestStation, bestTd = station, td }]. *)
Fixpoint bestStation_from (best : option stationStatus) (order : list stationStatus)
  : option stationStatus :=
  match order with
  | [] => best
  | station :: rest =>
      match best with
      | None => bestStation_from (Some station) rest
      | Some b =>
          if td b <? td station then bestStation_from (Some station) rest
          else bestStation_from best rest
      end
  end.

Definition bestStation (order : list stationStatus) : option stationStatus :=
  bestStation_from None order.

(** An order in which a [range] over [dl.remotes] can yield the statuses. *)
Definition range_of (reg : Registry) (order : list stationStatus) : Prop :=
  order ≡ₚ (rm_status <$> (map_to_list (remotes reg)).*2).

(** The registry is as [AddStation] and [DelStation] keep it: a status is
    registered under the name of its station, no two entries have the
    same channel, and the channels of the entries have been made and are
    not closed. *)
Definition registry_inv (reg : Registry) : Prop :=
  (forall name r, remotes reg !! name = Some r ->
     station (rm_status r) = name /\ (errCh r < chans reg)%nat /\ errCh r ∉ closed reg)
  /\ (forall n1 n2 r1 r2,
        remotes reg !! n1 = Some r1 -> remotes reg !! n2 = Some r2 ->
        errCh r1 = errCh r2 -> n1 = n2)
  /\ NoDup (closed reg)
  /\ Forall (fun ch => (ch < chans reg)%nat) (closed reg).


(** ** Status listener *)

(** The events [syncstatus] is subscribed to: a block mined here, and the
    announcement of a head by the station [from]. *)
Inductive statusEvent :=
| NewMinedEv (hash : Hash) (number : Z)
| NewBlockHashesMsg (from : string) (hashdata : NewBlockHashesData).

Section Listener.

Variable pick : gset Z -> Z.

(** One turn of the loop of [syncstatus], on the event [e] with the chain
    store as [v]. *)
Definition syncstatus_step (v : chainView) (dl : Downloader) (reg : Registry)
  (e : statusEvent) : Downloader * Registry * list outMsg :=
  match e with
  | NewMinedEv hash number =>
      let '(dl', out) :=
        broadcastStatus pick dl
          (mkNewBlockHashesData hash number (GetTd v hash number)) in
      (dl', reg, out)
  | NewBlockHashesMsg from hashdata =>
      let reg1 :=
        match getStationStatus reg from with
        | Some status =>
            mkRegistry
              (<[ from := mkRemote (updateStatus (rm_status status) (nb_Hash hashdata)
                                      (nb_Number hashdata) (nb_TD hashdata))
                            (errCh status) ]> (remotes reg))
              (chans reg) (closed reg) (downloadTrigger reg)
        | None => reg
        end in
      if headTd v <? nb_TD hashdata then
        let '(dl', out) := broadcastStatus pick dl hashdata in
        (dl', loopStart reg1, out)
      else (dl, reg1, [])
  end.

(** The loop of [syncstatus] over the events received, each with the
    chain store as it is when the event is handled; the messages sent are
    given oldest first. *)
Fixpoint syncstatus (dl : Downloader) (reg : Registry)
  (events : list (chainView * statusEvent)) : Downloader * Registry * list outMsg :=
  match events with
  | [] => (dl, reg, [])
  | (v, e) :: rest =>
      let '(dl1, reg1, out1) := syncstatus_step v dl reg e in
      let '(dl2, reg2, out2) := syncstatus dl1 reg1 rest in
      (dl2, reg2, out1 ++ out2)
  end.

End Listener.

(** What an event lets through: the announcement of a block mined here,
    or an announcement received whose total difficulty is above that of
    the local head. *)
Definition lets_through (v : chainView) (e : statusEvent) (data : NewBlockHashesData)
  : Prop :=
  match e with
  | NewMinedEv hash number =>
      data = mkNewBlockHashesData hash number (GetTd v hash number)
  | NewBlockHashesMsg _ hashdata => data = hashdata /\ headTd v < nb_TD hashdata
  end.

(** The event is an announcement whose total difficulty is above that of
    the local head. *)
Definition above_head (ve : chainView * statusEvent) : bool :=
  match ve.2 with
  | NewMinedEv _ _ => false
  | NewBlockHashesMsg _ hashdata => headTd ve.1 <? nb_TD hashdata
  end.

(** The head that the event announces for the station [name], and the
    last head announced for it in [events]. *)
Definition announced_by (name : string) (ve : chainView * statusEvent)
  : option NewBlockHashesData :=
  match ve.2 with
  | NewMinedEv _ _ => None
  | NewBlockHashesMsg from hashdata => if decide (from = name) then Some hashdata else None
  end.

Fixpoint last_announcement (name : string) (events : list (chainView * statusEvent))
  : option NewBlockHashesData :=
  match events with
  | [] => None
  | ve :: rest =>
      match last_announcement name rest with
      | Some hashdata => Some hashdata
      | None => announced_by name ve
      end
  end.

(** The event is an announcement whose total difficulty is not above
    that of the local head. *)
Definition low_announcement (ve : chainView * statusEvent) : bool :=
  match ve.2 with
  | NewMinedEv _ _ => false
  | NewBlockHashesMsg _ hashdata => nb_TD hashdata <=? headTd ve.1
  end.


(** ** The stack of the dispatcher *)

Module stack.

(** [type stack struct { data []interface{} }]: the slice as a list, its
    last element on top. *)
Record t (A : Type) := mk { data : list A }.
Arguments mk {A} data.
Arguments data {A} _.

Section Ops.

Context {A : Type}.

Definition push (s : t A) (v : A) : t A := mk (data s ++ [v]).

(** [nil] is [None]. *)
Definition pop (s : t A) : option A * t A :=
  match last (data s) with
  | None => (None, s)
  | Some v => (Some v, mk (removelast (data s)))
  end.

Definition len (s : t A) : Z := Z.of_nat (length (data s)).

Definition clear (s : t A) : t A := mk [].

(** [n] calls of [pop], with what they return. *)
Fixpoint pops (n : nat) (s : t A) : list (option A) * t A :=
  match n with
  | O => ([], s)
  | S n' =>
      let '(v, s1) := pop s in
      let '(vs, s2) := pops n' s1 in
      (v :: vs, s2)
  end.

Definition pushes (s : t A) (vs : list A) : t A := fold_left push vs s.

End Ops.

End stack.


(** ** The steps of the dispatcher *)

Section DispatcherSteps.

Variable header_hash : Header -> Z.
Variable net_hashes : downloadTask -> getBlcokHashByNumber -> option (list Z).
Variable net_headers : downloadTask -> getBlockHeadersData -> option (list Header).
Variable net_bodies : downloadTask -> list Z -> option (list Body).

(** One step of the two loops of [assignDownloadTask]: [doTask] launches
    the task on top of the queue with the worker on top of the pool while
    [taskCount < maxTask], and the collecting loop receives what one of
    the running tasks sends while [taskCount > 0]. *)
Inductive dispatch_step : dispatcher -> dispatcher -> Prop :=
| step_launch (d : dispatcher) (w : stationStatus) (ws : list stationStatus)
    (t : downloadTask) (ts : list downloadTask) :
    taskCount d < maxTask -> workers d = w :: ws -> taskes d = t :: ts ->
    dispatch_step d (launched d w ws t ts)
| step_receive (d : dispatcher) (k : nat) (started task : downloadTask)
    (sent : list request) :
    0 < taskCount d -> running d !! k = Some started ->
    Do header_hash net_hashes net_headers net_bodies started = Ok (task, sent) ->
    dispatch_step d (received d k task).

End DispatcherSteps.

(** The workers of the running tasks. *)
Definition busy (d : dispatcher) : list stationStatus := omap worker (running d).

(** The tasks launched and not yet received after the events [evs]
    (newest first). *)
Fixpoint in_flight (evs : list event) : Z :=
  match evs with
  | [] => 0
  | EvLaunch _ :: rest => in_flight rest + 1
  | EvResult _ :: rest => in_flight rest - 1
  | EvClear :: rest => in_flight rest
  end.

(** A task received without blocks. *)
Definition is_failure (e : event) : bool :=
  match e with
  | EvResult task => (length (blocks task) =? 0)%nat
  | _ => false
  end.

Definition failures (evs : list event) : nat := length (List.filter is_failure evs).

(** [taskCount] counts the running tasks, and never more than [maxTask]
    tasks have been in flight. *)
Definition inflight_inv (d : dispatcher) : Prop :=
  taskCount d = in_flight (events d)
  /\ taskCount d = Z.of_nat (length (running d))
  /\ (forall evs, evs `suffix_of` events d -> 0 <= in_flight evs <= maxTask).

(** The idle and the busy workers are registered stations, each at most
    once; every running task has a worker; a station is idle, busy, or
    has failed a task. *)
Definition workers_inv (remotes : list stationStatus) (d : dispatcher) : Prop :=
  workers d ++ busy d ⊆+ remotes
  /\ Forall (fun t => is_Some (worker t)) (running d)
  /\ (length (workers d) + length (running d) + failures (events d) = length remotes)%nat.

(** Every failure counted in an [errorTotal] has cost a worker. *)
Definition budget_inv (remotes : list stationStatus) (d : dispatcher) : Prop :=
  workers_inv remotes d
  /\ Forall (fun t => 0 <= errorTotal t) (taskes d ++ running d)
  /\ (sum_list_with (fun t => Z.to_nat (errorTotal t)) (taskes d ++ running d)
      <= failures (events d))%nat
  /\ (EvClear ∈ events d -> (6 <= length remotes)%nat).


(** ** Chunks and the skeleton *)

(** The task [t] runs from the point [k] of the skeleton to the next. *)
Definition from_skeleton (hashes numbers : list Z) (k : nat) (t : downloadTask)
  : Prop :=
  numbers !! k = Some (startNumber t) /\ hashes !! k = Some (startHash t)
  /\ numbers !! S k = Some (endNumber t) /\ hashes !! S k = Some (endHash t).

(** The blocks [bs] are a chunk between the points [k] and [k + 1] of
    the skeleton: linked by parent hash and consecutive numbers, the
    first with the number and the hash of the point [k], the last with
    those of the point [k + 1]. *)
Definition anchored (header_hash : Header -> Z) (hashes numbers : list Z) (k : nat)
  (bs : list Block) : Prop :=
  exists t, from_skeleton hashes numbers k t
            /\ hash_linked_chunk header_hash t (map blk_header bs).

Definition anchored_inv (header_hash : Header -> Z) (hashes numbers : list Z)
  (d : dispatcher) : Prop :=
  dispatcher_inv d
  /\ Forall (fun t => exists k, from_skeleton hashes numbers k t) (taskes d ++ running d)
  /\ (forall s bs,
        insertList d !! s = Some bs ->
        exists k, numbers !! k = Some s /\ anchored header_hash hashes numbers k bs).


(** The invariant of a round in which every task delivers: the queue
    holds tasks of the round that have not run, the running tasks are
    tasks of the round with a registered worker, every task of the round
    is queued, running or has its blocks in [insertList], no worker is
    lost and nothing has failed. *)
Definition delivering_inv (remotes : list stationStatus) (ts : list downloadTask)
  (d : dispatcher) : Prop :=
  Forall (fun t => t ∈ ts) (taskes d)
  /\ Forall (fun r => exists t w, t ∈ ts /\ w ∈ remotes /\ r = set_worker t w)
       (running d)
  /\ Forall (fun w => w ∈ remotes) (workers d)
  /\ (forall t, t ∈ ts ->
        t ∈ taskes d \/ (exists w, set_worker t w ∈ running d)
        \/ is_Some (insertList d !! startNumber t))
  /\ (length (workers d) + length (running d) = length remotes)%nat
  /\ Forall (fun e => is_failure e = false /\ e <> EvClear) (events d).


(** ** A chain store and a dispatcher on stacks for the examples *)

(** A local head at height 100 with total difficulty 50; the total
    difficulty of a block is half its number. *)
Definition demo_view : chainView := mkView (1100, 100) (fun _ number => number / 2).

(** [getReadyTask] as the source has it, on the two stacks. *)
Definition getReadyTask_on (workers : stack.t stationStatus)
  (taskes : stack.t downloadTask)
  : option downloadTask * stack.t stationStatus * stack.t downloadTask :=
  match stack.pop workers with
  | (None, _) => (None, workers, taskes)
  | (Some worker, workers') =>
      match stack.pop taskes with
      | (None, _) => (None, stack.push workers' worker, taskes)
      | (Some task, taskes') => (Some (set_worker task worker), workers', taskes')
      end
  end.


(** ** The log of a round *)

(** The blocks the results of the log have left in [insertList]: for
    each start number, those of the newest result with blocks ([evs]
    newest first). *)
Fixpoint delivered (evs : list event) : gmap Z (list Block) :=
  match evs with
  | [] => ∅
  | EvResult task :: rest =>
      if (length (blocks task) =? 0)%nat then delivered rest
      else <[ startNumber task := blocks task ]> (delivered rest)
  | _ :: rest => delivered rest
  end.

(** A result without blocks whose error budget is used up. *)
Definition over_budget (task : downloadTask) : Prop :=
  blocks task = [] /\ 5 < errorTotal task.

(** In the log [log], oldest first, a launch of the chunk of [t] comes
    before the index [i]. *)
Definition started_before (log : list event) (i : nat) (t : downloadTask) : Prop :=
  exists (i' : nat) (t' : downloadTask),
    (i' < i)%nat /\ log !! i' = Some (EvLaunch t')
    /\ startNumber t' = startNumber t.

(** The invariant of the log of the dispatcher: the running tasks are
    launched tasks that have not been received from; every other launch
    has its result in the log, and every result is that of a launch;
    [EvClear] is what follows a result over budget at once, and nothing
    else; after an [EvClear] the tasks queued, running and launched are
    of chunks launched before it. *)
Definition log_inv (header_hash : Header -> Z)
  (net_hashes : downloadTask -> getBlcokHashByNumber -> option (list Z))
  (net_headers : downloadTask -> getBlockHeadersData -> option (list Header))
  (net_bodies : downloadTask -> list Z -> option (list Body))
  (d : dispatcher) : Prop :=
  dispatcher_inv d
  /\ insertList d = delivered (events d)
  /\ (forall started, started ∈ running d -> EvLaunch started ∈ events d)
  /\ (forall started,
        EvLaunch started ∈ events d ->
        started ∈ running d
        \/ exists task sent,
             Do header_hash net_hashes net_headers net_bodies started = Ok (task, sent)
             /\ EvResult task ∈ events d)
  /\ (forall task,
        EvResult task ∈ events d ->
        exists started sent,
          EvLaunch started ∈ events d
          /\ Do header_hash net_hashes net_headers net_bodies started = Ok (task, sent))
  /\ (forall (i : nat) task,
        reverse (events d) !! i = Some (EvResult task) ->
        (over_budget task -> reverse (events d) !! S i = Some EvClear)
        /\ (~ over_budget task -> reverse (events d) !! S i <> Some EvClear))
  /\ (forall i : nat,
        reverse (events d) !! i = Some EvClear ->
        exists (i' : nat) task,
          i = S i' /\ reverse (events d) !! i' = Some (EvResult task)
          /\ over_budget task)
  /\ (forall i : nat,
        reverse (events d) !! i = Some EvClear ->
        Forall (started_before (reverse (events d)) i) (taskes d ++ running d)
        /\ (forall (j : nat) t,
              (i < j)%nat -> reverse (events d) !! j = Some (EvLaunch t) ->
              started_before (reverse (events d)) i t)).


(** ** The skeleton and its tasks, in closed form *)

(** The blocks of a round, with the difference taken in [uint64] as
    [multiplexDownload] takes it: the distance to the head of the peer,
    at most 1024. *)
Definition range_amount (ancestor statusNumber : Z) : Z :=
  Z.min (u64 (statusNumber - ancestor)) 1024.

(** One task for every two adjacent points of the skeleton, in the order
    of the points. *)
Fixpoint adjacent_tasks (hashes numbers : list Z) : list downloadTask :=
  match numbers, hashes with
  | sn :: numbers', sh :: hashes' =>
      match numbers', hashes' with
      | en :: _, eh :: _ =>
          mkTask None sn sh en eh [] 0 :: adjacent_tasks hashes' numbers'
      | _, _ => []
      end
  | _, _ => []
  end.

(** The chunks of the starts that come before the first start without
    blocks in [ins]. *)
Fixpoint present_prefix (ins : gmap Z (list Block)) (starts : list Z)
  : list (list Block) :=
  match starts with
  | [] => []
  | start :: rest =>
      match ins !! start with
      | None => []
      | Some bs => bs :: present_prefix ins rest
      end
  end.


(** ** Sync controller: the rounds and the loop *)

(** [status.ancestor = n] *)
Definition set_ancestor (status : stationStatus) (n : Z) : stationStatus :=
  mkStatus (station status) (td status) (currentNumber status)
    (currentBlockHash status) n.

(** Two statuses with the same fields. *)
Definition same_status (a b : stationStatus) : bool :=
  String.eqb (station a) (station b) && (td a =? td b)
  && (currentNumber a =? currentNumber b)
  && (currentBlockHash a =? currentBlockHash b) && (ancestor a =? ancestor b).

(** [status.ancestor = n] as [dl.remotes] sees it: the entry under the
    name of the station is written when [status] is that entry. *)
Definition store_ancestor (reg : Registry) (status : stationStatus) (n : Z)
  : Registry :=
  match remotes reg !! station status with
  | Some r =>
      if same_status (rm_status r) status
      then mkRegistry
             (<[ station status := mkRemote (set_ancestor status n) (errCh r) ]>
                (remotes reg))
             (chans reg) (closed reg) (downloadTrigger reg)
      else reg
  | None => reg
  end.

(** [<-dl.downloadTrigger] *)
Definition take_trigger (reg : Registry) : Registry :=
  mkRegistry (remotes reg) (chans reg) (closed reg) false.

(** What wakes the [select] of [loop]. *)
Inductive wakeup :=
| Triggered       (* [case <-dl.downloadTrigger] *)
| TimerFired.     (* [case <-timer.C] *)

Section Controller.

Variable header_hash : Header -> Z.
Variable net_hashes : downloadTask -> getBlcokHashByNumber -> option (list Z).
Variable net_headers : downloadTask -> getBlockHeadersData -> option (list Header).
Variable net_bodies : downloadTask -> list Z -> option (list Body).
Variable sched : nat -> nat.

(** [getBlockHashes] from the search station to the station of a status. *)
Variable search_hashes : stationStatus -> getBlcokHashByNumber -> option (list Z).

(** The chain store, with what the controller reads of it. *)
Variable Chain : Type.
Variable InsertChain : Chain -> list Block -> Chain * Z * option error.
Variable view : Chain -> chainView.
Variable HasBlock : Chain -> Z -> Z -> bool.

(** The order in which [range dl.remotes] yields the statuses. *)
Variable range : Registry -> list stationStatus.

(** [multiplexDownload(status)]: the plan of the round, the round, the
    new [status.ancestor], and whether the peer is still ahead of the new
    local head.  No other goroutine touches the registry or the chain
    store during the round. *)
Definition multiplexDownload (fuel : nat) (status : option stationStatus)
  (reg : Registry) (c : Chain)
  : run (bool * option stationStatus * Registry * Chain) :=
  match status with
  | None => Ok (false, None, reg, c)
  | Some st =>
      match plan_round (search_hashes st) (HasBlock c)
              (snd (CurrentBlock (view c))) (headTd (view c)) fuel (Some st) with
      | (Ok None, _) => Ok (false, Some st, reg, c)
      | (Ok (Some (numbers, hashes)), _) =>
          match assignDownloadTask header_hash net_hashes net_headers net_bodies
                  sched Chain InsertChain (range reg) hashes numbers c with
          | (Ok (n, _), c', _, _) =>
              Ok (headTd (view c') <? td st, Some (set_ancestor st n),
                  store_ancestor reg st n, c')
          | (Panic, _, _, _) => Panic
          | (Stuck, _, _, _) => Stuck
          end
      | (Panic, _) => Panic
      | (Stuck, _) => Stuck
      end
  end.

(** [for status := dl.bestStation(); dl.multiplexDownload(status); { }]:
    the rounds against the one status chosen at the start; [Stuck] when
    the rounds given do not end them. *)
Fixpoint download_rounds (rounds fuel : nat) (status : option stationStatus)
  (reg : Registry) (c : Chain) : run (Registry * Chain) :=
  match rounds with
  | O => Stuck
  | S rounds' =>
      match multiplexDownload fuel status reg c with
      | Ok (true, status', reg', c') => download_rounds rounds' fuel status' reg' c'
      | Ok (false, _, reg', c') => Ok (reg', c')
      | Panic => Panic
      | Stuck => Stuck
      end
  end.

Definition download (rounds fuel : nat) (reg : Registry) (c : Chain)
  : run (Registry * Chain) :=
  download_rounds rounds fuel (bestStation (range reg)) reg c.

(** One turn of [for { select { ... } }] in [loop]: the trigger is taken
    and [download] runs, after which the timer is set again, or the timer
    fires and [loopStart] sets the trigger.  The trigger can only be
    taken when it is set: without it the [select] waits for the timer,
    and the turn is that of the timer. *)
Definition loop_turn (rounds fuel : nat) (w : wakeup) (reg : Registry) (c : Chain)
  : run (Registry * Chain) :=
  match w with
  | Triggered =>
      if downloadTrigger reg then download rounds fuel (take_trigger reg) c
      else Ok (loopStart reg, c)
  | TimerFired => Ok (loopStart reg, c)
  end.

(** The loop over the wake-ups of its [select]. *)
Fixpoint loop (rounds fuel : nat) (ws : list wakeup) (reg : Registry) (c : Chain)
  : run (Registry * Chain) :=
  match ws with
  | [] => Ok (reg, c)
  | w :: rest =>
      match loop_turn rounds fuel w reg c with
      | Ok (reg', c') => loop rounds fuel rest reg' c'
      | Panic => Panic
      | Stuck => Stuck
      end
  end.

End Controller.


(** ** Chain stores and rounds for the examples *)

(** The blocks of the remote chain from [first] to [final]. *)
Definition demo_chunk (first final : Z) : list Block :=
  (fun k => mkBlock (demo_header k) []) <$> seqZ first (final - first + 1).

(** A chain store that refuses the block at height [bad] as long as it
    has refusals left; its state is the blocks inserted and the refusals
    left. *)
Definition flaky_InsertChain (bad : Z) (c : list Block * nat) (bs : list Block)
  : list Block * nat * Z * option error :=
  match snd c, list_find (fun b => NumberU64 (blk_header b) = bad) bs with
  | S n, Some (i, _) => ((fst c ++ take i bs, n), Z.of_nat i, Some ErrRequest)
  | _, _ => ((fst c ++ bs, snd c), 0, None)
  end.

(** What is read of a chain store that is the list of its blocks after
    the genesis block: the head, and half its number as total
    difficulty. *)
Definition demo_chain_view (c : list Block) : chainView :=
  mkView (match last c with
          | Some b => (demo_header_hash (blk_header b), NumberU64 (blk_header b))
          | None => (1000, 0)
          end)
    (fun _ number => number / 2).

Definition demo_chain_HasBlock (c : list Block) (hash number : Z) : bool :=
  bool_decide (hash = 1000 /\ number = 0)
  || existsb (fun b => (demo_header_hash (blk_header b) =? hash)
                       && (NumberU64 (blk_header b) =? number)) c.

(** A range over the registry, in the order of its map. *)
Definition demo_range (reg : Registry) : list stationStatus :=
  rm_status <$> (map_to_list (remotes reg)).*2.

(** Eight peers of the same total difficulty. *)
Definition demo_crowd : Registry :=
  foldr (fun name reg => AddStation demo_view reg name 100 150 1150) NewRegistry
    ["a"; "b"; "c"; "d"; "e"; "f"; "g"; "h"].

(** A skeleton of eighteen points, for seventeen tasks. *)
Definition demo_long_numbers : list Z := (fun k => 1 + 65 * k) <$> seqZ 0 18.
Definition demo_long_hashes : list Z := (fun k => 1001 + 65 * k) <$> seqZ 0 18.

(** A launch of the chunk that starts at [start]. *)
Definition launches_chunk (start : Z) (e : event) : bool :=
  match e with
  | EvLaunch t => startNumber t =? start
  | _ => false
  end.


(** * Properties *)

(** ** Machine integers *)

Lemma u64_small z : 0 <= z < 2 ^ 64 -> u64 z = z.
Proof. intros Hz. unfold u64. apply Z.mod_small. exact Hz. Qed.

Lemma u64_range z : 0 <= u64 z < 2 ^ 64.
Proof. unfold u64. apply Z.mod_pos_bound. lia. Qed.

Lemma int_of_u64_signed z :
  - 2 ^ 63 <= z < 2 ^ 63 -> int_of_u64 (u64 z) = z.
Proof.
  intros Hz. unfold int_of_u64, u64.
  destruct (Z.neg_nonneg_cases z) as [Hneg | Hpos].
  - assert (E : z mod 2 ^ 64 = z + 2 ^ 64).
    { symmetry. apply Z.mod_unique with (q := -1); lia. }
    rewrite E. destruct (Z.ltb_spec (z + 2 ^ 64) (2 ^ 63)); lia.
  - rewrite Z.mod_small by lia.
    destruct (Z.ltb_spec z (2 ^ 63)); lia.
Qed.

(** ** Status gossiper *)

Section GossiperFacts.

Variable pick : gset Z -> Z.

Lemma broadcastStatus_dropped dl bh :
  nb_Number bh <= maxNumber dl -> nb_Hash bh ∈ knownBlocks dl ->
  broadcastStatus pick dl bh = (dl, []).
Proof.
  intros Hn Hk. unfold broadcastStatus.
  rewrite (proj2 (Z.leb_le _ _) Hn), bool_decide_eq_true_2 by exact Hk.
  reflexivity.
Qed.

Lemma broadcastStatus_forwarded dl bh :
  ~ (nb_Number bh <= maxNumber dl /\ nb_Hash bh ∈ knownBlocks dl) ->
  broadcastStatus pick dl bh =
    ({| maxNumber := nb_Number bh;
        knownBlocks := {[ nb_Hash bh ]}
                         ∪ evict pick (size (knownBlocks dl)) (knownBlocks dl) |},
     [SendBroadcast bh]).
Proof.
  intros Hnot. unfold broadcastStatus.
  destruct (Z.leb_spec (nb_Number bh) (maxNumber dl)) as [Hn | Hn]; simpl.
  - rewrite bool_decide_eq_false_2; [reflexivity | tauto].
  - reflexivity.
Qed.

Lemma broadcastStatus_cases dl bh :
  (nb_Number bh <= maxNumber dl /\ nb_Hash bh ∈ knownBlocks dl)
  \/ ~ (nb_Number bh <= maxNumber dl /\ nb_Hash bh ∈ knownBlocks dl).
Proof.
  destruct (Z.le_gt_cases (nb_Number bh) (maxNumber dl));
    destruct (decide (nb_Hash bh ∈ knownBlocks dl)); tauto || (right; lia).
Qed.

(** What a call does to [maxNumber]: nothing when the announcement is
    dropped; otherwise it becomes the number announced, higher or not. *)
Lemma broadcastStatus_maxNumber dl bh :
  maxNumber (fst (broadcastStatus pick dl bh))
  = if (nb_Number bh <=? maxNumber dl) && bool_decide (nb_Hash bh ∈ knownBlocks dl)
    then maxNumber dl else nb_Number bh.
Proof.
  unfold broadcastStatus.
  destruct ((nb_Number bh <=? maxNumber dl)
            && bool_decide (nb_Hash bh ∈ knownBlocks dl)); reflexivity.
Qed.

Hypothesis pick_elem : forall s : gset Z, s <> ∅ -> pick s ∈ s.

Lemma Pop_size (s : gset Z) : s <> ∅ -> S (size (Pop pick s)) = size s.
Proof.
  intros Hne. unfold Pop.
  assert (Hin : pick s ∈ s) by (apply pick_elem; exact Hne).
  rewrite size_difference by set_solver.
  rewrite size_singleton.
  assert (size s <> 0%nat) by (intros E; apply size_empty_inv in E; apply Hne; set_solver).
  lia.
Qed.

Lemma evict_below (fuel : nat) : forall s : gset Z,
  (size s <= fuel)%nat -> Z.of_nat (size (evict pick fuel s)) < maxKnownBlocks.
Proof.
  unfold maxKnownBlocks.
  induction fuel as [| fuel IH]; intros s Hs; simpl.
  - lia.
  - unfold maxKnownBlocks. destruct (Z.leb_spec 1024 (Z.of_nat (size s))) as [Hfull | Hroom].
    + assert (Hne : s <> ∅) by (intros ->; rewrite size_empty in Hfull; lia).
      apply IH. pose proof (Pop_size s Hne). lia.
    + exact Hroom.
Qed.

End GossiperFacts.

Lemma pick_first_elem (s : gset Z) : s <> ∅ -> pick_first s ∈ s.
Proof.
  intros Hne. unfold pick_first.
  destruct (elements s) as [| x l] eqn:E.
  - apply elements_empty_inv in E. exfalso. apply Hne. set_solver.
  - simpl. apply elem_of_elements. rewrite E. left.
Qed.

(** C6. [broadcastStatus] sends an announcement exactly when it is not
    the case that its number is at most [maxNumber] and its hash is in
    [knownBlocks]; an announcement with a known hash and a number at most
    [maxNumber] sends nothing and changes nothing; the hash of every
    announcement sent is in [knownBlocks] afterwards. *)
Theorem broadcastStatus_forwards_iff (pick : gset Z -> Z) (dl : Downloader)
  (bh : NewBlockHashesData) :
  (snd (broadcastStatus pick dl bh) = [SendBroadcast bh]
   <-> ~ (nb_Number bh <= maxNumber dl /\ nb_Hash bh ∈ knownBlocks dl))
  /\ (snd (broadcastStatus pick dl bh) = []
      <-> (nb_Number bh <= maxNumber dl /\ nb_Hash bh ∈ knownBlocks dl))
  /\ ((nb_Number bh <= maxNumber dl /\ nb_Hash bh ∈ knownBlocks dl)
      -> broadcastStatus pick dl bh = (dl, []))
  /\ (snd (broadcastStatus pick dl bh) <> []
      -> nb_Hash bh ∈ knownBlocks (fst (broadcastStatus pick dl bh))).
Proof.
  destruct (broadcastStatus_cases dl bh) as [Hdrop | Hfwd].
  - destruct Hdrop as [Hn Hk].
    rewrite (broadcastStatus_dropped pick dl bh Hn Hk). simpl.
    repeat split; try tauto; try discriminate; intros; try tauto; congruence.
  - rewrite (broadcastStatus_forwarded pick dl bh Hfwd). simpl.
    repeat split; try tauto; try discriminate; intros; try tauto.
    set_solver.
Qed.

(** C7, at the failing input: a new downloader is told of block 7 at
    height 10 and then of block 8, which it does not know, at height 5.
    Both announcements are sent on, and the second lowers [maxNumber]
    from 10 to 5; a second announcement of block 7, whose hash is known,
    is then sent on once more. *)
Theorem broadcastStatus_lowers_maxNumber (pick : gset Z -> Z) :
  maxNumber (fst (gossip pick NewDownloader [mkNewBlockHashesData 7 10 1])) = 10
  /\ maxNumber (fst (gossip pick NewDownloader
                       [mkNewBlockHashesData 7 10 1; mkNewBlockHashesData 8 5 1])) = 5
  /\ snd (gossip pick NewDownloader
            [mkNewBlockHashesData 7 10 1; mkNewBlockHashesData 8 5 1;
             mkNewBlockHashesData 7 10 1])
     = [SendBroadcast (mkNewBlockHashesData 7 10 1);
        SendBroadcast (mkNewBlockHashesData 8 5 1);
        SendBroadcast (mkNewBlockHashesData 7 10 1)].
Proof.
  assert (H1 : broadcastStatus pick NewDownloader (mkNewBlockHashesData 7 10 1)
               = ({| maxNumber := 10; knownBlocks := {[ 7 ]} ∪ ∅ |},
                  [SendBroadcast (mkNewBlockHashesData 7 10 1)])).
  { rewrite broadcastStatus_forwarded; [reflexivity |].
    cbn. intros [Hle _]. lia. }
  assert (H2 : broadcastStatus pick {| maxNumber := 10; knownBlocks := {[ 7 ]} ∪ ∅ |}
                 (mkNewBlockHashesData 8 5 1)
               = ({| maxNumber := 5;
                     knownBlocks := {[ 8 ]}
                       ∪ evict pick (size ({[ 7 ]} ∪ ∅ : gset Z)) ({[ 7 ]} ∪ ∅) |},
                  [SendBroadcast (mkNewBlockHashesData 8 5 1)])).
  { rewrite broadcastStatus_forwarded; [reflexivity |].
    cbn. intros [_ Hin]. apply elem_of_union in Hin.
    destruct Hin as [Hin | Hin];
      [apply elem_of_singleton in Hin; discriminate
      | apply elem_of_empty in Hin; exact Hin]. }
  assert (H3 : forall known,
             snd (broadcastStatus pick {| maxNumber := 5; knownBlocks := known |}
                    (mkNewBlockHashesData 7 10 1))
             = [SendBroadcast (mkNewBlockHashesData 7 10 1)]).
  { intros known. rewrite broadcastStatus_forwarded; [reflexivity |].
    cbn. intros [Hle _]. lia. }
  split; [| split].
  - cbn [gossip]. rewrite H1. reflexivity.
  - cbn [gossip]. rewrite H1. cbn [gossip]. rewrite H2. reflexivity.
  - cbn [gossip]. rewrite H1. cbn [gossip]. rewrite H2. cbn [gossip].
    specialize (H3 ({[ 8 ]} ∪ evict pick (size ({[ 7 ]} ∪ ∅ : gset Z)) ({[ 7 ]} ∪ ∅))).
    destruct (broadcastStatus pick
                {| maxNumber := 5;
                   knownBlocks := {[ 8 ]}
                     ∪ evict pick (size ({[ 7 ]} ∪ ∅ : gset Z)) ({[ 7 ]} ∪ ∅) |}
                (mkNewBlockHashesData 7 10 1)) as [dl3 out3].
    cbn [snd] in H3. rewrite H3. reflexivity.
Qed.

(** C10. Whatever [Pop] removes, as long as it removes an element of
    the set: the eviction loop leaves fewer than [maxKnownBlocks] hashes,
    so a call of [broadcastStatus] that adds a hash leaves at most 1024; a
    call never takes the set from at most 1024 hashes to more; and from
    the empty set of [NewDownloader] every run of the gossiper stays at
    or below 1024. *)
Theorem knownBlocks_bounded (pick : gset Z -> Z)
  (pick_elem : forall s : gset Z, s <> ∅ -> pick s ∈ s) :
  (forall s : gset Z,
      Z.of_nat (size (evict pick (size s) s)) < maxKnownBlocks)
  /\ (forall dl bh,
         snd (broadcastStatus pick dl bh) <> [] ->
         Z.of_nat (size (knownBlocks (fst (broadcastStatus pick dl bh)))) <= 1024)
  /\ (forall dl bh,
         Z.of_nat (size (knownBlocks dl)) <= 1024 ->
         Z.of_nat (size (knownBlocks (fst (broadcastStatus pick dl bh)))) <= 1024)
  /\ (forall anns,
         Z.of_nat (size (knownBlocks (fst (gossip pick NewDownloader anns)))) <= 1024).
Proof.
  assert (Hev : forall s : gset Z,
             Z.of_nat (size (evict pick (size s) s)) < maxKnownBlocks).
  { intros s. apply evict_below; [exact pick_elem | lia]. }
  assert (Hadd : forall dl bh,
             ~ (nb_Number bh <= maxNumber dl /\ nb_Hash bh ∈ knownBlocks dl) ->
             Z.of_nat (size (knownBlocks (fst (broadcastStatus pick dl bh)))) <= 1024).
  { intros dl bh Hfwd. rewrite broadcastStatus_forwarded by exact Hfwd. simpl.
    pose proof (Hev (knownBlocks dl)) as Hlt. unfold maxKnownBlocks in Hlt.
    pose proof (size_union_alt {[nb_Hash bh]}
                  (evict pick (size (knownBlocks dl)) (knownBlocks dl))) as Hu.
    rewrite size_singleton in Hu.
    assert (Hsub : (size (evict pick (size (knownBlocks dl)) (knownBlocks dl)
                            ∖ {[nb_Hash bh]})
                    <= size (evict pick (size (knownBlocks dl)) (knownBlocks dl)))%nat).
    { apply subseteq_size. apply subseteq_difference_l. reflexivity. }
    lia. }
  assert (Hstep : forall dl bh,
             Z.of_nat (size (knownBlocks dl)) <= 1024 ->
             Z.of_nat (size (knownBlocks (fst (broadcastStatus pick dl bh)))) <= 1024).
  { intros dl bh Hdl. destruct (broadcastStatus_cases dl bh) as [[Hn Hk] | Hfwd].
    - rewrite broadcastStatus_dropped by assumption. exact Hdl.
    - apply Hadd. exact Hfwd. }
  split; [exact Hev |]. split; [| split; [exact Hstep |]].
  - intros dl bh Hout. destruct (broadcastStatus_cases dl bh) as [[Hn Hk] | Hfwd].
    + rewrite broadcastStatus_dropped in Hout by assumption. simpl in Hout. congruence.
    + apply Hadd. exact Hfwd.
  - intros anns.
    assert (Hgen : forall dl, Z.of_nat (size (knownBlocks dl)) <= 1024 ->
               Z.of_nat (size (knownBlocks (fst (gossip pick dl anns)))) <= 1024).
    { induction anns as [| a rest IH]; intros dl Hdl; simpl.
      - exact Hdl.
      - pose proof (Hstep dl a Hdl) as H1.
        destruct (broadcastStatus pick dl a) as [dl1 out1]. simpl in H1.
        pose proof (IH dl1 H1) as H2.
        destruct (gossip pick dl1 rest) as [dl2 out2]. exact H2. }
    apply Hgen. unfold NewDownloader. cbn [knownBlocks]. rewrite size_empty. lia.
Qed.

Lemma knownBlocks_bounded_witness :
  Z.of_nat (size (knownBlocks (fst (gossip pick_first NewDownloader
     [mkNewBlockHashesData 7 5 1; mkNewBlockHashesData 8 6 2;
      mkNewBlockHashesData 7 5 1])))) <= 1024.
Proof.
  apply (proj2 (proj2 (proj2 (knownBlocks_bounded pick_first pick_first_elem)))).
Defined.

(** ** Download task *)

Section TaskFacts.

Variable header_hash : Header -> Z.
Variable net_hashes : downloadTask -> getBlcokHashByNumber -> option (list Z).
Variable net_headers : downloadTask -> getBlockHeadersData -> option (list Header).
Variable net_bodies : downloadTask -> list Z -> option (list Body).

Lemma build_blocks_headers : forall (headers : list Header) (bodies : list Body) (bs : list Block),
  build_blocks header_hash headers bodies = Some bs -> map blk_header bs = headers.
Proof.
  induction headers as [| h headers IH]; intros bodies bs Hb; simpl in Hb.
  - injection Hb as <-. reflexivity.
  - destruct (header_hash h =? emptyHash).
    + destruct (build_blocks header_hash headers bodies) as [bs' |] eqn:E; [| discriminate].
      injection Hb as <-. simpl. f_equal. eapply IH. exact E.
    + destruct bodies as [| body bodies']; [discriminate |].
      destruct (build_blocks header_hash headers bodies') as [bs' |] eqn:E; [| discriminate].
      injection Hb as <-. simpl. f_equal. eapply IH. exact E.
Qed.

(** The headers from [prev] on, as the linkage loop accepts them. *)
Lemma headers_linked_adjacent : forall (rest : list Header) (prev : Header),
  headers_linked header_hash prev rest = true ->
  forall (i : nat) (h h' : Header),
    (prev :: rest) !! i = Some h -> (prev :: rest) !! S i = Some h' ->
    ParentHash h' = header_hash h /\ NumberU64 h' = u64 (NumberU64 h + 1).
Proof.
  induction rest as [| x rest IH]; intros prev Hl i h h' Hi Hi'.
  - destruct i; simpl in Hi'; discriminate.
  - simpl in Hl.
    destruct (ParentHash x =? header_hash prev) eqn:Ep; simpl in Hl; [| discriminate].
    destruct (NumberU64 x =? u64 (NumberU64 prev + 1)) eqn:En; simpl in Hl; [| discriminate].
    destruct i as [| i].
    + simpl in Hi, Hi'. injection Hi as <-. injection Hi' as <-.
      split; [apply Z.eqb_eq; exact Ep | apply Z.eqb_eq; exact En].
    + apply (IH x Hl i h h'); assumption.
Qed.

Lemma headers_linked_number : forall (rest : list Header) (prev : Header),
  headers_linked header_hash prev rest = true ->
  0 <= NumberU64 prev ->
  NumberU64 prev + Z.of_nat (length rest) < 2 ^ 64 ->
  forall (i : nat) (h : Header),
    (prev :: rest) !! i = Some h -> NumberU64 h = NumberU64 prev + Z.of_nat i.
Proof.
  induction rest as [| x rest IH]; intros prev Hl H0 Hb i h Hi.
  - destruct i; simpl in Hi; [injection Hi as <-; lia | discriminate].
  - simpl in Hl.
    destruct (ParentHash x =? header_hash prev) eqn:Ep; simpl in Hl; [| discriminate].
    destruct (NumberU64 x =? u64 (NumberU64 prev + 1)) eqn:En; simpl in Hl; [| discriminate].
    apply Z.eqb_eq in En. simpl length in Hb.
    rewrite u64_small in En by lia.
    destruct i as [| i].
    + simpl in Hi. injection Hi as <-. lia.
    + simpl in Hi. rewrite (IH x Hl ltac:(lia) ltac:(lia) i h Hi). lia.
Qed.

(** What a delivery with blocks tells about the replies of the worker. *)
Lemma Do_success (task task' : downloadTask) (sent : list request) :
  blocks task = [] ->
  Do header_hash net_hashes net_headers net_bodies task = Ok (task', sent) ->
  blocks task' <> [] ->
  exists (hashes : list Z) (headers : list Header) (first final : Header),
    net_hashes task
      (if endNumber task =? startNumber task
       then mkHashReq (startNumber task) 1 0 false
       else mkHashReq (startNumber task) 2
              (u64 (u64 (endNumber task - startNumber task) - 1)) false) = Some hashes
    /\ head hashes = Some (startHash task) /\ last hashes = Some (endHash task)
    /\ net_headers task
      (mkHeaderReq (startNumber task)
         (u64 (u64 (endNumber task - startNumber task) + 1)) 0 false) = Some headers
    /\ map blk_header (blocks task') = headers
    /\ Z.of_nat (length headers)
       = int_of_u64 (u64 (u64 (endNumber task - startNumber task) + 1))
    /\ head headers = Some first /\ last headers = Some final
    /\ NumberU64 first = startNumber task /\ header_hash first = startHash task
    /\ NumberU64 final = endNumber task /\ header_hash final = endHash task
    /\ headers_linked header_hash first (tail headers) = true.
Proof.
  intros Hfresh HDo Hne. unfold Do in HDo.
  repeat (match type of HDo with
          | context [match ?x with _ => _ end] => destruct x eqn:?
          end;
          try discriminate;
          try (injection HDo as <- <-; simpl in Hne; congruence)).
  all: injection HDo as <- <-; simpl.
  all: repeat match goal with
         | H : negb _ = false |- _ => apply negb_false_iff in H
         | H : _ || _ = false |- _ => apply orb_false_iff in H; destruct H
         | H : (_ =? _) = true |- _ => apply Z.eqb_eq in H
         end.
  all: match goal with
       | H : Z.of_nat (length ?l) = rq_Amount _ |- _ =>
           simpl in H; destruct l as [| x0 l]; [simpl in H; lia |]
       end.
  all: match goal with
       | H : default 0 (last (?x :: ?l)) = _ |- _ =>
           destruct (last (x :: l)) as [y |] eqn:Hlast;
           [| apply last_None in Hlast; discriminate]
       end.
  all: simpl in *; subst.
  all: eexists _, _, _, _; repeat split; try eassumption; try reflexivity.
  all: eapply build_blocks_headers; eassumption.
Qed.

Lemma Do_chunk (task task' : downloadTask) (sent : list request) :
  blocks task = [] ->
  0 <= startNumber task <= endNumber task -> endNumber task < 2 ^ 64 ->
  Do header_hash net_hashes net_headers net_bodies task = Ok (task', sent) ->
  blocks task' <> [] ->
  hash_linked_chunk header_hash task (map blk_header (blocks task'))
  /\ net_headers task
       (mkHeaderReq (startNumber task)
          (u64 (u64 (endNumber task - startNumber task) + 1)) 0 false)
     = Some (map blk_header (blocks task')).
Proof.
  intros Hfresh Hse Hend HDo Hne.
  destruct (Do_success task task' sent Hfresh HDo Hne)
    as (hashes & headers & first & final & _ & _ & _ & Hnet & Hmap & Hlen
        & Hhead & Hlast & Hn1 & Hh1 & Hn2 & Hh2 & Hlink).
  rewrite Hmap. split; [| exact Hnet].
  destruct headers as [| x rest]; [discriminate |].
  simpl in Hhead. injection Hhead as ->. simpl in Hlink.
  assert (Hamount : Z.of_nat (length (first :: rest))
                    = endNumber task - startNumber task + 1).
  { rewrite (u64_small (endNumber task - startNumber task)) in Hlen by lia.
    destruct (Z.eq_dec (endNumber task - startNumber task + 1) (2 ^ 64)) as [E | E].
    - exfalso. rewrite E in Hlen. unfold u64 in Hlen. rewrite Z.mod_same in Hlen by lia.
      unfold int_of_u64 in Hlen. simpl in Hlen. lia.
    - rewrite u64_small in Hlen by lia. unfold int_of_u64 in Hlen.
      destruct (Z.ltb_spec (endNumber task - startNumber task + 1) (2 ^ 63)); lia. }
  split; [| split; [| exact Hamount]].
  - intros i h h' Hi Hi'.
    destruct (headers_linked_adjacent rest first Hlink i h h' Hi Hi')
      as [Hp Hn].
    split; [exact Hp |].
    rewrite Hn.
    assert (Hnum : NumberU64 h = NumberU64 first + Z.of_nat i).
    { apply (headers_linked_number rest first Hlink); [lia | | exact Hi].
      simpl length in Hamount. lia. }
    apply lookup_lt_Some in Hi'. simpl length in Hi', Hamount.
    apply u64_small. lia.
  - exists first, final. repeat split; assumption.
Qed.

End TaskFacts.

(** ** [sort.Search] *)

Lemma shiftr_half i j : Z.shiftr (i + j) 1 = (i + j) / 2.
Proof. rewrite Z.shiftr_div_pow2 by lia. reflexivity. Qed.

Lemma half_between i j : i < j -> i <= (i + j) / 2 < j.
Proof.
  intros Hij. pose proof (Z.div_mod (i + j) 2 ltac:(lia)) as Hd.
  pose proof (Z.mod_pos_bound (i + j) 2 ltac:(lia)) as Hm. lia.
Qed.

(** An invariant of the loop of [sort.Search] holds when it ends, and the
    fuel is enough for an interval shorter than [2 ^ fuel]. *)
Lemma search_loop_inv {S : Type} (f : Z -> S -> bool * S)
  (Inv : Z -> Z -> S -> Prop) :
  (forall i j st, i < j -> Inv i j st ->
     if fst (f ((i + j) / 2) st)
     then Inv i ((i + j) / 2) (snd (f ((i + j) / 2) st))
     else Inv ((i + j) / 2 + 1) j (snd (f ((i + j) / 2) st))) ->
  forall (fuel : nat) (i j : Z) (st : S),
    j - i < 2 ^ Z.of_nat fuel -> Inv i j st ->
    exists j', j' <= fst (search_loop fuel f i j st)
      /\ Inv (fst (search_loop fuel f i j st)) j' (snd (search_loop fuel f i j st))
      /\ (i <= j -> fst (search_loop fuel f i j st) = j').
Proof.
  intros Hstep. induction fuel as [| fuel IH]; intros i j st Hfuel Hinv.
  - simpl in *. exists j. repeat split; [lia | exact Hinv | lia].
  - simpl search_loop. destruct (Z.ltb_spec i j) as [Hlt | Hge].
    + rewrite shiftr_half.
      pose proof (Hstep i j st Hlt Hinv) as Hs.
      pose proof (half_between i j Hlt) as Hh.
      rewrite Nat2Z.inj_succ, Z.pow_succ_r in Hfuel by lia.
      destruct (f ((i + j) / 2) st) as [b st'] eqn:Ef. simpl in Hs.
      pose proof (Z.div_mod (i + j) 2 ltac:(lia)) as Hd.
      pose proof (Z.mod_pos_bound (i + j) 2 ltac:(lia)) as Hm.
      destruct b; simpl.
      * destruct (IH i ((i + j) / 2) st' ltac:(lia) Hs) as (j' & H1 & H2 & H3).
        exists j'. repeat split; [exact H1 | exact H2 |]. intros _. apply H3. lia.
      * destruct (IH ((i + j) / 2 + 1) j st' ltac:(lia) Hs) as (j' & H1 & H2 & H3).
        exists j'. repeat split; [exact H1 | exact H2 |]. intros _. apply H3. lia.
    + simpl. exists j. repeat split; [lia | exact Hinv | lia].
Qed.

Lemma search_loop_empty {S : Type} (f : Z -> S -> bool * S) (fuel : nat)
  (i j : Z) (st : S) :
  j <= i -> search_loop fuel f i j st = (i, st).
Proof.
  intros Hji. destruct fuel as [| fuel]; simpl; [reflexivity |].
  destruct (Z.ltb_spec i j); [lia | reflexivity].
Qed.

Lemma int_of_u64_lt z : int_of_u64 (u64 z) < 2 ^ 63.
Proof.
  unfold int_of_u64. pose proof (u64_range z).
  destruct (Z.ltb_spec (u64 z) (2 ^ 63)); lia.
Qed.

(** ** Ancestor finder against a fixed remote chain *)

Section FixedChain.

Variable peer_hash_at : Z -> Z.
Variable peer_head : Z.
Variable HasBlock : Z -> Z -> bool.

Hypothesis genesis_shared : shared peer_hash_at HasBlock 0 = true.
Hypothesis head_small : 0 <= peer_head < 2 ^ 63 - 1.

Lemma peer_reply_pair (t : Z) :
  0 <= t ->
  peer_reply peer_hash_at peer_head (mkHashReq t 2 0 false)
  = Some (if t <? peer_head then [peer_hash_at t; peer_hash_at (t + 1)]
          else if t =? peer_head then [peer_hash_at t] else []).
Proof.
  intros Ht. unfold peer_reply.
  cbn [rq_Amount rq_Number rq_Reverse rq_Skip].
  change (Z.to_nat 2) with 2%nat. change (0 + 1) with 1. cbn [chain_hashes].
  destruct (Z.ltb_spec t peer_head) as [Hlt | Hge].
  - rewrite (proj2 (Z.leb_le 0 t)) by lia.
    rewrite (proj2 (Z.leb_le t peer_head)) by lia. cbn [andb].
    rewrite (proj2 (Z.leb_le 0 (t + 1))) by lia.
    rewrite (proj2 (Z.leb_le (t + 1) peer_head)) by lia. reflexivity.
  - destruct (Z.eqb_spec t peer_head) as [-> | Hne].
    + rewrite (proj2 (Z.leb_le 0 peer_head)) by lia.
      rewrite Z.leb_refl. cbn [andb].
      rewrite (proj2 (Z.leb_gt (peer_head + 1) peer_head)) by lia.
      rewrite andb_false_r. reflexivity.
    + rewrite (proj2 (Z.leb_gt t peer_head)) by lia.
      rewrite andb_false_r. reflexivity.
Qed.

Lemma probe_keeps_search_inv (headNumber searchStart : Z) :
  0 <= searchStart < 2 ^ 63 -> headNumber < 2 ^ 63 - 1 ->
  forall i j st, i < j ->
    search_inv peer_hash_at peer_head HasBlock headNumber searchStart (headNumber - searchStart + 1) i j st ->
    if fst (probe (peer_reply peer_hash_at peer_head) HasBlock searchStart ((i + j) / 2) st)
    then search_inv peer_hash_at peer_head HasBlock headNumber searchStart (headNumber - searchStart + 1) i ((i + j) / 2)
           (snd (probe (peer_reply peer_hash_at peer_head) HasBlock searchStart
                   ((i + j) / 2) st))
    else search_inv peer_hash_at peer_head HasBlock headNumber searchStart (headNumber - searchStart + 1)
           ((i + j) / 2 + 1) j
           (snd (probe (peer_reply peer_hash_at peer_head) HasBlock searchStart
                   ((i + j) / 2) st)).
Proof.
  intros Hstart Hhead i j st Hij (Hok & Hnf & Hi & Hj).
  pose proof (half_between i j Hij) as Hh.
  set (h := (i + j) / 2) in *.
  unfold probe.
  destruct (bool_decide (pr_err st <> None) || negb (luckResult st =? 0)) eqn:Edirty.
  - (* the closure returns at once *)
    simpl. split; [| split; [exact Hnf | lia]].
    intros Herr. destruct (Hok Herr) as [Hl _]. split; [exact Hl |].
    intros Hz. exfalso.
    apply orb_true_iff in Edirty. destruct Edirty as [E | E].
    + apply bool_decide_eq_true in E. congruence.
    + apply negb_true_iff, Z.eqb_neq in E. congruence.
  - apply orb_false_iff in Edirty. destruct Edirty as [Eerr Eluck].
    apply bool_decide_eq_false in Eerr.
    assert (Herr : pr_err st = None) by (destruct (pr_err st); [exfalso; apply Eerr; discriminate | reflexivity]).
    apply negb_false_iff, Z.eqb_eq in Eluck.
    destruct (Hok Herr) as [_ Hclean]. destruct (Hclean Eluck) as [Hlow Hhigh].
    rewrite (u64_small h) by lia.
    rewrite (u64_small (h + searchStart)) by lia.
    rewrite peer_reply_pair by lia.
    assert (Ht : h + searchStart = searchStart + h) by lia.
    destruct (Z.ltb_spec (h + searchStart) peer_head) as [Hlt | Hge].
    + (* two hashes *)
      rewrite (u64_small (h + searchStart + 1)) by lia.
      cbn [length nth Z.of_nat]. change (Z.of_nat 2 =? 2) with true.
      cbn [andb].
      fold (shared peer_hash_at HasBlock (h + searchStart)). fold (shared peer_hash_at HasBlock (h + searchStart + 1)).
      destruct (shared peer_hash_at HasBlock (h + searchStart)) eqn:E0; cbn [andb negb].
      * destruct (shared peer_hash_at HasBlock (h + searchStart + 1)) eqn:E1; cbn [negb fst snd].
        -- split; [| split; [intros _; exact Herr | lia]].
           intros _. cbn [pr_err luckResult]. split; [congruence |].
           intros _. split; [| exact Hhigh].
           intros _. replace (searchStart + (h + 1) - 1) with (h + searchStart) by lia.
           split; [exact E0 | lia].
        -- split; [| split; [intros _; exact Herr | lia]].
           intros _. cbn [pr_err luckResult]. split.
           ++ intros _. unfold lucky_at. repeat split; [lia | exact E0 | lia | exact E1].
           ++ intros Hz. split; [| exact Hhigh].
              intros _. replace (searchStart + (h + 1) - 1) with (h + searchStart) by lia.
              split; [exact E0 | lia].
      * cbn [fst snd]. split; [| split; [intros _; exact Herr | lia]].
        intros _. cbn [pr_err luckResult]. split; [congruence |].
        intros _. split; [exact Hlow |].
        intros _. rewrite <- Ht. exact E0.
    + destruct (Z.eqb_spec (h + searchStart) peer_head) as [Heq | Hne].
      * (* one hash: the head of the remote chain *)
        cbn [length Z.of_nat]. change (Z.of_nat 1 =? 2) with false. cbn [andb].
        fold (shared peer_hash_at HasBlock (h + searchStart)).
        destruct (shared peer_hash_at HasBlock (h + searchStart)) eqn:E0; cbn [negb fst snd].
        -- split; [| split; [intros _; exact Herr | lia]].
           intros _. cbn [pr_err luckResult]. split; [congruence |].
           intros _. split; [| exact Hhigh].
           intros _. replace (searchStart + (h + 1) - 1) with (h + searchStart) by lia.
           split; [exact E0 | lia].
        -- split; [| split; [intros _; exact Herr | lia]].
           intros _. cbn [pr_err luckResult]. split; [congruence |].
           intros _. split; [exact Hlow |].
           intros _. rewrite <- Ht. exact E0.
      * (* above the head of the remote chain: an empty reply *)
        cbn [fst snd]. split; [| split; [| lia]].
        -- cbn [pr_err]. discriminate.
        -- intros Hle. exfalso. lia.
Qed.

Lemma scan_chain (headNumber : Z) :
  0 <= headNumber < 2 ^ 63 ->
  forall (amount : nat) (number i : Z),
    number = headNumber - i -> 0 <= i -> 0 <= number <= peer_head ->
    match scan_tail HasBlock headNumber i
            (chain_hashes peer_hash_at peer_head amount number (- (0 + 1))) with
    | Some a =>
        shared peer_hash_at HasBlock a = true /\ 0 <= a <= number
        /\ (forall k, a < k <= number -> shared peer_hash_at HasBlock k = false)
    | None =>
        length (chain_hashes peer_hash_at peer_head amount number (- (0 + 1))) = amount
        /\ Z.of_nat amount <= number
        /\ (forall k, number - Z.of_nat amount < k <= number -> shared peer_hash_at HasBlock k = false)
    end.
Proof.
  intros Hhead. induction amount as [| amount IH]; intros number i Hnum Hi Hrange.
  - simpl. repeat split; [lia | intros k Hk; lia].
  - cbn [chain_hashes].
    rewrite (proj2 (Z.leb_le 0 number)) by lia.
    rewrite (proj2 (Z.leb_le number peer_head)) by lia.
    cbn [andb scan_tail].
    rewrite (u64_small (headNumber - i)) by lia.
    rewrite <- Hnum. fold (shared peer_hash_at HasBlock number).
    destruct (shared peer_hash_at HasBlock number) eqn:E.
    + repeat split; [exact E | lia | lia | intros k Hk; lia].
    + assert (number <> 0) by (intros ->; congruence).
      specialize (IH (number + - (0 + 1)) (i + 1) ltac:(lia) ltac:(lia) ltac:(lia)).
      destruct (scan_tail HasBlock headNumber (i + 1)
                  (chain_hashes peer_hash_at peer_head amount (number + - (0 + 1))
                     (- (0 + 1)))) as [a |].
      * destruct IH as (Ha & Hle & Hwin). repeat split; [exact Ha | lia | lia |].
        intros k Hk. destruct (Z.eq_dec k number) as [-> | Hne]; [exact E |].
        apply Hwin. lia.
      * destruct IH as (Hlen & Hle & Hwin). repeat split.
        -- cbn [length]. rewrite Hlen. reflexivity.
        -- lia.
        -- intros k Hk. destruct (Z.eq_dec k number) as [-> | Hne]; [exact E |].
           apply Hwin. lia.
Qed.

Lemma half_pow (s : Z) (f : nat) :
  1 <= s -> s < 2 ^ (Z.of_nat (S f) - 1) -> s / 2 < 2 ^ (Z.of_nat f - 1).
Proof.
  intros Hs Hlt. rewrite Nat2Z.inj_succ in Hlt.
  replace (Z.succ (Z.of_nat f) - 1) with (Z.of_nat f) in Hlt by lia.
  destruct f as [| f].
  - simpl in Hlt. lia.
  - rewrite Nat2Z.inj_succ in *.
    replace (Z.succ (Z.of_nat f) - 1) with (Z.of_nat f) by lia.
    rewrite Z.pow_succ_r in Hlt by lia.
    apply Z.div_lt_upper_bound; lia.
Qed.

Lemma binary_phase_correct : forall (fuel : nat) (headNumber searchStart : Z)
    (sent : list getBlcokHashByNumber),
  phase_inv peer_hash_at peer_head HasBlock headNumber searchStart ->
  searchStart < 2 ^ (Z.of_nat fuel - 1) ->
  fst (binary_phase (peer_reply peer_hash_at peer_head) HasBlock fuel
         headNumber searchStart sent) <> Spinning
  /\ (forall a,
        fst (binary_phase (peer_reply peer_hash_at peer_head) HasBlock fuel
               headNumber searchStart sent) = Returned a ->
        shared peer_hash_at HasBlock a = true /\ 0 <= a <= peer_head
        /\ (a < peer_head -> shared peer_hash_at HasBlock (a + 1) = false))
  /\ (in_range peer_head headNumber searchStart ->
      forall e,
        fst (binary_phase (peer_reply peer_hash_at peer_head) HasBlock fuel
               headNumber searchStart sent) <> Failed e).
Proof.
  induction fuel as [| fuel IH]; intros headNumber searchStart sent Hinv Hfuel.
  - exfalso. destruct Hinv as (_ & Hs & _).
    rewrite Z.pow_neg_r in Hfuel by lia. lia.
  - destruct Hinv as (Hh & Hs & Hnext & Hwin).
    cbn [binary_phase].
    destruct (Z.ltb_spec 0 headNumber) as [Hpos | Hzero].
    + rewrite (int_of_u64_signed (headNumber - searchStart + 1)) by lia.
      unfold sort_Search.
      pose proof (Z.div_mod searchStart 2 ltac:(lia)) as Hd.
      pose proof (Z.mod_pos_bound searchStart 2 ltac:(lia)) as Hm.
      destruct (Z.le_gt_cases (headNumber - searchStart + 1) 0) as [Hempty | Hne].
      * (* an empty interval: no probe, the window moves down *)
        rewrite search_loop_empty by exact Hempty.
        cbn [pr_err luckResult pr_sent]. change (0 =? 0) with true.
        change (0 <? 0) with false. cbn [negb].
        rewrite (u64_small (searchStart - 1)) by lia.
        assert (Hinv' : phase_inv peer_hash_at peer_head HasBlock (searchStart - 1) (searchStart / 2)).
        { unfold phase_inv. split; [lia |]. split; [lia |]. split.
          - intros Hle. replace (searchStart - 1 + 1) with searchStart by lia.
            apply Hwin; lia.
          - intros Hlt. exfalso. lia. }
        destruct (IH (searchStart - 1) (searchStart / 2) sent Hinv'
                    (half_pow searchStart fuel ltac:(lia) Hfuel)) as (I1 & I2 & I3).
        split; [exact I1 |]. split; [exact I2 |].
        intros [Hle Hor]. exfalso. lia.
      * destruct (search_loop_inv (probe (peer_reply peer_hash_at peer_head) HasBlock searchStart)
                    (search_inv peer_hash_at peer_head HasBlock headNumber searchStart (headNumber - searchStart + 1))
                    (probe_keeps_search_inv headNumber searchStart Hs ltac:(lia))
                    64%nat 0 (headNumber - searchStart + 1) (mkProbing None 0 sent))
          as (j' & Hj' & (Hok & Hnf & Hr0 & Hjn) & Hrj).
        { change (Z.of_nat 64) with 64. lia. }
        { unfold search_inv. cbn [pr_err luckResult].
          split; [| split; [reflexivity | lia]].
          intros _. split; [congruence |]. intros _. split; intros; lia. }
        specialize (Hrj ltac:(lia)).
        destruct (search_loop 64 (probe (peer_reply peer_hash_at peer_head) HasBlock searchStart)
                    0 (headNumber - searchStart + 1) (mkProbing None 0 sent))
          as [searchResult st] eqn:Esearch.
        cbn [fst snd] in *. subst j'.
        destruct (pr_err st) as [e |] eqn:Eerr.
        -- cbn [fst]. repeat split; try discriminate.
           intros [Hle _] e'. specialize (Hnf Hle). discriminate.
        -- destruct (Hok eq_refl) as [Hlucky Hclean].
           destruct (Z.eqb_spec (luckResult st) 0) as [Ez | Enz]; cbn [negb].
           ++ destruct (Hclean Ez) as [Hlow Hhigh].
              destruct (Z.ltb_spec 0 searchResult) as [Hfound | Hnone].
              ** cbn [fst]. split; [discriminate |]. split; [| discriminate].
                 intros a Ha. injection Ha as <-.
                 rewrite (u64_small searchResult) by lia.
                 rewrite (u64_small (searchResult + searchStart)) by lia.
                 rewrite (u64_small (searchResult + searchStart - 1)) by lia.
                 destruct (Hlow Hfound) as [Hsh Hbound].
                 replace (searchResult + searchStart - 1)
                   with (searchStart + searchResult - 1) by lia.
                 repeat split; [exact Hsh | lia | exact Hbound |].
                 intros Hbelow.
                 replace (searchStart + searchResult - 1 + 1)
                   with (searchStart + searchResult) by lia.
                 destruct (Z.eq_dec searchResult (headNumber - searchStart + 1)) as [E | E].
                 --- replace (searchStart + searchResult) with (headNumber + 1) by lia.
                     apply Hnext. lia.
                 --- apply Hhigh. lia.
              ** (* nothing found: the window moves down *)
                 assert (searchResult = 0) by lia. subst searchResult.
                 assert (Hsh : shared peer_hash_at HasBlock (searchStart + 0) = false) by (apply Hhigh; lia).
                 assert (Hs1 : 1 <= searchStart).
                 { destruct (Z.eq_dec searchStart 0) as [-> | ?]; [| lia].
                   change (0 + 0) with 0 in Hsh. rewrite genesis_shared in Hsh.
                   discriminate. }
                 rewrite (u64_small (searchStart - 1)) by lia.
                 assert (Hinv' : phase_inv peer_hash_at peer_head HasBlock (searchStart - 1) (searchStart / 2)).
                 { unfold phase_inv. split; [lia |]. split; [lia |]. split.
                   - intros Hle. replace (searchStart - 1 + 1) with (searchStart + 0) by lia.
                     exact Hsh.
                   - intros Hlt. exfalso. lia. }
                 destruct (IH (searchStart - 1) (searchStart / 2) (pr_sent st) Hinv'
                             (half_pow searchStart fuel Hs1 Hfuel)) as (I1 & I2 & I3).
                 split; [exact I1 |]. split; [exact I2 |].
                 intros [Hle Hor]. apply I3. unfold in_range. split; [lia |].
                 destruct (Z.eq_dec searchStart 1); [left; lia | right; lia].
           ++ cbn [fst]. split; [discriminate |]. split; [| discriminate].
              intros a Ha. injection Ha as <-.
              destruct (Hlucky Enz) as (L0 & L1 & L2 & L3).
              repeat split; [exact L1 | lia | lia | intros _; exact L3].
    + cbn [fst]. split; [discriminate |]. split; [| discriminate].
      intros a Ha. injection Ha as <-.
      assert (headNumber = 0) by lia. subst headNumber.
      repeat split; [exact genesis_shared | lia | lia |].
      intros Hlt. apply Hnext. lia.
Qed.

Lemma findAncestor_fixed_chain (fuel : nat) (headNumber searchStart : Z) :
  0 <= headNumber <= peer_head ->
  0 <= searchStart < 2 ^ 64 ->
  (forall k, headNumber < k <= peer_head -> shared peer_hash_at HasBlock k = false) ->
  (64 <= fuel)%nat ->
  fst (findAncestor (peer_reply peer_hash_at peer_head) HasBlock fuel
         headNumber searchStart) <> Spinning
  /\ (forall a,
        fst (findAncestor (peer_reply peer_hash_at peer_head) HasBlock fuel
               headNumber searchStart) = Returned a ->
        shared peer_hash_at HasBlock a = true /\ 0 <= a <= peer_head
        /\ (a < peer_head -> shared peer_hash_at HasBlock (a + 1) = false))
  /\ (searchStart <= headNumber + 1 ->
      forall e,
        fst (findAncestor (peer_reply peer_hash_at peer_head) HasBlock fuel
               headNumber searchStart) <> Failed e).
Proof.
  intros Hhead Hstart Habove Hfuel. unfold findAncestor.
  destruct (Z.ltb_spec headNumber 1) as [Hzero | Hpos].
  - cbn [fst]. split; [discriminate |]. split; [| discriminate].
    intros a Ha. injection Ha as <-.
    repeat split; [exact genesis_shared | lia | lia |].
    intros Hlt. apply Habove. lia.
  - set (X := u64 (u64 (u64 (headNumber - searchStart) + 1) + 1)).
    assert (HX : 0 <= X < 2 ^ 64) by apply u64_range.
    assert (HXin : searchStart <= headNumber + 1 -> X = headNumber - searchStart + 2).
    { intros Hle. unfold X, u64.
      rewrite Z.add_mod_idemp_l by lia. rewrite <- Z.add_assoc.
      rewrite Z.add_mod_idemp_l by lia. change (1 + 1) with 2.
      apply Z.mod_small. lia. }
    set (L := if 32 <? X then 32 else X).
    assert (HL : 0 <= L <= 32) by (unfold L; destruct (Z.ltb_spec 32 X); lia).
    unfold peer_reply. cbn [rq_Amount rq_Number rq_Reverse rq_Skip].
    pose proof (scan_chain headNumber ltac:(lia) (Z.to_nat L) headNumber 0
                  ltac:(lia) ltac:(lia) ltac:(lia)) as Hscan.
    destruct (scan_tail HasBlock headNumber 0
                (chain_hashes peer_hash_at peer_head (Z.to_nat L) headNumber (- (0 + 1))))
      as [a |].
    + destruct Hscan as (Ha & Hle & Hwin).
      cbn [fst]. split; [discriminate |]. split; [| discriminate].
      intros a' Ha'. injection Ha' as <-.
      repeat split; [exact Ha | lia | lia |].
      intros Hlt. destruct (Z.eq_dec a headNumber) as [-> | Hne].
      * apply Habove. lia.
      * apply Hwin. lia.
    + destruct Hscan as (Hlen & Hle & Hwin).
      rewrite Hlen. rewrite Z2Nat.id in * by lia.
      rewrite (u64_small (headNumber - L)) by lia.
      pose proof (Z.div_mod searchStart 2 ltac:(lia)) as Hd.
      pose proof (Z.mod_pos_bound searchStart 2 ltac:(lia)) as Hm.
      assert (Hinv : phase_inv peer_hash_at peer_head HasBlock (headNumber - L) (searchStart / 2)).
      { unfold phase_inv. split; [lia |]. split; [lia |].
        assert (Hall : forall k, headNumber - L < k <= peer_head -> shared peer_hash_at HasBlock k = false).
        { intros k Hk. destruct (Z.le_gt_cases k headNumber).
          - apply Hwin. lia.
          - apply Habove. lia. }
        split.
        - intros Hle'. apply Hall. lia.
        - intros _. exact Hall. }
      assert (Hpow : searchStart / 2 < 2 ^ (Z.of_nat fuel - 1)).
      { apply Z.lt_le_trans with (2 ^ 63); [lia |].
        apply Z.pow_le_mono_r; lia. }
      destruct (binary_phase_correct fuel (headNumber - L) (searchStart / 2)
                  [mkHashReq headNumber L 0 true] Hinv Hpow) as (I1 & I2 & I3).
      split; [exact I1 |]. split; [exact I2 |].
      intros Hin. apply I3. unfold in_range. split; [lia |].
      specialize (HXin Hin). unfold L in *.
      destruct (Z.ltb_spec 32 X); lia.
Qed.

End FixedChain.


(** ** The lucky hit *)

Section LuckyHit.

Variable getBlockHashes : getBlcokHashByNumber -> option (list Z).
Variable HasBlock : Z -> Z -> bool.

Lemma trace_inv_head_unlucky (searchStart i j : Z) (st : probing) :
  trace_inv getBlockHashes HasBlock searchStart i j st -> i < j ->
  pr_err st = None -> luckResult st = 0 -> unlucky getBlockHashes HasBlock (pr_sent st).
Proof.
  intros (Htail & Hhead & _) Hij Herr Hluck.
  destruct (pr_sent st) as [| rq rest] eqn:E; [constructor |].
  constructor; [| exact Htail].
  intros Hl. destruct (Hhead rq eq_refl Hl) as [_ [[Hne Heq] | (_ & _ & _ & Hi & Hj)]]; lia.
Qed.

Lemma probe_keeps_trace_inv (searchStart : Z) :
  0 <= searchStart < 2 ^ 63 ->
  forall i j st, i < j -> trace_inv getBlockHashes HasBlock searchStart i j st ->
    if fst (probe getBlockHashes HasBlock searchStart ((i + j) / 2) st)
    then trace_inv getBlockHashes HasBlock searchStart i ((i + j) / 2)
           (snd (probe getBlockHashes HasBlock searchStart ((i + j) / 2) st))
    else trace_inv getBlockHashes HasBlock searchStart ((i + j) / 2 + 1) j
           (snd (probe getBlockHashes HasBlock searchStart ((i + j) / 2) st)).
Proof.
  intros Hstart i j st Hij Hinv.
  pose proof (half_between i j Hij) as Hh.
  pose proof Hinv as (Htail & Hhead & Hi & Hj).
  set (h := (i + j) / 2) in *.
  unfold probe.
  destruct (bool_decide (pr_err st <> None) || negb (luckResult st =? 0)) eqn:Edirty.
  - (* the closure returns at once: nothing is sent *)
    cbn [fst snd]. split; [exact Htail |]. split; [| lia].
    intros rq Hrq Hl. destruct (Hhead rq Hrq Hl) as [Herr Hcases].
    split; [exact Herr |].
    destruct Hcases as [Hnz | (_ & _ & _ & Hi1 & Hj1)]; [left; exact Hnz | lia].
  - apply orb_false_iff in Edirty. destruct Edirty as [Eerr Eluck].
    apply bool_decide_eq_false in Eerr.
    assert (Herr : pr_err st = None)
      by (destruct (pr_err st); [exfalso; apply Eerr; discriminate | reflexivity]).
    apply negb_false_iff, Z.eqb_eq in Eluck.
    pose proof (trace_inv_head_unlucky searchStart i j st Hinv Hij Herr Eluck) as Hun.
    rewrite (u64_small h) by lia.
    rewrite (u64_small (h + searchStart)) by lia.
    set (rq := mkHashReq (h + searchStart) 2 0 false).
    destruct (getBlockHashes rq) as [hashes |] eqn:Ereply.
    + destruct hashes as [| hash0 rest].
      * (* an empty reply *)
        cbn [fst snd]. split; [exact Hun |]. split; [| lia].
        intros rq' Hrq' (t & h0 & h1 & Hform & Hrep & _).
        cbn [pr_sent head] in Hrq'. injection Hrq' as <-. congruence.
      * destruct ((Z.of_nat (length (hash0 :: rest)) =? 2)
                  && HasBlock hash0 (h + searchStart)
                  && negb (HasBlock (nth 1 (hash0 :: rest) 0)
                             (u64 (h + searchStart + 1)))) eqn:Elucky.
        -- (* the lucky hit *)
           cbn [fst snd]. split; [exact Hun |]. split; [| lia].
           intros rq' Hrq' _. cbn [pr_sent head] in Hrq'. injection Hrq' as <-.
           cbn [pr_err luckResult rq_Number rq]. split; [exact Herr |].
           destruct (Z.eq_dec (h + searchStart) 0) as [Ez | Enz].
           ++ right. assert (h = 0) by lia. assert (searchStart = 0) by lia.
              pose proof (Z.div_mod (i + j) 2 ltac:(lia)) as Hd.
              pose proof (Z.mod_pos_bound (i + j) 2 ltac:(lia)) as Hm.
              fold h in Hd. repeat split; lia.
           ++ left. split; [exact Enz | reflexivity].
        -- (* an ordinary probe *)
           assert (Hnot : ~ lucky_probe getBlockHashes HasBlock rq).
           { intros (t & h0 & h1 & Hform & Hrep & Hhas0 & Hhas1).
             unfold rq in Hform. injection Hform as <-.
             rewrite Ereply in Hrep. injection Hrep as -> ->.
             cbn [length nth] in Elucky. change (Z.of_nat 2 =? 2) with true in Elucky.
             rewrite Hhas0, Hhas1 in Elucky. discriminate. }
           destruct (negb (HasBlock hash0 (h + searchStart)));
             cbn [fst snd]; (split; [exact Hun |]); (split; [| lia]);
             intros rq' Hrq' Hl; cbn [pr_sent head] in Hrq'; injection Hrq' as <-;
             contradiction.
    + (* the request fails *)
      cbn [fst snd]. split; [exact Hun |]. split; [| lia].
      intros rq' Hrq' (t & h0 & h1 & Hform & Hrep & _).
      cbn [pr_sent head] in Hrq'. injection Hrq' as <-. congruence.
Qed.

Lemma unlucky_tail (sent : list getBlcokHashByNumber) :
  unlucky getBlockHashes HasBlock sent -> unlucky getBlockHashes HasBlock (tail sent).
Proof. intros H. destruct sent; [exact H | inversion H; assumption]. Qed.

Lemma unlucky_head (sent : list getBlcokHashByNumber) (rq : getBlcokHashByNumber) :
  unlucky getBlockHashes HasBlock sent -> head sent = Some rq -> ~ lucky_probe getBlockHashes HasBlock rq.
Proof.
  intros H Hh. destruct sent as [| x rest]; [discriminate |].
  injection Hh as <-. inversion H; assumption.
Qed.

Lemma binary_phase_lucky : forall (fuel : nat) (headNumber searchStart : Z)
    (sent : list getBlcokHashByNumber),
  unlucky getBlockHashes HasBlock sent -> 0 <= searchStart < 2 ^ 63 ->
  unlucky getBlockHashes HasBlock (tail (snd (binary_phase getBlockHashes HasBlock fuel headNumber
                        searchStart sent)))
  /\ (forall rq,
        head (snd (binary_phase getBlockHashes HasBlock fuel headNumber
                     searchStart sent)) = Some rq ->
        lucky_probe getBlockHashes HasBlock rq ->
        fst (binary_phase getBlockHashes HasBlock fuel headNumber searchStart sent)
        = Returned (rq_Number rq)).
Proof.
  induction fuel as [| fuel IH]; intros headNumber searchStart sent Hun Hstart.
  - cbn [binary_phase fst snd]. split; [apply unlucky_tail; exact Hun |].
    intros rq Hrq Hl. exfalso. exact (unlucky_head sent rq Hun Hrq Hl).
  - cbn [binary_phase].
    destruct (Z.ltb_spec 0 headNumber) as [Hpos | Hzero].
    + unfold sort_Search.
      set (n := int_of_u64 (u64 (headNumber - searchStart + 1))).
      assert (Hn : n < 2 ^ 63) by apply int_of_u64_lt.
      destruct (search_loop_inv (probe getBlockHashes HasBlock searchStart)
                  (trace_inv getBlockHashes HasBlock searchStart)
                  (probe_keeps_trace_inv searchStart Hstart)
                  64%nat 0 n (mkProbing None 0 sent))
        as (j' & Hj' & (Htail & Hhead & Hr0 & _) & _).
      { change (Z.of_nat 64) with 64. lia. }
      { unfold trace_inv. cbn [pr_sent]. split; [apply unlucky_tail; exact Hun |].
        split; [| lia].
        intros rq Hrq Hl. exfalso. exact (unlucky_head sent rq Hun Hrq Hl). }
      destruct (search_loop 64 (probe getBlockHashes HasBlock searchStart) 0 n
                  (mkProbing None 0 sent)) as [searchResult st].
      cbn [fst snd] in *.
      destruct (pr_err st) as [e |] eqn:Eerr.
      * cbn [fst snd]. split; [exact Htail |].
        intros rq Hrq Hl. destruct (Hhead rq Hrq Hl) as [Hnone _]. discriminate.
      * destruct (Z.eqb_spec (luckResult st) 0) as [Ez | Enz]; cbn [negb].
        -- destruct (Z.ltb_spec 0 searchResult) as [Hfound | Hnone].
           ++ cbn [fst snd]. split; [exact Htail |].
              intros rq Hrq Hl.
              destruct (Hhead rq Hrq Hl) as [_ [[Hne Heq] | (Hz & _ & Hs0 & Hi1 & _)]];
                [congruence |].
              rewrite Hz, Hs0, Hi1. reflexivity.
           ++ apply IH.
              ** destruct (pr_sent st) as [| rq rest] eqn:E; [constructor |].
                 constructor; [| exact Htail].
                 intros Hl.
                 destruct (Hhead rq eq_refl Hl)
                   as [_ [[Hne Heq] | (_ & _ & _ & Hi1 & _)]]; [congruence | lia].
              ** pose proof (Z.div_mod searchStart 2 ltac:(lia)) as Hd.
                 pose proof (Z.mod_pos_bound searchStart 2 ltac:(lia)) as Hm. lia.
        -- cbn [fst snd]. split; [exact Htail |].
           intros rq Hrq Hl.
           destruct (Hhead rq Hrq Hl) as [_ [[Hne Heq] | (_ & Hz & _)]]; congruence.
    + cbn [fst snd]. split; [apply unlucky_tail; exact Hun |].
      intros rq Hrq Hl. exfalso. exact (unlucky_head sent rq Hun Hrq Hl).
Qed.

Lemma reverse_not_lucky (number amount skip : Z) :
  ~ lucky_probe getBlockHashes HasBlock (mkHashReq number amount skip true).
Proof. intros (t & h0 & h1 & Hform & _). discriminate. Qed.

Lemma findAncestor_lucky (fuel : nat) (headNumber searchStart : Z) :
  0 <= searchStart < 2 ^ 64 ->
  unlucky getBlockHashes HasBlock (tail (snd (findAncestor getBlockHashes HasBlock fuel headNumber searchStart)))
  /\ (forall rq,
        head (snd (findAncestor getBlockHashes HasBlock fuel headNumber searchStart))
        = Some rq ->
        lucky_probe getBlockHashes HasBlock rq ->
        fst (findAncestor getBlockHashes HasBlock fuel headNumber searchStart)
        = Returned (rq_Number rq)).
Proof.
  intros Hstart. unfold findAncestor.
  destruct (headNumber <? 1).
  { cbn [fst snd tail head]. split; [constructor | discriminate]. }
  match goal with
  | |- context [getBlockHashes ?r] => set (rq1 := r)
  end.
  assert (H1 : unlucky getBlockHashes HasBlock [rq1]).
  { constructor; [apply reverse_not_lucky | constructor]. }
  destruct (getBlockHashes rq1) as [hashes |].
  - destruct (scan_tail HasBlock headNumber 0 hashes) as [a |].
    + cbn [fst snd tail head]. split; [constructor |].
      intros rq Hrq Hl. injection Hrq as <-. exfalso. exact (reverse_not_lucky _ _ _ Hl).
    + apply binary_phase_lucky; [exact H1 |].
      pose proof (Z.div_mod searchStart 2 ltac:(lia)) as Hd.
      pose proof (Z.mod_pos_bound searchStart 2 ltac:(lia)) as Hm. lia.
  - cbn [fst snd tail head]. split; [constructor |].
    intros rq Hrq Hl. injection Hrq as <-. exfalso. exact (reverse_not_lucky _ _ _ Hl).
Qed.

End LuckyHit.

(** C8. In a run of [findAncestor], whatever the peer answers: a probe
    of height [n] during the binary search whose reply is two hashes,
    the first in the local chain at [n] and the second not in it at
    [n + 1], is the last request of the run, and the run returns [n]. *)
Theorem lucky_hit_returns (getBlockHashes : getBlcokHashByNumber -> option (list Z))
  (HasBlock : Z -> Z -> bool) (fuel : nat) (headNumber searchStart : Z)
  (later earlier : list getBlcokHashByNumber) (n h0 h1 : Z) :
  0 <= searchStart < 2 ^ 64 ->
  0 <= n < 2 ^ 64 - 1 ->
  snd (findAncestor getBlockHashes HasBlock fuel headNumber searchStart)
  = later ++ mkHashReq n 2 0 false :: earlier ->
  getBlockHashes (mkHashReq n 2 0 false) = Some [h0; h1] ->
  HasBlock h0 n = true ->
  HasBlock h1 (n + 1) = false ->
  fst (findAncestor getBlockHashes HasBlock fuel headNumber searchStart) = Returned n
  /\ later = [].
Proof.
  intros Hstart Hn Hsent Hreply Hhas0 Hhas1.
  assert (Hl : lucky_probe getBlockHashes HasBlock (mkHashReq n 2 0 false)).
  { exists n, h0, h1. rewrite u64_small by lia. repeat split; assumption. }
  destruct (findAncestor_lucky getBlockHashes HasBlock fuel headNumber searchStart Hstart)
    as [Htail Hhead].
  rewrite Hsent in Htail, Hhead.
  destruct later as [| x later].
  - split; [| reflexivity]. apply (Hhead _ eq_refl Hl).
  - exfalso. cbn [app tail] in Htail.
    unfold unlucky in Htail. rewrite Forall_forall in Htail.
    apply (Htail (mkHashReq n 2 0 false)); [| exact Hl].
    apply elem_of_app. right. left.
Qed.

(** ** Dispatcher *)

Section DispatcherFacts.

Variable header_hash : Header -> Z.
Variable net_hashes : downloadTask -> getBlcokHashByNumber -> option (list Z).
Variable net_headers : downloadTask -> getBlockHeadersData -> option (list Header).
Variable net_bodies : downloadTask -> list Z -> option (list Body).
Variable sched : nat -> nat.

Lemma build_blocks_total : forall (headers : list Header) (bodies : list Body),
  length bodies = length (body_hashes header_hash headers) ->
  exists bs, build_blocks header_hash headers bodies = Some bs.
Proof.
  unfold body_hashes.
  induction headers as [| h headers IH]; intros bodies Hlen.
  - exists []. reflexivity.
  - cbn [build_blocks map] in *. rewrite filter_cons in Hlen.
    destruct (Z.eqb_spec (header_hash h) emptyHash) as [He | Hne].
    + rewrite decide_False in Hlen by (intros Hc; apply Hc; exact He).
      destruct (IH bodies Hlen) as [bs ->]. eexists. reflexivity.
    + rewrite decide_True in Hlen by exact Hne.
      destruct bodies as [| body bodies]; [discriminate |].
      cbn [length] in Hlen. injection Hlen as Hlen.
      destruct (IH bodies Hlen) as [bs ->]. eexists. reflexivity.
Qed.

(** Whatever happens, [Do] sends the task with one more in [errorTotal]
    and with nothing else changed but [blocks]. *)
Lemma Do_deliver (task task' : downloadTask) (sent : list request) :
  Do header_hash net_hashes net_headers net_bodies task = Ok (task', sent) ->
  task' = deliver task (blocks task').
Proof.
  intros HDo. unfold Do in HDo.
  repeat (match type of HDo with
          | context [match ?x with _ => _ end] => destruct x eqn:?
          end;
          try discriminate;
          try (injection HDo as <- <-; reflexivity)).
Qed.

Lemma Do_total (task : downloadTask) :
  task_wf task -> is_Some (worker task) ->
  exists task' sent,
    Do header_hash net_hashes net_headers net_bodies task = Ok (task', sent).
Proof.
  intros (Hse & Hend & Hfresh & _) [w Hw]. unfold Do. rewrite Hw.
  repeat match goal with
         | |- exists _ _, Ok _ = Ok _ => eexists _, _; reflexivity
         | |- context [if ?c then _ else _] => destruct c eqn:?
         | |- context [match net_hashes ?a ?b with _ => _ end] =>
             destruct (net_hashes a b) eqn:?
         | |- context [match net_headers ?a ?b with _ => _ end] =>
             destruct (net_headers a b) as [headers |] eqn:?
         | |- context [match net_bodies ?a ?b with _ => _ end] =>
             destruct (net_bodies a b) as [bodies |] eqn:?
         end.
  all: try match goal with
       | H : negb (length ?b =? length ?r)%nat = false |- _ =>
           apply negb_false_iff, Nat.eqb_eq in H;
           destruct (build_blocks_total _ _ H) as [bs Hbs]
       end.
  all: match goal with
       | H : negb (Z.of_nat (length ?hs) =? int_of_u64 _) = false |- _ =>
           apply negb_false_iff, Z.eqb_eq in H;
           rewrite (u64_small (endNumber task - startNumber task)) in H by lia;
           rewrite (u64_small (endNumber task - startNumber task + 1)) in H by lia;
           unfold int_of_u64 in H;
           destruct (Z.ltb_spec (endNumber task - startNumber task + 1) (2 ^ 63));
           [| lia];
           destruct hs as [| h0 hs]; [simpl in H; lia |];
           destruct (last (h0 :: hs)) as [hl |] eqn:Hlast;
           [| apply last_None in Hlast; discriminate]
       end.
  all: cbn [head].
  all: repeat match goal with
         | |- exists _ _, Ok _ = Ok _ => eexists _, _; reflexivity
         | |- context [if ?c then _ else _] => destruct c eqn:?
         end.
  all: match goal with
       | H : build_blocks _ _ _ = Some _ |- _ => rewrite H; eexists _, _; reflexivity
       end.
Qed.

Lemma doTask_loop_launches (P : dispatcher -> Prop) :
  (forall d w ws t ts,
      workers d = w :: ws -> taskes d = t :: ts -> P d -> P (launched d w ws t ts)) ->
  forall (fuel : nat) (d : dispatcher), P d -> P (doTask_loop fuel d).
Proof.
  intros Hlaunch. induction fuel as [| fuel IH]; intros d Hd; [exact Hd |].
  cbn [doTask_loop]. destruct (taskCount d <? maxTask); [| exact Hd].
  unfold getReadyTask.
  destruct (workers d) as [| w ws] eqn:Ew; [exact Hd |].
  destruct (taskes d) as [| t ts] eqn:Et; [exact Hd |].
  apply IH. cbn [workers taskes taskCount running insertList events].
  apply (Hlaunch d w ws t ts Ew Et Hd).
Qed.

Lemma doTask_keeps (P : dispatcher -> Prop) (d : dispatcher) :
  kept header_hash net_hashes net_headers net_bodies P -> P d -> P (doTask d).
Proof.
  intros [Hlaunch _] Hd. unfold doTask. apply doTask_loop_launches; assumption.
Qed.

Lemma collect_keeps (P : dispatcher -> Prop) :
  kept header_hash net_hashes net_headers net_bodies P ->
  forall (fuel : nat) (d d' : dispatcher),
    P d -> collect header_hash net_hashes net_headers net_bodies sched fuel d = Ok d' ->
    P d'.
Proof.
  intros HP. induction fuel as [| fuel IH]; intros d d' Hd Hc; [discriminate |].
  cbn [collect] in Hc. destruct (0 <? taskCount d); [| injection Hc as <-; exact Hd].
  destruct (running d !! (sched fuel mod length (running d))%nat)
    as [started |] eqn:Ek; [| discriminate].
  destruct (Do header_hash net_hashes net_headers net_bodies started)
    as [[task sent] | |] eqn:EDo; [| discriminate | discriminate].
  refine (IH _ d' _ Hc).
  apply doTask_keeps; [exact HP |].
  destruct HP as [_ Hrecv]. apply (Hrecv d _ started task sent Ek EDo Hd).
Qed.

(** *** The counter and the well-formed tasks *)

Lemma set_worker_wf (t : downloadTask) (w : stationStatus) :
  task_wf t -> task_wf (set_worker t w).
Proof. intros H. exact H. Qed.

Lemma length_drop_nth {A : Type} (k : nat) (l : list A) (x : A) :
  l !! k = Some x -> S (length (drop_nth k l)) = length l.
Proof.
  intros Hk. apply lookup_lt_Some in Hk. unfold drop_nth.
  rewrite length_app, length_take, length_drop. lia.
Qed.

Lemma Forall_drop_nth {A : Type} (P : A -> Prop) (k : nat) (l : list A) :
  Forall P l -> Forall P (drop_nth k l).
Proof.
  intros H. unfold drop_nth. apply Forall_app. split.
  - apply Forall_take. exact H.
  - apply Forall_drop. exact H.
Qed.

Lemma dispatcher_inv_kept : kept header_hash net_hashes net_headers net_bodies dispatcher_inv.
Proof.
  split.
  - intros d w ws t ts Ew Et (Hc & Hq & Hr). unfold dispatcher_inv, launched.
    cbn [taskCount running taskes]. rewrite Et in Hq. inversion Hq; subst.
    split; [cbn [length]; lia |]. split; [assumption |].
    constructor; [| exact Hr]. split; [assumption | eexists; reflexivity].
  - intros d k started task sent Hk HDo (Hc & Hq & Hr).
    pose proof (Do_deliver started task sent HDo) as Htask.
    pose proof (length_drop_nth k (running d) started Hk) as Hlen.
    assert (Hr' : Forall (fun t => task_wf t /\ is_Some (worker t))
                    (drop_nth k (running d)))
      by (apply Forall_drop_nth; exact Hr).
    assert (Hst : task_wf started).
    { rewrite Forall_forall in Hr. apply (Hr started).
      apply list_elem_of_lookup. exists k. exact Hk. }
    unfold dispatcher_inv, received, handle_result.
    destruct (length (blocks task) =? 0)%nat eqn:Eb.
    + destruct (5 <? errorTotal task) eqn:Ee;
        cbn [taskCount running taskes]; (split; [lia |]); (split; [| exact Hr']).
      * constructor.
      * constructor; [| exact Hq].
        apply Nat.eqb_eq in Eb. apply length_zero_iff_nil in Eb.
        rewrite Htask. rewrite Eb. destruct Hst as (H1 & H2 & H3 & H4).
        unfold task_wf, deliver. cbn [startNumber endNumber blocks errorTotal].
        repeat split; try lia.
    + cbn [taskCount running taskes]. split; [lia |]. split; [exact Hq | exact Hr'].
Qed.

(** *** The collecting loop ends *)

Lemma weight_launched (d : dispatcher) w ws t ts :
  taskes d = t :: ts -> weight (launched d w ws t ts) = weight d.
Proof.
  intros Et. unfold weight, launched. cbn [taskes running]. rewrite Et.
  rewrite !sum_list_with_app. cbn [sum_list_with].
  unfold task_weight at 2. unfold set_worker. cbn [errorTotal].
  fold (task_weight t). lia.
Qed.

Lemma weight_doTask (d : dispatcher) : weight (doTask d) = weight d.
Proof.
  unfold doTask.
  apply (doTask_loop_launches (fun d' => weight d' = weight d)); [| reflexivity].
  intros d0 w ws t ts _ Et H0. rewrite weight_launched by exact Et. exact H0.
Qed.

Lemma sum_drop_nth {A : Type} (f : A -> nat) (k : nat) (l : list A) (x : A) :
  l !! k = Some x ->
  sum_list_with f l = (sum_list_with f (drop_nth k l) + f x)%nat.
Proof.
  intros Hk. unfold drop_nth.
  rewrite <- (take_drop_middle l k x Hk) at 1.
  rewrite !sum_list_with_app. cbn [sum_list_with]. lia.
Qed.

Lemma weight_received (d : dispatcher) (k : nat) (started task : downloadTask)
  (sent : list request) :
  running d !! k = Some started ->
  Do header_hash net_hashes net_headers net_bodies started = Ok (task, sent) ->
  (weight (received d k task) < weight d)%nat.
Proof.
  intros Hk HDo. pose proof (Do_deliver started task sent HDo) as Htask.
  assert (He : errorTotal task = errorTotal started + 1) by (rewrite Htask; reflexivity).
  unfold weight at 2. rewrite sum_list_with_app.
  rewrite (sum_drop_nth task_weight k (running d) started Hk).
  assert (Hws : task_weight started = S (Z.to_nat (5 - errorTotal started)))
    by reflexivity.
  assert (Hwt : task_weight task = S (Z.to_nat (5 - errorTotal task)))
    by reflexivity.
  unfold received, handle_result.
  destruct (length (blocks task) =? 0)%nat.
  - destruct (Z.ltb_spec 5 (errorTotal task)) as [Hover | Hunder];
      unfold weight; cbn [taskes running]; rewrite ?sum_list_with_app;
      cbn [sum_list_with]; lia.
  - unfold weight; cbn [taskes running]; rewrite ?sum_list_with_app. lia.
Qed.

Lemma collect_terminates : forall (fuel : nat) (d : dispatcher),
  dispatcher_inv d -> (weight d < fuel)%nat ->
  exists d', collect header_hash net_hashes net_headers net_bodies sched fuel d = Ok d'.
Proof.
  induction fuel as [| fuel IH]; intros d Hinv Hw; [lia |].
  cbn [collect]. destruct (Z.ltb_spec 0 (taskCount d)) as [Hbusy | Hidle].
  - pose proof Hinv as (Hc & Hq & Hr).
    assert (Hlt : (sched fuel mod length (running d) < length (running d))%nat).
    { apply Nat.mod_upper_bound. lia. }
    destruct (lookup_lt_is_Some_2 _ _ Hlt) as [started Hk]. rewrite Hk.
    assert (Hst : task_wf started /\ is_Some (worker started)).
    { rewrite Forall_forall in Hr. apply (Hr started).
      apply list_elem_of_lookup. eexists. exact Hk. }
    destruct (Do_total started (proj1 Hst) (proj2 Hst)) as (task & sent & HDo).
    rewrite HDo.
    apply IH.
    + apply doTask_keeps; [exact dispatcher_inv_kept |].
      apply (proj2 dispatcher_inv_kept d _ started task sent Hk HDo Hinv).
    + rewrite weight_doTask.
      pose proof (weight_received d _ started task sent Hk HDo). unfold received in *. lia.
  - eexists. reflexivity.
Qed.

(** *** After the queue has been cleared *)

Lemma only_retries_kept (before : list event) : kept header_hash net_hashes net_headers net_bodies (only_retries before).
Proof.
  split.
  - intros d w ws t ts Ew Et (Hq & Hr & Hev). unfold only_retries, launched.
    cbn [taskes running events]. rewrite Et in Hq. inversion Hq; subst.
    split; [assumption |]. split.
    + constructor; [unfold set_worker; cbn [errorTotal]; lia | exact Hr].
    + intros t' Ht'. apply elem_of_cons in Ht'. destruct Ht' as [Heq | Hin].
      * injection Heq as ->. right. unfold set_worker. cbn [errorTotal]. assumption.
      * apply Hev. exact Hin.
  - intros d k started task sent Hk HDo (Hq & Hr & Hev).
    pose proof (Do_deliver started task sent HDo) as Htask.
    assert (Hst : 0 <= errorTotal started).
    { rewrite Forall_forall in Hr. apply (Hr started).
      apply list_elem_of_lookup. exists k. exact Hk. }
    assert (He : 1 <= errorTotal task).
    { rewrite Htask. unfold deliver. cbn [errorTotal]. lia. }
    assert (Hr' : Forall (fun t => 0 <= errorTotal t) (drop_nth k (running d)))
      by (apply Forall_drop_nth; exact Hr).
    unfold only_retries, received, handle_result.
    destruct (length (blocks task) =? 0)%nat.
    + destruct (5 <? errorTotal task); cbn [taskes running events].
      * split; [constructor |]. split; [exact Hr' |].
        intros t Ht. apply elem_of_cons in Ht. destruct Ht as [Heq | Ht]; [discriminate |].
        apply elem_of_cons in Ht. destruct Ht as [Heq | Ht]; [discriminate |].
        apply Hev. exact Ht.
      * split; [constructor; assumption |]. split; [exact Hr' |].
        intros t Ht. apply elem_of_cons in Ht. destruct Ht as [Heq | Ht]; [discriminate |].
        apply Hev. exact Ht.
    + cbn [taskes running events]. split; [exact Hq |]. split; [exact Hr' |].
      intros t Ht. apply elem_of_cons in Ht. destruct Ht as [Heq | Ht]; [discriminate |].
      apply Hev. exact Ht.
Qed.

(** *** The chunks stored for insertion *)

Lemma chunks_linked_kept :
  kept header_hash net_hashes net_headers net_bodies (fun d => dispatcher_inv d /\ chunks_linked header_hash (insertList d)).
Proof.
  split.
  - intros d w ws t ts Ew Et [Hinv Hch]. split.
    + apply (proj1 dispatcher_inv_kept d w ws t ts Ew Et Hinv).
    + exact Hch.
  - intros d k started task sent Hk HDo [Hinv Hch]. split.
    + apply (proj2 dispatcher_inv_kept d k started task sent Hk HDo Hinv).
    + pose proof (Do_deliver started task sent HDo) as Htask.
      destruct Hinv as (_ & _ & Hr).
      assert (Hst : task_wf started).
      { rewrite Forall_forall in Hr. apply (Hr started).
        apply list_elem_of_lookup. exists k. exact Hk. }
      destruct Hst as (Hse & Hend & Hfresh & _).
      unfold received, handle_result.
      destruct (length (blocks task) =? 0)%nat eqn:Eb.
      * destruct (5 <? errorTotal task); cbn [insertList]; exact Hch.
      * cbn [insertList]. intros s bs Hs.
        destruct (decide (startNumber task = s)) as [Heq | Hne].
        -- rewrite Heq, lookup_insert_eq in Hs. injection Hs as <-.
           assert (Hnon : blocks task <> []).
           { intros Hnil. rewrite Hnil in Eb. discriminate. }
           split; [exact Hnon |]. exists started.
           split; [rewrite <- Heq, Htask; reflexivity |].
           split; [exact Hse |]. split; [exact Hend |].
           apply (Do_chunk header_hash net_hashes net_headers net_bodies
                    started task sent Hfresh Hse ltac:(lia) HDo Hnon).
        -- rewrite lookup_insert_ne in Hs by exact Hne. apply (Hch s bs Hs).
Qed.

End DispatcherFacts.

(** *** The queue that [assignDownloadTask] fills *)

Lemma push_tasks_wf : forall (i : nat) (hashes numbers : list Z)
    (acc ts : list downloadTask),
  numbers_wf numbers -> Forall task_wf acc ->
  push_tasks i hashes numbers acc = Ok ts -> Forall task_wf ts.
Proof.
  induction i as [| i IH]; intros hashes numbers acc ts Hwf Hacc Hp.
  - injection Hp as <-. exact Hacc.
  - cbn [push_tasks] in Hp.
    destruct (numbers !! i) as [sn |] eqn:E1; [| discriminate].
    destruct (hashes !! i) as [sh |] eqn:E2; [| discriminate].
    destruct (numbers !! S i) as [en |] eqn:E3; [| discriminate].
    destruct (hashes !! S i) as [eh |] eqn:E4; [| discriminate].
    refine (IH hashes numbers _ ts Hwf _ Hp).
    constructor; [| exact Hacc].
    destruct (Hwf i sn en E1 E3) as [H1 H2].
    unfold task_wf. cbn [startNumber endNumber blocks errorTotal].
    repeat split; lia.
Qed.

Lemma push_tasks_total : forall (i : nat) (hashes numbers : list Z)
    (acc : list downloadTask),
  (i < length numbers)%nat -> length hashes = length numbers ->
  exists ts, push_tasks i hashes numbers acc = Ok ts
             /\ length ts = (i + length acc)%nat.
Proof.
  induction i as [| i IH]; intros hashes numbers acc Hi Hlen.
  - exists acc. split; reflexivity.
  - cbn [push_tasks].
    destruct (lookup_lt_is_Some_2 numbers i ltac:(lia)) as [sn ->].
    destruct (lookup_lt_is_Some_2 hashes i ltac:(lia)) as [sh ->].
    destruct (lookup_lt_is_Some_2 numbers (S i) ltac:(lia)) as [en ->].
    destruct (lookup_lt_is_Some_2 hashes (S i) ltac:(lia)) as [eh ->].
    destruct (IH hashes numbers (mkTask None sn sh en eh [] 0 :: acc) ltac:(lia) Hlen)
      as (ts & Hts & Hl).
    exists ts. split; [exact Hts |]. rewrite Hl. cbn [length]. lia.
Qed.

(** ** Inserting loop *)

Lemma chunk_numbers (header_hash : Header -> Z) (task : downloadTask)
  (headers : list Header) :
  hash_linked_chunk header_hash task headers ->
  forall (i : nat) (h : Header),
    headers !! i = Some h -> NumberU64 h = startNumber task + Z.of_nat i.
Proof.
  intros (Hadj & (first & final & Hhead & _ & Hn & _) & _).
  induction i as [| i IH]; intros h Hi.
  - destruct headers as [| x rest]; [discriminate |].
    cbn in Hhead, Hi. injection Hhead as ->. injection Hi as <-. lia.
  - destruct (lookup_lt_is_Some_2 headers i) as [h0 Hi0].
    { apply lookup_lt_Some in Hi. lia. }
    destruct (Hadj i h0 h Hi0 Hi) as [_ Hnum].
    rewrite Hnum, (IH h0 Hi0). lia.
Qed.

Section InsertFacts.

Variable Chain : Type.
Variable InsertChain : Chain -> list Block -> Chain * Z * option error.

Lemma insert_loop_in_order : forall (starts : list Z) (final : Z)
    (ins : gmap Z (list Block)) (c : Chain),
  inserts_in_order ins starts (snd (insert_loop Chain InsertChain starts final ins c)).
Proof.
  induction starts as [| start rest IH]; intros final ins c; cbn [insert_loop].
  - constructor.
  - destruct (ins !! start) as [bs |] eqn:Es; [| constructor].
    destruct (InsertChain c bs) as [[c1 i1] [e1 |]].
    + destruct (InsertChain c1 bs) as [[c2 index] [err |]].
      * assert (Hlast : inserts_in_order ins (start :: rest)
                          [FxInsertChain bs; FxSleepSecond; FxInsertChain bs]).
        { apply in_order_retry; [exact Es | constructor]. }
        destruct (bs !! Z.to_nat index); [destruct (0 <=? index) |]; exact Hlast.
      * specialize (IH final ins c2).
        destruct (insert_loop Chain InsertChain rest final ins c2) as [[r c3] fx].
        cbn [snd] in *. apply in_order_retry; assumption.
    + specialize (IH final ins c1).
      destruct (insert_loop Chain InsertChain rest final ins c1) as [[r c2] fx].
      cbn [snd] in *. apply in_order_once; assumption.
Qed.

Lemma insert_loop_no_error : forall (starts : list Z) (final : Z)
    (ins : gmap Z (list Block)) (c : Chain) (h : Z),
  fst (fst (insert_loop Chain InsertChain starts final ins c)) = Ok (h, None) ->
  h = match first_missing ins starts with
      | Some start => u64 (start - 1)
      | None => final
      end.
Proof.
  induction starts as [| start rest IH]; intros final ins c h Hr;
    cbn [insert_loop first_missing] in *.
  - injection Hr as <-. reflexivity.
  - destruct (ins !! start) as [bs |] eqn:Es; [| injection Hr as <-; reflexivity].
    destruct (InsertChain c bs) as [[c1 i1] [e1 |]].
    + destruct (InsertChain c1 bs) as [[c2 index] [err |]].
      * destruct (bs !! Z.to_nat index); [destruct (0 <=? index) |]; discriminate.
      * specialize (IH final ins c2 h).
        destruct (insert_loop Chain InsertChain rest final ins c2) as [[r c3] fx].
        apply IH. exact Hr.
    + specialize (IH final ins c1 h).
      destruct (insert_loop Chain InsertChain rest final ins c1) as [[r c2] fx].
      apply IH. exact Hr.
Qed.

Lemma insert_loop_error : forall (starts : list Z) (final : Z)
    (ins : gmap Z (list Block)) (c : Chain) (h : Z) (err : error),
  fst (fst (insert_loop Chain InsertChain starts final ins c)) = Ok (h, Some err) ->
  exists (start : Z) (bs : list Block) (c1 c2 : Chain) (i1 : Z) (e1 : error)
         (index : Z) (b : Block) (before : list effect),
    start ∈ starts /\ ins !! start = Some bs
    /\ InsertChain c1 bs = (c2, i1, Some e1)
    /\ InsertChain c2 bs
       = (snd (fst (insert_loop Chain InsertChain starts final ins c)), index, Some err)
    /\ 0 <= index /\ bs !! Z.to_nat index = Some b
    /\ h = u64 (NumberU64 (blk_header b) - 1)
    /\ snd (insert_loop Chain InsertChain starts final ins c)
       = before ++ [FxInsertChain bs; FxSleepSecond; FxInsertChain bs].
Proof.
  induction starts as [| start rest IH]; intros final ins c h err Hr;
    cbn [insert_loop] in *.
  - discriminate.
  - destruct (ins !! start) as [bs |] eqn:Es; [| discriminate].
    destruct (InsertChain c bs) as [[c1 i1] [e1 |]] eqn:E1.
    + destruct (InsertChain c1 bs) as [[c2 index] [err' |]] eqn:E2.
      * destruct (bs !! Z.to_nat index) as [b |] eqn:Eb; [| discriminate].
        destruct (Z.leb_spec 0 index) as [Hi | Hi]; [| discriminate].
        cbn [fst snd] in *. injection Hr as <- <-.
        exists start, bs, c, c1, i1, e1, index, b, [].
        repeat split; try assumption; try reflexivity. left.
      * specialize (IH final ins c2 h err).
        destruct (insert_loop Chain InsertChain rest final ins c2) as [[r c3] fx].
        cbn [fst snd] in *.
        destruct (IH Hr) as (s & bs' & a1 & a2 & j1 & f1 & idx & b & before
                             & H1 & H2 & H3 & H4 & H5 & H6 & H7 & H8).
        exists s, bs', a1, a2, j1, f1, idx, b,
          (FxInsertChain bs :: FxSleepSecond :: FxInsertChain bs :: before).
        repeat split; try assumption; [right; exact H1 |].
        rewrite H8. reflexivity.
    + specialize (IH final ins c1 h err).
      destruct (insert_loop Chain InsertChain rest final ins c1) as [[r c2] fx].
      cbn [fst snd] in *.
      destruct (IH Hr) as (s & bs' & a1 & a2 & j1 & f1 & idx & b & before
                           & H1 & H2 & H3 & H4 & H5 & H6 & H7 & H8).
      exists s, bs', a1, a2, j1, f1, idx, b, (FxInsertChain bs :: before).
      repeat split; try assumption; [right; exact H1 |].
      rewrite H8. reflexivity.
Qed.

Lemma insert_loop_not_stuck : forall (starts : list Z) (final : Z)
    (ins : gmap Z (list Block)) (c : Chain),
  fst (fst (insert_loop Chain InsertChain starts final ins c)) <> Stuck.
Proof.
  induction starts as [| start rest IH]; intros final ins c; cbn [insert_loop].
  - discriminate.
  - destruct (ins !! start) as [bs |]; [| discriminate].
    destruct (InsertChain c bs) as [[c1 i1] [e1 |]].
    + destruct (InsertChain c1 bs) as [[c2 index] [err |]].
      * destruct (bs !! Z.to_nat index); [destruct (0 <=? index) |]; discriminate.
      * specialize (IH final ins c2).
        destruct (insert_loop Chain InsertChain rest final ins c2) as [[r c3] fx].
        exact IH.
    + specialize (IH final ins c1).
      destruct (insert_loop Chain InsertChain rest final ins c1) as [[r c2] fx].
      exact IH.
Qed.

(** A chain store that, when it fails, gives the index of a block of the
    sequence, never makes the loop index out of range. *)
Lemma insert_loop_returns : forall (starts : list Z) (final : Z)
    (ins : gmap Z (list Block)) (c : Chain),
  (forall c0 bs c1 index err,
      InsertChain c0 bs = (c1, index, Some err) ->
      0 <= index < Z.of_nat (length bs)) ->
  exists h err, fst (fst (insert_loop Chain InsertChain starts final ins c)) = Ok (h, err).
Proof.
  intros starts final ins c Hcontract. revert c.
  induction starts as [| start rest IH]; intros c; cbn [insert_loop].
  - eexists _, _. reflexivity.
  - destruct (ins !! start) as [bs |]; [| eexists _, _; reflexivity].
    destruct (InsertChain c bs) as [[c1 i1] [e1 |]].
    + destruct (InsertChain c1 bs) as [[c2 index] [err |]] eqn:E2.
      * destruct (Hcontract c1 bs c2 index err E2) as [H0 Hlt].
        destruct (lookup_lt_is_Some_2 bs (Z.to_nat index) ltac:(lia)) as [b ->].
        rewrite (proj2 (Z.leb_le 0 index)) by lia. eexists _, _. reflexivity.
      * specialize (IH c2).
        destruct (insert_loop Chain InsertChain rest final ins c2) as [[r c3] fx].
        exact IH.
    + specialize (IH c1).
      destruct (insert_loop Chain InsertChain rest final ins c1) as [[r c2] fx].
      exact IH.
Qed.

End InsertFacts.

(** The first attempts insert chunks whose first numbers are starts, in
    the order of the starts. *)
Lemma in_order_numbers (header_hash : Header -> Z) (ins : gmap Z (list Block)) :
  chunks_linked header_hash ins ->
  forall (starts : list Z) (fx : list effect),
    inserts_in_order ins starts fx ->
    exists k : nat, inserted_numbers (first_attempts fx) = take k starts.
Proof.
  intros Hch starts fx Hin.
  induction Hin as [starts | start rest bs fx Hs Hin IH | start rest bs fx Hs Hin IH].
  - exists 0%nat. reflexivity.
  - destruct IH as [k IH]. exists (S k).
    destruct (Hch start bs Hs) as (Hne & task & Hst & _ & _ & Hlink).
    destruct bs as [| b bs']; [congruence |].
    cbn [first_attempts inserted_numbers flat_map app take].
    fold (inserted_numbers (first_attempts fx)). rewrite IH. f_equal.
    rewrite (chunk_numbers header_hash task _ Hlink 0%nat (blk_header b) eq_refl). lia.
  - destruct IH as [k IH]. exists (S k).
    destruct (Hch start bs Hs) as (Hne & task & Hst & _ & _ & Hlink).
    destruct bs as [| b bs']; [congruence |].
    cbn [first_attempts inserted_numbers flat_map app take].
    fold (inserted_numbers (first_attempts fx)). rewrite IH. f_equal.
    rewrite (chunk_numbers header_hash task _ Hlink 0%nat (blk_header b) eq_refl). lia.
Qed.

Lemma StronglySorted_take (l : list Z) (k : nat) :
  StronglySorted Z.lt l -> StronglySorted Z.lt (take k l).
Proof.
  intros Hs. revert k. induction Hs as [| a l Hs IH Hall]; intros k.
  - rewrite take_nil. constructor.
  - destruct k as [| k]; [constructor |]. cbn [take]. constructor; [apply IH |].
    apply Forall_take. exact Hall.
Qed.

Lemma in_order_lookup (ins : gmap Z (list Block)) (starts : list Z)
  (fx : list effect) (bs : list Block) :
  inserts_in_order ins starts fx -> FxInsertChain bs ∈ fx ->
  exists s, s ∈ starts /\ ins !! s = Some bs.
Proof.
  intros Hin. induction Hin as [starts | start rest bs0 fx Hs Hin IH
                               | start rest bs0 fx Hs Hin IH]; intros Hel.
  - inversion Hel.
  - apply elem_of_cons in Hel. destruct Hel as [Heq | Hel].
    + injection Heq as ->. exists start. split; [left | exact Hs].
    + destruct (IH Hel) as (s & H1 & H2). exists s. split; [right; exact H1 | exact H2].
  - apply elem_of_cons in Hel. destruct Hel as [Heq | Hel].
    { injection Heq as ->. exists start. split; [left | exact Hs]. }
    apply elem_of_cons in Hel. destruct Hel as [Heq | Hel]; [discriminate |].
    apply elem_of_cons in Hel. destruct Hel as [Heq | Hel].
    { injection Heq as ->. exists start. split; [left | exact Hs]. }
    destruct (IH Hel) as (s & H1 & H2). exists s. split; [right; exact H1 | exact H2].
Qed.

Section RoundFacts.

Variable header_hash : Header -> Z.
Variable net_hashes : downloadTask -> getBlcokHashByNumber -> option (list Z).
Variable net_headers : downloadTask -> getBlockHeadersData -> option (list Header).
Variable net_bodies : downloadTask -> list Z -> option (list Body).
Variable sched : nat -> nat.
Variable Chain : Type.
Variable InsertChain : Chain -> list Block -> Chain * Z * option error.

Lemma init_dispatcher_inv (remotes : list stationStatus) (ts : list downloadTask) :
  Forall task_wf ts ->
  dispatcher_inv (init_dispatcher remotes ts)
  /\ chunks_linked header_hash (insertList (init_dispatcher remotes ts)).
Proof.
  intros Hts. split.
  - unfold dispatcher_inv, init_dispatcher. cbn [taskCount running taskes length].
    split; [reflexivity |]. split; [exact Hts | constructor].
  - intros s bs Hs. cbn [init_dispatcher insertList] in Hs.
    rewrite lookup_empty in Hs. discriminate.
Qed.

Lemma weight_init (remotes : list stationStatus) (ts : list downloadTask) :
  Forall task_wf ts ->
  (weight (init_dispatcher remotes ts) < collect_fuel ts)%nat.
Proof.
  intros Hts. unfold weight, init_dispatcher, collect_fuel. cbn [taskes running].
  rewrite app_nil_r. induction Hts as [| t ts Ht Hts IH]; cbn [sum_list_with length].
  - lia.
  - destruct Ht as (_ & _ & _ & He). unfold task_weight at 1. lia.
Qed.

(** The collecting loop of a round ends, and its [insertList] holds
    linked chunks. *)
Lemma collect_round (remotes : list stationStatus) (ts : list downloadTask) :
  Forall task_wf ts ->
  exists d,
    collect header_hash net_hashes net_headers net_bodies sched (collect_fuel ts)
      (doTask (init_dispatcher remotes ts)) = Ok d
    /\ dispatcher_inv d /\ chunks_linked header_hash (insertList d).
Proof.
  intros Hts.
  destruct (init_dispatcher_inv remotes ts Hts) as [Hinv Hch].
  pose proof (chunks_linked_kept header_hash net_hashes net_headers net_bodies) as Hkept.
  assert (H0 : dispatcher_inv (doTask (init_dispatcher remotes ts))
               /\ chunks_linked header_hash
                    (insertList (doTask (init_dispatcher remotes ts)))).
  { apply (doTask_keeps header_hash net_hashes net_headers net_bodies
             (fun d => dispatcher_inv d /\ chunks_linked header_hash (insertList d)));
      [exact Hkept | split; assumption]. }
  destruct (collect_terminates header_hash net_hashes net_headers net_bodies sched
              (collect_fuel ts) (doTask (init_dispatcher remotes ts)) (proj1 H0))
    as [d Hd].
  { rewrite weight_doTask. apply weight_init. exact Hts. }
  exists d. split; [exact Hd |].
  apply (collect_keeps header_hash net_hashes net_headers net_bodies sched _ Hkept
           _ _ d H0 Hd).
Qed.

(** [assignDownloadTask], unfolded for well-formed arguments. *)
Lemma assignDownloadTask_round (remotes : list stationStatus)
  (hashes numbers : list Z) (c : Chain) :
  numbers_wf numbers -> length hashes = length numbers -> numbers <> [] ->
  exists d final,
    last numbers = Some final
    /\ dispatcher_inv d /\ chunks_linked header_hash (insertList d)
    /\ assignDownloadTask header_hash net_hashes net_headers net_bodies sched
         Chain InsertChain remotes hashes numbers c
       = (insert_loop Chain InsertChain (removelast numbers) final (insertList d) c,
          events d).
Proof.
  intros Hwf Hlen Hne. unfold assignDownloadTask.
  assert (Hpos : (0 < length numbers)%nat).
  { destruct numbers; [congruence | cbn [length]; lia]. }
  destruct (push_tasks_total (length numbers - 1) hashes numbers [] ltac:(lia) Hlen)
    as (ts & Hts & _).
  rewrite Hts.
  assert (Hwfts : Forall task_wf ts).
  { refine (push_tasks_wf _ hashes numbers [] ts Hwf _ Hts). constructor. }
  destruct (collect_round remotes ts Hwfts) as (d & Hd & Hinv & Hch).
  rewrite Hd.
  destruct (last numbers) as [final |] eqn:Elast.
  - exists d, final. split; [reflexivity |]. split; [exact Hinv |].
    split; [exact Hch |].
    destruct (insert_loop Chain InsertChain (removelast numbers) final (insertList d) c)
      as [[r c'] fx]. reflexivity.
  - apply last_None in Elast. congruence.
Qed.

End RoundFacts.

(** ** Examples of the ancestor finder *)

Lemma demo_nothing_above (fork k : Z) :
  fork < k -> demo_HasBlock fork (demo_hash_at k) k = false.
Proof.
  intros Hk. unfold demo_HasBlock.
  rewrite (proj2 (Z.leb_gt k fork)) by lia. apply andb_false_r.
Qed.

(** Local chain of 100 blocks that forked from the peer after height 10:
    the bulk probe finds nothing, the binary search probes 34, 17, 8, 13,
    11 and then 10, a lucky hit. *)
Example findAncestor_fork_at_10 :
  findAncestor (peer_reply demo_hash_at 150) (demo_HasBlock 10) 64 100 1
  = (Returned 10,
     [mkHashReq 10 2 0 false; mkHashReq 11 2 0 false; mkHashReq 13 2 0 false;
      mkHashReq 8 2 0 false; mkHashReq 17 2 0 false; mkHashReq 34 2 0 false;
      mkHashReq 100 32 0 true]).
Proof. vm_compute. reflexivity. Qed.

(** Scenario 2 of the specification: a fork at height 90 is found by the
    bulk probe. *)
Example findAncestor_fork_at_90 :
  findAncestor (peer_reply demo_hash_at 150) (demo_HasBlock 90) 64 100 1
  = (Returned 90, [mkHashReq 100 32 0 true]).
Proof. vm_compute. reflexivity. Qed.

(** Only the genesis block is shared: the probe of height 0 is a lucky
    hit that [luckResult] cannot tell from no hit; it is the last probe
    all the same, and 0 is returned through [searchResult]. *)
Example findAncestor_fork_at_genesis :
  findAncestor (peer_reply demo_hash_at 150) (demo_HasBlock 0) 64 100 1
  = (Returned 0,
     [mkHashReq 0 2 0 false; mkHashReq 1 2 0 false; mkHashReq 2 2 0 false;
      mkHashReq 4 2 0 false; mkHashReq 8 2 0 false; mkHashReq 17 2 0 false;
      mkHashReq 34 2 0 false; mkHashReq 100 32 0 true]).
Proof. vm_compute. reflexivity. Qed.

(** Without the hypothesis that the genesis block is shared the loop of
    the binary-search phase can go on for ever: once [headNumber] has
    wrapped around to [2 ^ 64 - 1] with [searchStart = 0], every turn asks
    for nothing and leaves both as they are. *)
Lemma binary_phase_spins (getBlockHashes : getBlcokHashByNumber -> option (list Z))
  (HasBlock : Z -> Z -> bool) (fuel : nat) (sent : list getBlcokHashByNumber) :
  binary_phase getBlockHashes HasBlock fuel (2 ^ 64 - 1) 0 sent = (Spinning, sent).
Proof.
  induction fuel as [| fuel IH]; [reflexivity |].
  cbn [binary_phase]. change (0 <? 2 ^ 64 - 1) with true. cbv iota.
  change (int_of_u64 (u64 (2 ^ 64 - 1 - 0 + 1))) with 0.
  unfold sort_Search. rewrite search_loop_empty by lia.
  cbn [pr_err luckResult pr_sent]. change (0 =? 0) with true. change (0 <? 0) with false.
  cbn [negb]. change (u64 (0 - 1)) with (2 ^ 64 - 1). change (0 / 2) with 0.
  exact IH.
Qed.

Lemma findAncestor_spins_without_genesis (fuel : nat) :
  fst (findAncestor (peer_reply demo_hash_at 150) (fun _ _ => false) fuel 20 1)
  = Spinning.
Proof.
  unfold findAncestor. change (20 <? 1) with false. cbv iota.
  change (u64 (u64 (u64 (20 - 1) + 1) + 1)) with 21. change (32 <? 21) with false.
  cbv iota.
  change (peer_reply demo_hash_at 150 (mkHashReq 20 21 0 true))
    with (Some (map demo_hash_at [20;19;18;17;16;15;14;13;12;11;10;9;8;7;6;5;4;3;2;1;0])).
  cbn [map scan_tail length]. cbv iota.
  change (u64 (20 - Z.of_nat 21)) with (2 ^ 64 - 1). change (1 / 2) with 0.
  rewrite binary_phase_spins. reflexivity.
Qed.


Lemma lucky_hit_returns_witness :
  snd (findAncestor (peer_reply demo_hash_at 150) (demo_HasBlock 10) 64 100 1)
  = [] ++ mkHashReq 10 2 0 false
       :: [mkHashReq 11 2 0 false; mkHashReq 13 2 0 false; mkHashReq 8 2 0 false;
           mkHashReq 17 2 0 false; mkHashReq 34 2 0 false; mkHashReq 100 32 0 true]
  /\ peer_reply demo_hash_at 150 (mkHashReq 10 2 0 false) = Some [1010; 1011]
  /\ demo_HasBlock 10 1010 10 = true
  /\ demo_HasBlock 10 1011 (10 + 1) = false
  /\ fst (findAncestor (peer_reply demo_hash_at 150) (demo_HasBlock 10) 64 100 1)
     = Returned 10.
Proof.
  split; [vm_compute; reflexivity |].
  split; [reflexivity |]. split; [reflexivity |]. split; [reflexivity |].
  apply (proj1 (lucky_hit_returns (peer_reply demo_hash_at 150) (demo_HasBlock 10)
                  64 100 1 []
                  [mkHashReq 11 2 0 false; mkHashReq 13 2 0 false; mkHashReq 8 2 0 false;
                   mkHashReq 17 2 0 false; mkHashReq 34 2 0 false; mkHashReq 100 32 0 true]
                  10 1010 1011
                  ltac:(lia) ltac:(lia) ltac:(vm_compute; reflexivity)
                  eq_refl eq_refl eq_refl)).
Defined.

(** ** Deliveries, insertion order and retries *)

(** C2. A task that starts without blocks, over a range within
    [uint64]: the blocks [Do] delivers, when it delivers any, are exactly
    the headers the worker sent, they are linked by parent hash and
    consecutive numbers, and the first and the last are the boundaries of
    the task; a header reply that is not such a chunk, or a hash reply
    whose ends are not the expected hashes, gives a delivery without
    blocks.  Hence every sequence [assignDownloadTask] passes to
    [InsertChain] is a linked chunk of some task. *)
Theorem Do_delivers_hash_linked (header_hash : Header -> Z)
  (net_hashes : downloadTask -> getBlcokHashByNumber -> option (list Z))
  (net_headers : downloadTask -> getBlockHeadersData -> option (list Header))
  (net_bodies : downloadTask -> list Z -> option (list Body)) :
  (forall (task task' : downloadTask) (sent : list request),
      blocks task = [] ->
      0 <= startNumber task <= endNumber task -> endNumber task < 2 ^ 64 ->
      Do header_hash net_hashes net_headers net_bodies task = Ok (task', sent) ->
      (blocks task' <> [] ->
       hash_linked_chunk header_hash task (map blk_header (blocks task')))
      /\ (forall headers,
             net_headers task
               (mkHeaderReq (startNumber task)
                  (u64 (u64 (endNumber task - startNumber task) + 1)) 0 false)
             = Some headers ->
             ~ hash_linked_chunk header_hash task headers ->
             blocks task' = [])
      /\ (forall hashes,
             net_hashes task
               (if endNumber task =? startNumber task
                then mkHashReq (startNumber task) 1 0 false
                else mkHashReq (startNumber task) 2
                       (u64 (u64 (endNumber task - startNumber task) - 1)) false)
             = Some hashes ->
             head hashes <> Some (startHash task) \/ last hashes <> Some (endHash task) ->
             blocks task' = []))
  /\ (forall (sched : nat -> nat) (Chain : Type)
        (InsertChain : Chain -> list Block -> Chain * Z * option error)
        (remotes : list stationStatus) (hashes numbers : list Z) (c : Chain)
        (bs : list Block),
         numbers_wf numbers -> length hashes = length numbers -> numbers <> [] ->
         FxInsertChain bs
           ∈ snd (fst (assignDownloadTask header_hash net_hashes net_headers net_bodies
                         sched Chain InsertChain remotes hashes numbers c)) ->
         exists task, hash_linked_chunk header_hash task (map blk_header bs)).
Proof.
  split.
  - intros task task' sent Hfresh Hse Hend HDo.
    assert (Hdec : blocks task' = [] \/ blocks task' <> []).
    { destruct (blocks task'); [left; reflexivity | right; discriminate]. }
    split; [| split].
    + intros Hne.
      apply (Do_chunk header_hash net_hashes net_headers net_bodies task task' sent
               Hfresh Hse Hend HDo Hne).
    + intros headers Hreply Hbad. destruct Hdec as [Hnil | Hne]; [exact Hnil |].
      exfalso. apply Hbad.
      destruct (Do_chunk header_hash net_hashes net_headers net_bodies task task' sent
                  Hfresh Hse Hend HDo Hne) as [Hlink Hnet].
      rewrite Hnet in Hreply. injection Hreply as <-. exact Hlink.
    + intros hashes Hreply Hbad. destruct Hdec as [Hnil | Hne]; [exact Hnil |].
      exfalso.
      destruct (Do_success header_hash net_hashes net_headers net_bodies task task' sent
                  Hfresh HDo Hne) as (hashes' & _ & _ & _ & Hnet & Hh & Hl & _).
      rewrite Hnet in Hreply. injection Hreply as <-. tauto.
  - intros sched Chain InsertChain remotes hashes numbers c bs Hwf Hlen Hne Hin.
    destruct (assignDownloadTask_round header_hash net_hashes net_headers net_bodies
                sched Chain InsertChain remotes hashes numbers c Hwf Hlen Hne)
      as (d & final & _ & _ & Hch & Heq).
    rewrite Heq in Hin. cbn [fst snd] in Hin.
    destruct (in_order_lookup (insertList d) (removelast numbers) _ bs
                (insert_loop_in_order Chain InsertChain _ final (insertList d) c) Hin)
      as (s & _ & Hs).
    destruct (Hch s bs Hs) as (_ & task & _ & _ & _ & Hlink).
    exists task. exact Hlink.
Qed.

(** A chunk of three blocks from the peer of the examples. *)
Example Do_delivers_three_blocks :
  Do demo_header_hash demo_net_hashes demo_net_headers demo_net_bodies
    (mkTask (Some demo_best) 1 1001 3 1003 [] 0)
  = Ok (mkTask (Some demo_best) 1 1001 3 1003
          [mkBlock (mkHeader 1000 1 0) []; mkBlock (mkHeader 1001 2 0) [];
           mkBlock (mkHeader 1002 3 0) []] 1,
        [ReqBodies [1001; 1002; 1003]; ReqHeaders (mkHeaderReq 1 3 0 false);
         ReqHashes (mkHashReq 1 2 1 false)]).
Proof. vm_compute. reflexivity. Qed.

Lemma Do_delivers_hash_linked_witness :
  hash_linked_chunk demo_header_hash (mkTask (Some demo_best) 1 1001 3 1003 [] 0)
    [mkHeader 1000 1 0; mkHeader 1001 2 0; mkHeader 1002 3 0].
Proof.
  apply (proj1 (proj1 (Do_delivers_hash_linked demo_header_hash demo_net_hashes
                         demo_net_headers demo_net_bodies)
                  (mkTask (Some demo_best) 1 1001 3 1003 [] 0) _ _
                  eq_refl ltac:(cbn; lia) ltac:(cbn; lia) Do_delivers_three_blocks)).
  discriminate.
Defined.

(** The tasks pushed are those of the adjacent points, the first on top. *)
Lemma adjacent_tasks_snoc : forall (i : nat) (hashes numbers : list Z) (sn sh en eh : Z),
  numbers !! i = Some sn -> hashes !! i = Some sh ->
  numbers !! S i = Some en -> hashes !! S i = Some eh ->
  adjacent_tasks (take (S (S i)) hashes) (take (S (S i)) numbers)
  = adjacent_tasks (take (S i) hashes) (take (S i) numbers)
    ++ [mkTask None sn sh en eh [] 0].
Proof.
  induction i as [| i IH]; intros hashes numbers sn sh en eh Hn Hh Hn' Hh'.
  - destruct numbers as [| a [| b numbers]]; try discriminate.
    destruct hashes as [| x [| y hashes]]; try discriminate.
    cbn in Hn, Hh, Hn', Hh'. injection Hn as ->. injection Hh as ->.
    injection Hn' as ->. injection Hh' as ->.
    cbn. destruct numbers, hashes; reflexivity.
  - destruct numbers as [| a numbers]; [discriminate |].
    destruct hashes as [| x hashes]; [discriminate |].
    cbn [lookup list_lookup] in Hn, Hh, Hn', Hh'.
    pose proof (IH hashes numbers sn sh en eh Hn Hh Hn' Hh') as IH'.
    destruct numbers as [| b numbers]; [discriminate |].
    destruct hashes as [| y hashes]; [discriminate |].
    change (take (S (S (S i))) (a :: b :: numbers))
      with (a :: take (S (S i)) (b :: numbers)).
    change (take (S (S (S i))) (x :: y :: hashes))
      with (x :: take (S (S i)) (y :: hashes)).
    change (take (S (S i)) (a :: b :: numbers)) with (a :: take (S i) (b :: numbers)).
    change (take (S (S i)) (x :: y :: hashes)) with (x :: take (S i) (y :: hashes)).
    change (take (S (S i)) (b :: numbers)) with (b :: take (S i) numbers) in *.
    change (take (S (S i)) (y :: hashes)) with (y :: take (S i) hashes) in *.
    change (take (S i) (b :: numbers)) with (b :: take i numbers) in *.
    change (take (S i) (y :: hashes)) with (y :: take i hashes) in *.
    cbn [adjacent_tasks] in *. rewrite IH'. reflexivity.
Qed.

Lemma push_tasks_adjacent : forall (i : nat) (hashes numbers : list Z)
    (acc : list downloadTask),
  (i < length numbers)%nat -> length hashes = length numbers ->
  push_tasks i hashes numbers acc
  = Ok (adjacent_tasks (take (S i) hashes) (take (S i) numbers) ++ acc).
Proof.
  induction i as [| i IH]; intros hashes numbers acc Hi Hlen.
  - cbn [push_tasks]. destruct numbers as [| a numbers]; [cbn in Hi; lia |].
    destruct hashes as [| x hashes]; [discriminate |]. reflexivity.
  - cbn [push_tasks].
    destruct (lookup_lt_is_Some_2 numbers i ltac:(lia)) as [sn Hsn].
    destruct (lookup_lt_is_Some_2 hashes i ltac:(lia)) as [sh Hsh].
    destruct (lookup_lt_is_Some_2 numbers (S i) ltac:(lia)) as [en Hen].
    destruct (lookup_lt_is_Some_2 hashes (S i) ltac:(lia)) as [eh Heh].
    rewrite Hsn, Hsh, Hen, Heh.
    rewrite (IH hashes numbers _ ltac:(lia) Hlen).
    rewrite (adjacent_tasks_snoc i hashes numbers sn sh en eh Hsn Hsh Hen Heh).
    rewrite <- app_assoc. reflexivity.
Qed.

Lemma push_tasks_all (hashes numbers : list Z) :
  length hashes = length numbers ->
  push_tasks (length numbers - 1) hashes numbers [] = Ok (adjacent_tasks hashes numbers).
Proof.
  intros Hlen. destruct numbers as [| a numbers].
  - destruct hashes; [reflexivity | discriminate].
  - rewrite push_tasks_adjacent by (cbn [length]; lia || exact Hlen).
    cbn [length]. replace (S (S (length numbers) - 1)) with (S (length numbers)) by lia.
    rewrite app_nil_r.
    rewrite (take_ge (a :: numbers)) by (cbn [length]; lia).
    rewrite (take_ge hashes) by (rewrite Hlen; cbn [length]; lia).
    reflexivity.
Qed.

Lemma adjacent_tasks_length : forall (numbers hashes : list Z),
  length hashes = length numbers ->
  length (adjacent_tasks hashes numbers) = (length numbers - 1)%nat.
Proof.
  induction numbers as [| a numbers IH]; intros hashes Hlen.
  - destruct hashes; reflexivity.
  - destruct hashes as [| x hashes]; [discriminate |].
    injection Hlen as Hlen. pose proof (IH hashes Hlen) as IH'.
    destruct numbers as [| b numbers]; [reflexivity |].
    destruct hashes as [| y hashes]; [discriminate |].
    cbn [adjacent_tasks length] in *. lia.
Qed.

Lemma adjacent_tasks_lookup : forall (numbers hashes : list Z) (k : nat)
    (t : downloadTask),
  length hashes = length numbers ->
  adjacent_tasks hashes numbers !! k = Some t
  <-> from_skeleton hashes numbers k t /\ worker t = None /\ blocks t = []
      /\ errorTotal t = 0.
Proof.
  induction numbers as [| a numbers IH]; intros hashes k t Hlen.
  - destruct hashes; [| discriminate]. cbn. split; [discriminate |].
    intros ((H & _) & _). discriminate.
  - destruct hashes as [| x hashes]; [discriminate |].
    injection Hlen as Hlen. pose proof (IH hashes) as IH'.
    destruct numbers as [| b numbers].
    + destruct hashes; [| discriminate]. cbn. split; [discriminate |].
      intros ((_ & _ & H & _) & _). destruct k; discriminate.
    + destruct hashes as [| y hashes]; [discriminate |].
      cbn [adjacent_tasks]. destruct k as [| k].
      * cbn. unfold from_skeleton. cbn. split.
        -- intros H. injection H as <-. cbn. repeat split; reflexivity.
        -- intros ((H1 & H2 & H3 & H4) & H5 & H6 & H7).
           destruct t; cbn in *. injection H1 as ->. injection H2 as ->.
           injection H3 as ->. injection H4 as ->. subst. reflexivity.
      * change ((?h :: ?l) !! S k) with (l !! k).
        rewrite (IH' k t Hlen). unfold from_skeleton. reflexivity.
Qed.

(** ** The log of a round *)

Lemma drop_nth_elem_of {A : Type} (l : list A) (k : nat) (x y : A) :
  l !! k = Some x -> y ∈ l -> y = x \/ y ∈ drop_nth k l.
Proof.
  intros Hk Hy. rewrite <- (take_drop_middle l k x Hk) in Hy.
  apply elem_of_app in Hy. destruct Hy as [Hy | Hy].
  - right. unfold drop_nth. apply elem_of_app. left. exact Hy.
  - apply elem_of_cons in Hy. destruct Hy as [-> | Hy]; [left; reflexivity |].
    right. unfold drop_nth. apply elem_of_app. right. exact Hy.
Qed.

Lemma drop_nth_subseteq {A : Type} (l : list A) (k : nat) (y : A) :
  y ∈ drop_nth k l -> y ∈ l.
Proof.
  unfold drop_nth. intros Hy. apply elem_of_app in Hy. destruct Hy as [Hy | Hy].
  - apply (subseteq_take k l). exact Hy.
  - apply (subseteq_drop (S k) l). exact Hy.
Qed.

Lemma started_before_app (log more : list event) (i : nat) (t : downloadTask) :
  started_before log i t -> started_before (log ++ more) i t.
Proof.
  intros (i' & t' & Hlt & Hi' & Hs). exists i', t'.
  split; [exact Hlt |]. split; [| exact Hs].
  apply lookup_app_l_Some. exact Hi'.
Qed.

Lemma started_before_same (log : list event) (i : nat) (t t' : downloadTask) :
  startNumber t = startNumber t' -> started_before log i t -> started_before log i t'.
Proof.
  intros Heq (i' & t0 & Hlt & Hi' & Hs). exists i', t0.
  split; [exact Hlt |]. split; [exact Hi' | congruence].
Qed.

Lemma launch_in_log (evs : list event) (t : downloadTask) :
  EvLaunch t ∈ evs ->
  exists i : nat, (i < length evs)%nat /\ reverse evs !! i = Some (EvLaunch t).
Proof.
  intros Hin. apply elem_of_reverse in Hin. apply list_elem_of_lookup in Hin.
  destruct Hin as [i Hi]. exists i. split; [| exact Hi].
  apply lookup_lt_Some in Hi. rewrite length_reverse in Hi. exact Hi.
Qed.

Section LogFacts.

Variable header_hash : Header -> Z.
Variable net_hashes : downloadTask -> getBlcokHashByNumber -> option (list Z).
Variable net_headers : downloadTask -> getBlockHeadersData -> option (list Header).
Variable net_bodies : downloadTask -> list Z -> option (list Body).

Local Abbreviation Do := (Do header_hash net_hashes net_headers net_bodies).
Local Abbreviation log_inv := (log_inv header_hash net_hashes net_headers net_bodies).

Lemma log_inv_launched (d : dispatcher) (w : stationStatus) (ws : list stationStatus)
  (t : downloadTask) (ts : list downloadTask) :
  workers d = w :: ws -> taskes d = t :: ts -> log_inv d ->
  log_inv (launched d w ws t ts).
Proof.
  intros Ew Et (H1 & H2 & H3 & H4 & H5 & H6 & H7 & H8).
  unfold launched.
  set (s := set_worker t w).
  split; [apply (proj1 (dispatcher_inv_kept header_hash net_hashes net_headers
                          net_bodies) d w ws t ts Ew Et H1) |].
  cbn [insertList events running taskes].
  rewrite reverse_cons.
  set (log := reverse (events d)) in *.
  split; [exact H2 |].
  split.
  { intros started Hin. apply elem_of_cons in Hin. destruct Hin as [-> | Hin].
    - apply elem_of_cons. left. reflexivity.
    - apply elem_of_cons. right. apply H3. exact Hin. }
  split.
  { intros started Hin. apply elem_of_cons in Hin. destruct Hin as [Heq | Hin].
    - injection Heq as ->. left. apply elem_of_cons. left. reflexivity.
    - destruct (H4 started Hin) as [Hrun | (task & sent & HDo & Hres)].
      + left. apply elem_of_cons. right. exact Hrun.
      + right. exists task, sent. split; [exact HDo |].
        apply elem_of_cons. right. exact Hres. }
  split.
  { intros task Hin. apply elem_of_cons in Hin. destruct Hin as [Heq | Hin];
      [discriminate |].
    destruct (H5 task Hin) as (started & sent & Hl & HDo).
    exists started, sent. split; [| exact HDo]. apply elem_of_cons. right. exact Hl. }
  split.
  { intros i task Hi. apply lookup_snoc_Some in Hi.
    destruct Hi as [[Hlt Hi] | [_ Heq]]; [| discriminate].
    destruct (H6 i task Hi) as [Hover Hnot]. split.
    - intros Ho. apply lookup_app_l_Some. apply Hover. exact Ho.
    - intros Hno Hc. apply lookup_snoc_Some in Hc.
      destruct Hc as [[_ Hc] | [_ Heq]]; [| discriminate].
      exact (Hnot Hno Hc). }
  split.
  { intros i Hi. apply lookup_snoc_Some in Hi.
    destruct Hi as [[Hlt Hi] | [_ Heq]]; [| discriminate].
    destruct (H7 i Hi) as (i' & task & -> & Hres & Hover).
    exists i', task. split; [reflexivity |]. split; [| exact Hover].
    apply lookup_app_l_Some. exact Hres. }
  intros i Hi. apply lookup_snoc_Some in Hi.
  destruct Hi as [[Hlt Hi] | [_ Heq]]; [| discriminate].
  destruct (H8 i Hi) as [Hall Hlater].
  rewrite Et in Hall. apply Forall_app in Hall. destruct Hall as [Hq Hr].
  inversion Hq as [| ? ? Ht Hts]; subst.
  assert (Hs : started_before log i s)
    by (apply (started_before_same log i t s eq_refl Ht)).
  split.
  - apply Forall_app. split.
    + eapply Forall_impl; [exact Hts |]. intros x Hx. apply started_before_app. exact Hx.
    + constructor; [apply started_before_app; exact Hs |].
      eapply Forall_impl; [exact Hr |]. intros x Hx. apply started_before_app. exact Hx.
  - intros j t0 Hij Hj. apply lookup_snoc_Some in Hj.
    destruct Hj as [[_ Hj] | [_ Heq]].
    + apply started_before_app. exact (Hlater j t0 Hij Hj).
    + injection Heq as <-. apply started_before_app. exact Hs.
Qed.

Lemma log_inv_received (d : dispatcher) (k : nat) (started task : downloadTask)
  (sent : list request) :
  running d !! k = Some started -> Do started = Ok (task, sent) -> log_inv d ->
  log_inv (received d k task).
Proof.
  intros Hk HDo (H1 & H2 & H3 & H4 & H5 & H6 & H7 & H8).
  pose proof (proj2 (dispatcher_inv_kept header_hash net_hashes net_headers net_bodies)
                d k started task sent Hk HDo H1) as H1'.
  split; [exact H1' |]. clear H1'.
  pose proof (Do_deliver _ _ _ _ started task sent HDo) as Htask.
  assert (Hstart : startNumber started = startNumber task)
    by (rewrite Htask; reflexivity).
  assert (Hrun : started ∈ running d)
    by (apply list_elem_of_lookup; eexists; exact Hk).
  set (log := reverse (events d)) in *.
  (* the events the receipt adds *)
  assert (Hev : exists more : list event,
             reverse (events (received d k task)) = log ++ EvResult task :: more
             /\ events (received d k task) = reverse more ++ EvResult task :: events d
             /\ ((more = [EvClear] /\ over_budget task
                  /\ taskes (received d k task) = [])
                 \/ (more = [] /\ ~ over_budget task
                     /\ (taskes (received d k task) = task :: taskes d
                         \/ taskes (received d k task) = taskes d)))
             /\ running (received d k task) = drop_nth k (running d)
             /\ insertList (received d k task)
                = delivered (events (received d k task))).
  { unfold received, handle_result, over_budget.
    destruct (length (blocks task) =? 0)%nat eqn:Eb.
    - assert (Hnil : blocks task = [])
        by (apply Nat.eqb_eq in Eb; destruct (blocks task); [reflexivity | discriminate]).
      destruct (Z.ltb_spec 5 (errorTotal task)) as [Hgt | Hle];
        cbn [events taskes running insertList].
      + exists [EvClear]. rewrite !reverse_cons. fold log.
        rewrite <- app_assoc. split; [reflexivity |]. split; [reflexivity |].
        split; [left; repeat split; [exact Hnil | exact Hgt] |].
        split; [reflexivity |]. cbn [delivered]. rewrite Eb. exact H2.
      + exists []. rewrite !reverse_cons. fold log.
        split; [reflexivity |]. split; [reflexivity |].
        split; [right; split; [reflexivity |]; split; [| left; reflexivity];
                intros [_ Hgt]; lia |].
        split; [reflexivity |]. cbn [delivered]. rewrite Eb. exact H2.
    - cbn [events taskes running insertList].
      exists []. rewrite !reverse_cons. fold log.
      split; [reflexivity |]. split; [reflexivity |].
      split; [right; split; [reflexivity |]; split; [| right; reflexivity];
              intros [Hnil _]; rewrite Hnil in Eb; discriminate |].
      split; [reflexivity |]. cbn [delivered]. rewrite Eb, H2. reflexivity. }
  destruct Hev as (more & Hlog & Hevs & Hcases & Hrunning & Hins).
  rewrite Hlog, Hrunning.
  assert (Hold : forall e, e ∈ events d -> e ∈ events (received d k task)).
  { intros e He. rewrite Hevs. apply elem_of_app. right.
    apply elem_of_cons. right. exact He. }
  assert (Hnew : EvResult task ∈ events (received d k task)).
  { rewrite Hevs. apply elem_of_app. right. apply elem_of_cons. left. reflexivity. }
  assert (Hsplit : forall e, e ∈ events (received d k task) ->
             e ∈ events d \/ e = EvResult task \/ e = EvClear).
  { intros e He. rewrite Hevs in He. apply elem_of_app in He.
    destruct He as [He | He].
    - apply elem_of_reverse in He.
      destruct Hcases as [(-> & _) | (-> & _)].
      + apply list_elem_of_singleton in He. right. right. exact He.
      + inversion He.
    - apply elem_of_cons in He. destruct He as [-> | He]; [right; left; reflexivity |].
      left. exact He. }
  split; [exact Hins |].
  split.
  { intros s Hs. apply Hold, H3. apply (drop_nth_subseteq _ _ _ Hs). }
  split.
  { intros s Hs. destruct (Hsplit _ Hs) as [Hs' | [Heq | Heq]]; try discriminate.
    destruct (H4 s Hs') as [Hr | (task' & sent' & HDo' & Hres)].
    - destruct (drop_nth_elem_of _ k started s Hk Hr) as [-> | Hin].
      + right. exists task, sent. split; [exact HDo | exact Hnew].
      + left. exact Hin.
    - right. exists task', sent'. split; [exact HDo' |]. apply Hold. exact Hres. }
  split.
  { intros task' Hin. destruct (Hsplit _ Hin) as [Hin' | [Heq | Heq]];
      try discriminate.
    - destruct (H5 task' Hin') as (s & sent' & Hl & HDo').
      exists s, sent'. split; [apply Hold; exact Hl | exact HDo'].
    - injection Heq as ->. exists started, sent.
      split; [apply Hold, H3; exact Hrun | exact HDo]. }
  assert (Hlen : length log = length (events d))
    by (unfold log; apply length_reverse).
  split.
  { intros i task' Hi.
    destruct (lt_dec i (length log)) as [Hlt | Hge].
    - rewrite lookup_app_l in Hi by exact Hlt.
      destruct (H6 i task' Hi) as [Hover Hnot]. split.
      + intros Ho. apply lookup_app_l_Some. apply Hover. exact Ho.
      + intros Hno Hc.
        destruct (lt_dec (S i) (length log)) as [Hlt' | Hge'].
        * rewrite lookup_app_l in Hc by exact Hlt'. exact (Hnot Hno Hc).
        * rewrite lookup_app_r in Hc by lia.
          replace (S i - length log)%nat with 0%nat in Hc by lia. discriminate.
    - rewrite lookup_app_r in Hi by lia.
      destruct (i - length log)%nat as [| n] eqn:En.
      + cbn in Hi. injection Hi as <-.
        assert (Hi' : i = length log) by lia. subst i.
        destruct Hcases as [(-> & Hover & _) | (-> & Hno & _)].
        * split; [| intros Hno; contradiction].
          intros _. rewrite lookup_app_r by lia.
          replace (S (length log) - length log)%nat with 1%nat by lia. reflexivity.
        * split; [intros Ho; contradiction |].
          intros _ Hc. apply lookup_lt_Some in Hc. rewrite length_app in Hc.
          cbn [length] in Hc. lia.
      + cbn in Hi. destruct Hcases as [(-> & _) | (-> & _)].
        * destruct n; cbn in Hi; discriminate.
        * discriminate. }
  split.
  { intros i Hi.
    destruct (lt_dec i (length log)) as [Hlt | Hge].
    - rewrite lookup_app_l in Hi by exact Hlt.
      destruct (H7 i Hi) as (i' & task' & -> & Hres & Hover).
      exists i', task'. split; [reflexivity |]. split; [| exact Hover].
      apply lookup_app_l_Some. exact Hres.
    - rewrite lookup_app_r in Hi by lia.
      destruct (i - length log)%nat as [| n] eqn:En; [discriminate |].
      cbn in Hi. destruct Hcases as [(-> & Hover & _) | (-> & _)]; [| discriminate].
      destruct n; [| discriminate].
      exists (length log), task. split; [lia |]. split; [| exact Hover].
      rewrite lookup_app_r by lia. rewrite Nat.sub_diag. reflexivity. }
  intros i Hi.
  destruct (lt_dec i (length log)) as [Hlt | Hge].
  - rewrite lookup_app_l in Hi by exact Hlt.
    destruct (H8 i Hi) as [Hall Hlater].
    apply Forall_app in Hall. destruct Hall as [Hq Hr].
    assert (Hstarted : started_before log i started).
    { rewrite Forall_forall in Hr. apply Hr. exact Hrun. }
    assert (Htk : started_before log i task)
      by (apply (started_before_same log i started task Hstart Hstarted)).
    split.
    + apply Forall_app. split.
      * destruct Hcases as [(_ & _ & ->) | (_ & _ & [-> | ->])].
        -- constructor.
        -- constructor; [apply started_before_app; exact Htk |].
           eapply Forall_impl; [exact Hq |]. intros x Hx.
           apply started_before_app. exact Hx.
        -- eapply Forall_impl; [exact Hq |]. intros x Hx.
           apply started_before_app. exact Hx.
      * apply Forall_drop_nth. eapply Forall_impl; [exact Hr |]. intros x Hx.
        apply started_before_app. exact Hx.
    + intros j t0 Hij Hj.
      destruct (lt_dec j (length log)) as [Hjl | Hjg].
      * rewrite lookup_app_l in Hj by exact Hjl.
        apply started_before_app. exact (Hlater j t0 Hij Hj).
      * rewrite lookup_app_r in Hj by lia.
        destruct (j - length log)%nat as [| n]; [discriminate |].
        cbn in Hj. destruct Hcases as [(-> & _) | (-> & _)]; [| discriminate].
        destruct n; discriminate.
  - rewrite lookup_app_r in Hi by lia.
    destruct (i - length log)%nat as [| n] eqn:En; [discriminate |].
    cbn in Hi. destruct Hcases as [(-> & Hover & Hq) | (-> & _)]; [| discriminate].
    destruct n; [| discriminate].
    assert (Hi' : i = S (length log)) by lia. subst i.
    split.
    + rewrite Hq. cbn [app]. apply Forall_forall. intros s Hs.
      apply drop_nth_subseteq in Hs.
      destruct (launch_in_log (events d) s (H3 s Hs)) as (i' & Hi'lt & Hi').
      exists i', s. split; [lia |]. split; [| reflexivity].
      apply lookup_app_l_Some. exact Hi'.
    + intros j t0 Hij Hj. apply lookup_lt_Some in Hj. rewrite length_app in Hj.
      cbn [length] in Hj. lia.
Qed.

Lemma log_inv_kept : kept header_hash net_hashes net_headers net_bodies log_inv.
Proof.
  split.
  - intros d w ws t ts Ew Et H. apply log_inv_launched; assumption.
  - intros d k started task sent Hk HDo H. apply (log_inv_received d k started task sent);
      assumption.
Qed.

End LogFacts.

(** *** What the log has delivered *)

Lemma delivered_lookup_Some : forall (evs : list event) (s : Z) (bs : list Block),
  delivered evs !! s = Some bs ->
  exists task, EvResult task ∈ evs /\ startNumber task = s /\ blocks task = bs
               /\ bs <> [].
Proof.
  induction evs as [| e evs IH]; intros s bs Hs.
  - cbn in Hs. rewrite lookup_empty in Hs. discriminate.
  - assert (Hrest : delivered evs !! s = Some bs ->
              exists task, EvResult task ∈ e :: evs /\ startNumber task = s
                           /\ blocks task = bs /\ bs <> []).
    { intros H. destruct (IH s bs H) as (task & Hin & Hrest).
      exists task. split; [apply elem_of_cons; right; exact Hin | exact Hrest]. }
    destruct e as [t | task |]; cbn [delivered] in Hs; [auto | | auto].
    destruct (length (blocks task) =? 0)%nat eqn:Eb; [auto |].
    destruct (decide (startNumber task = s)) as [Heq | Hne].
    + rewrite Heq, lookup_insert_eq in Hs. injection Hs as <-.
      exists task. split; [apply elem_of_cons; left; reflexivity |].
      split; [exact Heq |]. split; [reflexivity |].
      intros Hnil. rewrite Hnil in Eb. discriminate.
    + rewrite lookup_insert_ne in Hs by exact Hne. auto.
Qed.

Lemma delivered_has : forall (evs : list event) (task : downloadTask),
  EvResult task ∈ evs -> blocks task <> [] ->
  is_Some (delivered evs !! startNumber task).
Proof.
  induction evs as [| e evs IH]; intros task Hin Hne; [inversion Hin |].
  apply elem_of_cons in Hin.
  assert (Hb : (length (blocks task) =? 0)%nat = false).
  { destruct (blocks task); [congruence | reflexivity]. }
  destruct Hin as [<- | Hin].
  - cbn [delivered]. rewrite Hb, lookup_insert_eq. eexists. reflexivity.
  - pose proof (IH task Hin Hne) as Hrest.
    destruct e as [t | task' |]; cbn [delivered]; [exact Hrest | | exact Hrest].
    destruct (length (blocks task') =? 0)%nat; [exact Hrest |].
    destruct (decide (startNumber task' = startNumber task)) as [Heq | Hneq].
    + rewrite Heq, lookup_insert_eq. eexists. reflexivity.
    + rewrite lookup_insert_ne by exact Hneq. exact Hrest.
Qed.

(** *** The first attempts of the inserting loop *)

Section LoopFacts.

Variable Chain : Type.
Variable InsertChain : Chain -> list Block -> Chain * Z * option error.


Lemma insert_loop_first_attempts : forall (starts : list Z) (final : Z)
    (ins : gmap Z (list Block)) (c : Chain),
  first_attempts (snd (insert_loop Chain InsertChain starts final ins c))
    `prefix_of` (FxInsertChain <$> present_prefix ins starts)
  /\ (forall h, fst (fst (insert_loop Chain InsertChain starts final ins c)) = Ok (h, None) ->
        first_attempts (snd (insert_loop Chain InsertChain starts final ins c))
        = FxInsertChain <$> present_prefix ins starts).
Proof.
  induction starts as [| start rest IH]; intros final ins c.
  - cbn. split; [reflexivity | intros _ _; reflexivity].
  - cbn [insert_loop present_prefix].
    destruct (ins !! start) as [bs |]; [| cbn; split; [reflexivity | intros _ _; reflexivity]].
    destruct (InsertChain c bs) as [[c1 i1] [e1 |]].
    + destruct (InsertChain c1 bs) as [[c2 index] [err |]].
      * assert (Hp : first_attempts [FxInsertChain bs; FxSleepSecond; FxInsertChain bs]
                     `prefix_of` (FxInsertChain <$> bs :: present_prefix ins rest)).
        { cbn. exists (FxInsertChain <$> present_prefix ins rest). reflexivity. }
        destruct (bs !! Z.to_nat index) as [b |];
          [destruct (0 <=? index) |]; cbn [fst snd];
          (split; [exact Hp | intros h Hh; discriminate]).
      * destruct (IH final ins c2) as [IH1 IH2].
        destruct (insert_loop Chain InsertChain rest final ins c2) as [[r c3] fx].
        cbn [fst snd] in *. rewrite fmap_cons.
        change (first_attempts
                  (FxInsertChain bs :: FxSleepSecond :: FxInsertChain bs :: fx))
          with (FxInsertChain bs :: first_attempts fx).
        split; [apply prefix_cons; exact IH1 |].
        intros h Hh. f_equal. apply (IH2 h Hh).
    + destruct (IH final ins c1) as [IH1 IH2].
      destruct (insert_loop Chain InsertChain rest final ins c1) as [[r c2] fx].
      cbn [fst snd] in *. rewrite fmap_cons.
      change (first_attempts (FxInsertChain bs :: fx))
        with (FxInsertChain bs :: first_attempts fx).
      split; [apply prefix_cons; exact IH1 |].
      intros h Hh. f_equal. apply (IH2 h Hh).
Qed.

End LoopFacts.

Section RoundLog.

Variable header_hash : Header -> Z.
Variable net_hashes : downloadTask -> getBlcokHashByNumber -> option (list Z).
Variable net_headers : downloadTask -> getBlockHeadersData -> option (list Header).
Variable net_bodies : downloadTask -> list Z -> option (list Body).
Variable sched : nat -> nat.
Variable Chain : Type.
Variable InsertChain : Chain -> list Block -> Chain * Z * option error.

Lemma collect_ends : forall (fuel : nat) (d d' : dispatcher),
  collect header_hash net_hashes net_headers net_bodies sched fuel d = Ok d' ->
  taskCount d' <= 0.
Proof.
  induction fuel as [| fuel IH]; intros d d' Hc; [discriminate |].
  cbn [collect] in Hc. destruct (Z.ltb_spec 0 (taskCount d)) as [Hpos | Hle];
    [| injection Hc as <-; exact Hle].
  destruct (running d !! (sched fuel mod length (running d))%nat)
    as [started |]; [| discriminate].
  destruct (Do header_hash net_hashes net_headers net_bodies started)
    as [[task sent] | |]; [| discriminate | discriminate].
  apply (IH _ d' Hc).
Qed.

Lemma log_inv_init (remotes : list stationStatus) (ts : list downloadTask) :
  Forall task_wf ts ->
  log_inv header_hash net_hashes net_headers net_bodies (init_dispatcher remotes ts).
Proof.
  intros Hts.
  split; [apply (init_dispatcher_inv header_hash remotes ts Hts) |].
  unfold init_dispatcher. cbn [insertList events running taskes].
  split; [reflexivity |].
  split; [intros s Hs; inversion Hs |].
  split; [intros s Hs; inversion Hs |].
  split; [intros s Hs; inversion Hs |].
  split; [intros i task Hi; discriminate |].
  split; intros i Hi; discriminate.
Qed.

(** [assignDownloadTask], unfolded for well-formed arguments, with the
    log of the round. *)
Lemma assignDownloadTask_log (remotes : list stationStatus)
  (hashes numbers : list Z) (c : Chain) :
  numbers_wf numbers -> length hashes = length numbers -> numbers <> [] ->
  exists d final,
    last numbers = Some final
    /\ log_inv header_hash net_hashes net_headers net_bodies d
    /\ chunks_linked header_hash (insertList d)
    /\ running d = []
    /\ assignDownloadTask header_hash net_hashes net_headers net_bodies sched
         Chain InsertChain remotes hashes numbers c
       = (insert_loop Chain InsertChain (removelast numbers) final (insertList d) c,
          events d).
Proof.
  intros Hwf Hlen Hne. unfold assignDownloadTask.
  assert (Hpos : (0 < length numbers)%nat).
  { destruct numbers; [congruence | cbn [length]; lia]. }
  destruct (push_tasks_total (length numbers - 1) hashes numbers [] ltac:(lia) Hlen)
    as (ts & Hts & _).
  rewrite Hts.
  assert (Hwfts : Forall task_wf ts).
  { refine (push_tasks_wf _ hashes numbers [] ts Hwf _ Hts). constructor. }
  destruct (collect_round header_hash net_hashes net_headers net_bodies sched
              remotes ts Hwfts) as (d & Hd & Hinv & Hch).
  rewrite Hd.
  assert (Hlog : log_inv header_hash net_hashes net_headers net_bodies d).
  { pose proof (log_inv_kept header_hash net_hashes net_headers net_bodies) as Hkept.
    refine (collect_keeps header_hash net_hashes net_headers net_bodies sched _ Hkept
              _ _ d _ Hd).
    apply (doTask_keeps header_hash net_hashes net_headers net_bodies _ _ Hkept).
    apply log_inv_init. exact Hwfts. }
  assert (Hrun : running d = []).
  { pose proof (collect_ends _ _ _ Hd) as Hc0.
    destruct Hinv as (Hcount & _). rewrite Hcount in Hc0.
    destruct (running d); [reflexivity | cbn [length] in Hc0; lia]. }
  destruct (last numbers) as [final |] eqn:Elast.
  - exists d, final. split; [reflexivity |]. split; [exact Hlog |].
    split; [exact Hch |]. split; [exact Hrun |].
    destruct (insert_loop Chain InsertChain (removelast numbers) final (insertList d) c)
      as [[r c'] fx]. reflexivity.
  - apply last_None in Elast. congruence.
Qed.

End RoundLog.

(** *** A round in which every task delivers *)


(** [doTask] goes on until [maxTask] tasks run or the workers or the
    tasks have run out. *)
Lemma doTask_loop_saturates : forall (fuel : nat) (d : dispatcher),
  maxTask - taskCount d <= Z.of_nat fuel ->
  maxTask <= taskCount (doTask_loop fuel d)
  \/ workers (doTask_loop fuel d) = [] \/ taskes (doTask_loop fuel d) = [].
Proof.
  induction fuel as [| fuel IH]; intros d Hfuel.
  - left. cbn [doTask_loop]. lia.
  - cbn [doTask_loop]. destruct (Z.ltb_spec (taskCount d) maxTask) as [Hlt | Hge];
      [| left; exact Hge].
    unfold getReadyTask.
    destruct (workers d) as [| w ws] eqn:Ew; [right; left; exact Ew |].
    destruct (taskes d) as [| t ts] eqn:Et; [right; right; exact Et |].
    apply IH. cbn [taskCount]. lia.
Qed.

Lemma doTask_saturates (d : dispatcher) :
  maxTask <= taskCount (doTask d) \/ workers (doTask d) = [] \/ taskes (doTask d) = [].
Proof. apply doTask_loop_saturates. lia. Qed.

Section Delivering.

Variable header_hash : Header -> Z.
Variable net_hashes : downloadTask -> getBlcokHashByNumber -> option (list Z).
Variable net_headers : downloadTask -> getBlockHeadersData -> option (list Header).
Variable net_bodies : downloadTask -> list Z -> option (list Body).
Variable sched : nat -> nat.
Variable remotes : list stationStatus.
Variable ts : list downloadTask.

Hypothesis delivers : forall t w task' sent,
  t ∈ ts -> w ∈ remotes ->
  Do header_hash net_hashes net_headers net_bodies (set_worker t w) = Ok (task', sent) ->
  blocks task' <> [].

Lemma delivering_inv_kept :
  kept header_hash net_hashes net_headers net_bodies (delivering_inv remotes ts).
Proof.
  split.
  - intros d w ws t ts0 Ew Et (Hq & Hr & Hw & Hcov & Hcount & Hev).
    unfold delivering_inv, launched. cbn [taskes running workers insertList events].
    rewrite Et in Hq. rewrite Ew in Hw, Hcount.
    inversion Hq as [| ? ? Ht Hq']; subst. inversion Hw as [| ? ? Hwr Hw']; subst.
    split; [exact Hq' |]. split; [constructor; [exists t, w; auto | exact Hr] |].
    split; [exact Hw' |]. split; [| split].
    + intros t' Ht'. destruct (Hcov t' Ht') as [Hin | [[w' Hin] | Hin]].
      * rewrite Et in Hin. apply elem_of_cons in Hin. destruct Hin as [-> | Hin].
        -- right. left. exists w. left.
        -- left. exact Hin.
      * right. left. exists w'. right. exact Hin.
      * right. right. exact Hin.
    + cbn [length] in *. lia.
    + constructor; [split; [reflexivity | discriminate] | exact Hev].
  - intros d k started task sent Hk HDo (Hq & Hr & Hw & Hcov & Hcount & Hev).
    pose proof (Do_deliver _ _ _ _ started task sent HDo) as Htask.
    assert (Hst : exists t w, t ∈ ts /\ w ∈ remotes /\ started = set_worker t w).
    { rewrite Forall_forall in Hr. apply Hr. apply list_elem_of_lookup. eexists. exact Hk. }
    destruct Hst as (t & w & Ht & Hwr & ->).
    pose proof (delivers t w task sent Ht Hwr HDo) as Hnon.
    assert (Eb : (length (blocks task) =? 0)%nat = false).
    { apply Nat.eqb_neq. destruct (blocks task); [congruence | cbn; lia]. }
    pose proof (length_drop_nth k (running d) _ Hk) as Hlen.
    unfold delivering_inv, received, handle_result. rewrite Eb.
    cbn [taskes running workers insertList events].
    assert (Hwt : worker task = Some w) by (rewrite Htask; reflexivity).
    assert (Hsn : startNumber task = startNumber t) by (rewrite Htask; reflexivity).
    rewrite Hwt. cbn [from_option].
    split; [exact Hq |]. split; [apply Forall_drop_nth; exact Hr |].
    split; [constructor; assumption |]. split; [| split].
    + intros t' Ht'. destruct (Hcov t' Ht') as [Hin | [[w' Hin] | Hin]].
      * left. exact Hin.
      * destruct (drop_nth_elem_of (running d) k _ _ Hk Hin) as [Heq | Hin'].
        -- right. right. rewrite Hsn.
           assert (E : startNumber t' = startNumber t)
             by (change (startNumber (set_worker t' w') = startNumber (set_worker t w));
                 rewrite Heq; reflexivity).
           rewrite E, lookup_insert_eq. eexists. reflexivity.
        -- right. left. exists w'. exact Hin'.
      * right. right. apply lookup_insert_is_Some'. right. exact Hin.
    + cbn [length]. lia.
    + constructor; [| exact Hev]. cbn [is_failure]. rewrite Eb. split; [reflexivity | discriminate].
Qed.

End Delivering.

Lemma removelast_lookup {A : Type} (l : list A) (k : nat) (x : A) :
  removelast l !! k = Some x <-> l !! k = Some x /\ (S k < length l)%nat.
Proof.
  rewrite removelast_firstn_len.
  change (firstn (Nat.pred (length l)) l) with (take (Nat.pred (length l)) l).
  rewrite lookup_take_Some. split; intros [H1 H2]; (split; [exact H1 | lia]).
Qed.

Lemma adjacent_tasks_starts (hashes numbers : list Z) (k : nat) (s : Z) :
  length hashes = length numbers ->
  removelast numbers !! k = Some s ->
  exists t, adjacent_tasks hashes numbers !! k = Some t /\ startNumber t = s.
Proof.
  intros Hlen Hk. apply removelast_lookup in Hk. destruct Hk as [Hk Hlt].
  destruct (lookup_lt_is_Some_2 hashes k ltac:(lia)) as [sh Hsh].
  destruct (lookup_lt_is_Some_2 numbers (S k) ltac:(lia)) as [en Hen].
  destruct (lookup_lt_is_Some_2 hashes (S k) ltac:(lia)) as [eh Heh].
  exists (mkTask None s sh en eh [] 0). split; [| reflexivity].
  apply adjacent_tasks_lookup; [exact Hlen |].
  unfold from_skeleton. cbn. repeat split; assumption.
Qed.

Section NeverFails.

Variable Chain : Type.
Variable InsertChain : Chain -> list Block -> Chain * Z * option error.
Hypothesis accepts : forall c bs, snd (InsertChain c bs) = None.

Lemma insert_loop_accepting : forall (starts : list Z) (final : Z)
    (ins : gmap Z (list Block)) (c : Chain),
  snd (insert_loop Chain InsertChain starts final ins c)
  = FxInsertChain <$> present_prefix ins starts
  /\ fst (fst (insert_loop Chain InsertChain starts final ins c))
     = Ok (match first_missing ins starts with
           | Some start => u64 (start - 1)
           | None => final
           end, None).
Proof.
  induction starts as [| start rest IH]; intros final ins c.
  - split; reflexivity.
  - cbn [insert_loop present_prefix first_missing].
    destruct (ins !! start) as [bs |]; [| split; reflexivity].
    pose proof (accepts c bs) as Hacc.
    destruct (InsertChain c bs) as [[c1 i1] [e1 |]]; [discriminate |].
    destruct (IH final ins c1) as [IH1 IH2].
    destruct (insert_loop Chain InsertChain rest final ins c1) as [[r c2] fx].
    cbn [fst snd] in *. rewrite fmap_cons, IH1. split; [reflexivity | exact IH2].
Qed.

End NeverFails.

Lemma present_prefix_all (ins : gmap Z (list Block)) : forall (starts : list Z),
  (forall s, s ∈ starts -> is_Some (ins !! s)) ->
  first_missing ins starts = None
  /\ length (present_prefix ins starts) = length starts
  /\ (forall (k : nat) (bs : list Block),
        present_prefix ins starts !! k = Some bs ->
        exists s, starts !! k = Some s /\ ins !! s = Some bs).
Proof.
  induction starts as [| start rest IH]; intros Hall.
  - split; [reflexivity |]. split; [reflexivity |]. intros k bs H. discriminate.
  - cbn [first_missing present_prefix].
    destruct (Hall start ltac:(apply elem_of_cons; left; reflexivity)) as [bs0 Hbs0].
    rewrite Hbs0.
    destruct (IH ltac:(intros s Hs; apply Hall; apply elem_of_cons; right; exact Hs))
      as (H1 & H2 & H3).
    split; [exact H1 |]. split; [cbn [length]; rewrite H2; reflexivity |].
    intros k bs Hk. destruct k as [| k].
    + cbn in Hk. injection Hk as <-. exists start. split; [reflexivity | exact Hbs0].
    + apply (H3 k bs Hk).
Qed.

Section DeliveringRound.

Variable header_hash : Header -> Z.
Variable net_hashes : downloadTask -> getBlcokHashByNumber -> option (list Z).
Variable net_headers : downloadTask -> getBlockHeadersData -> option (list Header).
Variable net_bodies : downloadTask -> list Z -> option (list Body).
Variable sched : nat -> nat.

Lemma collect_after_doTask : forall (fuel : nat) (x d' : dispatcher),
  collect header_hash net_hashes net_headers net_bodies sched fuel (doTask x) = Ok d' ->
  exists y, d' = doTask y.
Proof.
  induction fuel as [| fuel IH]; intros x d' Hc; [discriminate |].
  cbn [collect] in Hc.
  destruct (0 <? taskCount (doTask x)); [| injection Hc as <-; exists x; reflexivity].
  destruct (running (doTask x) !! (sched fuel mod length (running (doTask x)))%nat)
    as [started |]; [| discriminate].
  destruct (Do header_hash net_hashes net_headers net_bodies started)
    as [[task sent] | |]; [| discriminate | discriminate].
  apply (IH _ d' Hc).
Qed.

Lemma delivering_inv_init (remotes : list stationStatus) (ts : list downloadTask) :
  delivering_inv remotes ts (init_dispatcher remotes ts).
Proof.
  unfold delivering_inv, init_dispatcher. cbn [taskes running workers insertList events].
  split; [apply Forall_forall; intros t Ht; exact Ht |].
  split; [constructor |].
  split; [apply Forall_forall; intros w Hw; apply list_elem_of_In;
          apply in_rev; apply list_elem_of_In; exact Hw |].
  split; [intros t Ht; left; exact Ht |].
  split; [rewrite length_rev; cbn [length]; lia | constructor].
Qed.

End DeliveringRound.

Section DeliveringRoundLog.

Variable header_hash : Header -> Z.
Variable net_hashes : downloadTask -> getBlcokHashByNumber -> option (list Z).
Variable net_headers : downloadTask -> getBlockHeadersData -> option (list Header).
Variable net_bodies : downloadTask -> list Z -> option (list Body).
Variable sched : nat -> nat.
Variable Chain : Type.
Variable InsertChain : Chain -> list Block -> Chain * Z * option error.

(** A round with a peer in which every run of a task delivers blocks:
    nothing fails, and when the collecting loop has ended every start has
    its chunk. *)
Lemma assignDownloadTask_all_delivered (remotes : list stationStatus)
  (hashes numbers : list Z) (c : Chain) :
  numbers_wf numbers -> length hashes = length numbers -> numbers <> [] ->
  remotes <> [] ->
  (forall t w task' sent,
      t ∈ adjacent_tasks hashes numbers -> w ∈ remotes ->
      Do header_hash net_hashes net_headers net_bodies (set_worker t w)
      = Ok (task', sent) ->
      blocks task' <> []) ->
  let evs := snd (assignDownloadTask header_hash net_hashes net_headers net_bodies
                    sched Chain InsertChain remotes hashes numbers c) in
  (forall s, s ∈ removelast numbers -> is_Some (delivered evs !! s))
  /\ Forall (fun e => is_failure e = false /\ e <> EvClear) evs.
Proof.
  intros Hwf Hlen Hne Hrem Hdel evs. unfold evs, assignDownloadTask. clear evs.
  rewrite (push_tasks_all hashes numbers Hlen).
  set (ts := adjacent_tasks hashes numbers) in *.
  assert (Hwfts : Forall task_wf ts).
  { refine (push_tasks_wf _ hashes numbers [] ts Hwf _ (push_tasks_all hashes numbers Hlen)).
    constructor. }
  destruct (collect_round header_hash net_hashes net_headers net_bodies sched
              remotes ts Hwfts) as (d & Hd & Hinv & Hch).
  rewrite Hd.
  assert (Hdl : delivering_inv remotes ts d).
  { pose proof (delivering_inv_kept header_hash net_hashes net_headers net_bodies
                  remotes ts Hdel) as Hkept.
    refine (collect_keeps header_hash net_hashes net_headers net_bodies sched _ Hkept
              _ _ d _ Hd).
    apply (doTask_keeps header_hash net_hashes net_headers net_bodies _ _ Hkept).
    apply delivering_inv_init. }
  assert (Hlog : log_inv header_hash net_hashes net_headers net_bodies d).
  { pose proof (log_inv_kept header_hash net_hashes net_headers net_bodies) as Hkept.
    refine (collect_keeps header_hash net_hashes net_headers net_bodies sched _ Hkept
              _ _ d _ Hd).
    apply (doTask_keeps header_hash net_hashes net_headers net_bodies _ _ Hkept).
    apply log_inv_init. exact Hwfts. }
  destruct Hlog as (_ & Hins & _).
  destruct Hdl as (_ & _ & _ & Hcov & Hcount & Hev).
  assert (Hrun : running d = []).
  { pose proof (collect_ends header_hash net_hashes net_headers net_bodies sched
                  _ _ _ Hd) as Hc0.
    destruct Hinv as (Hcnt & _). rewrite Hcnt in Hc0.
    destruct (running d); [reflexivity | cbn [length] in Hc0; lia]. }
  assert (Hq : taskes d = []).
  { destruct (collect_after_doTask header_hash net_hashes net_headers net_bodies sched
                _ _ _ Hd) as [y Hy].
    pose proof (doTask_saturates y) as Hsat. rewrite <- Hy in Hsat.
    destruct Hsat as [Hfull | [Hw | Ht]]; [| | exact Ht].
    - pose proof (collect_ends header_hash net_hashes net_headers net_bodies sched
                    _ _ _ Hd) as Hc0. unfold maxTask in Hfull. lia.
    - rewrite Hw, Hrun in Hcount. cbn [length] in Hcount.
      destruct remotes; [congruence | cbn [length] in Hcount; lia]. }
  assert (Hevs : snd (match last numbers with
                      | Some final =>
                          let '(r, c', fx) :=
                            insert_loop Chain InsertChain (removelast numbers) final
                              (insertList d) c in
                          (r, c', fx, events d)
                      | None => (Panic, c, [], events d)
                      end) = events d).
  { destruct (last numbers) as [final |]; [| reflexivity].
    destruct (insert_loop Chain InsertChain (removelast numbers) final (insertList d) c)
      as [[r c'] fx]. reflexivity. }
  rewrite Hevs, <- Hins. split; [| exact Hev].
  intros s Hs. apply list_elem_of_lookup in Hs. destruct Hs as [k Hk].
  destruct (adjacent_tasks_starts hashes numbers k s Hlen Hk) as (t & Ht & <-).
  destruct (Hcov t ltac:(apply list_elem_of_lookup; eexists; exact Ht))
    as [Hin | [[w Hin] | Hin]]; [| | exact Hin].
  - rewrite Hq in Hin. inversion Hin.
  - rewrite Hrun in Hin. inversion Hin.
Qed.

End DeliveringRoundLog.

Lemma doTask_unfold (d : dispatcher) :
  (forall w ws t ts,
      taskCount d < maxTask -> workers d = w :: ws -> taskes d = t :: ts ->
      doTask d = doTask (launched d w ws t ts))
  /\ (maxTask <= taskCount d \/ workers d = [] \/ taskes d = [] -> doTask d = d).
Proof.
  split.
  - intros w ws t ts Hlt Ew Et. unfold doTask at 1.
    replace (Z.to_nat (maxTask - taskCount d))
      with (S (Z.to_nat (maxTask - (taskCount d + 1)))) by lia.
    cbn [doTask_loop]. rewrite (proj2 (Z.ltb_lt _ _) Hlt).
    unfold getReadyTask. rewrite Ew, Et. reflexivity.
  - intros Hstop. unfold doTask.
    destruct (Z.to_nat (maxTask - taskCount d)) as [| fuel] eqn:Ef; [reflexivity |].
    cbn [doTask_loop].
    destruct (Z.ltb_spec (taskCount d) maxTask) as [Hlt | Hge]; [| reflexivity].
    unfold getReadyTask.
    destruct Hstop as [Hfull | [Hw | Ht]]; [lia | rewrite Hw; reflexivity |].
    rewrite Ht. destruct (workers d); reflexivity.
Qed.

(** C3. The inserting loop, whatever the tasks have left in
    [insertList] and whatever the chain store answers: each start in turn
    gets one [InsertChain], or two with a sleep of a second between them;
    the first attempts are the chunks of the starts in their order, all
    of them up to the first start without blocks when no error ends the
    loop; with linked chunks and ascending starts they insert chunks of
    strictly ascending start number; without an error the loop returns
    one less than the first start that has no blocks, or the last number
    when none is missing; an error is the error of a second failure on
    the same blocks, and the height returned is one less than the number
    of the block at the index the chain store gives, which for a linked
    chunk is the number of the block before it.  Step by step: a start
    without blocks ends the loop and nothing is inserted after it; a
    chunk the chain store takes is inserted and the loop goes on; after a
    first failure the loop sleeps and inserts the chunk again, goes on
    when that succeeds and returns the error when it fails.
    [assignDownloadTask] runs this loop on the starts
    [numbers[:len(numbers)-1]] with the blocks of the results received,
    for every order of completion: a result with blocks has its start
    present, and every chunk present is that of a result of [Do].  In a
    round with a peer in which every run of a task delivers blocks no
    start is without blocks: a round that returns without an error
    returns the last number, and its first attempts are the chunks of
    all the starts. *)
Theorem inserts_ascending_retry_once (Chain : Type)
  (InsertChain : Chain -> list Block -> Chain * Z * option error) :
  (forall (starts : list Z) (final : Z) (ins : gmap Z (list Block)) (c : Chain),
      inserts_in_order ins starts (snd (insert_loop Chain InsertChain starts final ins c))
      /\ first_attempts (snd (insert_loop Chain InsertChain starts final ins c))
           `prefix_of` (FxInsertChain <$> present_prefix ins starts)
      /\ (forall h,
             fst (fst (insert_loop Chain InsertChain starts final ins c)) = Ok (h, None) ->
             first_attempts (snd (insert_loop Chain InsertChain starts final ins c))
             = FxInsertChain <$> present_prefix ins starts)
      /\ (forall header_hash,
             chunks_linked header_hash ins -> StronglySorted Z.lt starts ->
             StronglySorted Z.lt
               (inserted_numbers
                  (first_attempts
                     (snd (insert_loop Chain InsertChain starts final ins c)))))
      /\ (forall h,
             fst (fst (insert_loop Chain InsertChain starts final ins c)) = Ok (h, None) ->
             h = match first_missing ins starts with
                 | Some start => u64 (start - 1)
                 | None => final
                 end)
      /\ (forall h err,
             fst (fst (insert_loop Chain InsertChain starts final ins c))
             = Ok (h, Some err) ->
             exists (start : Z) (bs : list Block) (c1 c2 : Chain) (i1 : Z) (e1 : error)
                    (index : Z) (b : Block) (before : list effect),
               start ∈ starts /\ ins !! start = Some bs
               /\ InsertChain c1 bs = (c2, i1, Some e1)
               /\ InsertChain c2 bs
                  = (snd (fst (insert_loop Chain InsertChain starts final ins c)),
                     index, Some err)
               /\ 0 <= index /\ bs !! Z.to_nat index = Some b
               /\ h = u64 (NumberU64 (blk_header b) - 1)
               /\ snd (insert_loop Chain InsertChain starts final ins c)
                  = before ++ [FxInsertChain bs; FxSleepSecond; FxInsertChain bs]
               /\ (forall header_hash,
                      chunks_linked header_hash ins ->
                      h = u64 (start + index - 1)
                      /\ (0 < index ->
                          exists b', bs !! Z.to_nat (index - 1) = Some b'
                                     /\ NumberU64 (blk_header b') = h))))
  /\ (forall (start : Z) (rest : list Z) (final : Z) (ins : gmap Z (list Block))
        (c : Chain),
         insert_loop Chain InsertChain [] final ins c = (Ok (final, None), c, [])
         /\ (ins !! start = None ->
             insert_loop Chain InsertChain (start :: rest) final ins c
             = (Ok (u64 (start - 1), None), c, []))
         /\ (forall (bs : list Block) (c1 : Chain) (i1 : Z),
                ins !! start = Some bs -> InsertChain c bs = (c1, i1, None) ->
                insert_loop Chain InsertChain (start :: rest) final ins c
                = (fst (fst (insert_loop Chain InsertChain rest final ins c1)),
                   snd (fst (insert_loop Chain InsertChain rest final ins c1)),
                   FxInsertChain bs
                     :: snd (insert_loop Chain InsertChain rest final ins c1)))
         /\ (forall (bs : list Block) (c1 c2 : Chain) (i1 i2 : Z) (e1 : error),
                ins !! start = Some bs -> InsertChain c bs = (c1, i1, Some e1) ->
                InsertChain c1 bs = (c2, i2, None) ->
                insert_loop Chain InsertChain (start :: rest) final ins c
                = (fst (fst (insert_loop Chain InsertChain rest final ins c2)),
                   snd (fst (insert_loop Chain InsertChain rest final ins c2)),
                   FxInsertChain bs :: FxSleepSecond :: FxInsertChain bs
                     :: snd (insert_loop Chain InsertChain rest final ins c2)))
         /\ (forall (bs : list Block) (c1 c2 : Chain) (i1 index : Z) (e1 err : error)
                    (b : Block),
                ins !! start = Some bs -> InsertChain c bs = (c1, i1, Some e1) ->
                InsertChain c1 bs = (c2, index, Some err) ->
                0 <= index -> bs !! Z.to_nat index = Some b ->
                insert_loop Chain InsertChain (start :: rest) final ins c
                = (Ok (u64 (NumberU64 (blk_header b) - 1), Some err), c2,
                   [FxInsertChain bs; FxSleepSecond; FxInsertChain bs])))
  /\ (forall (header_hash : Header -> Z)
        (net_hashes : downloadTask -> getBlcokHashByNumber -> option (list Z))
        (net_headers : downloadTask -> getBlockHeadersData -> option (list Header))
        (net_bodies : downloadTask -> list Z -> option (list Body))
        (sched : nat -> nat) (remotes : list stationStatus)
        (hashes numbers : list Z) (c : Chain),
         numbers_wf numbers -> length hashes = length numbers -> numbers <> [] ->
         exists final,
           last numbers = Some final
           /\ chunks_linked header_hash
                (delivered (snd (assignDownloadTask header_hash net_hashes net_headers
                                   net_bodies sched Chain InsertChain remotes hashes
                                   numbers c)))
           /\ fst (assignDownloadTask header_hash net_hashes net_headers net_bodies
                     sched Chain InsertChain remotes hashes numbers c)
              = insert_loop Chain InsertChain (removelast numbers) final
                  (delivered (snd (assignDownloadTask header_hash net_hashes
                                     net_headers net_bodies sched Chain InsertChain
                                     remotes hashes numbers c))) c
           /\ (forall task,
                  EvResult task
                    ∈ snd (assignDownloadTask header_hash net_hashes net_headers
                             net_bodies sched Chain InsertChain remotes hashes numbers c) ->
                  blocks task <> [] ->
                  is_Some (delivered
                             (snd (assignDownloadTask header_hash net_hashes
                                     net_headers net_bodies sched Chain InsertChain
                                     remotes hashes numbers c))
                           !! startNumber task))
           /\ (forall (s : Z) (bs : list Block),
                  delivered (snd (assignDownloadTask header_hash net_hashes
                                    net_headers net_bodies sched Chain InsertChain
                                    remotes hashes numbers c)) !! s = Some bs ->
                  exists task started sent,
                    EvResult task
                      ∈ snd (assignDownloadTask header_hash net_hashes net_headers
                               net_bodies sched Chain InsertChain remotes hashes
                               numbers c)
                    /\ startNumber task = s /\ blocks task = bs /\ bs <> []
                    /\ Do header_hash net_hashes net_headers net_bodies started
                       = Ok (task, sent)))
  /\ (forall (header_hash : Header -> Z)
        (net_hashes : downloadTask -> getBlcokHashByNumber -> option (list Z))
        (net_headers : downloadTask -> getBlockHeadersData -> option (list Header))
        (net_bodies : downloadTask -> list Z -> option (list Body))
        (sched : nat -> nat) (remotes : list stationStatus)
        (hashes numbers : list Z) (c : Chain),
         numbers_wf numbers -> length hashes = length numbers -> numbers <> [] ->
         remotes <> [] ->
         (forall t w task' sent,
             t ∈ adjacent_tasks hashes numbers -> w ∈ remotes ->
             Do header_hash net_hashes net_headers net_bodies (set_worker t w)
             = Ok (task', sent) ->
             blocks task' <> []) ->
         first_missing
           (delivered (snd (assignDownloadTask header_hash net_hashes net_headers
                              net_bodies sched Chain InsertChain remotes hashes
                              numbers c)))
           (removelast numbers) = None
         /\ length (present_prefix
                      (delivered (snd (assignDownloadTask header_hash net_hashes
                                         net_headers net_bodies sched Chain
                                         InsertChain remotes hashes numbers c)))
                      (removelast numbers))
            = (length numbers - 1)%nat
         /\ (forall h,
                fst (fst (fst (assignDownloadTask header_hash net_hashes net_headers
                                 net_bodies sched Chain InsertChain remotes hashes
                                 numbers c)))
                = Ok (h, None) ->
                last numbers = Some h
                /\ first_attempts
                     (snd (fst (assignDownloadTask header_hash net_hashes net_headers
                                  net_bodies sched Chain InsertChain remotes hashes
                                  numbers c)))
                   = FxInsertChain
                       <$> present_prefix
                             (delivered (snd (assignDownloadTask header_hash net_hashes
                                                net_headers net_bodies sched Chain
                                                InsertChain remotes hashes numbers c)))
                             (removelast numbers))).
Proof.
  split; [| split; [| split]].
  - intros starts final ins c.
    pose proof (insert_loop_in_order Chain InsertChain starts final ins c) as Hord.
    destruct (insert_loop_first_attempts Chain InsertChain starts final ins c)
      as [Hpre Hall].
    split; [exact Hord |]. split; [exact Hpre |]. split; [exact Hall |].
    split; [| split].
    + intros header_hash Hch Hsorted.
      destruct (in_order_numbers header_hash ins Hch starts _ Hord) as [k ->].
      apply StronglySorted_take. exact Hsorted.
    + apply insert_loop_no_error.
    + intros h err Hr.
      destruct (insert_loop_error Chain InsertChain starts final ins c h err Hr)
        as (start & bs & c1 & c2 & i1 & e1 & index & b & before
            & H1 & H2 & H3 & H4 & H5 & H6 & H7 & H8).
      exists start, bs, c1, c2, i1, e1, index, b, before.
      repeat (split; [assumption |]).
      intros header_hash Hch.
      destruct (Hch start bs H2) as (_ & task & Hst & Hse & Hend & Hlink).
      assert (Hnum : forall (i : nat) (x : Block),
                 bs !! i = Some x -> NumberU64 (blk_header x) = start + Z.of_nat i).
      { intros i x Hx. rewrite <- Hst.
        apply (chunk_numbers header_hash task (map blk_header bs) Hlink).
        rewrite list_lookup_fmap, Hx. reflexivity. }
      pose proof (Hnum _ b H6) as Hb. rewrite Z2Nat.id in Hb by lia.
      split; [rewrite H7, Hb; reflexivity |].
      intros Hpos.
      pose proof (lookup_lt_Some _ _ _ H6) as Hlt.
      destruct Hlink as (_ & _ & Hlen). rewrite length_map in Hlen.
      destruct (lookup_lt_is_Some_2 bs (Z.to_nat (index - 1))) as [b' Hb'].
      { lia. }
      exists b'. split; [exact Hb' |].
      rewrite (Hnum _ b' Hb'), H7, Hb. rewrite Z2Nat.id by lia.
      rewrite u64_small by lia. lia.
  - intros start rest final ins c.
    split; [reflexivity |].
    split; [intros Hmiss; cbn [insert_loop]; rewrite Hmiss; reflexivity |].
    split; [| split].
    + intros bs c1 i1 Hbs H1. cbn [insert_loop]. rewrite Hbs, H1.
      destruct (insert_loop Chain InsertChain rest final ins c1) as [[r c2] fx].
      reflexivity.
    + intros bs c1 c2 i1 i2 e1 Hbs H1 H2. cbn [insert_loop]. rewrite Hbs, H1, H2.
      destruct (insert_loop Chain InsertChain rest final ins c2) as [[r c3] fx].
      reflexivity.
    + intros bs c1 c2 i1 index e1 err b Hbs H1 H2 Hidx Hb.
      cbn [insert_loop]. rewrite Hbs, H1, H2, Hb.
      rewrite (proj2 (Z.leb_le 0 index) Hidx). reflexivity.
  - intros header_hash net_hashes net_headers net_bodies sched remotes hashes numbers c
           Hwf Hlen Hne.
    destruct (assignDownloadTask_log header_hash net_hashes net_headers net_bodies
                sched Chain InsertChain remotes hashes numbers c Hwf Hlen Hne)
      as (d & final & Hlast & Hlog & Hch & Hrun & Heq).
    destruct Hlog as (_ & Hins & _ & _ & Hgen & _).
    exists final. rewrite Heq. cbn [fst snd]. rewrite <- Hins.
    split; [exact Hlast |]. split; [exact Hch |]. split; [reflexivity |].
    split.
    + intros task Hin Hbl. rewrite Hins. apply delivered_has; assumption.
    + intros s bs Hs. rewrite Hins in Hs.
      destruct (delivered_lookup_Some _ s bs Hs) as (task & Hin & H1 & H2 & H3).
      destruct (Hgen task Hin) as (started & sent & _ & HDo).
      exists task, started, sent. repeat (split; [assumption |]). exact HDo.
  - intros header_hash net_hashes net_headers net_bodies sched remotes hashes numbers c
           Hwf Hlen Hne Hrem Hdel.
    destruct (assignDownloadTask_all_delivered header_hash net_hashes net_headers
                net_bodies sched Chain InsertChain remotes hashes numbers c
                Hwf Hlen Hne Hrem Hdel) as [Hall _].
    destruct (assignDownloadTask_log header_hash net_hashes net_headers net_bodies
                sched Chain InsertChain remotes hashes numbers c Hwf Hlen Hne)
      as (d & final & Hlast & Hlog & _ & _ & Heq).
    destruct Hlog as (_ & Hins & _).
    rewrite Heq in *. cbn [fst snd] in *. rewrite <- Hins in *.
    destruct (present_prefix_all (insertList d) (removelast numbers) Hall)
      as (Hmiss & Hlenp & _).
    split; [exact Hmiss |].
    split; [rewrite Hlenp, removelast_firstn_len, length_take; lia |].
    intros h Hh.
    pose proof (insert_loop_no_error Chain InsertChain (removelast numbers) final
                  (insertList d) c h Hh) as Hfin.
    rewrite Hmiss in Hfin. subst h. split; [exact Hlast |].
    apply (proj2 (insert_loop_first_attempts Chain InsertChain (removelast numbers)
                    final (insertList d) c) final Hh).
Qed.

(** The round of the examples against a chain store that refuses block
    70 twice: the first chunk is inserted, the second is tried twice
    with a sleep between, and 69 is returned with the error. *)
Example assignDownloadTask_refused_block :
  let '(r, _, fx, _) :=
    assignDownloadTask demo_header_hash demo_net_hashes demo_net_headers
      demo_net_bodies (fun _ => 0%nat) (list Block) (picky_InsertChain 70)
      [demo_best; demo_low] [1001; 1066; 1131; 1150] [1; 66; 131; 150] [] in
  r = Ok (69, Some ErrRequest)
  /\ inserted_numbers fx = [1; 66; 66].
Proof. vm_compute. split; reflexivity. Qed.

(** A round of three chunks against a chain store that refuses block
    70 once: the second chunk is tried twice with the sleep between, and
    the round goes on to the third chunk and returns the last number.
    Against a chain store that refuses block 70 every time, the second
    failure ends the round at height 69 with the error. *)
Lemma inserts_ascending_retry_once_witness :
  fst (assignDownloadTask demo_header_hash demo_net_hashes demo_net_headers
         demo_net_bodies (fun _ => 0%nat) (list Block * nat) (flaky_InsertChain 70)
         [demo_best; demo_low] [1001; 1066; 1131; 1150] [1; 66; 131; 150] ([], 1%nat))
  = (Ok (150, None),
     (demo_chunk 1 66 ++ take 4 (demo_chunk 66 131) ++ demo_chunk 66 131
        ++ demo_chunk 131 150, 0%nat),
     [FxInsertChain (demo_chunk 1 66); FxInsertChain (demo_chunk 66 131);
      FxSleepSecond; FxInsertChain (demo_chunk 66 131);
      FxInsertChain (demo_chunk 131 150)])
  /\ insert_loop (list Block) (picky_InsertChain 70) [66; 131] 150
       {[ 66 := demo_chunk 66 131 ]} []
     = (Ok (u64 (70 - 1), Some ErrRequest),
        take 4 (demo_chunk 66 131) ++ take 4 (demo_chunk 66 131),
        [FxInsertChain (demo_chunk 66 131); FxSleepSecond;
         FxInsertChain (demo_chunk 66 131)]).
Proof.
  split.
  - destruct (proj1 (proj2 (proj2 (inserts_ascending_retry_once (list Block * nat)
                                     (flaky_InsertChain 70))))
                demo_header_hash demo_net_hashes demo_net_headers demo_net_bodies
                (fun _ => 0%nat) [demo_best; demo_low] [1001; 1066; 1131; 1150]
                [1; 66; 131; 150] ([], 1%nat))
      as (final & Hlast & _ & Heq & _).
    + intros k a b Ha Hb.
      destruct k as [| [| [| [| k]]]]; cbn in Ha, Hb; try discriminate;
        injection Ha as <-; injection Hb as <-; lia.
    + reflexivity.
    + discriminate.
    + rewrite Heq. injection Hlast as <-. vm_compute. reflexivity.
  - refine (proj2 (proj2 (proj2 (proj2
              (proj1 (proj2 (inserts_ascending_retry_once (list Block)
                               (picky_InsertChain 70)))
                 66 [131] 150 {[ 66 := demo_chunk 66 131 ]} []))))
              (demo_chunk 66 131) (take 4 (demo_chunk 66 131))
              (take 4 (demo_chunk 66 131) ++ take 4 (demo_chunk 66 131))
              4 4 ErrRequest ErrRequest (mkBlock (demo_header 70) [])
              _ _ _ _ _).
    + vm_compute. reflexivity.
    + vm_compute. reflexivity.
    + vm_compute. reflexivity.
    + lia.
    + vm_compute. reflexivity.
Defined.

Lemma doTask_empty_queue (d : dispatcher) : taskes d = [] -> doTask d = d.
Proof.
  intros Hq. unfold doTask.
  destruct (Z.to_nat (maxTask - taskCount d)) as [| fuel]; [reflexivity |].
  cbn [doTask_loop]. destruct (taskCount d <? maxTask); [| reflexivity].
  unfold getReadyTask. rewrite Hq. destruct (workers d); reflexivity.
Qed.

Section RoundLogFacts.

Variable header_hash : Header -> Z.
Variable net_hashes : downloadTask -> getBlcokHashByNumber -> option (list Z).
Variable net_headers : downloadTask -> getBlockHeadersData -> option (list Header).
Variable net_bodies : downloadTask -> list Z -> option (list Body).
Variable sched : nat -> nat.
Variable Chain : Type.
Variable InsertChain : Chain -> list Block -> Chain * Z * option error.

(** The log of a round: every launch is received from, every result is
    that of a launch, [EvClear] is what follows a result over budget, and
    after it only chunks launched before are launched. *)
Lemma assignDownloadTask_events (remotes : list stationStatus)
  (hashes numbers : list Z) (c : Chain) :
  numbers_wf numbers -> length hashes = length numbers -> numbers <> [] ->
  let evs := snd (assignDownloadTask header_hash net_hashes net_headers net_bodies
                    sched Chain InsertChain remotes hashes numbers c) in
  (forall started,
      EvLaunch started ∈ evs ->
      exists task sent,
        Do header_hash net_hashes net_headers net_bodies started = Ok (task, sent)
        /\ EvResult task ∈ evs)
  /\ (forall task,
         EvResult task ∈ evs ->
         exists started sent,
           EvLaunch started ∈ evs
           /\ Do header_hash net_hashes net_headers net_bodies started = Ok (task, sent))
  /\ (forall (i : nat) task,
         reverse evs !! i = Some (EvResult task) ->
         (over_budget task -> reverse evs !! S i = Some EvClear)
         /\ (~ over_budget task -> reverse evs !! S i <> Some EvClear))
  /\ (forall i : nat,
         reverse evs !! i = Some EvClear ->
         (exists (i' : nat) task,
             i = S i' /\ reverse evs !! i' = Some (EvResult task) /\ over_budget task)
         /\ (forall (j : nat) t,
                (i < j)%nat -> reverse evs !! j = Some (EvLaunch t) ->
                started_before (reverse evs) i t)).
Proof.
  intros Hwf Hlen Hne evs.
  destruct (assignDownloadTask_log header_hash net_hashes net_headers net_bodies
              sched Chain InsertChain remotes hashes numbers c Hwf Hlen Hne)
    as (d & final & Hlast & Hlog & Hch & Hrun & Heq).
  assert (Hevs : evs = events d) by (unfold evs; rewrite Heq; reflexivity).
  rewrite Hevs. clear Hevs evs.
  destruct Hlog as (_ & _ & _ & H4 & H5 & H6 & H7 & H8).
  split.
  { intros started Hin. destruct (H4 started Hin) as [Hr | Hres]; [| exact Hres].
    rewrite Hrun in Hr. inversion Hr. }
  split; [exact H5 |]. split; [exact H6 |].
  intros i Hi. split; [exact (H7 i Hi) | exact (proj2 (H8 i Hi))].
Qed.

End RoundLogFacts.

Section ControllerFacts.

Variable header_hash : Header -> Z.
Variable net_hashes : downloadTask -> getBlcokHashByNumber -> option (list Z).
Variable net_headers : downloadTask -> getBlockHeadersData -> option (list Header).
Variable net_bodies : downloadTask -> list Z -> option (list Body).
Variable sched : nat -> nat.
Variable search_hashes : stationStatus -> getBlcokHashByNumber -> option (list Z).
Variable Chain : Type.
Variable InsertChain : Chain -> list Block -> Chain * Z * option error.
Variable view : Chain -> chainView.
Variable HasBlock : Chain -> Z -> Z -> bool.
Variable range : Registry -> list stationStatus.

(** A round that has its plan returns to [multiplexDownload], which
    stores the new ancestor and tells whether the peer is still ahead. *)
Lemma multiplexDownload_returns (fuel : nat) (st : stationStatus) (reg : Registry)
  (c : Chain) (numbers hashes : list Z) (sent : list getBlcokHashByNumber) :
  plan_round (search_hashes st) (HasBlock c) (snd (CurrentBlock (view c)))
    (headTd (view c)) fuel (Some st) = (Ok (Some (numbers, hashes)), sent) ->
  numbers_wf numbers -> length hashes = length numbers -> numbers <> [] ->
  (forall c0 bs c1 index err,
      InsertChain c0 bs = (c1, index, Some err) -> 0 <= index < Z.of_nat (length bs)) ->
  exists (n : Z) (err : option error) (c' : Chain) (fx : list effect)
         (evs : list event),
    assignDownloadTask header_hash net_hashes net_headers net_bodies sched Chain
      InsertChain (range reg) hashes numbers c = (Ok (n, err), c', fx, evs)
    /\ multiplexDownload header_hash net_hashes net_headers net_bodies sched
         search_hashes Chain InsertChain view HasBlock range fuel (Some st) reg c
       = Ok (headTd (view c') <? td st, Some (set_ancestor st n),
             store_ancestor reg st n, c').
Proof.
  intros Hplan Hwf Hlen Hne Hcontract.
  destruct (assignDownloadTask_round header_hash net_hashes net_headers net_bodies
              sched Chain InsertChain (range reg) hashes numbers c Hwf Hlen Hne)
    as (d & final & _ & _ & _ & Heq).
  destruct (insert_loop_returns Chain InsertChain (removelast numbers) final
              (insertList d) c Hcontract) as (n & err & Hret).
  unfold multiplexDownload. rewrite Hplan, Heq.
  destruct (insert_loop Chain InsertChain (removelast numbers) final (insertList d) c)
    as [[r c'] fx]. cbn [fst] in Hret. subst r.
  exists n, err, c', fx, (events d). split; reflexivity.
Qed.

End ControllerFacts.

(** C4. Whatever the peers answer and in whatever order the tasks
    complete: [Do] delivers the task with [errorTotal] one higher; a
    delivery without blocks whose [errorTotal] is at most 5 is pushed on
    the queue; one whose [errorTotal] exceeds 5 empties the queue, and the
    [doTask] that follows launches nothing; from then on every task
    launched has run before, so no task of the round that had not yet
    started runs; and the collecting loop of a round ends, so that
    [assignDownloadTask] returns to the controller: it does not block, and
    it returns a height when the chain store keeps to its contract on the
    index of a failure.  The collecting loop is what does this: with no
    task running it ends, and otherwise it receives the task the
    scheduler picks, handles it as above and launches again; [doTask]
    launches the task on top of the queue with the worker on top of the
    pool as long as fewer than 16 tasks run and both are there.  In the
    log of a round every task launched is received from and every result
    is that of [Do] on a task launched; [EvClear] is what follows a
    result over budget at once, and nothing else; every launch after it
    is of a chunk launched before it.  The controller: a round that has
    its plan returns to [multiplexDownload], which stores the height
    returned as the new ancestor and answers whether the peer is still
    ahead of the local head; [download] repeats the round while it is,
    and the loop takes its next turn when [download] has returned. *)
Theorem failed_task_requeued_until_budget (header_hash : Header -> Z)
  (net_hashes : downloadTask -> getBlcokHashByNumber -> option (list Z))
  (net_headers : downloadTask -> getBlockHeadersData -> option (list Header))
  (net_bodies : downloadTask -> list Z -> option (list Body))
  (sched : nat -> nat) :
  (forall task task' sent,
      Do header_hash net_hashes net_headers net_bodies task = Ok (task', sent) ->
      errorTotal task' = errorTotal task + 1)
  /\ (forall d k task,
         blocks task = [] -> errorTotal task <= 5 ->
         taskes (received d k task) = task :: taskes d)
  /\ (forall d k task,
         blocks task = [] -> 5 < errorTotal task ->
         taskes (received d k task) = []
         /\ events (received d k task) = EvClear :: EvResult task :: events d
         /\ doTask (received d k task) = received d k task)
  /\ (forall d fuel d',
         taskes d = [] -> Forall (fun t => 0 <= errorTotal t) (running d) ->
         collect header_hash net_hashes net_headers net_bodies sched fuel (doTask d)
         = Ok d' ->
         forall t, EvLaunch t ∈ events d' -> EvLaunch t ∈ events d \/ 1 <= errorTotal t)
  /\ (forall remotes ts,
         Forall task_wf ts ->
         exists d,
           collect header_hash net_hashes net_headers net_bodies sched (collect_fuel ts)
             (doTask (init_dispatcher remotes ts)) = Ok d)
  /\ (forall (Chain : Type)
        (InsertChain : Chain -> list Block -> Chain * Z * option error)
        remotes hashes numbers c,
         numbers_wf numbers -> length hashes = length numbers -> numbers <> [] ->
         fst (fst (fst (assignDownloadTask header_hash net_hashes net_headers
                          net_bodies sched Chain InsertChain remotes hashes numbers c)))
         <> Stuck
         /\ ((forall c0 bs c1 index err,
                 InsertChain c0 bs = (c1, index, Some err) ->
                 0 <= index < Z.of_nat (length bs)) ->
             exists h err,
               fst (fst (fst (assignDownloadTask header_hash net_hashes net_headers
                                net_bodies sched Chain InsertChain remotes hashes
                                numbers c)))
               = Ok (h, err)))
  /\ (forall (fuel : nat) (d : dispatcher),
         (taskCount d <= 0 ->
          collect header_hash net_hashes net_headers net_bodies sched (S fuel) d = Ok d)
         /\ (forall started task sent,
                0 < taskCount d ->
                running d !! (sched fuel mod length (running d))%nat = Some started ->
                Do header_hash net_hashes net_headers net_bodies started
                = Ok (task, sent) ->
                collect header_hash net_hashes net_headers net_bodies sched (S fuel) d
                = collect header_hash net_hashes net_headers net_bodies sched fuel
                    (doTask (received d (sched fuel mod length (running d))%nat task))))
  /\ (forall d : dispatcher,
         (forall w ws t ts,
             taskCount d < maxTask -> workers d = w :: ws -> taskes d = t :: ts ->
             doTask d = doTask (launched d w ws t ts))
         /\ (maxTask <= taskCount d \/ workers d = [] \/ taskes d = [] ->
             doTask d = d))
  /\ (forall (Chain : Type)
        (InsertChain : Chain -> list Block -> Chain * Z * option error)
        remotes hashes numbers c,
         numbers_wf numbers -> length hashes = length numbers -> numbers <> [] ->
         let evs := snd (assignDownloadTask header_hash net_hashes net_headers
                           net_bodies sched Chain InsertChain remotes hashes
                           numbers c) in
         (forall started,
             EvLaunch started ∈ evs ->
             exists task sent,
               Do header_hash net_hashes net_headers net_bodies started
               = Ok (task, sent)
               /\ EvResult task ∈ evs)
         /\ (forall task,
                EvResult task ∈ evs ->
                exists started sent,
                  EvLaunch started ∈ evs
                  /\ Do header_hash net_hashes net_headers net_bodies started
                     = Ok (task, sent))
         /\ (forall (i : nat) task,
                reverse evs !! i = Some (EvResult task) ->
                (over_budget task -> reverse evs !! S i = Some EvClear)
                /\ (~ over_budget task -> reverse evs !! S i <> Some EvClear))
         /\ (forall i : nat,
                reverse evs !! i = Some EvClear ->
                (exists (i' : nat) task,
                    i = S i' /\ reverse evs !! i' = Some (EvResult task)
                    /\ over_budget task)
                /\ (forall (j : nat) t,
                       (i < j)%nat -> reverse evs !! j = Some (EvLaunch t) ->
                       started_before (reverse evs) i t)))
  /\ (forall (search_hashes : stationStatus -> getBlcokHashByNumber -> option (list Z))
        (Chain : Type)
        (InsertChain : Chain -> list Block -> Chain * Z * option error)
        (view : Chain -> chainView) (HasBlock : Chain -> Z -> Z -> bool)
        (range : Registry -> list stationStatus) (rounds fuel : nat),
         (forall (st : stationStatus) (reg : Registry) (c : Chain)
                 (numbers hashes : list Z) (sent : list getBlcokHashByNumber),
             plan_round (search_hashes st) (HasBlock c) (snd (CurrentBlock (view c)))
               (headTd (view c)) fuel (Some st)
             = (Ok (Some (numbers, hashes)), sent) ->
             numbers_wf numbers -> length hashes = length numbers -> numbers <> [] ->
             (forall c0 bs c1 index err,
                 InsertChain c0 bs = (c1, index, Some err) ->
                 0 <= index < Z.of_nat (length bs)) ->
             exists (n : Z) (err : option error) (c' : Chain) (fx : list effect)
                    (evs : list event),
               assignDownloadTask header_hash net_hashes net_headers net_bodies sched
                 Chain InsertChain (range reg) hashes numbers c
               = (Ok (n, err), c', fx, evs)
               /\ multiplexDownload header_hash net_hashes net_headers net_bodies sched
                    search_hashes Chain InsertChain view HasBlock range fuel (Some st)
                    reg c
                  = Ok (headTd (view c') <? td st, Some (set_ancestor st n),
                        store_ancestor reg st n, c'))
         /\ (forall (status status' : option stationStatus) (reg reg' : Registry)
                    (c c' : Chain) (again : bool),
                multiplexDownload header_hash net_hashes net_headers net_bodies sched
                  search_hashes Chain InsertChain view HasBlock range fuel status reg c
                = Ok (again, status', reg', c') ->
                download_rounds header_hash net_hashes net_headers net_bodies sched
                  search_hashes Chain InsertChain view HasBlock range (S rounds) fuel
                  status reg c
                = if again
                  then download_rounds header_hash net_hashes net_headers net_bodies
                         sched search_hashes Chain InsertChain view HasBlock range
                         rounds fuel status' reg' c'
                  else Ok (reg', c'))
         /\ (forall (w : wakeup) (ws : list wakeup) (reg reg' : Registry) (c c' : Chain),
                (downloadTrigger reg = true ->
                 download header_hash net_hashes net_headers net_bodies sched
                   search_hashes Chain InsertChain view HasBlock range rounds fuel
                   (take_trigger reg) c = Ok (reg', c') ->
                 loop header_hash net_hashes net_headers net_bodies sched
                   search_hashes Chain InsertChain view HasBlock range rounds fuel
                   (Triggered :: ws) reg c
                 = loop header_hash net_hashes net_headers net_bodies sched
                     search_hashes Chain InsertChain view HasBlock range rounds fuel
                     ws reg' c')
                /\ loop header_hash net_hashes net_headers net_bodies sched
                     search_hashes Chain InsertChain view HasBlock range rounds fuel
                     (TimerFired :: ws) reg c
                   = loop header_hash net_hashes net_headers net_bodies sched
                       search_hashes Chain InsertChain view HasBlock range rounds fuel
                       ws (loopStart reg) c)).
Proof.
  split; [| split; [| split; [| split; [| split; [| split; [| split; [| split;
    [| split]]]]]]]].
  - intros task task' sent HDo.
    rewrite (Do_deliver header_hash net_hashes net_headers net_bodies task task' sent HDo).
    reflexivity.
  - intros d k task Hb He. unfold received, handle_result. rewrite Hb.
    cbn [length Nat.eqb]. rewrite (proj2 (Z.ltb_ge 5 (errorTotal task))) by lia.
    reflexivity.
  - intros d k task Hb He.
    assert (Hr : received d k task
                 = mkDispatcher (workers d) [] (taskCount d - 1)
                     (drop_nth k (running d)) (insertList d)
                     (EvClear :: EvResult task :: events d)).
    { unfold received, handle_result. rewrite Hb. cbn [length Nat.eqb].
      rewrite (proj2 (Z.ltb_lt 5 (errorTotal task))) by lia. reflexivity. }
    rewrite Hr. split; [reflexivity |]. split; [reflexivity |].
    apply doTask_empty_queue. reflexivity.
  - intros d fuel d' Hq Hr Hc.
    pose proof (only_retries_kept header_hash net_hashes net_headers net_bodies
                  (events d)) as Hkept.
    assert (H0 : only_retries (events d) (doTask d)).
    { apply (doTask_keeps header_hash net_hashes net_headers net_bodies _ _ Hkept).
      unfold only_retries. rewrite Hq. split; [constructor |]. split; [exact Hr |].
      intros t Ht. left. exact Ht. }
    apply (collect_keeps header_hash net_hashes net_headers net_bodies sched _ Hkept
             fuel _ d' H0 Hc).
  - intros remotes ts Hts.
    destruct (collect_round header_hash net_hashes net_headers net_bodies sched
                remotes ts Hts) as (d & Hd & _).
    exists d. exact Hd.
  - intros Chain InsertChain remotes hashes numbers c Hwf Hlen Hne.
    destruct (assignDownloadTask_round header_hash net_hashes net_headers net_bodies
                sched Chain InsertChain remotes hashes numbers c Hwf Hlen Hne)
      as (d & final & _ & _ & _ & Heq).
    rewrite Heq. cbn [fst]. split; [apply insert_loop_not_stuck |].
    intros Hcontract. apply insert_loop_returns. exact Hcontract.
  - intros fuel d. split.
    + intros Hle. cbn [collect]. rewrite (proj2 (Z.ltb_ge 0 (taskCount d)) Hle).
      reflexivity.
    + intros started task sent Hpos Hk HDo. cbn [collect].
      rewrite (proj2 (Z.ltb_lt 0 (taskCount d)) Hpos), Hk, HDo. reflexivity.
  - apply doTask_unfold.
  - intros Chain InsertChain remotes hashes numbers c Hwf Hlen Hne.
    apply (assignDownloadTask_events header_hash net_hashes net_headers net_bodies
             sched Chain InsertChain remotes hashes numbers c Hwf Hlen Hne).
  - intros search_hashes Chain InsertChain view HasBlock range rounds fuel.
    split; [| split].
    + intros st reg c numbers hashes sent Hplan Hwf Hlen Hne Hcontract.
      apply (multiplexDownload_returns header_hash net_hashes net_headers net_bodies
               sched search_hashes Chain InsertChain view HasBlock range fuel st reg c
               numbers hashes sent Hplan Hwf Hlen Hne Hcontract).
    + intros status status' reg reg' c c' again Hmd.
      cbn [download_rounds]. rewrite Hmd. destruct again; reflexivity.
    + intros w ws reg reg' c c'. split.
      * intros Htrig Hdl. cbn [loop loop_turn]. rewrite Htrig, Hdl. reflexivity.
      * reflexivity.
Qed.

(** Seven peers that answer nothing and one task: the task fails six
    times, the sixth failure clears the queue, and the round returns the
    height before the chunk. *)
Example assignDownloadTask_budget_exhausted :
  let '(r, _, fx, evs) :=
    assignDownloadTask demo_header_hash mute_net_hashes demo_net_headers
      demo_net_bodies (fun _ => 0%nat) (list Block) demo_InsertChain
      (replicate 7 demo_best) [1001; 1066] [1; 66] [] in
  r = Ok (0, None) /\ fx = []
  /\ head evs = Some EvClear
  /\ length (List.filter is_launch evs) = 6%nat.
Proof. vm_compute. repeat split; reflexivity. Qed.

(** Twenty-one peers that answer nothing and seventeen tasks: sixteen
    tasks are launched, the one received from first fails six times and
    the sixth failure clears the queue; the seventeenth chunk, from 1041
    on, is never launched.  And a round of the controller against eight
    such peers: it is aborted, and [multiplexDownload] returns, with the
    peer still ahead. *)
Lemma failed_task_requeued_until_budget_witness :
  (let evs := snd (assignDownloadTask demo_header_hash mute_net_hashes
                     demo_net_headers demo_net_bodies (fun _ => 0%nat) (list Block)
                     demo_InsertChain (replicate 21 demo_best) demo_long_hashes
                     demo_long_numbers []) in
   ((exists (i' : nat) task,
        27%nat = S i' /\ reverse evs !! i' = Some (EvResult task) /\ over_budget task)
    /\ (forall (j : nat) t,
           (27 < j)%nat -> reverse evs !! j = Some (EvLaunch t) ->
           started_before (reverse evs) 27 t))
   /\ length (filter is_launch evs) = 21%nat
   /\ filter (launches_chunk 1041) evs = [])
  /\ multiplexDownload demo_header_hash mute_net_hashes demo_net_headers
       demo_net_bodies (fun _ => 0%nat) (fun _ => peer_reply demo_hash_at 150)
       (list Block) demo_InsertChain demo_chain_view demo_chain_HasBlock demo_range
       64 (Some (mkStatus "g" 100 150 1150 0)) demo_crowd []
     = Ok (true, Some (mkStatus "g" 100 150 1150 0),
           store_ancestor demo_crowd (mkStatus "g" 100 150 1150 0) 0, []).
Proof.
  pose proof (failed_task_requeued_until_budget demo_header_hash mute_net_hashes
                demo_net_headers demo_net_bodies (fun _ => 0%nat))
    as (_ & _ & _ & _ & _ & _ & _ & _ & Hlog & Hctl).
  split.
  - split; [| split; vm_compute; reflexivity].
    refine (proj2 (proj2 (proj2
              (Hlog (list Block) demo_InsertChain (replicate 21 demo_best)
                 demo_long_hashes demo_long_numbers [] _ _ _))) 27%nat _).
    + intros k a b Ha Hb. unfold demo_long_numbers in Ha, Hb.
      rewrite list_lookup_fmap in Ha, Hb.
      destruct (seqZ 0 18 !! k) as [x |] eqn:Ex; [| discriminate].
      destruct (seqZ 0 18 !! S k) as [y |] eqn:Ey; [| discriminate].
      apply lookup_seqZ in Ex, Ey. cbn in Ha, Hb.
      injection Ha as <-. injection Hb as <-. lia.
    + reflexivity.
    + discriminate.
    + vm_compute. reflexivity.
  - destruct (proj1 (Hctl (fun _ => peer_reply demo_hash_at 150) (list Block)
                       demo_InsertChain demo_chain_view demo_chain_HasBlock demo_range
                       1%nat 64%nat)
                (mkStatus "g" 100 150 1150 0) demo_crowd []
                [1; 66; 131; 150] [1001; 1066; 1131; 1150]
                [mkHashReq 150 1 0 false; mkHashReq 1 3 64 false])
      as (n & err & c' & fx & evs & Hround & Hmd).
    + vm_compute. reflexivity.
    + intros k a b Ha Hb.
      destruct k as [| [| [| [| k]]]]; cbn in Ha, Hb; try discriminate;
        injection Ha as <-; injection Hb as <-; lia.
    + reflexivity.
    + discriminate.
    + intros c0 bs c1 index err H. discriminate.
    + rewrite Hmd. vm_compute in Hround.
      injection Hround as <- _ <- _ _. reflexivity.
Defined.

(** ** Workers and total difficulty *)

(** C5, the counterexample: the local head has total difficulty 50;
    the round against the best peer (total difficulty 100) is planned,
    and a task goes to the peer whose total difficulty is 1: the first
    task when that peer comes last in the range over [dl.remotes], the
    second when it comes first. *)
Lemma low_td_peer_gets_task :
  td demo_low <= 50
  /\ fst (plan_round (peer_reply demo_hash_at 150) (demo_HasBlock 0) 0 50 64
            (Some demo_best))
     = Ok (Some ([1; 66; 131; 150], [1001; 1066; 1131; 1150]))
  /\ reverse (snd (assignDownloadTask demo_header_hash demo_net_hashes
                     demo_net_headers demo_net_bodies (fun _ => 0%nat) (list Block)
                     demo_InsertChain [demo_best; demo_low]
                     [1001; 1066; 1131; 1150] [1; 66; 131; 150] [])) !! 0%nat
     = Some (EvLaunch (mkTask (Some demo_low) 1 1001 66 1066 [] 0))
  /\ reverse (snd (assignDownloadTask demo_header_hash demo_net_hashes
                     demo_net_headers demo_net_bodies (fun _ => 0%nat) (list Block)
                     demo_InsertChain [demo_low; demo_best]
                     [1001; 1066; 1131; 1150] [1; 66; 131; 150] [])) !! 1%nat
     = Some (EvLaunch (mkTask (Some demo_low) 66 1066 131 1131 [] 0)).
Proof. vm_compute. repeat split; try reflexivity. discriminate. Qed.

(** C5, amended.  No round is run against a peer whose total difficulty
    is at most that of the local head: [multiplexDownload] returns [false]
    before any request.  In a round every registered peer is a worker,
    whatever its total difficulty; a task given to a worker whose
    last-known height is below [endNumber] fails at once, with no request
    sent. *)
Theorem low_worker_fails_without_request (header_hash : Header -> Z)
  (net_hashes : downloadTask -> getBlcokHashByNumber -> option (list Z))
  (net_headers : downloadTask -> getBlockHeadersData -> option (list Header))
  (net_bodies : downloadTask -> list Z -> option (list Body))
  (getBlockHashes : getBlcokHashByNumber -> option (list Z))
  (HasBlock : Z -> Z -> bool) (localNumber localTD : Z) (fuel : nat) :
  (forall status,
      td status <= localTD ->
      plan_round getBlockHashes HasBlock localNumber localTD fuel (Some status)
      = (Ok None, []))
  /\ (forall remotes ts, workers (init_dispatcher remotes ts) = rev remotes)
  /\ (forall task w,
         worker task = Some w -> currentNumber w < endNumber task ->
         Do header_hash net_hashes net_headers net_bodies task
         = Ok (deliver task (blocks task), [])).
Proof.
  split; [| split].
  - intros status Htd. unfold plan_round.
    rewrite (proj2 (Z.leb_le _ _) Htd). reflexivity.
  - reflexivity.
  - intros task w Hw Hlow. unfold Do. rewrite Hw.
    rewrite (proj2 (Z.ltb_lt _ _) Hlow). reflexivity.
Qed.

Lemma low_worker_fails_without_request_witness :
  Do demo_header_hash demo_net_hashes demo_net_headers demo_net_bodies
    (mkTask (Some demo_low) 131 1131 200 1200 [] 0)
  = Ok (mkTask (Some demo_low) 131 1131 200 1200 [] 1, []).
Proof.
  apply (proj2 (proj2 (low_worker_fails_without_request demo_header_hash
                         demo_net_hashes demo_net_headers demo_net_bodies
                         (peer_reply demo_hash_at 150) (demo_HasBlock 0) 0 50 64))
           (mkTask (Some demo_low) 131 1131 200 1200 [] 0) demo_low eq_refl).
  cbn. lia.
Defined.

(** ** Skeleton of a round *)

Lemma skeleton_numbers_closed : forall (fuel : nat) (i e : Z),
  0 <= i -> e < 2 ^ 63 -> e - i < Z.of_nat fuel ->
  skeleton_numbers fuel i e 64
  = (fun k => i + 65 * k) <$> seqZ 0 (if i <=? e then (e - i) / 65 + 1 else 0).
Proof.
  induction fuel as [| fuel IH]; intros i e Hi He Hfuel.
  - rewrite (proj2 (Z.leb_gt i e)) by lia. reflexivity.
  - cbn [skeleton_numbers]. destruct (Z.leb_spec i e) as [Hle | Hgt]; [| reflexivity].
    change (u64 (64 + 1)) with 65. rewrite (u64_small (i + 65)) by lia.
    rewrite (IH (i + 65) e ltac:(lia) He ltac:(lia)).
    pose proof (Z.div_mod (e - i) 65 ltac:(lia)) as Hd1.
    pose proof (Z.mod_pos_bound (e - i) 65 ltac:(lia)) as Hm1.
    rewrite (seqZ_cons 0 ((e - i) / 65 + 1)) by lia.
    rewrite fmap_cons. f_equal; [lia |].
    apply list_eq. intros j. rewrite !list_lookup_fmap.
    destruct (Z.leb_spec (i + 65) e) as [Hle' | Hgt'].
    + pose proof (Z.div_mod (e - (i + 65)) 65 ltac:(lia)) as Hd2.
      pose proof (Z.mod_pos_bound (e - (i + 65)) 65 ltac:(lia)) as Hm2.
      assert (Hq : (e - (i + 65)) / 65 + 1 = Z.pred ((e - i) / 65 + 1)) by lia.
      rewrite Hq.
      destruct (Z.lt_ge_cases (Z.of_nat j) (Z.pred ((e - i) / 65 + 1))) as [Hj | Hj].
      * rewrite !lookup_seqZ_lt by lia. cbn. f_equal. lia.
      * rewrite !lookup_seqZ_ge by lia. reflexivity.
    + assert (Hq : Z.pred ((e - i) / 65 + 1) = 0) by lia. rewrite Hq.
      rewrite !lookup_seqZ_ge by lia. reflexivity.
Qed.

Lemma skeleton_points_lookup (ancestor amount : Z) (k : nat) (x : Z) :
  skeleton_points ancestor amount !! k = Some x
  <-> x = ancestor + 1 + 65 * Z.of_nat k /\ Z.of_nat k < (amount - 1) / 65 + 1.
Proof.
  unfold skeleton_points. rewrite list_lookup_fmap. split.
  - intros H. destruct (seqZ 0 ((amount - 1) / 65 + 1) !! k) as [y |] eqn:E;
      [| discriminate].
    apply lookup_seqZ in E. cbn in H. injection H as <-. destruct E as [-> E]. lia.
  - intros [-> Hk]. rewrite lookup_seqZ_lt by lia. cbn. f_equal.
Qed.

Lemma skeleton_points_length (ancestor amount : Z) :
  1 <= amount ->
  Z.of_nat (length (skeleton_points ancestor amount)) = (amount - 1) / 65 + 1.
Proof.
  intros Ha. unfold skeleton_points. rewrite length_fmap, length_seqZ.
  pose proof (Z.div_pos (amount - 1) 65 ltac:(lia) ltac:(lia)). lia.
Qed.

Lemma sorted_by_lookup (l : list Z) :
  (forall (i j : nat) (x y : Z),
      l !! i = Some x -> l !! j = Some y -> (i < j)%nat -> x < y) ->
  StronglySorted Z.lt l.
Proof.
  induction l as [| a l IH]; intros H; constructor.
  - apply IH. intros i j x y Hi Hj Hij. apply (H (S i) (S j) x y Hi Hj). lia.
  - apply Forall_forall. intros y Hy. apply list_elem_of_lookup in Hy.
    destruct Hy as [j Hj]. apply (H 0%nat (S j) a y eq_refl Hj). lia.
Qed.

Lemma skeleton_points_sorted (ancestor amount : Z) :
  StronglySorted Z.lt (skeleton_points ancestor amount).
Proof.
  apply sorted_by_lookup. intros i j x y Hi Hj Hij.
  apply skeleton_points_lookup in Hi, Hj. lia.
Qed.

Lemma sorted_snoc (l : list Z) (e : Z) :
  StronglySorted Z.lt l -> Forall (fun x => x < e) l ->
  StronglySorted Z.lt (l ++ [e]).
Proof.
  intros Hs. induction Hs as [| a l Hs IH Hall]; intros He; cbn [app].
  - constructor; constructor.
  - inversion He; subst. constructor; [apply IH; assumption |].
    apply Forall_app. split; [exact Hall | constructor; [assumption | constructor]].
Qed.

Lemma removelast_sorted (l : list Z) :
  StronglySorted Z.lt l -> StronglySorted Z.lt (removelast l).
Proof.
  intros Hs. rewrite removelast_firstn_len. apply StronglySorted_take. exact Hs.
Qed.

Lemma skeleton_points_bounds (ancestor amount : Z) :
  1 <= amount ->
  Forall (fun x => ancestor + 1 <= x <= ancestor + amount)
    (skeleton_points ancestor amount).
Proof.
  intros Ha. apply Forall_forall. intros x Hx.
  apply list_elem_of_lookup in Hx. destruct Hx as [k Hk].
  apply skeleton_points_lookup in Hk. destruct Hk as [-> Hk].
  pose proof (Z.div_mod (amount - 1) 65 ltac:(lia)) as Hd.
  pose proof (Z.mod_pos_bound (amount - 1) 65 ltac:(lia)) as Hm. lia.
Qed.

Lemma skeleton_points_last (ancestor amount : Z) :
  1 <= amount ->
  last (skeleton_points ancestor amount)
  = Some (ancestor + 1 + 65 * ((amount - 1) / 65)).
Proof.
  intros Ha. rewrite last_lookup.
  pose proof (skeleton_points_length ancestor amount Ha) as Hlen.
  pose proof (Z.div_pos (amount - 1) 65 ltac:(lia) ltac:(lia)) as Hq.
  apply skeleton_points_lookup. split; [f_equal; lia | lia].
Qed.

(** Adjacent numbers never decrease when the list is ascending. *)
Lemma sorted_numbers_wf (l : list Z) :
  StronglySorted Z.lt l -> Forall (fun x => 0 <= x < 2 ^ 63) l -> numbers_wf l.
Proof.
  intros Hs Hb k a b Ha Hb'.
  assert (a < b).
  { revert k Ha Hb'. induction Hs as [| x l Hs IH Hall]; intros k Ha Hb'.
    - rewrite lookup_nil in Ha. discriminate.
    - destruct k as [| k].
      + cbn in Ha. injection Ha as <-. cbn in Hb'.
        rewrite Forall_forall in Hall. apply Hall.
        apply list_elem_of_lookup. exists 0%nat. exact Hb'.
      + inversion Hb; subst. apply (IH ltac:(assumption) k Ha Hb'). }
  rewrite Forall_forall in Hb.
  pose proof (Hb a ltac:(apply list_elem_of_lookup; eexists; exact Ha)).
  pose proof (Hb b ltac:(apply list_elem_of_lookup; eexists; exact Hb')).
  lia.
Qed.

Lemma u64_sub (s a : Z) :
  0 <= a < 2 ^ 64 -> 0 <= s < 2 ^ 64 ->
  u64 (s - a) = if a <=? s then s - a else s - a + 2 ^ 64.
Proof.
  intros Ha Hs. unfold u64. destruct (Z.leb_spec a s) as [Hle | Hgt].
  - apply Z.mod_small. lia.
  - rewrite <- (Z_mod_plus_full (s - a) 1 (2 ^ 64)). apply Z.mod_small. lia.
Qed.

Lemma range_amount_cases (ancestor statusNumber : Z) :
  0 <= ancestor < 2 ^ 64 -> 0 <= statusNumber < 2 ^ 64 ->
  0 <= range_amount ancestor statusNumber <= 1024
  /\ (ancestor <= statusNumber ->
      range_amount ancestor statusNumber = round_amount ancestor statusNumber)
  /\ (statusNumber < ancestor -> ancestor + 1024 <= 2 ^ 64 ->
      range_amount ancestor statusNumber = 1024)
  /\ (range_amount ancestor statusNumber = 0 <-> statusNumber = ancestor).
Proof.
  intros Ha Hs. unfold range_amount, round_amount.
  rewrite (u64_sub statusNumber ancestor Ha Hs).
  destruct (Z.leb_spec ancestor statusNumber); lia.
Qed.

(** [skeleton], with the range and the points worked out. *)
Lemma skeleton_closed (getBlockHashes : getBlcokHashByNumber -> option (list Z))
  (ancestor statusNumber : Z) :
  0 <= ancestor -> 0 <= statusNumber < 2 ^ 64 -> statusNumber <> ancestor ->
  ancestor + range_amount ancestor statusNumber < 2 ^ 63 ->
  skeleton getBlockHashes ancestor statusNumber
  = let amount := range_amount ancestor statusNumber in
    let downloadEnd := ancestor + amount in
    let points := skeleton_points ancestor amount in
    let rq1 := mkHashReq (ancestor + 1) (Z.of_nat (length points)) 64 false in
    let rq2 := mkHashReq downloadEnd 1 0 false in
    match getBlockHashes rq1 with
    | None => (Ok None, [rq1])
    | Some hashes =>
        if negb (length hashes =? length points)%nat then (Ok None, [rq1])
        else if (amount - 1) mod 65 =? 0
        then (Ok (Some (if (length points =? 1)%nat
                        then (points ++ [default 0 (head points)],
                              hashes ++ [default 0 (head hashes)])
                        else (points, hashes))), [rq1])
        else
          match getBlockHashes rq2 with
          | None => (Ok None, [rq2; rq1])
          | Some hash =>
              if negb (length hash =? 1)%nat then (Ok None, [rq2; rq1])
              else (Ok (Some (points ++ [downloadEnd], hashes ++ hash)), [rq2; rq1])
          end
    end.
Proof.
  intros Ha Hs Hne Hend.
  assert (Ha64 : 0 <= ancestor < 2 ^ 64).
  { pose proof (Z.le_min_l (u64 (statusNumber - ancestor)) 1024).
    unfold range_amount in Hend. pose proof (u64_range (statusNumber - ancestor)).
    lia. }
  destruct (range_amount_cases ancestor statusNumber Ha64 Hs) as (Hr & _ & _ & Hz).
  assert (Hr1 : 1 <= range_amount ancestor statusNumber) by lia.
  unfold skeleton.
  rewrite (u64_small (ancestor + 1)) by lia.
  assert (Hnz : u64 (statusNumber - ancestor) <> 0).
  { intros H0. apply Hne, Hz. unfold range_amount. rewrite H0. reflexivity. }
  rewrite (proj2 (Z.eqb_neq (u64 (statusNumber - ancestor)) 0)) by exact Hnz.
  assert (Hamount : (if 1024 <? u64 (statusNumber - ancestor) then 1024
                     else u64 (statusNumber - ancestor))
                    = range_amount ancestor statusNumber).
  { unfold range_amount.
    destruct (Z.ltb_spec 1024 (u64 (statusNumber - ancestor))); lia. }
  rewrite Hamount.
  set (amount := range_amount ancestor statusNumber) in *.
  rewrite (u64_small (ancestor + amount)) by lia.
  rewrite (skeleton_numbers_closed (Z.to_nat amount) (ancestor + 1) (ancestor + amount))
    by lia.
  rewrite (proj2 (Z.leb_le (ancestor + 1) (ancestor + amount))) by lia.
  replace (ancestor + amount - (ancestor + 1)) with (amount - 1) by lia.
  fold (skeleton_points ancestor amount).
  cbv zeta.
  destruct (getBlockHashes
              (mkHashReq (ancestor + 1)
                 (Z.of_nat (length (skeleton_points ancestor amount))) 64 false))
    as [hashes |]; [| reflexivity].
  destruct (negb (length hashes =? length (skeleton_points ancestor amount))%nat);
    [reflexivity |].
  rewrite (skeleton_points_last ancestor amount) by lia.
  pose proof (Z.div_mod (amount - 1) 65 ltac:(lia)) as Hd.
  pose proof (Z.mod_pos_bound (amount - 1) 65 ltac:(lia)) as Hm.
  destruct (Z.eqb_spec ((amount - 1) mod 65) 0) as [Hz0 | Hnz0].
  - rewrite (proj2 (Z.eqb_eq (ancestor + 1 + 65 * ((amount - 1) / 65))
                      (ancestor + amount))) by lia.
    reflexivity.
  - rewrite (proj2 (Z.eqb_neq (ancestor + 1 + 65 * ((amount - 1) / 65))
                      (ancestor + amount))) by lia.
    cbn [negb].
    destruct (getBlockHashes (mkHashReq (ancestor + amount) 1 0 false)) as [hash |];
      [| reflexivity].
    destruct (negb (length hash =? 1)%nat); [reflexivity |].
    pose proof (skeleton_points_length ancestor amount ltac:(lia)) as Hlen.
    pose proof (Z.div_pos (amount - 1) 65 ltac:(lia) ltac:(lia)) as Hq.
    rewrite length_app. cbn [length].
    destruct (length (skeleton_points ancestor amount)) as [| n]; [lia |].
    replace (S n + 1)%nat with (S (S n)) by lia. reflexivity.
Qed.

Lemma skeleton_no_round (getBlockHashes : getBlcokHashByNumber -> option (list Z))
  (ancestor : Z) :
  skeleton getBlockHashes ancestor ancestor = (Ok None, []).
Proof.
  unfold skeleton. replace (ancestor - ancestor) with 0 by lia. reflexivity.
Qed.

(** C9. A round after [ancestor] towards a peer at [statusNumber],
    the numbers in [uint64] with room to spare, the difference taken as
    the source takes it: the range ends at [ancestor] plus the smaller of
    [statusNumber - ancestor] and 1024, which is 1024 when the difference
    wraps around; no round is made when the two are equal.  Otherwise the
    points of the skeleton are the numbers [ancestor + 1 + 65 * k] up to
    the end of the range, asked for in one request with skip 64, which is
    the first request; a request unanswered or answered with another
    number of hashes ends the round; when the last point is the end of
    the range nothing else is asked, and a single point is doubled;
    otherwise the hash at the end is asked for, and the end and its hash
    are appended.  The numbers that result are at least two, with as many
    hashes, from [ancestor + 1] to the end of the range, never decreasing
    and strictly ascending but for the doubled point, and
    [assignDownloadTask] builds from them one task for every two adjacent
    points, at least one. *)
Theorem skeleton_of_round (getBlockHashes : getBlcokHashByNumber -> option (list Z))
  (ancestor statusNumber : Z) :
  0 <= ancestor -> 0 <= statusNumber < 2 ^ 64 ->
  ancestor + range_amount ancestor statusNumber < 2 ^ 63 ->
  0 <= range_amount ancestor statusNumber <= 1024
  /\ (ancestor <= statusNumber ->
      range_amount ancestor statusNumber = round_amount ancestor statusNumber
      /\ ancestor + range_amount ancestor statusNumber <= statusNumber)
  /\ (statusNumber < ancestor -> range_amount ancestor statusNumber = 1024)
  /\ (statusNumber = ancestor ->
      skeleton getBlockHashes ancestor statusNumber = (Ok None, []))
  /\ (statusNumber <> ancestor ->
      let amount := range_amount ancestor statusNumber in
      let downloadEnd := ancestor + amount in
      let points := skeleton_points ancestor amount in
      let rq1 := mkHashReq (ancestor + 1) (Z.of_nat (length points)) 64 false in
      let rq2 := mkHashReq downloadEnd 1 0 false in
      Forall (fun x => ancestor + 1 <= x <= downloadEnd) points
      /\ (forall (k : nat) (x : Z),
             points !! k = Some x
             <-> x = ancestor + 1 + 65 * Z.of_nat k /\ x <= downloadEnd)
      /\ last (snd (skeleton getBlockHashes ancestor statusNumber)) = Some rq1
      /\ fst (skeleton getBlockHashes ancestor statusNumber) <> Panic
      /\ fst (skeleton getBlockHashes ancestor statusNumber) <> Stuck
      /\ (getBlockHashes rq1 = None
          \/ (exists hashes0, getBlockHashes rq1 = Some hashes0
                              /\ length hashes0 <> length points) ->
          skeleton getBlockHashes ancestor statusNumber = (Ok None, [rq1]))
      /\ (forall hashes0 : list Z,
             getBlockHashes rq1 = Some hashes0 -> length hashes0 = length points ->
             (last points = Some downloadEnd ->
              skeleton getBlockHashes ancestor statusNumber
              = (Ok (Some (if decide (length points = 1%nat)
                           then (points ++ points, hashes0 ++ hashes0)
                           else (points, hashes0))), [rq1]))
             /\ (last points <> Some downloadEnd ->
                 (forall h : Z,
                     getBlockHashes rq2 = Some [h] ->
                     skeleton getBlockHashes ancestor statusNumber
                     = (Ok (Some (points ++ [downloadEnd], hashes0 ++ [h])),
                        [rq2; rq1]))
                 /\ (getBlockHashes rq2 = None
                     \/ (exists hash, getBlockHashes rq2 = Some hash
                                      /\ length hash <> 1%nat) ->
                     skeleton getBlockHashes ancestor statusNumber
                     = (Ok None, [rq2; rq1]))))
      /\ (forall numbers hashes : list Z,
             fst (skeleton getBlockHashes ancestor statusNumber)
             = Ok (Some (numbers, hashes)) ->
             length hashes = length numbers /\ (2 <= length numbers)%nat
             /\ head numbers = Some (ancestor + 1) /\ last numbers = Some downloadEnd
             /\ numbers_wf numbers /\ StronglySorted Z.lt (removelast numbers)
             /\ push_tasks (length numbers - 1) hashes numbers []
                = Ok (adjacent_tasks hashes numbers)
             /\ (1 <= length (adjacent_tasks hashes numbers))%nat
             /\ (forall (k : nat) (t : downloadTask),
                    adjacent_tasks hashes numbers !! k = Some t
                    <-> from_skeleton hashes numbers k t /\ worker t = None
                        /\ blocks t = [] /\ errorTotal t = 0))).
Proof.
  intros Ha Hs Hend.
  assert (Ha64 : 0 <= ancestor < 2 ^ 64).
  { pose proof (Z.le_min_l (u64 (statusNumber - ancestor)) 1024).
    unfold range_amount in Hend. pose proof (u64_range (statusNumber - ancestor)).
    lia. }
  destruct (range_amount_cases ancestor statusNumber Ha64 Hs) as (Hr & Hfw & Hwr & Hz).
  split; [exact Hr |].
  split; [intros Hle; split; [apply Hfw; exact Hle |];
          rewrite (Hfw Hle); unfold round_amount; lia |].
  split; [intros Hlt; apply Hwr; [exact Hlt | lia] |].
  split; [intros ->; apply skeleton_no_round |].
  intros Hne.
  rewrite (skeleton_closed getBlockHashes ancestor statusNumber Ha Hs Hne Hend).
  cbv zeta.
  assert (Hr1 : 1 <= range_amount ancestor statusNumber) by lia.
  set (amount := range_amount ancestor statusNumber) in *.
  set (points := skeleton_points ancestor amount).
  pose proof (skeleton_points_bounds ancestor amount ltac:(lia)) as Hbounds.
  pose proof (skeleton_points_last ancestor amount ltac:(lia)) as Hlast.
  pose proof (skeleton_points_length ancestor amount ltac:(lia)) as Hlen.
  pose proof (skeleton_points_sorted ancestor amount) as Hsorted.
  pose proof (Z.div_mod (amount - 1) 65 ltac:(lia)) as Hd.
  pose proof (Z.mod_pos_bound (amount - 1) 65 ltac:(lia)) as Hm.
  pose proof (Z.div_pos (amount - 1) 65 ltac:(lia) ltac:(lia)) as Hq.
  fold points in Hbounds, Hlast, Hlen, Hsorted.
  assert (Hrange : Forall (fun x => 0 <= x < 2 ^ 63) points).
  { eapply Forall_impl; [exact Hbounds |]. cbn. intros x Hx. lia. }
  assert (Hhead : head points = Some (ancestor + 1)).
  { rewrite head_lookup. apply skeleton_points_lookup. split; lia. }
  split; [exact Hbounds |].
  split.
  { intros k x. unfold points. rewrite skeleton_points_lookup. split.
    - intros [-> Hk]. split; [reflexivity | lia].
    - intros [-> Hk]. split; [reflexivity | lia]. }
  set (rq1 := mkHashReq (ancestor + 1) (Z.of_nat (length points)) 64 false).
  set (rq2 := mkHashReq (ancestor + amount) 1 0 false).
  (* what a result is like *)
  assert (Hres1 : forall hashes0 : list Z,
             length hashes0 = length points ->
             (amount - 1) mod 65 = 0 ->
             forall numbers hashes,
               (if (length points =? 1)%nat
                then (points ++ [default 0 (head points)],
                      hashes0 ++ [default 0 (head hashes0)])
                else (points, hashes0)) = (numbers, hashes) ->
               length hashes = length numbers /\ (2 <= length numbers)%nat
               /\ head numbers = Some (ancestor + 1)
               /\ last numbers = Some (ancestor + amount)
               /\ numbers_wf numbers /\ StronglySorted Z.lt (removelast numbers)).
  { intros hashes0 Hl0 Hz0 numbers hashes Hres.
    assert (Hexact : last points = Some (ancestor + amount))
      by (rewrite Hlast; f_equal; lia).
    destruct (Nat.eqb_spec (length points) 1) as [H1 | H1];
      injection Hres as <- <-.
    - destruct points as [| p [| p' rest]] eqn:Ep; try discriminate.
      destruct hashes0 as [| q [| q' rest']]; try discriminate.
      cbn [app head default length removelast].
      inversion Hrange; subst. cbn in Hhead, Hexact.
      injection Hhead as Hp. injection Hexact as Hp'.
      split; [reflexivity |]. split; [lia |].
      split; [cbn; f_equal; exact Hp |]. split; [cbn; f_equal; exact Hp' |].
      split.
      + intros k a b Hka Hkb. destruct k as [| [| k]]; cbn in Hka, Hkb;
          try discriminate. injection Hka as <-. injection Hkb as <-. lia.
      + constructor; constructor.
    - assert (H2 : (2 <= length points)%nat) by lia.
      split; [exact Hl0 |]. split; [exact H2 |].
      split; [exact Hhead |]. split; [exact Hexact |].
      split; [apply sorted_numbers_wf; assumption |].
      apply removelast_sorted; exact Hsorted. }
  assert (Hres2 : forall (hashes0 hash : list Z),
             length hashes0 = length points -> length hash = 1%nat ->
             length (hashes0 ++ hash) = length (points ++ [ancestor + amount])
             /\ (2 <= length (points ++ [(ancestor + amount)%Z]))%nat
             /\ head (points ++ [ancestor + amount]) = Some (ancestor + 1)
             /\ last (points ++ [ancestor + amount]) = Some (ancestor + amount)
             /\ numbers_wf (points ++ [ancestor + amount])
             /\ StronglySorted Z.lt (removelast (points ++ [ancestor + amount]))).
  { intros hashes0 hash Hl0 Hh.
    destruct (Z.eq_dec ((amount - 1) mod 65) 0) as [Hz0 | Hnz0].
    - (* still well formed but not strictly sorted: only needed below 65 *)
      rewrite !length_app. cbn [length].
      split; [lia |]. split; [lia |].
      split; [destruct points; [discriminate | exact Hhead] |].
      split; [apply last_snoc |].
      split.
      + intros k a b Hka Hkb.
        assert (Hab : 0 <= a < 2 ^ 63 /\ 0 <= b < 2 ^ 63 /\ a <= b); [| lia].
        destruct (lt_dec (S k) (length points)) as [Hin | Hout].
        * rewrite lookup_app_l in Hka by lia. rewrite lookup_app_l in Hkb by lia.
          unfold points in Hka, Hkb.
          apply skeleton_points_lookup in Hka, Hkb. lia.
        * assert (Hk : S k = length points).
          { apply lookup_lt_Some in Hkb. rewrite length_app in Hkb.
            cbn [length] in Hkb. lia. }
          rewrite lookup_app_l in Hka by lia.
          rewrite lookup_app_r in Hkb by lia.
          replace (S k - length points)%nat with 0%nat in Hkb by lia.
          cbn in Hkb. injection Hkb as <-.
          unfold points in Hka. apply skeleton_points_lookup in Hka. lia.
      + rewrite removelast_last. exact Hsorted.
    - assert (Hsn : StronglySorted Z.lt (points ++ [ancestor + amount])).
      { apply sorted_snoc; [exact Hsorted |].
        apply Forall_forall. intros x Hx. apply list_elem_of_lookup in Hx.
        destruct Hx as [k Hk]. apply skeleton_points_lookup in Hk. lia. }
      rewrite !length_app. cbn [length].
      split; [lia |]. split; [lia |].
      split; [destruct points; [discriminate | exact Hhead] |].
      split; [apply last_snoc |].
      split.
      + apply sorted_numbers_wf; [exact Hsn |].
        apply Forall_app. split; [exact Hrange |]. constructor; [lia | constructor].
      + rewrite removelast_last. exact Hsorted. }
  assert (Htasks : forall numbers hashes : list Z,
             length hashes = length numbers -> (2 <= length numbers)%nat ->
             push_tasks (length numbers - 1) hashes numbers []
             = Ok (adjacent_tasks hashes numbers)
             /\ (1 <= length (adjacent_tasks hashes numbers))%nat
             /\ (forall (k : nat) (t : downloadTask),
                    adjacent_tasks hashes numbers !! k = Some t
                    <-> from_skeleton hashes numbers k t /\ worker t = None
                        /\ blocks t = [] /\ errorTotal t = 0)).
  { intros numbers hashes Hl H2.
    split; [apply push_tasks_all; exact Hl |].
    split; [rewrite adjacent_tasks_length by exact Hl; lia |].
    intros k t. apply adjacent_tasks_lookup. exact Hl. }
  assert (Hlast_iff : last points = Some (ancestor + amount) <-> (amount - 1) mod 65 = 0).
  { rewrite Hlast. split; [intros H; injection H as H; lia | intros H; f_equal; lia]. }
  destruct (getBlockHashes rq1) as [hashes0 |] eqn:E1.
  - destruct (Nat.eqb_spec (length hashes0) (length points)) as [Hl0 | Hl0]; cbn [negb].
    + destruct (Z.eqb_spec ((amount - 1) mod 65) 0) as [Hz0 | Hnz0].
      * (* the last point is the end of the range *)
        cbn [fst snd last].
        split; [reflexivity |]. split; [discriminate |]. split; [discriminate |].
        split.
        { intros [Hnone | (hs & Hsome & Hbad)]; [discriminate |].
          injection Hsome as <-. contradiction. }
        split.
        { intros hs Hsome Hlhs. injection Hsome as <-. split.
          - intros _. f_equal. f_equal.
            destruct (Nat.eqb_spec (length points) 1) as [H1 | H1].
            + rewrite decide_True by exact H1.
              destruct points as [| p [| p' rest]]; try discriminate.
              destruct hashes0 as [| q [| q' rest']]; try discriminate.
              reflexivity.
            + rewrite decide_False by exact H1. reflexivity.
          - intros Hno. exfalso. apply Hno, Hlast_iff. exact Hz0. }
        intros numbers hashes Hres. injection Hres as Hres.
        destruct (Hres1 hashes0 Hl0 Hz0 numbers hashes Hres)
          as (H1 & H2 & H3 & H4 & H5 & H6).
        repeat (split; [assumption |]). apply Htasks; assumption.
      * (* the last point is below the end of the range *)
        assert (Hbelow : last points <> Some (ancestor + amount))
          by (intros H; apply Hnz0, Hlast_iff; exact H).
        destruct (getBlockHashes rq2) as [hash |] eqn:E2.
        -- destruct (Nat.eqb_spec (length hash) 1) as [Hh | Hh]; cbn [negb].
           ++ cbn [fst snd last].
              split; [reflexivity |]. split; [discriminate |]. split; [discriminate |].
              split.
              { intros [Hnone | (hs & Hsome & Hbad)]; [discriminate |].
                injection Hsome as <-. contradiction. }
              split.
              { intros hs Hsome Hlhs. injection Hsome as <-. split.
                - intros Hyes. contradiction.
                - intros _. split.
                  + intros h Hh1. injection Hh1 as ->. reflexivity.
                  + intros [Hnone | (hash' & Hsome & Hbad)]; [discriminate |].
                    injection Hsome as <-. contradiction. }
              intros numbers hashes Hres. injection Hres as <- <-.
              destruct (Hres2 hashes0 hash Hl0 Hh) as (H1 & H2 & H3 & H4 & H5 & H6).
              repeat (split; [assumption |]). apply Htasks; assumption.
           ++ cbn [fst snd last].
              split; [reflexivity |]. split; [discriminate |]. split; [discriminate |].
              split.
              { intros [Hnone | (hs & Hsome & Hbad)]; [discriminate |].
                injection Hsome as <-. contradiction. }
              split; [| intros numbers hashes Hres; discriminate].
              intros hs Hsome Hlhs. injection Hsome as <-. split.
              ** intros Hyes. contradiction.
              ** intros _. split.
                 --- intros h Hh1. injection Hh1 as ->. cbn in Hh. contradiction.
                 --- intros _. reflexivity.
        -- cbn [fst snd last].
           split; [reflexivity |]. split; [discriminate |]. split; [discriminate |].
           split.
           { intros [Hnone | (hs & Hsome & Hbad)]; [discriminate |].
             injection Hsome as <-. contradiction. }
           split; [| intros numbers hashes Hres; discriminate].
           intros hs Hsome Hlhs. injection Hsome as <-. split.
           ++ intros Hyes. contradiction.
           ++ intros _. split.
              ** intros h Hh1. discriminate.
              ** intros _. reflexivity.
    + cbn [fst snd last].
      split; [reflexivity |]. split; [discriminate |]. split; [discriminate |].
      split; [intros _; reflexivity |].
      split; [| intros numbers hashes Hres; discriminate].
      intros hs Hsome Hlhs. injection Hsome as <-. contradiction.
  - cbn [fst snd last].
    split; [reflexivity |]. split; [discriminate |]. split; [discriminate |].
    split; [intros _; reflexivity |].
    split; [| intros numbers hashes Hres; discriminate].
    intros hs Hsome. discriminate.
Qed.

Example skeleton_150_blocks :
  skeleton (peer_reply demo_hash_at 150) 0 150
  = (Ok (Some ([1; 66; 131; 150], [1001; 1066; 1131; 1150])),
     [mkHashReq 150 1 0 false; mkHashReq 1 3 64 false]).
Proof. vm_compute. reflexivity. Qed.

Example skeleton_single_block :
  skeleton (peer_reply demo_hash_at 150) 149 150
  = (Ok (Some ([150; 150], [1150; 1150])), [mkHashReq 150 1 64 false]).
Proof. vm_compute. reflexivity. Qed.

(** Scenario 3 of the specification: the peer is 5000 blocks ahead of
    an empty local chain; the round is capped at 1024 blocks, in sixteen
    chunks. *)
Example skeleton_capped :
  let '(r, sent) := skeleton (fun rq => Some (replicate (Z.to_nat (rq_Amount rq)) 0))
                      0 5000 in
  r = Ok (Some (((fun k => 1 + 65 * k) <$> seqZ 0 16) ++ [1024], replicate 17 0))
  /\ sent = [mkHashReq 1024 1 0 false; mkHashReq 1 16 64 false].
Proof. vm_compute. split; reflexivity. Qed.

(** Scenario 1 of the specification: the local chain has the first 100
    of the 150 blocks of the peer.  The ancestor is 100, the round is the
    single chunk from 101 to 150, and 150 is returned. *)
Example round_without_fork :
  plan_round (peer_reply demo_hash_at 150) (demo_HasBlock 100) 100 50 64
    (Some (mkStatus "best" 100 150 1150 0))
  = (Ok (Some ([101; 150], [1101; 1150])),
     [mkHashReq 150 1 0 false; mkHashReq 101 1 64 false; mkHashReq 100 32 0 true])
  /\ fst (fst (fst (assignDownloadTask demo_header_hash demo_net_hashes
                      demo_net_headers demo_net_bodies (fun _ => 0%nat) (list Block)
                      demo_InsertChain [demo_best] [1101; 1150] [101; 150] [])))
     = Ok (150, None).
Proof. vm_compute. split; reflexivity. Qed.

(** The round of the examples, where the end of the range is asked for
    and appended; a round of one block, whose point is doubled; and a
    round towards a peer whose head is below the ancestor, which takes
    the 1024 blocks after the ancestor. *)
Lemma skeleton_of_round_witness :
  skeleton (peer_reply demo_hash_at 150) 0 150
  = (Ok (Some ([1; 66; 131] ++ [150], [1001; 1066; 1131] ++ [1150])),
     [mkHashReq 150 1 0 false; mkHashReq 1 3 64 false])
  /\ skeleton (peer_reply demo_hash_at 150) 149 150
     = (Ok (Some ([150] ++ [150], [1150] ++ [1150])), [mkHashReq 150 1 64 false])
  /\ skeleton (peer_reply demo_hash_at 5000) 2000 150
     = (Ok (Some (((fun k => 2001 + 65 * k) <$> seqZ 0 16) ++ [3024],
                  ((fun k => 3001 + 65 * k) <$> seqZ 0 16) ++ [4024])),
        [mkHashReq 3024 1 0 false; mkHashReq 2001 16 64 false]).
Proof.
  split; [| split].
  - destruct (skeleton_of_round (peer_reply demo_hash_at 150) 0 150
                ltac:(lia) ltac:(lia) ltac:(vm_compute; reflexivity))
      as (_ & _ & _ & _ & H).
    destruct (H ltac:(discriminate)) as (_ & _ & _ & _ & _ & _ & Hok & _).
    destruct (Hok [1001; 1066; 1131] eq_refl eq_refl) as [_ Hbelow].
    destruct (Hbelow ltac:(vm_compute; discriminate)) as [Hh _].
    exact (Hh 1150 eq_refl).
  - destruct (skeleton_of_round (peer_reply demo_hash_at 150) 149 150
                ltac:(lia) ltac:(lia) ltac:(vm_compute; reflexivity))
      as (_ & _ & _ & _ & H).
    destruct (H ltac:(discriminate)) as (_ & _ & _ & _ & _ & _ & Hok & _).
    destruct (Hok [1150] eq_refl eq_refl) as [Hexact _].
    exact (Hexact eq_refl).
  - destruct (skeleton_of_round (peer_reply demo_hash_at 5000) 2000 150
                ltac:(lia) ltac:(lia) ltac:(vm_compute; reflexivity))
      as (_ & _ & _ & _ & H).
    destruct (H ltac:(discriminate)) as (_ & _ & _ & _ & _ & _ & Hok & _).
    destruct (Hok (list_fmap Z Z (fun k => 3001 + 65 * k) (seqZ 0 16)) eq_refl eq_refl)
      as [_ Hbelow].
    destruct (Hbelow ltac:(vm_compute; discriminate)) as [Hh _].
    exact (Hh 4024 eq_refl).
Defined.


(** * Further properties *)

(** ** The ancestor finder, whatever the peer answers *)

Section AnyPeer.

Variable getBlockHashes : getBlcokHashByNumber -> option (list Z).
Variable HasBlock : Z -> Z -> bool.

(** Once [searchStart] is at least 1 the window reaches height 0 after at
    most as many turns as [searchStart] has bits. *)
Lemma binary_phase_returns : forall (fuel : nat) (headNumber searchStart : Z)
    (sent : list getBlcokHashByNumber),
  1 <= searchStart < 2 ^ (Z.of_nat fuel - 1) ->
  fst (binary_phase getBlockHashes HasBlock fuel headNumber searchStart sent) <> Spinning.
Proof.
  induction fuel as [| fuel IH]; intros headNumber searchStart sent Hs.
  - exfalso. rewrite Z.pow_neg_r in Hs by lia. lia.
  - cbn [binary_phase]. destruct (0 <? headNumber); [| discriminate].
    destruct (sort_Search _ _ _) as [searchResult st].
    destruct (pr_err st); [discriminate |].
    destruct (negb (luckResult st =? 0)); [discriminate |].
    destruct (0 <? searchResult); [discriminate |].
    destruct (Z.eq_dec searchStart 1) as [-> | Hne].
    + change (u64 (1 - 1)) with 0.
      destruct fuel as [| fuel]; [cbn in Hs; lia |].
      cbn [binary_phase]. change (0 <? 0) with false. discriminate.
    + apply IH. split.
      * apply Z.div_le_lower_bound; lia.
      * apply half_pow; lia.
Qed.

Lemma vouched_mono (headNumber : Z) (sent sent' : list getBlcokHashByNumber) (a : Z) :
  (forall rq, rq ∈ sent -> rq ∈ sent') ->
  vouched getBlockHashes HasBlock headNumber sent a ->
  vouched getBlockHashes HasBlock headNumber sent' a.
Proof.
  intros Hsub (rq & hashes & h & Hin & Hrest). exists rq, hashes, h.
  split; [apply Hsub; exact Hin | exact Hrest].
Qed.

Lemma probe_keeps_vouch_inv (headNumber searchStart : Z) :
  0 <= searchStart < 2 ^ 63 ->
  forall i j st, i < j ->
    vouch_inv getBlockHashes HasBlock headNumber searchStart i j st ->
    if fst (probe getBlockHashes HasBlock searchStart ((i + j) / 2) st)
    then vouch_inv getBlockHashes HasBlock headNumber searchStart i ((i + j) / 2)
           (snd (probe getBlockHashes HasBlock searchStart ((i + j) / 2) st))
    else vouch_inv getBlockHashes HasBlock headNumber searchStart ((i + j) / 2 + 1) j
           (snd (probe getBlockHashes HasBlock searchStart ((i + j) / 2) st)).
Proof.
  intros Hstart i j st Hij (Hluck & Hlow & Hi & Hj).
  pose proof (half_between i j Hij) as Hh.
  set (h := (i + j) / 2) in *.
  unfold probe, vouch_inv.
  destruct (bool_decide (pr_err st <> None) || negb (luckResult st =? 0)) eqn:Edirty.
  - cbn [fst snd]. split; [exact Hluck |]. split; [| lia].
    intros Herr Hz _. exfalso.
    apply orb_true_iff in Edirty. destruct Edirty as [E | E].
    + apply bool_decide_eq_true in E. congruence.
    + apply negb_true_iff, Z.eqb_neq in E. congruence.
  - apply orb_false_iff in Edirty. destruct Edirty as [Eerr Eluck].
    apply bool_decide_eq_false in Eerr.
    assert (Herr : pr_err st = None)
      by (destruct (pr_err st); [exfalso; apply Eerr; discriminate | reflexivity]).
    apply negb_false_iff, Z.eqb_eq in Eluck.
    rewrite (u64_small h) by lia.
    rewrite (u64_small (h + searchStart)) by lia.
    set (rq := mkHashReq (h + searchStart) 2 0 false).
    assert (Hsub : forall r, r ∈ pr_sent st -> r ∈ rq :: pr_sent st)
      by (intros r Hr; right; exact Hr).
    destruct (getBlockHashes rq) as [hashes |] eqn:Ereply.
    + destruct hashes as [| hash0 rest].
      * cbn [fst snd pr_err luckResult pr_sent].
        split; [intros; congruence |]. split; [discriminate | lia].
      * assert (Hv : HasBlock hash0 (h + searchStart) = true ->
                     vouched getBlockHashes HasBlock headNumber (rq :: pr_sent st)
                       (h + searchStart)).
        { intros Hhas. exists rq, (hash0 :: rest), hash0.
          split; [left |]. split; [exact Ereply |]. split; [exact Hhas |].
          right. split; reflexivity. }
        destruct (HasBlock hash0 (h + searchStart)) eqn:E0.
        -- destruct ((Z.of_nat (length (hash0 :: rest)) =? 2) && true
                     && negb (HasBlock (nth 1 (hash0 :: rest) 0)
                                (u64 (h + searchStart + 1)))).
           ++ cbn [fst snd pr_err luckResult pr_sent].
              split; [intros _; apply Hv; reflexivity |]. split; [| lia].
              intros _ _ _. replace (searchStart + (h + 1) - 1) with (h + searchStart) by lia.
              apply Hv. reflexivity.
           ++ cbn [negb fst snd pr_err luckResult pr_sent].
              split; [intros; congruence |]. split; [| lia].
              intros _ _ _. replace (searchStart + (h + 1) - 1) with (h + searchStart) by lia.
              apply Hv. reflexivity.
        -- rewrite andb_false_r. cbn [andb negb fst snd pr_err luckResult pr_sent].
           split; [intros; congruence |]. split; [| lia].
           intros _ _ Hpos. eapply vouched_mono; [exact Hsub |].
           apply Hlow; assumption.
    + cbn [fst snd pr_err luckResult pr_sent].
      split; [intros; congruence |]. split; [discriminate | lia].
Qed.

Lemma binary_phase_vouched (headNumber0 : Z) : forall (fuel : nat)
    (headNumber searchStart : Z) (sent : list getBlcokHashByNumber),
  0 <= searchStart < 2 ^ 63 ->
  forall a,
    fst (binary_phase getBlockHashes HasBlock fuel headNumber searchStart sent)
    = Returned a ->
    a = 0
    \/ vouched getBlockHashes HasBlock headNumber0
         (snd (binary_phase getBlockHashes HasBlock fuel headNumber searchStart sent)) a.
Proof.
  induction fuel as [| fuel IH]; intros headNumber searchStart sent Hstart;
    [intros a Hret; discriminate |].
  cbn [binary_phase].
  destruct (0 <? headNumber);
    [| cbn [fst snd]; intros a Hret; injection Hret as <-; left; reflexivity].
  unfold sort_Search.
  set (n := int_of_u64 (u64 (headNumber - searchStart + 1))).
  assert (Hn : n < 2 ^ 63) by apply int_of_u64_lt.
  destruct (search_loop_inv (probe getBlockHashes HasBlock searchStart)
              (vouch_inv getBlockHashes HasBlock headNumber0 searchStart)
              (probe_keeps_vouch_inv headNumber0 searchStart Hstart)
              64%nat 0 n (mkProbing None 0 sent))
    as (j' & _ & (Hluck & Hlow & Hi & _) & _).
  { change (Z.of_nat 64) with 64. lia. }
  { unfold vouch_inv. cbn [pr_err luckResult pr_sent].
    split; [congruence |]. split; [intros; lia | lia]. }
  destruct (search_loop 64 (probe getBlockHashes HasBlock searchStart) 0 n
              (mkProbing None 0 sent)) as [searchResult st].
  cbn [fst snd] in Hluck, Hlow, Hi.
  destruct (pr_err st) as [e |] eqn:Eerr; [cbn [fst]; intros a Hret; discriminate |].
  destruct (Z.eqb_spec (luckResult st) 0) as [Ez | Enz]; cbn [negb].
  - destruct (Z.ltb_spec 0 searchResult) as [Hfound | Hnone].
    + cbn [fst snd]. intros a Hret. injection Hret as <-. right.
      rewrite (u64_small searchResult) by lia.
      rewrite (u64_small (searchResult + searchStart)) by lia.
      rewrite (u64_small (searchResult + searchStart - 1)) by lia.
      replace (searchResult + searchStart - 1) with (searchStart + searchResult - 1) by lia.
      apply Hlow; [reflexivity | exact Ez | exact Hfound].
    + apply IH.
      pose proof (Z.div_mod searchStart 2 ltac:(lia)) as Hd.
      pose proof (Z.mod_pos_bound searchStart 2 ltac:(lia)) as Hm. lia.
  - cbn [fst snd]. intros a Hret. injection Hret as <-. right. apply Hluck. exact Enz.
Qed.

Lemma scan_tail_found (headNumber : Z) : forall (hashes : list Z) (i : nat) (a : Z),
  scan_tail HasBlock headNumber (Z.of_nat i) hashes = Some a ->
  exists (k : nat) (h : Z),
    hashes !! k = Some h /\ a = u64 (headNumber - Z.of_nat (i + k))
    /\ HasBlock h a = true.
Proof.
  induction hashes as [| hash rest IH]; intros i a Hs; [discriminate |].
  cbn [scan_tail] in Hs.
  destruct (HasBlock hash (u64 (headNumber - Z.of_nat i))) eqn:E.
  - injection Hs as <-. exists 0%nat, hash.
    rewrite Nat.add_0_r. repeat split; [exact E].
  - replace (Z.of_nat i + 1) with (Z.of_nat (S i)) in Hs by lia.
    destruct (IH (S i) a Hs) as (k & h & Hk & Ha & Hh).
    exists (S k), h. split; [exact Hk |]. split; [| exact Hh].
    rewrite Ha. f_equal. lia.
Qed.

Lemma failing_unique (rq : getBlcokHashByNumber) (e e' : error) :
  failing getBlockHashes rq e -> failing getBlockHashes rq e' -> e = e'.
Proof.
  intros [[H1 ->] | (_ & H1 & ->)] [[H2 ->] | (_ & H2 & ->)]; congruence.
Qed.

Lemma probe_keeps_fail_inv (searchStart : Z) :
  0 <= searchStart < 2 ^ 63 ->
  forall i j st, i < j ->
    fail_inv getBlockHashes i j st ->
    if fst (probe getBlockHashes HasBlock searchStart ((i + j) / 2) st)
    then fail_inv getBlockHashes i ((i + j) / 2)
           (snd (probe getBlockHashes HasBlock searchStart ((i + j) / 2) st))
    else fail_inv getBlockHashes ((i + j) / 2 + 1) j
           (snd (probe getBlockHashes HasBlock searchStart ((i + j) / 2) st)).
Proof.
  intros Hstart i j st Hij (Hbad & Hgood & Hi & Hj).
  pose proof (half_between i j Hij) as Hh.
  set (h := (i + j) / 2) in *.
  unfold probe, fail_inv.
  destruct (bool_decide (pr_err st <> None) || negb (luckResult st =? 0)) eqn:Edirty.
  - cbn [fst snd]. split; [exact Hbad |]. split; [exact Hgood | lia].
  - apply orb_false_iff in Edirty. destruct Edirty as [Eerr _].
    apply bool_decide_eq_false in Eerr.
    assert (Herr : pr_err st = None)
      by (destruct (pr_err st); [exfalso; apply Eerr; discriminate | reflexivity]).
    set (rq := mkHashReq (u64 (u64 h + searchStart)) 2 0 false).
    destruct (getBlockHashes rq) as [hashes |] eqn:Ereply.
    + destruct hashes as [| hash0 rest].
      * cbn [fst snd pr_err pr_sent head]. split; [| split; [discriminate | lia]].
        intros e He. injection He as <-. exists rq. split; [reflexivity |].
        right. split; [reflexivity |]. split; [exact Ereply | reflexivity].
      * assert (Hok : forall r e, Some rq = Some r -> ~ failing getBlockHashes r e).
        { intros r e Hr. injection Hr as <-.
          intros [[H1 _] | (_ & H1 & _)]; congruence. }
        destruct ((Z.of_nat (length (hash0 :: rest)) =? 2)
                  && HasBlock hash0 (u64 (u64 h + searchStart))
                  && negb (HasBlock (nth 1 (hash0 :: rest) 0)
                             (u64 (u64 (u64 h + searchStart) + 1)))).
        -- cbn [fst snd pr_err pr_sent head]. rewrite Herr.
           split; [discriminate |]. split; [intros _; exact Hok | lia].
        -- destruct (negb (HasBlock hash0 (u64 (u64 h + searchStart))));
             cbn [fst snd pr_err pr_sent head]; rewrite Herr;
             (split; [discriminate |]); (split; [intros _; exact Hok | lia]).
    + cbn [fst snd pr_err pr_sent head]. split; [| split; [discriminate | lia]].
      intros e He. injection He as <-. exists rq. split; [reflexivity |].
      left. split; [exact Ereply | reflexivity].
Qed.

Lemma binary_phase_failing : forall (fuel : nat) (headNumber searchStart : Z)
    (sent : list getBlcokHashByNumber),
  0 <= searchStart < 2 ^ 63 ->
  (forall rq e, head sent = Some rq -> ~ failing getBlockHashes rq e) ->
  forall e,
    fst (binary_phase getBlockHashes HasBlock fuel headNumber searchStart sent)
    = Failed e
    <-> exists rq,
          head (snd (binary_phase getBlockHashes HasBlock fuel headNumber
                       searchStart sent)) = Some rq
          /\ failing getBlockHashes rq e.
Proof.
  induction fuel as [| fuel IH]; intros headNumber searchStart sent Hstart Hsent e.
  - cbn [binary_phase fst snd]. split; [discriminate |].
    intros (rq & Hrq & Hf). exfalso. exact (Hsent rq e Hrq Hf).
  - cbn [binary_phase].
    destruct (0 <? headNumber).
    2:{ cbn [fst snd]. split; [discriminate |].
        intros (rq & Hrq & Hf). exfalso. exact (Hsent rq e Hrq Hf). }
    unfold sort_Search.
    set (n := int_of_u64 (u64 (headNumber - searchStart + 1))).
    assert (Hn : n < 2 ^ 63) by apply int_of_u64_lt.
    destruct (search_loop_inv (probe getBlockHashes HasBlock searchStart)
                (fail_inv getBlockHashes)
                (probe_keeps_fail_inv searchStart Hstart)
                64%nat 0 n (mkProbing None 0 sent))
      as (j' & _ & (Hbad & Hgood & _) & _).
    { change (Z.of_nat 64) with 64. lia. }
    { unfold fail_inv. cbn [pr_err pr_sent].
      split; [discriminate |]. split; [intros _; exact Hsent | lia]. }
    destruct (search_loop 64 (probe getBlockHashes HasBlock searchStart) 0 n
                (mkProbing None 0 sent)) as [searchResult st].
    cbn [fst snd] in *.
    destruct (pr_err st) as [e' |] eqn:Eerr.
    + cbn [fst snd]. destruct (Hbad e' eq_refl) as (rq & Hrq & Hf). split.
      * intros He. injection He as <-. exists rq. split; assumption.
      * intros (rq' & Hrq' & Hf'). rewrite Hrq in Hrq'. injection Hrq' as <-.
        f_equal. exact (failing_unique rq e' e Hf Hf').
    + specialize (Hgood eq_refl).
      destruct (negb (luckResult st =? 0)).
      { cbn [fst snd]. split; [discriminate |].
        intros (rq & Hrq & Hf). exfalso. exact (Hgood rq e Hrq Hf). }
      destruct (0 <? searchResult).
      { cbn [fst snd]. split; [discriminate |].
        intros (rq & Hrq & Hf). exfalso. exact (Hgood rq e Hrq Hf). }
      apply IH; [| exact Hgood].
      pose proof (Z.div_mod searchStart 2 ltac:(lia)) as Hd.
      pose proof (Z.mod_pos_bound searchStart 2 ltac:(lia)) as Hm. lia.
Qed.

End AnyPeer.

(** X1.  Whatever the peer
    answers and whatever the local chain holds: started with
    [searchStart] of 2 or more (in [multiplexDownload], a peer whose
    [ancestor] is at least 1), [findAncestor] comes to an end, within 64
    turns of the loop of its binary-search phase. *)
Theorem findAncestor_returns_from_known_ancestor
  (getBlockHashes : getBlcokHashByNumber -> option (list Z))
  (HasBlock : Z -> Z -> bool) (fuel : nat) (headNumber searchStart : Z) :
  2 <= searchStart < 2 ^ 64 -> (64 <= fuel)%nat ->
  fst (findAncestor getBlockHashes HasBlock fuel headNumber searchStart) <> Spinning.
Proof.
  intros Hs Hfuel. unfold findAncestor.
  destruct (headNumber <? 1); [discriminate |].
  match goal with |- context [getBlockHashes ?r] => destruct (getBlockHashes r) as [hashes |] end;
    [| discriminate].
  destruct (scan_tail HasBlock headNumber 0 hashes); [discriminate |].
  apply binary_phase_returns. split.
  - apply Z.div_le_lower_bound; lia.
  - apply Z.lt_le_trans with (2 ^ 63).
    + apply Z.div_lt_upper_bound; lia.
    + apply Z.pow_le_mono_r; lia.
Qed.

Lemma findAncestor_returns_from_known_ancestor_witness :
  fst (findAncestor (peer_reply demo_hash_at 150) (fun _ _ => false) 64 100 5)
  <> Spinning.
Proof.
  apply (findAncestor_returns_from_known_ancestor (peer_reply demo_hash_at 150)
           (fun _ _ => false) 64 100 5); lia.
Defined.

(** X2.  Whatever the peer answers: a
    height [a] that [findAncestor] returns is 0, or a height for which
    the peer has sent a hash of a block that the local chain holds at
    [a] (the hash at index [i] of the first reply, with
    [a = headNumber - i], or the first hash of the reply to the probe of
    [a]). *)
Theorem findAncestor_returns_local_block
  (getBlockHashes : getBlcokHashByNumber -> option (list Z))
  (HasBlock : Z -> Z -> bool) (fuel : nat) (headNumber searchStart a : Z) :
  0 <= searchStart < 2 ^ 64 ->
  fst (findAncestor getBlockHashes HasBlock fuel headNumber searchStart) = Returned a ->
  a = 0
  \/ vouched getBlockHashes HasBlock headNumber
       (snd (findAncestor getBlockHashes HasBlock fuel headNumber searchStart)) a.
Proof.
  intros Hstart. revert a. unfold findAncestor.
  destruct (headNumber <? 1);
    [cbn [fst snd]; intros a Hret; injection Hret as <-; left; reflexivity |].
  match goal with
  | |- context [getBlockHashes ?r] => set (rq1 := r)
  end.
  destruct (getBlockHashes rq1) as [hashes |] eqn:Ereply;
    [| cbn [fst]; intros a Hret; discriminate].
  destruct (scan_tail HasBlock headNumber 0 hashes) as [a' |] eqn:Escan.
  - cbn [fst snd]. intros a Hret. injection Hret as ->. right.
    destruct (scan_tail_found HasBlock headNumber hashes 0 a Escan) as (k & h & Hk & Ha & Hh).
    exists rq1, hashes, h. split; [left |]. split; [exact Ereply |].
    split; [exact Hh |]. left. split; [reflexivity |]. split; [reflexivity |].
    exists k. split; [exact Hk | exact Ha].
  - apply binary_phase_vouched.
    pose proof (Z.div_mod searchStart 2 ltac:(lia)) as Hd.
    pose proof (Z.mod_pos_bound searchStart 2 ltac:(lia)) as Hm. lia.
Qed.

Lemma findAncestor_returns_local_block_witness :
  10 = 0
  \/ vouched (peer_reply demo_hash_at 150) (demo_HasBlock 10) 100
       (snd (findAncestor (peer_reply demo_hash_at 150) (demo_HasBlock 10) 64 100 1))
       10.
Proof.
  apply (findAncestor_returns_local_block (peer_reply demo_hash_at 150)
           (demo_HasBlock 10) 64 100 1 10); [lia | vm_compute; reflexivity].
Defined.



(** ** The ancestor finder and a peer with no block in common *)

Section Stranger.

Variable getBlockHashes : getBlcokHashByNumber -> option (list Z).
Variable HasBlock : Z -> Z -> bool.

Hypothesis stranger : forall rq hashes h n,
  getBlockHashes rq = Some hashes -> h ∈ hashes -> HasBlock h n = false.

Lemma scan_tail_stranger (headNumber : Z) : forall (hashes : list Z) (i : Z),
  (forall h, h ∈ hashes -> forall n, HasBlock h n = false) ->
  scan_tail HasBlock headNumber i hashes = None.
Proof.
  induction hashes as [| h hashes IH]; intros i Hno; [reflexivity |].
  cbn [scan_tail]. rewrite Hno by left. apply IH.
  intros h' Hh'. apply Hno. right. exact Hh'.
Qed.

(** A probe that is answered with a hash: the local chain has not the
    block, so the search is sent to the left. *)
Lemma probe_stranger (searchStart n : Z) (st : probing) :
  pr_err st = None -> luckResult st = 0 ->
  is_Some (getBlockHashes (mkHashReq (u64 (u64 n + searchStart)) 2 0 false)) ->
  getBlockHashes (mkHashReq (u64 (u64 n + searchStart)) 2 0 false) <> Some [] ->
  exists rq,
    probe getBlockHashes HasBlock searchStart n st
    = (true, mkProbing None 0 (rq :: pr_sent st)).
Proof.
  intros Herr Hluck [hashes Hrep] Hne. unfold probe.
  rewrite Herr, Hluck. rewrite bool_decide_eq_false_2 by (intros H; apply H; reflexivity).
  change (0 =? 0) with true. cbn [negb orb].
  rewrite Hrep. destruct hashes as [| hash0 rest]; [congruence |].
  rewrite (stranger _ _ hash0 _ Hrep) by left.
  rewrite andb_false_r. cbn [andb negb]. eexists. reflexivity.
Qed.

Lemma search_loop_stranger (searchStart bound : Z) :
  (forall n, 0 <= n < bound ->
     is_Some (getBlockHashes (mkHashReq (u64 (u64 n + searchStart)) 2 0 false))
     /\ getBlockHashes (mkHashReq (u64 (u64 n + searchStart)) 2 0 false) <> Some []) ->
  forall (fuel : nat) (i j : Z) (sent : list getBlcokHashByNumber),
    0 <= i -> j <= bound ->
    exists more,
      search_loop fuel (probe getBlockHashes HasBlock searchStart) i j
        (mkProbing None 0 sent)
      = (i, mkProbing None 0 (more ++ sent)).
Proof.
  intros Hans. induction fuel as [| fuel IH]; intros i j sent Hi Hj.
  - exists []. reflexivity.
  - cbn [search_loop]. destruct (Z.ltb_spec i j) as [Hlt | Hge]; [| exists []; reflexivity].
    rewrite shiftr_half. pose proof (half_between i j Hlt) as Hh.
    destruct (Hans ((i + j) / 2) ltac:(lia)) as [Hsome Hne].
    destruct (probe_stranger searchStart ((i + j) / 2) (mkProbing None 0 sent)
                eq_refl eq_refl Hsome Hne) as [rq ->].
    cbn [negb pr_sent].
    destruct (IH i ((i + j) / 2) (rq :: sent) ltac:(lia) ltac:(lia)) as [more ->].
    exists (more ++ [rq]). rewrite <- app_assoc. reflexivity.
Qed.

End Stranger.

(** X4.  First contact
    ([searchStart] of 0 or 1) with a peer that answers every request,
    with no more hashes than asked for and with at least one for every
    height up to [headNumber], none of them the hash of a block of the
    local chain: [findAncestor] never returns an error.  After the first
    reply [headNumber] has gone down by the number of hashes in it; when
    that leaves 0 the search returns 0, and otherwise it does not
    return: [headNumber] wraps around to [2 ^ 64 - 1] with
    [searchStart = 0], and the loop goes on without a request. *)
Theorem findAncestor_hangs_on_stranger
  (getBlockHashes : getBlcokHashByNumber -> option (list Z))
  (HasBlock : Z -> Z -> bool) (fuel : nat) (headNumber searchStart : Z) :
  1 <= headNumber < 2 ^ 64 -> 0 <= searchStart <= 1 -> (1 <= fuel)%nat ->
  (forall rq, 0 <= rq_Amount rq ->
     exists hashes, getBlockHashes rq = Some hashes
                    /\ Z.of_nat (length hashes) <= rq_Amount rq) ->
  (forall t, 0 <= t <= headNumber ->
     getBlockHashes (mkHashReq t 2 0 false) <> Some []) ->
  (forall rq hashes h n,
     getBlockHashes rq = Some hashes -> h ∈ hashes -> HasBlock h n = false) ->
  exists (amount : Z) (first : list Z),
    0 <= amount <= 32
    /\ getBlockHashes (mkHashReq headNumber amount 0 true) = Some first
    /\ last (snd (findAncestor getBlockHashes HasBlock fuel headNumber searchStart))
       = Some (mkHashReq headNumber amount 0 true)
    /\ fst (findAncestor getBlockHashes HasBlock fuel headNumber searchStart)
       = if decide (Z.of_nat (length first) = headNumber) then Returned 0 else Spinning.
Proof.
  intros Hhead Hstart Hfuel Hans Hprobe Hstr. unfold findAncestor.
  destruct (Z.ltb_spec headNumber 1) as [? | _]; [lia |].
  set (X := u64 (u64 (u64 (headNumber - searchStart) + 1) + 1)).
  assert (HX : 0 <= X < 2 ^ 64) by apply u64_range.
  set (L := if 32 <? X then 32 else X).
  assert (HL : 0 <= L <= 32) by (unfold L; destruct (Z.ltb_spec 32 X); lia).
  destruct (Hans (mkHashReq headNumber L 0 true) ltac:(cbn; lia))
    as (first & Hfirst & Hlen). cbn [rq_Amount] in Hlen.
  exists L, first. split; [exact HL |]. split; [exact Hfirst |].
  rewrite Hfirst.
  rewrite (scan_tail_stranger HasBlock headNumber first 0)
    by (intros h Hh n; apply (Hstr _ _ h n Hfirst Hh)).
  replace (searchStart / 2) with 0
    by (destruct (Z.eq_dec searchStart 0) as [-> | ?];
        [reflexivity | replace searchStart with 1 by lia; reflexivity]).
  set (h0 := u64 (headNumber - Z.of_nat (length first))).
  destruct fuel as [| fuel]; [lia |].
  cbn [binary_phase].
  destruct (decide (Z.of_nat (length first) = headNumber)) as [Heq | Hne].
  - (* the window is empty from the start *)
    assert (h0 = 0) as -> by (unfold h0; rewrite Heq, Z.sub_diag; reflexivity).
    change (0 <? 0) with false. cbn [fst snd last]. split; reflexivity.
  - assert (Hh0 : 0 < h0 < 2 ^ 64
                  /\ (h0 + 1 < 2 ^ 63 -> h0 <= headNumber)).
    { unfold h0. pose proof (u64_range (headNumber - Z.of_nat (length first))) as Hr.
      destruct (Z.le_gt_cases (Z.of_nat (length first)) headNumber) as [Hle | Hgt].
      - rewrite u64_small by lia. lia.
      - assert (E : u64 (headNumber - Z.of_nat (length first))
                    = headNumber - Z.of_nat (length first) + 2 ^ 64).
        { unfold u64. symmetry. apply Z.mod_unique with (q := -1); lia. }
        rewrite E. lia. }
    destruct Hh0 as [Hpos Hsmall].
    rewrite (proj2 (Z.ltb_lt 0 h0)) by lia.
    unfold sort_Search.
    set (n := int_of_u64 (u64 (h0 - 0 + 1))).
    assert (Hn : n <= 0 \/ (n = h0 + 1 /\ h0 + 1 < 2 ^ 63)).
    { unfold n. rewrite Z.sub_0_r.
      destruct (Z.lt_ge_cases (h0 + 1) (2 ^ 63)) as [Hlt | Hge].
      - right. rewrite int_of_u64_signed by lia. lia.
      - left. unfold int_of_u64.
        destruct (Z.eq_dec (h0 + 1) (2 ^ 64)) as [E | E].
        + rewrite E. reflexivity.
        + rewrite u64_small by lia.
          destruct (Z.ltb_spec (h0 + 1) (2 ^ 63)); lia. }
    assert (Hsearch : exists more,
               search_loop 64 (probe getBlockHashes HasBlock 0) 0 n
                 (mkProbing None 0 [mkHashReq headNumber L 0 true])
               = (0, mkProbing None 0 (more ++ [mkHashReq headNumber L 0 true]))).
    { destruct Hn as [Hn | [Hn Hlt]].
      - exists []. apply search_loop_empty. lia.
      - apply (search_loop_stranger getBlockHashes HasBlock Hstr 0 n); [| lia | lia].
        intros t Ht. rewrite (u64_small t) by lia. rewrite Z.add_0_r.
        rewrite (u64_small t) by lia.
        split; [| apply Hprobe; lia].
        destruct (Hans (mkHashReq t 2 0 false) ltac:(cbn; lia)) as (hs & -> & _).
        eexists. reflexivity. }
    destruct Hsearch as (more & ->).
    cbn [pr_err luckResult pr_sent]. change (0 =? 0) with true. cbn [negb].
    change (0 <? 0) with false. change (u64 (0 - 1)) with (2 ^ 64 - 1).
    change (0 / 2) with 0. rewrite binary_phase_spins. cbn [fst snd].
    split; [apply last_snoc | reflexivity].
Qed.

Lemma chain_hashes_length (peer_hash_at : Z -> Z) (peer_head : Z) (step : Z) :
  forall (amount : nat) (number : Z),
    (length (chain_hashes peer_hash_at peer_head amount number step) <= amount)%nat.
Proof.
  induction amount as [| amount IH]; intros number; cbn [chain_hashes]; [cbn; lia |].
  destruct ((0 <=? number) && (number <=? peer_head)); cbn [length]; [| lia].
  specialize (IH (number + step)). lia.
Qed.

Lemma peer_reply_answers (peer_hash_at : Z -> Z) (peer_head : Z)
  (rq : getBlcokHashByNumber) :
  0 <= rq_Amount rq ->
  exists hashes,
    peer_reply peer_hash_at peer_head rq = Some hashes
    /\ Z.of_nat (length hashes) <= rq_Amount rq.
Proof.
  intros Ha. unfold peer_reply. eexists. split; [reflexivity |].
  pose proof (chain_hashes_length peer_hash_at peer_head
                (if rq_Reverse rq then - (rq_Skip rq + 1) else rq_Skip rq + 1)
                (Z.to_nat (rq_Amount rq)) (rq_Number rq)). lia.
Qed.

Lemma peer_reply_probe_nonempty (peer_hash_at : Z -> Z) (peer_head t : Z) :
  0 <= t <= peer_head ->
  peer_reply peer_hash_at peer_head (mkHashReq t 2 0 false) <> Some [].
Proof.
  intros Ht. unfold peer_reply. cbn [rq_Amount rq_Number rq_Reverse rq_Skip].
  change (Z.to_nat 2) with 2%nat. cbn [chain_hashes].
  rewrite (proj2 (Z.leb_le 0 t)) by lia.
  rewrite (proj2 (Z.leb_le t peer_head)) by lia. discriminate.
Qed.

Lemma findAncestor_hangs_on_stranger_witness :
  exists (amount : Z) (first : list Z),
    0 <= amount <= 32
    /\ peer_reply demo_hash_at 150 (mkHashReq 40 amount 0 true) = Some first
    /\ last (snd (findAncestor (peer_reply demo_hash_at 150) (fun _ _ => false)
                    64 40 1))
       = Some (mkHashReq 40 amount 0 true)
    /\ fst (findAncestor (peer_reply demo_hash_at 150) (fun _ _ => false) 64 40 1)
       = if decide (Z.of_nat (length first) = 40) then Returned 0 else Spinning.
Proof.
  apply (findAncestor_hangs_on_stranger (peer_reply demo_hash_at 150)
           (fun _ _ => false) 64 40 1); try lia.
  - intros rq Ha. apply peer_reply_answers. exact Ha.
  - intros t Ht. apply peer_reply_probe_nonempty. lia.
Defined.

(** ** The ancestor finder and a recent fork *)

(** The bulk probe against a fixed remote chain, when a block of the
    window is shared: the highest one is found. *)
Lemma scan_chain_found (peer_hash_at : Z -> Z) (peer_head : Z)
  (HasBlock : Z -> Z -> bool) (headNumber k : Z) :
  0 <= headNumber < 2 ^ 63 -> 0 <= k ->
  HasBlock (peer_hash_at k) k = true ->
  forall (amount : nat) (number i : Z),
    number = headNumber - i -> 0 <= i -> k <= number <= peer_head ->
    number - Z.of_nat amount < k ->
    exists a,
      scan_tail HasBlock headNumber i
        (chain_hashes peer_hash_at peer_head amount number (- (0 + 1))) = Some a
      /\ k <= a <= number /\ HasBlock (peer_hash_at a) a = true
      /\ (forall j, a < j <= number -> HasBlock (peer_hash_at j) j = false).
Proof.
  intros Hhead Hk Hshared.
  induction amount as [| amount IH]; intros number i Hnum Hi Hrange Hwin.
  - exfalso. cbn in Hwin. lia.
  - cbn [chain_hashes].
    rewrite (proj2 (Z.leb_le 0 number)) by lia.
    rewrite (proj2 (Z.leb_le number peer_head)) by lia.
    cbn [andb scan_tail].
    rewrite (u64_small (headNumber - i)) by lia. rewrite <- Hnum.
    destruct (HasBlock (peer_hash_at number) number) eqn:E.
    + exists number. repeat split; [lia | lia | exact E | intros j Hj; lia].
    + assert (k <> number) by (intros ->; congruence).
      destruct (IH (number + - (0 + 1)) (i + 1) ltac:(lia) ltac:(lia) ltac:(lia)
                  ltac:(lia)) as (a & Hs & Ha & Hsh & Habove).
      exists a. split; [exact Hs |]. split; [lia |]. split; [exact Hsh |].
      intros j Hj. destruct (Z.eq_dec j number) as [-> | Hne]; [exact E |].
      apply Habove. lia.
Qed.

(** X5.  Against a peer that
    answers from a fixed chain: when the local chain holds a remote block
    at a height [k] of the first window, which is at most 31 below
    [headNumber] and not below [searchStart - 1], one request is all that
    [findAncestor] sends, and it returns the highest height up to
    [headNumber] at which the local chain holds the remote block. *)
Theorem findAncestor_recent_fork_one_request (peer_hash_at : Z -> Z) (peer_head : Z)
  (HasBlock : Z -> Z -> bool) (fuel : nat) (headNumber searchStart k : Z) :
  1 <= headNumber <= peer_head -> headNumber < 2 ^ 63 ->
  0 <= searchStart <= headNumber + 1 ->
  0 <= k <= headNumber -> headNumber - 31 <= k -> searchStart - 1 <= k ->
  HasBlock (peer_hash_at k) k = true ->
  exists a,
    findAncestor (peer_reply peer_hash_at peer_head) HasBlock fuel headNumber searchStart
    = (Returned a,
       [mkHashReq headNumber (Z.min 32 (headNumber - searchStart + 2)) 0 true])
    /\ k <= a <= headNumber
    /\ HasBlock (peer_hash_at a) a = true
    /\ (forall j, a < j <= headNumber -> HasBlock (peer_hash_at j) j = false).
Proof.
  intros Hhead Hsmall Hstart Hk Hk32 Hks Hshared. unfold findAncestor.
  destruct (Z.ltb_spec headNumber 1) as [? | _]; [lia |].
  assert (HX : u64 (u64 (u64 (headNumber - searchStart) + 1) + 1)
               = headNumber - searchStart + 2).
  { unfold u64. rewrite Z.add_mod_idemp_l by lia. rewrite <- Z.add_assoc.
    rewrite Z.add_mod_idemp_l by lia. change (1 + 1) with 2.
    apply Z.mod_small. lia. }
  rewrite HX.
  assert (HL : (if 32 <? headNumber - searchStart + 2 then 32
                else headNumber - searchStart + 2)
               = Z.min 32 (headNumber - searchStart + 2)).
  { destruct (Z.ltb_spec 32 (headNumber - searchStart + 2)); lia. }
  rewrite HL. set (L := Z.min 32 (headNumber - searchStart + 2)).
  unfold peer_reply. cbn [rq_Amount rq_Number rq_Reverse rq_Skip].
  destruct (scan_chain_found peer_hash_at peer_head HasBlock headNumber k
              ltac:(lia) ltac:(lia) Hshared (Z.to_nat L) headNumber 0
              ltac:(lia) ltac:(lia) ltac:(lia) ltac:(unfold L; lia))
    as (a & -> & Ha & Hsh & Habove).
  exists a. repeat split; try assumption; lia.
Qed.

Lemma findAncestor_recent_fork_one_request_witness :
  exists a,
    findAncestor (peer_reply demo_hash_at 150) (demo_HasBlock 90) 64 100 1
    = (Returned a, [mkHashReq 100 (Z.min 32 (100 - 1 + 2)) 0 true])
    /\ 90 <= a <= 100
    /\ demo_HasBlock 90 (demo_hash_at a) a = true
    /\ (forall j, a < j <= 100 -> demo_HasBlock 90 (demo_hash_at j) j = false).
Proof.
  apply (findAncestor_recent_fork_one_request demo_hash_at 150 (demo_HasBlock 90)
           64 100 1 90); try lia. reflexivity.
Defined.

(** ** Rounds that are given up before they start *)


Lemma peer_reply_reverse_head (peer_hash_at : Z -> Z) (peer_head number amount : Z) :
  0 <= number <= peer_head -> 1 <= amount ->
  exists rest,
    peer_reply peer_hash_at peer_head (mkHashReq number amount 0 true)
    = Some (peer_hash_at number :: rest).
Proof.
  intros Hn Ha. unfold peer_reply. cbn [rq_Amount rq_Number rq_Reverse rq_Skip].
  destruct (Z.to_nat amount) as [| k] eqn:E; [lia |].
  cbn [chain_hashes].
  rewrite (proj2 (Z.leb_le 0 number)) by lia.
  rewrite (proj2 (Z.leb_le number peer_head)) by lia.
  cbn [andb]. eexists. reflexivity.
Qed.


(** ** Peer registry *)

Lemma bestStation_from_spec : forall (order : list stationStatus)
    (best : option stationStatus),
  match bestStation_from best order with
  | None => best = None /\ order = []
  | Some b =>
      (forall s, s ∈ order -> td s <= td b)
      /\ (forall b0, best = Some b0 -> td b0 <= td b)
      /\ (best = Some b /\ (forall s, s ∈ order -> td s <= td b)
          \/ exists before after,
               order = before ++ b :: after
               /\ (forall s, s ∈ before -> td s < td b)
               /\ (forall b0, best = Some b0 -> td b0 < td b))
  end.
Proof.
  induction order as [| s order IH]; intros best; cbn [bestStation_from].
  - destruct best as [b |]; [| split; reflexivity].
    split; [intros s Hs; inversion Hs |]. split; [intros b0 Hb; injection Hb as ->; lia |].
    left. split; [reflexivity | intros s Hs; inversion Hs].
  - destruct best as [b0 |].
    + destruct (Z.ltb_spec (td b0) (td s)) as [Hlt | Hge].
      * specialize (IH (Some s)).
        destruct (bestStation_from (Some s) order) as [b |]; [| destruct IH; discriminate].
        destruct IH as (Hall & Hbest & Hpos).
        specialize (Hbest s eq_refl).
        split; [| split].
        -- intros x Hx. apply elem_of_cons in Hx. destruct Hx as [-> | Hx]; [lia | auto].
        -- intros b1 Hb1. injection Hb1 as <-. lia.
        -- right. destruct Hpos as [[Heq _] | (before & after & Ho & Hb & Hs)].
           ++ injection Heq as <-. exists [], order. split; [reflexivity |].
              split; [intros x Hx; inversion Hx |].
              intros b1 Hb1. injection Hb1 as <-. lia.
           ++ exists (s :: before), after. split; [rewrite Ho; reflexivity |].
              specialize (Hs s eq_refl). split.
              ** intros x Hx. apply elem_of_cons in Hx.
                 destruct Hx as [-> | Hx]; [lia | auto].
              ** intros b1 Hb1. injection Hb1 as <-. lia.
      * specialize (IH (Some b0)).
        destruct (bestStation_from (Some b0) order) as [b |]; [| destruct IH; discriminate].
        destruct IH as (Hall & Hbest & Hpos).
        specialize (Hbest b0 eq_refl).
        split; [| split].
        -- intros x Hx. apply elem_of_cons in Hx. destruct Hx as [-> | Hx]; [lia | auto].
        -- intros b1 Hb1. injection Hb1 as <-. lia.
        -- destruct Hpos as [[Heq Hle] | (before & after & Ho & Hb & Hs)].
           ++ left. split; [exact Heq |].
              injection Heq as <-.
              intros x Hx. apply elem_of_cons in Hx. destruct Hx as [-> | Hx]; [lia | auto].
           ++ right. exists (s :: before), after. split; [rewrite Ho; reflexivity |].
              specialize (Hs b0 eq_refl). split.
              ** intros x Hx. apply elem_of_cons in Hx.
                 destruct Hx as [-> | Hx]; [lia | auto].
              ** intros b1 Hb1. injection Hb1 as <-. lia.
    + specialize (IH (Some s)).
      destruct (bestStation_from (Some s) order) as [b |]; [| destruct IH; discriminate].
      destruct IH as (Hall & Hbest & Hpos).
      specialize (Hbest s eq_refl).
      split; [| split; [discriminate |]].
      * intros x Hx. apply elem_of_cons in Hx. destruct Hx as [-> | Hx]; [lia | auto].
      * right. destruct Hpos as [[Heq _] | (before & after & Ho & Hb & Hs)].
        -- injection Heq as <-. exists [], order. split; [reflexivity |].
           split; [intros x Hx; inversion Hx | discriminate].
        -- exists (s :: before), after. split; [rewrite Ho; reflexivity |].
           specialize (Hs s eq_refl). split; [| discriminate].
           intros x Hx. apply elem_of_cons in Hx.
           destruct Hx as [-> | Hx]; [lia | auto].
Qed.

(** X7.  Whatever the order in which the
    [range] yields the statuses of [dl.remotes]: [bestStation] is [nil]
    exactly when no station is registered; otherwise it is a registered
    station whose total difficulty no other exceeds, the first such in
    the order of the [range]; the total difficulty of the station it
    returns does not depend on that order. *)
Theorem bestStation_highest_td (order : list stationStatus) :
  (bestStation order = None <-> order = [])
  /\ (forall b, bestStation order = Some b ->
        (forall s, s ∈ order -> td s <= td b)
        /\ exists before after,
             order = before ++ b :: after
             /\ (forall s, s ∈ before -> td s < td b))
  /\ (forall order', order ≡ₚ order' ->
        td <$> bestStation order = td <$> bestStation order').
Proof.
  assert (Hspec : forall o b, bestStation o = Some b ->
            (forall s, s ∈ o -> td s <= td b)
            /\ exists before after,
                 o = before ++ b :: after /\ (forall s, s ∈ before -> td s < td b)).
  { intros o b Hb. pose proof (bestStation_from_spec o None) as H.
    unfold bestStation in Hb. rewrite Hb in H. destruct H as (Hall & _ & Hpos).
    split; [exact Hall |].
    destruct Hpos as [[Heq _] | (before & after & Ho & Hbefore & _)]; [discriminate |].
    exists before, after. split; assumption. }
  assert (Hnone : forall o, bestStation o = None <-> o = []).
  { intros o. split.
    - intros Hb. pose proof (bestStation_from_spec o None) as H.
      unfold bestStation in Hb. rewrite Hb in H. apply H.
    - intros ->. reflexivity. }
  split; [apply Hnone |]. split; [apply Hspec |].
  intros order' Hperm.
  destruct (bestStation order) as [b |] eqn:E1; destruct (bestStation order') as [b' |] eqn:E2.
  - cbn. f_equal.
    destruct (Hspec _ _ E1) as (H1 & before & after & Ho & _).
    destruct (Hspec _ _ E2) as (H2 & before' & after' & Ho' & _).
    assert (Hb : b ∈ order) by (rewrite Ho; apply elem_of_app; right; left).
    assert (Hb' : b' ∈ order') by (rewrite Ho'; apply elem_of_app; right; left).
    rewrite Hperm in Hb. rewrite <- Hperm in Hb'.
    specialize (H1 b' Hb'). specialize (H2 b Hb). lia.
  - apply Hnone in E2. subst order'. apply Permutation_nil_r in Hperm. subst order.
    discriminate.
  - apply Hnone in E1. subst order. apply Permutation_nil_l in Hperm. subst order'.
    discriminate.
  - reflexivity.
Qed.

Lemma AddStation_fields (v : chainView) (reg : Registry) (name : string)
  (td' number hash : Z) :
  remotes (AddStation v reg name td' number hash)
  = <[ name := mkRemote (mkStatus name td' number hash 0) (chans reg) ]> (remotes reg)
  /\ chans (AddStation v reg name td' number hash) = S (chans reg)
  /\ closed (AddStation v reg name td' number hash) = closed reg
  /\ downloadTrigger (AddStation v reg name td' number hash)
     = downloadTrigger reg || (headTd v <? td').
Proof.
  unfold AddStation, setStationStatus, loopStart.
  destruct (headTd v <? td'); cbn; rewrite ?orb_true_r, ?orb_false_r; repeat split.
Qed.

Lemma registry_inv_new : registry_inv NewRegistry.
Proof.
  unfold registry_inv, NewRegistry. cbn.
  split; [intros name r H; rewrite lookup_empty in H; discriminate |].
  split; [intros n1 n2 r1 r2 H; rewrite lookup_empty in H; discriminate |].
  split; constructor.
Qed.

Lemma registry_inv_AddStation (v : chainView) (reg : Registry) (name : string)
  (td' number hash : Z) :
  registry_inv reg -> registry_inv (AddStation v reg name td' number hash).
Proof.
  intros (Hent & Hinj & Hnd & Hcl).
  destruct (AddStation_fields v reg name td' number hash) as (Hr & Hc & Hx & _).
  unfold registry_inv. rewrite Hr, Hc, Hx.
  assert (Hfresh : chans reg ∉ closed reg).
  { intros Hin. rewrite Forall_forall in Hcl. specialize (Hcl _ Hin). lia. }
  split; [| split; [| split]].
  - intros n r Hn. destruct (decide (name = n)) as [<- | Hne].
    + rewrite lookup_insert_eq in Hn. injection Hn as <-. cbn.
      split; [reflexivity |]. split; [lia | exact Hfresh].
    + rewrite lookup_insert_ne in Hn by exact Hne.
      destruct (Hent n r Hn) as (H1 & H2 & H3). split; [exact H1 |]. split; [lia | exact H3].
  - intros n1 n2 r1 r2 H1 H2 Heq.
    destruct (decide (name = n1)) as [<- | Hne1]; destruct (decide (name = n2)) as [<- | Hne2].
    + reflexivity.
    + rewrite lookup_insert_eq in H1. injection H1 as <-.
      rewrite lookup_insert_ne in H2 by exact Hne2.
      destruct (Hent n2 r2 H2) as (_ & Hlt & _). cbn in Heq. lia.
    + rewrite lookup_insert_eq in H2. injection H2 as <-.
      rewrite lookup_insert_ne in H1 by exact Hne1.
      destruct (Hent n1 r1 H1) as (_ & Hlt & _). cbn in Heq. lia.
    + rewrite lookup_insert_ne in H1 by exact Hne1.
      rewrite lookup_insert_ne in H2 by exact Hne2.
      exact (Hinj n1 n2 r1 r2 H1 H2 Heq).
  - exact Hnd.
  - eapply Forall_impl; [exact Hcl |]. intros ch Hch. cbn in Hch. lia.
Qed.

Lemma registry_inv_DelStation (reg : Registry) (name : string) :
  registry_inv reg -> registry_inv (DelStation reg name).
Proof.
  intros (Hent & Hinj & Hnd & Hcl). unfold DelStation.
  destruct (remotes reg !! name) as [r |] eqn:Er;
    [| exact (conj Hent (conj Hinj (conj Hnd Hcl)))].
  destruct (Hent name r Er) as (Hname & Hlt & Hopen).
  unfold registry_inv. cbn [remotes chans closed].
  split; [| split; [| split]].
  - intros n r' Hn. apply lookup_delete_Some in Hn. destruct Hn as [Hne Hn].
    destruct (Hent n r' Hn) as (H1 & H2 & H3). split; [exact H1 |]. split; [exact H2 |].
    intros Hin. apply elem_of_cons in Hin. destruct Hin as [Heq | Hin]; [| contradiction].
    apply Hne. symmetry. exact (Hinj n name r' r Hn Er Heq).
  - intros n1 n2 r1 r2 H1 H2 Heq.
    apply lookup_delete_Some in H1. apply lookup_delete_Some in H2.
    exact (Hinj n1 n2 r1 r2 (proj2 H1) (proj2 H2) Heq).
  - constructor; assumption.
  - constructor; assumption.
Qed.

Lemma registry_inv_calls (ops : list registryCall) : forall reg,
  registry_inv reg -> registry_inv (calls reg ops).
Proof.
  unfold calls. induction ops as [| op ops IH]; intros reg Hinv; [exact Hinv |].
  cbn [fold_left]. apply IH. destruct op as [v name td' number hash | name]; cbn [call].
  - apply registry_inv_AddStation. exact Hinv.
  - apply registry_inv_DelStation. exact Hinv.
Qed.

(** X8.  After any sequence of calls of
    [AddStation] and [DelStation] on a new downloader: no [errCh] has
    been closed twice (so [close(status.errCh)] does not panic), every
    status is registered under the name of its station with a channel
    that is still open, and no two registered statuses share a channel. *)
Theorem errCh_closed_at_most_once (ops : list registryCall) :
  NoDup (closed (calls NewRegistry ops))
  /\ (forall name r,
        remotes (calls NewRegistry ops) !! name = Some r ->
        station (rm_status r) = name /\ errCh r ∉ closed (calls NewRegistry ops))
  /\ (forall n1 n2 r1 r2,
        remotes (calls NewRegistry ops) !! n1 = Some r1 ->
        remotes (calls NewRegistry ops) !! n2 = Some r2 ->
        errCh r1 = errCh r2 -> n1 = n2).
Proof.
  destruct (registry_inv_calls ops NewRegistry registry_inv_new)
    as (Hent & Hinj & Hnd & _).
  split; [exact Hnd |]. split; [| exact Hinj].
  intros name r Hr. destruct (Hent name r Hr) as (H1 & _ & H3). split; assumption.
Qed.

(** A channel that is made, open and of no entry stays open. *)
Lemma orphan_stays_open (ch : nat) (ops : list registryCall) : forall reg,
  registry_inv reg -> (ch < chans reg)%nat -> ch ∉ closed reg ->
  (forall name r, remotes reg !! name = Some r -> errCh r <> ch) ->
  ch ∉ closed (calls reg ops).
Proof.
  unfold calls. induction ops as [| op ops IH]; intros reg Hinv Hlt Hopen Horphan;
    [exact Hopen |].
  cbn [fold_left].
  destruct op as [v name td' number hash | name]; cbn [call].
  - destruct (AddStation_fields v reg name td' number hash) as (Hr & Hc & Hx & _).
    apply IH.
    + apply registry_inv_AddStation. exact Hinv.
    + rewrite Hc. lia.
    + rewrite Hx. exact Hopen.
    + rewrite Hr. intros n r Hn. destruct (decide (name = n)) as [<- | Hne].
      * rewrite lookup_insert_eq in Hn. injection Hn as <-. cbn. lia.
      * rewrite lookup_insert_ne in Hn by exact Hne. exact (Horphan n r Hn).
  - apply IH.
    + apply registry_inv_DelStation. exact Hinv.
    + unfold DelStation. destruct (remotes reg !! name); exact Hlt.
    + unfold DelStation. destruct (remotes reg !! name) as [r |] eqn:Er; [| exact Hopen].
      cbn [closed]. intros Hin. apply elem_of_cons in Hin.
      destruct Hin as [Heq | Hin]; [| contradiction].
      exact (Horphan name r Er (eq_sym Heq)).
    + unfold DelStation. destruct (remotes reg !! name) as [r |] eqn:Er; [| exact Horphan].
      cbn [remotes]. intros n r' Hn. apply lookup_delete_Some in Hn.
      exact (Horphan n r' (proj2 Hn)).
Qed.

(** X9.  [AddStation] for a name that is
    registered already puts a new status with a new channel in place of
    the old one and does not close the channel of the old status; no
    later call closes it, and the status found under the name from then
    on has another channel. *)
Theorem replaced_errCh_never_closed (before after : list registryCall)
  (v : chainView) (name : string) (td' number hash : Z) (r : remote) :
  remotes (calls NewRegistry before) !! name = Some r ->
  (errCh r ∉ closed (calls (AddStation v (calls NewRegistry before) name td' number
                                hash) after))
  /\ (forall r', remotes (calls (AddStation v (calls NewRegistry before) name
                                    td' number hash) after) !! name = Some r' ->
                 errCh r' <> errCh r).
Proof.
  intros Hr.
  pose proof (registry_inv_calls before NewRegistry registry_inv_new) as Hinv.
  set (reg := calls NewRegistry before) in *.
  destruct (Hinv) as (Hent & Hinj & Hnd & Hcl).
  destruct (Hent name r Hr) as (_ & Hlt & Hopen).
  destruct (AddStation_fields v reg name td' number hash) as (Hrem & Hc & Hx & _).
  assert (Horphan : forall n r0,
             remotes (AddStation v reg name td' number hash) !! n = Some r0 ->
             errCh r0 <> errCh r).
  { rewrite Hrem. intros n r0 Hn. destruct (decide (name = n)) as [<- | Hne].
    - rewrite lookup_insert_eq in Hn. injection Hn as <-. cbn. lia.
    - rewrite lookup_insert_ne in Hn by exact Hne.
      intros Heq. apply Hne. symmetry. exact (Hinj n name r0 r Hn Hr Heq). }
  split.
  - apply orphan_stays_open.
    + apply registry_inv_AddStation. exact Hinv.
    + rewrite Hc. lia.
    + rewrite Hx. exact Hopen.
    + exact Horphan.
  - (* the entry under the name, if any, has another channel *)
    assert (Hgen : forall ops reg0,
               (forall n r0, remotes reg0 !! n = Some r0 -> errCh r0 <> errCh r) ->
               (errCh r < chans reg0)%nat ->
               forall n r0, remotes (calls reg0 ops) !! n = Some r0 -> errCh r0 <> errCh r).
    { unfold calls. induction ops as [| op ops IH]; intros reg0 H0 Hlt0; [exact H0 |].
      cbn [fold_left]. apply IH.
      - destruct op as [v0 name0 td0 number0 hash0 | name0]; cbn [call].
        + destruct (AddStation_fields v0 reg0 name0 td0 number0 hash0) as (Hr0 & _).
          rewrite Hr0. intros n r0 Hn. destruct (decide (name0 = n)) as [<- | Hne].
          * rewrite lookup_insert_eq in Hn. injection Hn as <-. cbn. lia.
          * rewrite lookup_insert_ne in Hn by exact Hne. exact (H0 n r0 Hn).
        + unfold DelStation. destruct (remotes reg0 !! name0) as [gone |]; [| exact H0].
          cbn [remotes]. intros n r0 Hn. apply lookup_delete_Some in Hn.
          exact (H0 n r0 (proj2 Hn)).
      - destruct op as [v0 name0 td0 number0 hash0 | name0]; cbn [call].
        + destruct (AddStation_fields v0 reg0 name0 td0 number0 hash0) as (_ & Hc0 & _).
          rewrite Hc0. lia.
        + unfold DelStation. destruct (remotes reg0 !! name0); exact Hlt0. }
    intros r' Hr'. eapply Hgen; [exact Horphan | rewrite Hc; lia | exact Hr'].
Qed.

(** Station "a" is added twice and then removed: the channel closed is
    the second, channel 1; channel 0 stays open. *)
Lemma replaced_errCh_never_closed_witness :
  (0%nat ∉ closed (calls (AddStation demo_view
                            (calls NewRegistry [CallAdd demo_view "a" 5 10 1010])
                            "a" 6 11 1011)
                     [CallDel "a"]))
  /\ closed (calls (AddStation demo_view
                      (calls NewRegistry [CallAdd demo_view "a" 5 10 1010])
                      "a" 6 11 1011)
               [CallDel "a"]) = [1%nat].
Proof.
  split; [| vm_compute; reflexivity].
  apply (proj1 (replaced_errCh_never_closed [CallAdd demo_view "a" 5 10 1010]
                  [CallDel "a"] demo_view "a" 6 11 1011
                  (mkRemote (mkStatus "a" 5 10 1010 0) 0) eq_refl)).
Defined.

(** X10.  A station added is found under its name,
    with the head and the total difficulty given, [ancestor] 0 and a new
    channel, whatever was registered under the name before; a station
    removed is found no more; neither call changes what is found under
    another name; removing a name that is not registered changes
    nothing, and removing a station just added under a new name gives
    back the map as it was.  [AddStation] fills the download trigger
    exactly when the total difficulty given is above that of the local
    head (and leaves it filled when it was); [DelStation] leaves it. *)
Theorem registry_round_trip (v : chainView) (reg : Registry) (name : string)
  (td' number hash : Z) :
  getStationStatus (AddStation v reg name td' number hash) name
  = Some (mkRemote (mkStatus name td' number hash 0) (chans reg))
  /\ getStationStatus (DelStation reg name) name = None
  /\ (forall other, other <> name ->
        getStationStatus (AddStation v reg name td' number hash) other
        = getStationStatus reg other
        /\ getStationStatus (DelStation reg name) other = getStationStatus reg other)
  /\ (getStationStatus reg name = None ->
      DelStation reg name = reg
      /\ remotes (DelStation (AddStation v reg name td' number hash) name) = remotes reg)
  /\ downloadTrigger (AddStation v reg name td' number hash)
     = downloadTrigger reg || (headTd v <? td')
  /\ downloadTrigger (DelStation reg name) = downloadTrigger reg.
Proof.
  destruct (AddStation_fields v reg name td' number hash) as (Hr & Hc & Hx & Ht).
  unfold getStationStatus. rewrite Hr.
  split; [apply lookup_insert_eq |].
  split.
  { unfold DelStation. destruct (remotes reg !! name) eqn:E; [| exact E].
    cbn [remotes]. apply lookup_delete_eq. }
  split.
  { intros other Hne. split; [apply lookup_insert_ne; congruence |].
    unfold DelStation. destruct (remotes reg !! name); [| reflexivity].
    cbn [remotes]. apply lookup_delete_ne. congruence. }
  split.
  { intros Hnone. split; [unfold DelStation; rewrite Hnone; reflexivity |].
    unfold DelStation. rewrite Hr, lookup_insert_eq. cbn [remotes].
    rewrite delete_insert_eq. apply delete_id. exact Hnone. }
  split; [exact Ht |].
  unfold DelStation. destruct (remotes reg !! name); reflexivity.
Qed.

(** ** Status listener *)

Section ListenerFacts.

Variable pick : gset Z -> Z.

Lemma broadcastStatus_out (dl : Downloader) (bh : NewBlockHashesData) :
  snd (broadcastStatus pick dl bh) = [] \/ snd (broadcastStatus pick dl bh) = [SendBroadcast bh].
Proof.
  unfold broadcastStatus.
  destruct ((nb_Number bh <=? maxNumber dl) && bool_decide (nb_Hash bh ∈ knownBlocks dl));
    [left | right]; reflexivity.
Qed.

Lemma syncstatus_step_out (v : chainView) (dl : Downloader) (reg : Registry)
  (e : statusEvent) (data : NewBlockHashesData) :
  SendBroadcast data ∈ (syncstatus_step pick v dl reg e).2 -> lets_through v e data.
Proof.
  unfold syncstatus_step, lets_through. destruct e as [hash number | from hashdata].
  - pose proof (broadcastStatus_out dl (mkNewBlockHashesData hash number (GetTd v hash number)))
      as Hout.
    destruct (broadcastStatus pick dl _) as [dl' out]. cbn [snd] in *.
    intros Hin. destruct Hout as [-> | ->].
    + inversion Hin.
    + apply list_elem_of_singleton in Hin. injection Hin as ->. reflexivity.
  - destruct (Z.ltb_spec (headTd v) (nb_TD hashdata)) as [Hlt | Hge].
    + pose proof (broadcastStatus_out dl hashdata) as Hout.
      destruct (broadcastStatus pick dl hashdata) as [dl' out]. cbn [snd] in *.
      intros Hin. destruct Hout as [-> | ->].
      * inversion Hin.
      * apply list_elem_of_singleton in Hin. injection Hin as ->. split; [reflexivity | exact Hlt].
    + cbn [snd]. intros Hin. inversion Hin.
Qed.

Lemma syncstatus_step_trigger (v : chainView) (dl : Downloader) (reg : Registry)
  (e : statusEvent) :
  downloadTrigger (syncstatus_step pick v dl reg e).1.2
  = downloadTrigger reg || above_head (v, e).
Proof.
  unfold syncstatus_step, above_head. destruct e as [hash number | from hashdata]; cbn [fst snd].
  - destruct (broadcastStatus pick dl _) as [dl' out]. cbn. rewrite orb_false_r. reflexivity.
  - unfold getStationStatus.
    destruct (headTd v <? nb_TD hashdata).
    + destruct (broadcastStatus pick dl hashdata) as [dl' out]. cbn.
      rewrite orb_true_r. reflexivity.
    + cbn. rewrite orb_false_r. destruct (remotes reg !! from); reflexivity.
Qed.

End ListenerFacts.

(** X11.  Over any sequence of events:
    every message [syncstatus] hands to [broadcastStatus]'s router call
    is the announcement of a block mined here or an announcement
    received with a total difficulty above that of the local head at
    that moment; the download trigger ends filled exactly when it was
    filled before or such an announcement has come, forwarded or not;
    and announcements that are not above the local head send nothing and
    leave [maxNumber] and [knownBlocks] as they were. *)
Theorem syncstatus_forwards_higher_td (pick : gset Z -> Z)
  (events : list (chainView * statusEvent)) (dl : Downloader) (reg : Registry) :
  Forall (fun m => match m with
                   | SendBroadcast data =>
                       exists v e, (v, e) ∈ events /\ lets_through v e data
                   end) (syncstatus pick dl reg events).2
  /\ downloadTrigger (syncstatus pick dl reg events).1.2
     = downloadTrigger reg || existsb above_head events
  /\ (forallb low_announcement events = true ->
      (syncstatus pick dl reg events).1.1 = dl
      /\ (syncstatus pick dl reg events).2 = []).
Proof.
  revert dl reg. induction events as [| [v e] events IH]; intros dl reg.
  - cbn. split; [constructor |]. split; [rewrite orb_false_r; reflexivity |].
    intros _. split; reflexivity.
  - cbn [syncstatus existsb forallb].
    pose proof (syncstatus_step_out pick v dl reg e) as Hout.
    pose proof (syncstatus_step_trigger pick v dl reg e) as Htr.
    destruct (syncstatus_step pick v dl reg e) as [[dl1 reg1] out1] eqn:Estep.
    cbn [fst snd] in Hout, Htr.
    destruct (IH dl1 reg1) as (IH1 & IH2 & IH3).
    destruct (syncstatus pick dl1 reg1 events) as [[dl2 reg2] out2]. cbn [fst snd] in *.
    split; [| split].
    + apply Forall_app. split.
      * apply Forall_forall. intros [data] Hin. exists v, e. split; [left | apply Hout; exact Hin].
      * eapply Forall_impl; [exact IH1 |]. intros [data] (v' & e' & Hin & Hl).
        exists v', e'. split; [right; exact Hin | exact Hl].
    + rewrite IH2, Htr. rewrite orb_assoc. reflexivity.
    + intros Hall. apply andb_true_iff in Hall. destruct Hall as [Hlow Hall].
      unfold low_announcement in Hlow. cbn [fst snd] in Hlow.
      destruct e as [hash number | from hashdata]; [discriminate |].
      apply Z.leb_le in Hlow.
      unfold syncstatus_step in Estep.
      rewrite (proj2 (Z.ltb_ge (headTd v) (nb_TD hashdata))) in Estep by lia.
      injection Estep as <- <- <-.
      cbn [app]. apply IH3. exact Hall.
Qed.

Section ListenerRegistry.

Variable pick : gset Z -> Z.

Lemma syncstatus_step_registry (v : chainView) (dl : Downloader) (reg : Registry)
  (e : statusEvent) :
  chans (syncstatus_step pick v dl reg e).1.2 = chans reg
  /\ closed (syncstatus_step pick v dl reg e).1.2 = closed reg
  /\ remotes (syncstatus_step pick v dl reg e).1.2
     = match e with
       | NewMinedEv _ _ => remotes reg
       | NewBlockHashesMsg from hashdata =>
           match remotes reg !! from with
           | Some status =>
               <[ from := mkRemote (updateStatus (rm_status status) (nb_Hash hashdata)
                                      (nb_Number hashdata) (nb_TD hashdata))
                            (errCh status) ]> (remotes reg)
           | None => remotes reg
           end
       end.
Proof.
  unfold syncstatus_step, getStationStatus. destruct e as [hash number | from hashdata].
  - destruct (broadcastStatus pick dl _) as [dl' out]. cbn. repeat split.
  - destruct (headTd v <? nb_TD hashdata).
    + destruct (broadcastStatus pick dl hashdata) as [dl' out].
      destruct (remotes reg !! from); cbn; repeat split.
    + destruct (remotes reg !! from); cbn; repeat split.
Qed.

End ListenerRegistry.

(** X12.  Over any sequence of events
    [syncstatus] registers and removes no station and makes and closes no
    channel; a registered station keeps its name, its channel and its
    [ancestor], and [getStatus] of it gives the last head it has
    announced, whether or not the total difficulty announced is above
    that of the local head or that announced before, and what it gave
    before when the station has announced nothing. *)
Theorem syncstatus_tracks_status (pick : gset Z -> Z)
  (events : list (chainView * statusEvent)) (dl : Downloader) (reg : Registry) :
  chans (syncstatus pick dl reg events).1.2 = chans reg
  /\ closed (syncstatus pick dl reg events).1.2 = closed reg
  /\ (forall name,
        remotes reg !! name = None ->
        remotes (syncstatus pick dl reg events).1.2 !! name = None)
  /\ (forall name r,
        remotes reg !! name = Some r ->
        exists r',
          remotes (syncstatus pick dl reg events).1.2 !! name = Some r'
          /\ errCh r' = errCh r
          /\ station (rm_status r') = station (rm_status r)
          /\ ancestor (rm_status r') = ancestor (rm_status r)
          /\ getStatus (rm_status r')
             = match last_announcement name events with
               | Some hashdata => (nb_Hash hashdata, nb_Number hashdata, nb_TD hashdata)
               | None => getStatus (rm_status r)
               end).
Proof.
  revert dl reg. induction events as [| [v e] events IH]; intros dl reg.
  - cbn. repeat split; [tauto |]. intros name r Hr. exists r. repeat split; assumption.
  - cbn [syncstatus last_announcement].
    destruct (syncstatus_step_registry pick v dl reg e) as (Hc & Hx & Hrem).
    destruct (syncstatus_step pick v dl reg e) as [[dl1 reg1] out1].
    cbn [fst snd] in Hc, Hx, Hrem.
    destruct (IH dl1 reg1) as (IHc & IHx & IHnone & IHsome).
    destruct (syncstatus pick dl1 reg1 events) as [[dl2 reg2] out2]. cbn [fst snd] in *.
    split; [congruence |]. split; [congruence |]. split.
    + intros name Hnone. apply IHnone. rewrite Hrem.
      destruct e as [hash number | from hashdata]; [exact Hnone |].
      destruct (remotes reg !! from) as [status |] eqn:Ef; [| exact Hnone].
      rewrite lookup_insert_ne; [exact Hnone | congruence].
    + intros name r Hr.
      assert (Hstep : exists r1,
                 remotes reg1 !! name = Some r1 /\ errCh r1 = errCh r
                 /\ station (rm_status r1) = station (rm_status r)
                 /\ ancestor (rm_status r1) = ancestor (rm_status r)
                 /\ getStatus (rm_status r1)
                    = match announced_by name (v, e) with
                      | Some hashdata =>
                          (nb_Hash hashdata, nb_Number hashdata, nb_TD hashdata)
                      | None => getStatus (rm_status r)
                      end).
      { rewrite Hrem. unfold announced_by. cbn [snd].
        destruct e as [hash number | from hashdata];
          [exists r; repeat split; assumption |].
        destruct (decide (from = name)) as [-> | Hne].
        - rewrite Hr, lookup_insert_eq. eexists. split; [reflexivity |].
          repeat split.
        - exists r. split; [| repeat split].
          destruct (remotes reg !! from); [rewrite lookup_insert_ne by exact Hne |];
            exact Hr. }
      destruct Hstep as (r1 & Hr1 & He1 & Hs1 & Ha1 & Hg1).
      destruct (IHsome name r1 Hr1) as (r' & Hr' & He' & Hs' & Ha' & Hg').
      exists r'. split; [exact Hr' |]. split; [congruence |]. split; [congruence |].
      split; [congruence |]. rewrite Hg'.
      destruct (last_announcement name events); [reflexivity | exact Hg1].
Qed.

(** ** The stack *)

Section StackFacts.

Context {A : Type}.

Lemma stack_eta (s : stack.t A) : stack.mk (stack.data s) = s.
Proof. destruct s. reflexivity. Qed.

Lemma pop_push (s : stack.t A) (v : A) : stack.pop (stack.push s v) = (Some v, s).
Proof.
  unfold stack.pop, stack.push. cbn [stack.data].
  rewrite last_snoc, removelast_last, stack_eta. reflexivity.
Qed.

Lemma pops_pushes (vs : list A) : forall s : stack.t A,
  stack.pops (length vs) (stack.pushes s vs) = (Some <$> rev vs, s).
Proof.
  induction vs as [| v vs IH] using rev_ind; intros s; [reflexivity |].
  unfold stack.pushes. rewrite fold_left_app. cbn [fold_left].
  rewrite length_app. cbn [length]. rewrite Nat.add_1_r. cbn [stack.pops].
  rewrite pop_push. fold (stack.pushes s vs). rewrite IH.
  rewrite rev_app_distr. reflexivity.
Qed.

End StackFacts.

(** X13.  [pop] after [push] gives the value
    pushed and the stack as it was; values pushed one after the other
    are popped in the reverse order; pushing back what [pop] gave
    restores the stack; [pop] gives [nil] and changes nothing exactly
    when [len] is 0, as after [clear]; [push] adds one to [len]. *)
Theorem stack_last_in_first_out {A : Type} (s : stack.t A) (vs : list A) (v : A) :
  stack.pop (stack.push s v) = (Some v, s)
  /\ stack.pops (length vs) (stack.pushes s vs) = (Some <$> rev vs, s)
  /\ (forall v' s', stack.pop s = (Some v', s') ->
        stack.push s' v' = s /\ stack.len s' = stack.len s - 1)
  /\ (stack.pop s = (None, s) <-> stack.len s = 0)
  /\ stack.pop (stack.clear s) = (None, stack.clear s)
  /\ stack.len (stack.push s v) = stack.len s + 1
  /\ stack.len (stack.clear s) = 0.
Proof.
  split; [apply pop_push |]. split; [apply pops_pushes |].
  split; [| split; [| split; [reflexivity | split; [| reflexivity]]]].
  - intros v' s' Hpop. unfold stack.pop in Hpop.
    destruct (last (stack.data s)) as [x |] eqn:El; [| discriminate].
    injection Hpop as -> <-.
    destruct (stack.data s) as [| a l] eqn:Ed using rev_ind; [discriminate |].
    rewrite last_snoc in El. injection El as ->.
    rewrite removelast_last. unfold stack.push, stack.len. cbn [stack.data].
    rewrite <- Ed, stack_eta. split; [reflexivity |].
    rewrite Ed, length_app. cbn [length]. lia.
  - unfold stack.pop, stack.len. split.
    + intros Hpop. destruct (last (stack.data s)) eqn:El; [discriminate |].
      apply last_None in El. rewrite El. reflexivity.
    + intros Hlen. destruct (stack.data s) as [| a l] eqn:Ed; [reflexivity |].
      cbn [length] in Hlen. lia.
  - unfold stack.len, stack.push. cbn [stack.data]. rewrite length_app. cbn [length]. lia.
Qed.

Lemma pop_rev {A : Type} (s : stack.t A) :
  stack.pop s
  = match rev (stack.data s) with
    | [] => (None, s)
    | v :: rest => (Some v, stack.mk (rev rest))
    end.
Proof.
  unfold stack.pop. destruct (stack.data s) as [| a l] eqn:Ed using rev_ind.
  - reflexivity.
  - rewrite last_snoc, removelast_last, rev_app_distr. cbn [rev app].
    rewrite rev_involutive. reflexivity.
Qed.

(** X14.  [getReadyTask] written with [pop] and
    [push] on the two stacks, as in the source, is the [getReadyTask] on
    lists of the dispatcher above, a stack being the list of its values
    from the top down; when it gives no task, for want of a worker or of
    a task, both stacks are as they were: the worker popped is pushed
    back. *)
Theorem getReadyTask_on_stacks (d : dispatcher) (ws : stack.t stationStatus)
  (ts : stack.t downloadTask) :
  workers d = rev (stack.data ws) -> taskes d = rev (stack.data ts) ->
  fst (getReadyTask d) = (getReadyTask_on ws ts).1.1
  /\ workers (snd (getReadyTask d)) = rev (stack.data (getReadyTask_on ws ts).1.2)
  /\ taskes (snd (getReadyTask d)) = rev (stack.data (getReadyTask_on ws ts).2)
  /\ ((getReadyTask_on ws ts).1.1 = None ->
      (getReadyTask_on ws ts).1.2 = ws /\ (getReadyTask_on ws ts).2 = ts).
Proof.
  intros Hw Ht. unfold getReadyTask, getReadyTask_on.
  rewrite (pop_rev ws), (pop_rev ts).
  destruct (workers d) as [| w wrest] eqn:Ew; rewrite <- Hw.
  - cbn [fst snd]. rewrite Ew. repeat split; assumption.
  - destruct (taskes d) as [| t trest] eqn:Et; rewrite <- Ht.
    + cbn [fst snd].
      assert (Hback : stack.push (stack.mk (rev wrest)) w = ws).
      { unfold stack.push. cbn [stack.data].
        replace (rev wrest ++ [w]) with (rev (w :: wrest)) by reflexivity.
        rewrite Hw, rev_involutive. destruct ws. reflexivity. }
      rewrite Hback, Ew, Et. repeat split; assumption.
    + cbn [fst snd workers taskes stack.data]. rewrite !rev_involutive.
      repeat split; discriminate.
Qed.

Lemma getReadyTask_on_stacks_witness :
  fst (getReadyTask (mkDispatcher [demo_best; demo_low] [] 0 [] ∅ [])) = None
  /\ (getReadyTask_on (stack.mk [demo_low; demo_best]) (stack.mk [])).1.2
     = stack.mk [demo_low; demo_best].
Proof.
  pose proof (getReadyTask_on_stacks (mkDispatcher [demo_best; demo_low] [] 0 [] ∅ [])
                (stack.mk [demo_low; demo_best]) (stack.mk []) eq_refl eq_refl)
    as (H1 & _ & _ & H4).
  split; [rewrite H1; reflexivity | exact (proj1 (H4 eq_refl))].
Defined.

(** ** The dispatcher, step by step *)

Lemma suffix_of_cons {A : Type} (l k : list A) (x : A) :
  l `suffix_of` x :: k -> l = x :: k \/ l `suffix_of` k.
Proof.
  intros [pre Hpre]. destruct pre as [| y pre].
  - left. symmetry. exact Hpre.
  - right. injection Hpre as _ ->. exists pre. reflexivity.
Qed.

Section StepFacts.

Variable header_hash : Header -> Z.
Variable net_hashes : downloadTask -> getBlcokHashByNumber -> option (list Z).
Variable net_headers : downloadTask -> getBlockHeadersData -> option (list Header).
Variable net_bodies : downloadTask -> list Z -> option (list Body).
Variable sched : nat -> nat.

Local Abbreviation step := (dispatch_step header_hash net_hashes net_headers net_bodies).

Lemma doTask_loop_steps : forall (fuel : nat) (d : dispatcher),
  rtc step d (doTask_loop fuel d).
Proof.
  induction fuel as [| fuel IH]; intros d; [apply rtc_refl |].
  cbn [doTask_loop]. destruct (Z.ltb_spec (taskCount d) maxTask) as [Hlt | Hge];
    [| apply rtc_refl].
  unfold getReadyTask.
  destruct (workers d) as [| w ws] eqn:Ew; [apply rtc_refl |].
  destruct (taskes d) as [| t ts] eqn:Et; [apply rtc_refl |].
  eapply rtc_l; [| apply IH].
  cbn [workers taskes taskCount running insertList events].
  exact (step_launch header_hash net_hashes net_headers net_bodies d w ws t ts Hlt Ew Et).
Qed.

Lemma doTask_steps (d : dispatcher) : rtc step d (doTask d).
Proof. apply doTask_loop_steps. Qed.

Lemma collect_steps : forall (fuel : nat) (d d' : dispatcher),
  collect header_hash net_hashes net_headers net_bodies sched fuel d = Ok d' ->
  rtc step d d' /\ taskCount d' <= 0.
Proof.
  induction fuel as [| fuel IH]; intros d d' Hc; [discriminate |].
  cbn [collect] in Hc. destruct (Z.ltb_spec 0 (taskCount d)) as [Hbusy | Hidle];
    [| injection Hc as <-; split; [apply rtc_refl | exact Hidle]].
  destruct (running d !! (sched fuel mod length (running d))%nat)
    as [started |] eqn:Ek; [| discriminate].
  destruct (Do header_hash net_hashes net_headers net_bodies started)
    as [[task sent] | |] eqn:EDo; [| discriminate | discriminate].
  destruct (IH _ d' Hc) as [Hsteps Hdone]. split; [| exact Hdone].
  eapply rtc_l;
    [exact (step_receive header_hash net_hashes net_headers net_bodies d _ started
              task sent Hbusy Ek EDo) |].
  eapply rtc_trans; [apply doTask_steps | exact Hsteps].
Qed.

(** An invariant of the steps holds in every state reached. *)
Lemma steps_keep (P : dispatcher -> Prop) :
  (forall d d', step d d' -> P d -> P d') ->
  forall d d', rtc step d d' -> P d -> P d'.
Proof.
  intros Hstep d d' Hrtc. induction Hrtc as [d | d d1 d2 H1 _ IH]; intros Hd.
  - exact Hd.
  - apply IH. exact (Hstep d d1 H1 Hd).
Qed.

Lemma inflight_inv_step (d d' : dispatcher) :
  step d d' -> inflight_inv d -> inflight_inv d'.
Proof.
  intros Hstep (Hc & Hr & Hsuf).
  assert (Hnew : forall e evs', in_flight (e :: events d) = taskCount d + 1
                                 \/ in_flight (e :: events d) = taskCount d - 1 ->
                  0 <= in_flight (e :: events d) <= maxTask ->
                  evs' `suffix_of` e :: events d -> 0 <= in_flight evs' <= maxTask).
  { intros e evs' _ Hb Hs. apply suffix_of_cons in Hs.
    destruct Hs as [-> | Hs]; [exact Hb | apply Hsuf; exact Hs]. }
  destruct Hstep as [d w ws t ts Hlt Ew Et | d k started task sent Hbusy Hk HDo].
  - unfold inflight_inv, launched. cbn [taskCount running events in_flight length].
    split; [lia |]. split; [lia |].
    intros evs Hs. apply (Hnew (EvLaunch (set_worker t w)) evs);
      [left; cbn [in_flight]; lia | cbn [in_flight]; lia | exact Hs].
  - pose proof (length_drop_nth k (running d) started Hk) as Hlen.
    assert (Hin : 0 <= in_flight (EvResult task :: events d) <= maxTask)
      by (cbn [in_flight]; unfold maxTask in *; pose proof (Hsuf (events d) ltac:(reflexivity)); lia).
    unfold inflight_inv, received, handle_result.
    destruct (length (blocks task) =? 0)%nat; [destruct (5 <? errorTotal task) |];
      cbn [taskCount running events in_flight]; (split; [lia |]); (split; [lia |]);
      intros evs Hs.
    + apply suffix_of_cons in Hs. destruct Hs as [-> | Hs].
      * cbn [in_flight]. cbn [in_flight] in Hin. lia.
      * apply (Hnew (EvResult task) evs); [right; cbn [in_flight]; lia | exact Hin | exact Hs].
    + apply (Hnew (EvResult task) evs); [right; cbn [in_flight]; lia | exact Hin | exact Hs].
    + apply (Hnew (EvResult task) evs); [right; cbn [in_flight]; lia | exact Hin | exact Hs].
Qed.

Lemma busy_drop_nth (l : list downloadTask) (k : nat) (started : downloadTask)
  (w : stationStatus) :
  l !! k = Some started -> worker started = Some w ->
  omap worker l ≡ₚ w :: omap worker (drop_nth k l).
Proof.
  intros Hk Hw. unfold drop_nth.
  rewrite <- (take_drop_middle l k started Hk) at 1.
  rewrite !omap_app. simpl. rewrite Hw. simpl.
  symmetry. apply Permutation_middle.
Qed.

Lemma Do_worker (task task' : downloadTask) (sent : list request) :
  Do header_hash net_hashes net_headers net_bodies task = Ok (task', sent) ->
  exists w, worker task = Some w /\ worker task' = Some w.
Proof.
  intros HDo. pose proof (Do_deliver _ _ _ _ _ _ _ HDo) as ->.
  unfold Do in HDo. destruct (worker task) as [w |] eqn:Ew; [| discriminate].
  exists w. split; [reflexivity | exact Ew].
Qed.

Lemma failures_cons (e : event) (evs : list event) :
  failures (e :: evs) = ((if is_failure e then 1 else 0) + failures evs)%nat.
Proof. unfold failures. cbn [List.filter]. destruct (is_failure e); reflexivity. Qed.

Lemma workers_inv_step (remotes : list stationStatus) (d d' : dispatcher) :
  step d d' -> workers_inv remotes d -> workers_inv remotes d'.
Proof.
  intros Hstep (Hsub & Hall & Hcount).
  destruct Hstep as [d w ws t ts Hlt Ew Et | d k started task sent Hbusy Hk HDo].
  - unfold workers_inv, launched, busy in *. cbn [workers running events omap].
    rewrite Ew in Hsub, Hcount. cbn [set_worker worker]. split; [| split].
    + cbn. rewrite <- Hsub. apply Permutation_submseteq.
      symmetry. apply Permutation_middle.
    + constructor; [eexists; reflexivity | exact Hall].
    + rewrite failures_cons. cbn [is_failure length] in *. lia.
  - destruct (Do_worker started task sent HDo) as (w & Hws & Hwt).
    pose proof (busy_drop_nth (running d) k started w Hk Hws) as Hperm.
    pose proof (length_drop_nth k (running d) started Hk) as Hlen.
    assert (Hall' : Forall (fun t => is_Some (worker t)) (drop_nth k (running d)))
      by (apply Forall_drop_nth; exact Hall).
    unfold workers_inv, received, handle_result, busy in *.
    destruct (length (blocks task) =? 0)%nat eqn:Eb.
    + assert (Hsub' : workers d ++ omap worker (drop_nth k (running d)) ⊆+ remotes).
      { rewrite <- Hsub. apply submseteq_skips_l. rewrite Hperm. apply submseteq_cons.
        reflexivity. }
      destruct (5 <? errorTotal task); cbn [workers running events];
        (split; [exact Hsub' |]); (split; [exact Hall' |]);
        rewrite !failures_cons; cbn [is_failure]; rewrite ?Eb; lia.
    + cbn [workers running events]. rewrite Hwt. cbn [from_option].
      split; [| split; [exact Hall' |]].
      * rewrite <- Hsub. apply Permutation_submseteq. rewrite Hperm.
        cbn. apply Permutation_middle.
      * rewrite failures_cons. cbn [is_failure length]. rewrite Eb. lia.
Qed.

Lemma budget_inv_step (remotes : list stationStatus) (d d' : dispatcher) :
  step d d' -> budget_inv remotes d -> budget_inv remotes d'.
Proof.
  intros Hstep (Hw & Hpos & Hsum & Hclear).
  pose proof (workers_inv_step remotes d d' Hstep Hw) as Hw'.
  split; [exact Hw' |].
  destruct Hstep as [d w ws t ts Hlt Ew Et | d k started task sent Hbusy Hk HDo].
  - unfold launched in *. cbn [workers taskes running events].
    rewrite Et in Hpos, Hsum.
    split; [| split].
    + apply Forall_app. apply Forall_app in Hpos. destruct Hpos as [Hq Hr].
      inversion Hq; subst. split; [assumption |]. constructor; [| exact Hr].
      cbn. assumption.
    + rewrite failures_cons. cbn [is_failure].
      rewrite sum_list_with_app in *. cbn [sum_list_with set_worker errorTotal] in *. lia.
    + intros Hin. apply Hclear. apply elem_of_cons in Hin.
      destruct Hin as [Heq | Hin]; [discriminate | exact Hin].
  - pose proof (Do_deliver _ _ _ _ started task sent HDo) as Htask.
    assert (He : errorTotal task = errorTotal started + 1) by (rewrite Htask; reflexivity).
    apply Forall_app in Hpos. destruct Hpos as [Hq Hr].
    assert (Hst : 0 <= errorTotal started).
    { rewrite Forall_forall in Hr. apply Hr. apply list_elem_of_lookup. eexists. exact Hk. }
    assert (Hr' : Forall (fun t => 0 <= errorTotal t) (drop_nth k (running d)))
      by (apply Forall_drop_nth; exact Hr).
    rewrite sum_list_with_app in Hsum.
    rewrite (sum_drop_nth (fun t => Z.to_nat (errorTotal t)) k (running d) started Hk)
      in Hsum.
    destruct Hw as (Hsub & Hall & Hcount).
    pose proof (length_drop_nth k (running d) started Hk) as Hlen.
    unfold received, handle_result in *.
    destruct (length (blocks task) =? 0)%nat eqn:Eb.
    + destruct (Z.ltb_spec 5 (errorTotal task)) as [Hover | Hunder];
        cbn [workers taskes running events].
      * split; [apply Forall_app; split; [constructor | exact Hr'] |].
        split.
        -- rewrite !failures_cons. cbn [is_failure]. rewrite Eb.
           rewrite sum_list_with_app. cbn [sum_list_with]. lia.
        -- intros _. lia.
      * split; [apply Forall_app; split; [constructor; [lia | exact Hq] | exact Hr'] |].
        split.
        -- rewrite !failures_cons. cbn [is_failure]. rewrite Eb.
           rewrite sum_list_with_app. cbn [sum_list_with]. lia.
        -- intros Hin. apply Hclear. apply elem_of_cons in Hin.
           destruct Hin as [Heq | Hin]; [discriminate | exact Hin].
    + cbn [workers taskes running events].
      split; [apply Forall_app; split; [exact Hq | exact Hr'] |].
      split.
      * rewrite !failures_cons. cbn [is_failure]. rewrite Eb.
        rewrite sum_list_with_app. lia.
      * intros Hin. apply Hclear. apply elem_of_cons in Hin.
        destruct Hin as [Heq | Hin]; [discriminate | exact Hin].
Qed.

End StepFacts.

Lemma push_tasks_fresh : forall (i : nat) (hashes numbers : list Z)
    (acc ts : list downloadTask),
  Forall (fun t => errorTotal t = 0) acc ->
  push_tasks i hashes numbers acc = Ok ts -> Forall (fun t => errorTotal t = 0) ts.
Proof.
  induction i as [| i IH]; intros hashes numbers acc ts Hacc Hp.
  - injection Hp as <-. exact Hacc.
  - cbn [push_tasks] in Hp.
    destruct (numbers !! i) as [sn |]; [| discriminate].
    destruct (hashes !! i) as [sh |]; [| discriminate].
    destruct (numbers !! S i) as [en |]; [| discriminate].
    destruct (hashes !! S i) as [eh |]; [| discriminate].
    refine (IH hashes numbers _ ts _ Hp). constructor; [reflexivity | exact Hacc].
Qed.

Section RoundSteps.

Variable header_hash : Header -> Z.
Variable net_hashes : downloadTask -> getBlcokHashByNumber -> option (list Z).
Variable net_headers : downloadTask -> getBlockHeadersData -> option (list Header).
Variable net_bodies : downloadTask -> list Z -> option (list Body).
Variable sched : nat -> nat.

Local Abbreviation step := (dispatch_step header_hash net_hashes net_headers net_bodies).

Lemma inflight_inv_init (remotes : list stationStatus) (ts : list downloadTask) :
  inflight_inv (init_dispatcher remotes ts).
Proof.
  unfold inflight_inv, init_dispatcher. cbn [taskCount events running length in_flight].
  split; [reflexivity |]. split; [reflexivity |].
  intros evs Hs. apply suffix_nil_inv in Hs. subst evs. cbn. unfold maxTask. lia.
Qed.

Lemma budget_inv_init (remotes : list stationStatus) (ts : list downloadTask) :
  Forall (fun t => errorTotal t = 0) ts ->
  budget_inv remotes (init_dispatcher remotes ts).
Proof.
  intros Hts. unfold budget_inv, workers_inv, init_dispatcher, busy.
  cbn [workers taskes running events omap length failures List.filter].
  rewrite !app_nil_r. split; [split; [| split] |].
  - apply Permutation_submseteq. symmetry. apply Permutation_rev.
  - constructor.
  - rewrite length_rev. cbn. lia.
  - split; [| split].
    + eapply Forall_impl; [exact Hts |]. intros t Ht. cbn in Ht. lia.
    + induction Hts as [| t ts Ht Hts IH]; cbn [sum_list_with]; [cbn; lia |].
      rewrite Ht. cbn in *. lia.
    + intros Hin. inversion Hin.
Qed.

(** The state in which the collecting loop of a round ends has been
    reached by steps from the start. *)
Lemma round_steps (remotes : list stationStatus) (ts : list downloadTask)
  (fuel : nat) (d : dispatcher) :
  collect header_hash net_hashes net_headers net_bodies sched fuel
    (doTask (init_dispatcher remotes ts)) = Ok d ->
  rtc step (init_dispatcher remotes ts) d /\ taskCount d <= 0.
Proof.
  intros Hc. destruct (collect_steps _ _ _ _ _ _ _ _ Hc) as [Hsteps Hdone].
  split; [| exact Hdone].
  eapply rtc_trans; [apply doTask_steps | exact Hsteps].
Qed.

End RoundSteps.

(** X15.  Whatever the peers answer and in
    whatever order the tasks complete: at no moment of
    [assignDownloadTask] have more than 16 tasks been launched and not
    yet received from; when it returns it has received from every task
    it has launched; and in every state that the two loops can reach
    [taskCount] is the number of running tasks, at most 16. *)
Theorem at_most_maxTask_in_flight (header_hash : Header -> Z)
  (net_hashes : downloadTask -> getBlcokHashByNumber -> option (list Z))
  (net_headers : downloadTask -> getBlockHeadersData -> option (list Header))
  (net_bodies : downloadTask -> list Z -> option (list Body))
  (sched : nat -> nat) (Chain : Type)
  (InsertChain : Chain -> list Block -> Chain * Z * option error)
  (remotes : list stationStatus) (hashes numbers : list Z) (c : Chain) :
  (forall earlier,
      earlier `suffix_of` snd (assignDownloadTask header_hash net_hashes net_headers
                                 net_bodies sched Chain InsertChain remotes hashes
                                 numbers c) ->
      0 <= in_flight earlier <= 16)
  /\ in_flight (snd (assignDownloadTask header_hash net_hashes net_headers net_bodies
                       sched Chain InsertChain remotes hashes numbers c)) = 0
  /\ (forall ts d,
        rtc (dispatch_step header_hash net_hashes net_headers net_bodies)
          (init_dispatcher remotes ts) d ->
        taskCount d = Z.of_nat (length (running d)) /\ taskCount d <= 16).
Proof.
  assert (Hreach : forall ts d,
             rtc (dispatch_step header_hash net_hashes net_headers net_bodies)
               (init_dispatcher remotes ts) d -> inflight_inv d).
  { intros ts d Hsteps.
    apply (steps_keep header_hash net_hashes net_headers net_bodies inflight_inv
             (inflight_inv_step header_hash net_hashes net_headers net_bodies)
             _ d Hsteps).
    apply inflight_inv_init. }
  assert (Hnil : (forall earlier : list event, earlier `suffix_of` [] ->
                                               0 <= in_flight earlier <= 16)
                 /\ in_flight [] = 0).
  { split; [| reflexivity]. intros evs Hs. apply suffix_nil_inv in Hs. subst evs. cbn. lia. }
  split; [| split].
  3:{ intros ts d Hsteps. destruct (Hreach ts d Hsteps) as (Hc & Hr & Hsuf).
      split; [exact Hr |]. rewrite Hc. apply (Hsuf (events d)). reflexivity. }
  all: unfold assignDownloadTask.
  all: destruct (push_tasks (length numbers - 1) hashes numbers []) as [ts | |];
    [| apply Hnil | apply Hnil].
  all: destruct (collect header_hash net_hashes net_headers net_bodies sched
                   (collect_fuel ts) (doTask (init_dispatcher remotes ts)))
         as [d | |] eqn:Ec; [| apply Hnil | apply Hnil].
  all: destruct (round_steps _ _ _ _ _ _ _ _ _ Ec) as [Hsteps Hdone].
  all: destruct (Hreach ts d Hsteps) as (Hc & Hr & Hsuf).
  all: destruct (last numbers) as [final |];
    [destruct (insert_loop Chain InsertChain (removelast numbers) final (insertList d) c)
       as [[r c'] fx] |]; cbn [snd].
  - exact Hsuf.
  - exact Hsuf.
  - lia.
  - lia.
Qed.

Lemma NoDup_fmap_submseteq {A B : Type} (f : A -> B) (l k : list A) :
  l ⊆+ k -> NoDup (f <$> k) -> NoDup (f <$> l).
Proof.
  intros Hsub Hnd. apply submseteq_Permutation in Hsub. destruct Hsub as [rest Hperm].
  rewrite Hperm, fmap_app in Hnd. apply NoDup_app in Hnd. apply Hnd.
Qed.

(** X16.  With stations registered under
    distinct names, in every state that [doTask] and the collecting loop
    can reach from the start of a round: the idle workers and the workers
    of the running tasks are registered stations, no station is among
    them twice, every running task has a worker, and no two running
    tasks have workers of the same station. *)
Theorem one_task_per_station (header_hash : Header -> Z)
  (net_hashes : downloadTask -> getBlcokHashByNumber -> option (list Z))
  (net_headers : downloadTask -> getBlockHeadersData -> option (list Header))
  (net_bodies : downloadTask -> list Z -> option (list Body))
  (remotes : list stationStatus) (ts : list downloadTask) (d : dispatcher) :
  NoDup (station <$> remotes) ->
  rtc (dispatch_step header_hash net_hashes net_headers net_bodies)
    (init_dispatcher remotes ts) d ->
  NoDup (station <$> (workers d ++ busy d))
  /\ (forall w, w ∈ workers d ++ busy d -> w ∈ remotes)
  /\ (forall (i j : nat) (t t' : downloadTask),
        running d !! i = Some t -> running d !! j = Some t' ->
        exists w w', worker t = Some w /\ worker t' = Some w'
                     /\ (station w = station w' -> i = j)).
Proof.
  intros Hnd Hsteps.
  assert (Hinv : workers_inv remotes d).
  { apply (steps_keep header_hash net_hashes net_headers net_bodies (workers_inv remotes)
             (workers_inv_step header_hash net_hashes net_headers net_bodies remotes)
             _ d Hsteps).
    apply (budget_inv_init remotes []). constructor. }
  destruct Hinv as (Hsub & Hall & _).
  pose proof (NoDup_fmap_submseteq station _ _ Hsub Hnd) as Hnd'.
  split; [exact Hnd' |]. split.
  - intros w Hw. eapply elem_of_submseteq; [exact Hw | exact Hsub].
  - intros i j t t' Hi Hj.
    rewrite Forall_forall in Hall.
    destruct (Hall t) as [w Hw]; [apply list_elem_of_lookup; eexists; exact Hi |].
    destruct (Hall t') as [w' Hw']; [apply list_elem_of_lookup; eexists; exact Hj |].
    exists w, w'. split; [exact Hw |]. split; [exact Hw' |].
    intros Hst.
    rewrite fmap_app in Hnd'. apply NoDup_app in Hnd'. destruct Hnd' as (_ & _ & Hb).
    assert (Hbusy : forall l : list downloadTask,
               Forall (fun t => is_Some (worker t)) l ->
               station <$> omap worker l
               = (fun t => from_option station EmptyString (worker t)) <$> l).
    { induction l as [| x l IH]; intros Hl; [reflexivity |].
      inversion Hl as [| ? ? [wx Hx] Hl']; subst.
      change (omap worker (x :: l))
        with (match worker x with
              | Some y => y :: omap worker l
              | None => omap worker l
              end).
      rewrite Hx, !fmap_cons, Hx, (IH Hl'). reflexivity. }
    unfold busy in Hb. rewrite Hbusy in Hb by (apply Forall_forall; exact Hall).
    apply (NoDup_lookup _ i j (station w) Hb).
    + rewrite list_lookup_fmap, Hi. simpl. rewrite Hw. reflexivity.
    + rewrite list_lookup_fmap, Hj. simpl. rewrite Hw', Hst. reflexivity.
Qed.

(** X17.  The worker of a task that is
    received without blocks is not pushed back on the pool: in every
    state reached, the idle workers, the running tasks and the failures
    so far add up to the number of registered stations.  Hence a round
    sees at most as many failures as there are stations, and
    [taskes.clear()], which takes six failures of one task, is not
    reached in a round with fewer than six stations. *)
Theorem failed_worker_leaves_pool (header_hash : Header -> Z)
  (net_hashes : downloadTask -> getBlcokHashByNumber -> option (list Z))
  (net_headers : downloadTask -> getBlockHeadersData -> option (list Header))
  (net_bodies : downloadTask -> list Z -> option (list Body))
  (sched : nat -> nat) (Chain : Type)
  (InsertChain : Chain -> list Block -> Chain * Z * option error)
  (remotes : list stationStatus) (hashes numbers : list Z) (c : Chain) :
  (forall ts d,
      rtc (dispatch_step header_hash net_hashes net_headers net_bodies)
        (init_dispatcher remotes ts) d ->
      (length (workers d) + length (running d) + failures (events d)
       = length remotes)%nat)
  /\ (failures (snd (assignDownloadTask header_hash net_hashes net_headers net_bodies
                       sched Chain InsertChain remotes hashes numbers c))
      <= length remotes)%nat
  /\ (EvClear ∈ snd (assignDownloadTask header_hash net_hashes net_headers net_bodies
                       sched Chain InsertChain remotes hashes numbers c) ->
      (6 <= length remotes)%nat).
Proof.
  split.
  { intros ts d Hsteps.
    assert (Hinv : workers_inv remotes d).
    { apply (steps_keep header_hash net_hashes net_headers net_bodies (workers_inv remotes)
               (workers_inv_step header_hash net_hashes net_headers net_bodies remotes)
               _ d Hsteps).
      apply (budget_inv_init remotes []). constructor. }
    apply Hinv. }
  assert (Hnil : (failures [] <= length remotes)%nat
                 /\ (EvClear ∈ @nil event -> (6 <= length remotes)%nat)).
  { split; [cbn; lia | intros Hin; inversion Hin]. }
  unfold assignDownloadTask.
  destruct (push_tasks (length numbers - 1) hashes numbers []) as [ts | |] eqn:Ep;
    [| exact Hnil | exact Hnil].
  destruct (collect header_hash net_hashes net_headers net_bodies sched
              (collect_fuel ts) (doTask (init_dispatcher remotes ts)))
    as [d | |] eqn:Ec; [| exact Hnil | exact Hnil].
  destruct (round_steps _ _ _ _ _ _ _ _ _ Ec) as [Hsteps _].
  assert (Hinv : budget_inv remotes d).
  { apply (steps_keep header_hash net_hashes net_headers net_bodies (budget_inv remotes)
             (budget_inv_step header_hash net_hashes net_headers net_bodies remotes)
             _ d Hsteps).
    apply budget_inv_init.
    refine (push_tasks_fresh _ hashes numbers [] ts _ Ep). constructor. }
  destruct Hinv as ((_ & _ & Hcount) & _ & _ & Hclear).
  destruct (last numbers) as [final |];
    [destruct (insert_loop Chain InsertChain (removelast numbers) final (insertList d) c)
       as [[r c'] fx] |]; cbn [snd]; (split; [lia | exact Hclear]).
Qed.

(** Two stations and three tasks: the first [doTask] launches two. *)
Lemma one_task_per_station_witness :
  NoDup (station <$> (workers (doTask (init_dispatcher [demo_best; demo_low]
                                         [mkTask None 1 1001 66 1066 [] 0;
                                          mkTask None 66 1066 131 1131 [] 0;
                                          mkTask None 131 1131 150 1150 [] 0]))
                      ++ busy (doTask (init_dispatcher [demo_best; demo_low]
                                         [mkTask None 1 1001 66 1066 [] 0;
                                          mkTask None 66 1066 131 1131 [] 0;
                                          mkTask None 131 1131 150 1150 [] 0])))).
Proof.
  apply (one_task_per_station demo_header_hash demo_net_hashes demo_net_headers
           demo_net_bodies [demo_best; demo_low]
           [mkTask None 1 1001 66 1066 [] 0; mkTask None 66 1066 131 1131 [] 0;
            mkTask None 131 1131 150 1150 [] 0]).
  - apply (bool_decide_unpack _). vm_compute. reflexivity.
  - apply doTask_steps.
Defined.
(** ** The chunks of a round *)

Lemma push_tasks_from_skeleton : forall (i : nat) (hashes numbers : list Z)
    (acc ts : list downloadTask),
  Forall (fun t => exists k, from_skeleton hashes numbers k t) acc ->
  push_tasks i hashes numbers acc = Ok ts ->
  Forall (fun t => exists k, from_skeleton hashes numbers k t) ts.
Proof.
  induction i as [| i IH]; intros hashes numbers acc ts Hacc Hp.
  - injection Hp as <-. exact Hacc.
  - cbn [push_tasks] in Hp.
    destruct (numbers !! i) as [sn |] eqn:E1; [| discriminate].
    destruct (hashes !! i) as [sh |] eqn:E2; [| discriminate].
    destruct (numbers !! S i) as [en |] eqn:E3; [| discriminate].
    destruct (hashes !! S i) as [eh |] eqn:E4; [| discriminate].
    refine (IH hashes numbers _ ts _ Hp). constructor; [| exact Hacc].
    exists i. repeat split; assumption.
Qed.

Section AnchoredFacts.

Variable header_hash : Header -> Z.
Variable net_hashes : downloadTask -> getBlcokHashByNumber -> option (list Z).
Variable net_headers : downloadTask -> getBlockHeadersData -> option (list Header).
Variable net_bodies : downloadTask -> list Z -> option (list Body).
Variable sched : nat -> nat.
Variable hashes numbers : list Z.

Lemma anchored_inv_kept :
  kept header_hash net_hashes net_headers net_bodies
    (anchored_inv header_hash hashes numbers).
Proof.
  split.
  - intros d w ws t ts Ew Et (Hinv & Hall & Hins).
    split; [apply (proj1 (dispatcher_inv_kept header_hash net_hashes net_headers
                            net_bodies) d w ws t ts Ew Et Hinv) |].
    split; [| exact Hins].
    unfold launched. cbn [taskes running]. rewrite Et in Hall.
    apply Forall_app in Hall. destruct Hall as [Hq Hr]. inversion Hq; subst.
    apply Forall_app. split; [assumption |]. constructor; [| exact Hr]. assumption.
  - intros d k started task sent Hk HDo (Hinv & Hall & Hins).
    pose proof (proj2 (dispatcher_inv_kept header_hash net_hashes net_headers net_bodies)
                  d k started task sent Hk HDo Hinv) as Hinv'.
    split; [exact Hinv' |].
    pose proof (Do_deliver _ _ _ _ started task sent HDo) as Htask.
    apply Forall_app in Hall. destruct Hall as [Hq Hr].
    assert (Hst : exists k0, from_skeleton hashes numbers k0 started).
    { rewrite Forall_forall in Hr. apply Hr. apply list_elem_of_lookup. eexists. exact Hk. }
    assert (Hwf : task_wf started).
    { destruct Hinv as (_ & _ & Hrun). rewrite Forall_forall in Hrun.
      apply (Hrun started). apply list_elem_of_lookup. eexists. exact Hk. }
    assert (Hr' : Forall (fun t => exists k0, from_skeleton hashes numbers k0 t)
                    (drop_nth k (running d)))
      by (apply Forall_drop_nth; exact Hr).
    assert (Htk : exists k0, from_skeleton hashes numbers k0 task).
    { destruct Hst as [k0 Hk0]. exists k0. rewrite Htask. exact Hk0. }
    unfold received, handle_result.
    destruct (length (blocks task) =? 0)%nat eqn:Eb.
    + destruct (5 <? errorTotal task); cbn [taskes running insertList].
      * split; [apply Forall_app; split; [constructor | exact Hr'] | exact Hins].
      * split; [apply Forall_app; split; [constructor; assumption | exact Hr']
               | exact Hins].
    + cbn [taskes running insertList].
      split; [apply Forall_app; split; assumption |].
      intros s bs Hs. destruct (decide (startNumber task = s)) as [Heq | Hne].
      * rewrite Heq, lookup_insert_eq in Hs. injection Hs as <-.
        destruct Hst as [k0 Hk0]. exists k0. split.
        -- rewrite <- Heq, Htask. apply Hk0.
        -- exists started. split; [exact Hk0 |].
           destruct Hwf as (Hse & Hend & Hfresh & _).
           assert (Hnon : blocks task <> [])
             by (intros Hnil; rewrite Hnil in Eb; discriminate).
           apply (Do_chunk header_hash net_hashes net_headers net_bodies
                    started task sent Hfresh Hse ltac:(lia) HDo Hnon).
      * rewrite lookup_insert_ne in Hs by exact Hne. exact (Hins s bs Hs).
Qed.

End AnchoredFacts.

(** Two chunks anchored at points that follow one another meet in one
    block. *)
Lemma anchored_meet (header_hash : Header -> Z) (hashes numbers : list Z) (k : nat)
  (bs bs' : list Block) :
  anchored header_hash hashes numbers k bs ->
  anchored header_hash hashes numbers (S k) bs' ->
  exists b b',
    last bs = Some b /\ head bs' = Some b'
    /\ NumberU64 (blk_header b) = NumberU64 (blk_header b')
    /\ block_hash header_hash b = block_hash header_hash b'.
Proof.
  intros (t & (_ & _ & Hen & Heh) & _ & (f1 & l1 & _ & Hl1 & _ & _ & Hn1 & Hh1) & _)
         (t' & (Hsn & Hsh & _ & _) & _ & (f2 & l2 & Hf2 & _ & Hn2 & Hh2 & _) & _).
  change (map blk_header bs) with (blk_header <$> bs) in Hl1.
  rewrite fmap_last in Hl1.
  destruct (last bs) as [b |] eqn:Eb; [| discriminate].
  change (map blk_header bs') with (blk_header <$> bs') in Hf2.
  destruct bs' as [| b' rest]; [discriminate |].
  cbn in Hl1, Hf2. injection Hl1 as <-. injection Hf2 as <-.
  exists b, b'. split; [reflexivity |]. split; [reflexivity |].
  unfold block_hash. split; congruence.
Qed.

(** X18.  Whatever the peers answer and in
    whatever order the tasks complete: every chunk that a round gives to
    [InsertChain] lies between two adjacent points of the skeleton: its
    blocks are linked by parent hash and consecutive numbers, the first
    has the number and the hash of the point and the last those of the
    next point.  So two chunks of points that follow one another meet:
    the last block of the first and the first block of the second have
    the same number and the same hash. *)
Theorem chunks_anchored_to_skeleton (header_hash : Header -> Z)
  (net_hashes : downloadTask -> getBlcokHashByNumber -> option (list Z))
  (net_headers : downloadTask -> getBlockHeadersData -> option (list Header))
  (net_bodies : downloadTask -> list Z -> option (list Body))
  (sched : nat -> nat) (Chain : Type)
  (InsertChain : Chain -> list Block -> Chain * Z * option error)
  (remotes : list stationStatus) (hashes numbers : list Z) (c : Chain) :
  numbers_wf numbers -> length hashes = length numbers ->
  (forall bs,
      FxInsertChain bs
        ∈ snd (fst (assignDownloadTask header_hash net_hashes net_headers net_bodies
                      sched Chain InsertChain remotes hashes numbers c)) ->
      exists (k : nat) (s : Z),
        numbers !! k = Some s /\ s ∈ removelast numbers
        /\ anchored header_hash hashes numbers k bs)
  /\ (forall (k : nat) (bs bs' : list Block),
        anchored header_hash hashes numbers k bs ->
        anchored header_hash hashes numbers (S k) bs' ->
        exists b b',
          last bs = Some b /\ head bs' = Some b'
          /\ NumberU64 (blk_header b) = NumberU64 (blk_header b')
          /\ block_hash header_hash b = block_hash header_hash b').
Proof.
  intros Hwf Hlen. split; [| apply anchored_meet].
  intros bs Hin. unfold assignDownloadTask in Hin.
  destruct (push_tasks (length numbers - 1) hashes numbers []) as [ts | |] eqn:Ep;
    [| inversion Hin | inversion Hin].
  assert (Hwfts : Forall task_wf ts).
  { refine (push_tasks_wf _ hashes numbers [] ts Hwf _ Ep). constructor. }
  assert (Hskel : Forall (fun t => exists k, from_skeleton hashes numbers k t) ts).
  { refine (push_tasks_from_skeleton _ hashes numbers [] ts _ Ep). constructor. }
  destruct (collect header_hash net_hashes net_headers net_bodies sched
              (collect_fuel ts) (doTask (init_dispatcher remotes ts)))
    as [d | |] eqn:Ec; [| inversion Hin | inversion Hin].
  assert (Hinit : anchored_inv header_hash hashes numbers (init_dispatcher remotes ts)).
  { split; [apply (init_dispatcher_inv header_hash remotes ts Hwfts) |].
    split.
    - unfold init_dispatcher. cbn [taskes running]. rewrite app_nil_r. exact Hskel.
    - intros s bs0 Hs. cbn in Hs. rewrite lookup_empty in Hs. discriminate. }
  pose proof (anchored_inv_kept header_hash net_hashes net_headers net_bodies
                hashes numbers) as Hkept.
  assert (Hd : anchored_inv header_hash hashes numbers d).
  { refine (collect_keeps header_hash net_hashes net_headers net_bodies sched _ Hkept
              _ _ d _ Ec).
    exact (doTask_keeps header_hash net_hashes net_headers net_bodies _ _ Hkept Hinit). }
  destruct Hd as (_ & _ & Hins).
  destruct (last numbers) as [final |]; [| inversion Hin].
  pose proof (insert_loop_in_order Chain InsertChain (removelast numbers) final
                (insertList d) c) as Hord.
  destruct (insert_loop Chain InsertChain (removelast numbers) final (insertList d) c)
    as [[r c'] fx]. cbn [fst snd] in *.
  destruct (in_order_lookup (insertList d) (removelast numbers) fx bs Hord Hin)
    as (s & Hs & Hlook).
  destruct (Hins s bs Hlook) as (k & Hk & Hanch).
  exists k, s. repeat split; assumption.
Qed.

(** The second chunk of the round of the examples. *)
Lemma chunks_anchored_to_skeleton_witness :
  numbers_wf [1; 66; 131; 150]
  /\ exists (k : nat) (s : Z),
       [1; 66; 131; 150] !! k = Some s /\ s ∈ removelast [1; 66; 131; 150]
       /\ anchored demo_header_hash [1001; 1066; 1131; 1150] [1; 66; 131; 150] k
            (demo_chunk 66 131).
Proof.
  assert (Hwf : numbers_wf [1; 66; 131; 150]).
  { intros k a b Ha Hb.
    destruct k as [| [| [| [| k]]]]; cbn in Ha, Hb; try discriminate;
      injection Ha as <-; injection Hb as <-; lia. }
  split; [exact Hwf |].
  apply (proj1 (chunks_anchored_to_skeleton demo_header_hash demo_net_hashes
                  demo_net_headers demo_net_bodies (fun _ => 0%nat) (list Block)
                  demo_InsertChain [demo_best; demo_low] [1001; 1066; 1131; 1150]
                  [1; 66; 131; 150] [] Hwf eq_refl) (demo_chunk 66 131)).
  vm_compute. apply list_elem_of_further, list_elem_of_here.
Defined.

(** ** A round in which every task delivers *)

(** X19.  A round with at least one peer in
    which every run of a task delivers blocks, against a chain store that
    takes every chunk, in whatever order the tasks complete: nothing
    fails and the queue is never cleared, [assignDownloadTask] gives to
    [InsertChain] one chunk for every start of the skeleton, in the order
    of the starts and each once, every chunk linked and beginning at its
    start, and it returns the last number of the skeleton without an
    error. *)
Theorem round_delivers_every_chunk (header_hash : Header -> Z)
  (net_hashes : downloadTask -> getBlcokHashByNumber -> option (list Z))
  (net_headers : downloadTask -> getBlockHeadersData -> option (list Header))
  (net_bodies : downloadTask -> list Z -> option (list Body))
  (sched : nat -> nat) (Chain : Type)
  (InsertChain : Chain -> list Block -> Chain * Z * option error)
  (remotes : list stationStatus) (hashes numbers : list Z) (c : Chain) :
  numbers_wf numbers -> length hashes = length numbers -> numbers <> [] ->
  remotes <> [] ->
  (forall t w task' sent,
      t ∈ adjacent_tasks hashes numbers -> w ∈ remotes ->
      Do header_hash net_hashes net_headers net_bodies (set_worker t w)
      = Ok (task', sent) ->
      blocks task' <> []) ->
  (forall c0 bs, snd (InsertChain c0 bs) = None) ->
  exists (final : Z) (chunks : list (list Block)),
    last numbers = Some final
    /\ fst (fst (fst (assignDownloadTask header_hash net_hashes net_headers net_bodies
                        sched Chain InsertChain remotes hashes numbers c)))
       = Ok (final, None)
    /\ snd (fst (assignDownloadTask header_hash net_hashes net_headers net_bodies
                   sched Chain InsertChain remotes hashes numbers c))
       = FxInsertChain <$> chunks
    /\ length chunks = (length numbers - 1)%nat
    /\ (forall (k : nat) (bs : list Block),
           chunks !! k = Some bs ->
           exists (s : Z) (task : downloadTask),
             removelast numbers !! k = Some s /\ startNumber task = s
             /\ hash_linked_chunk header_hash task (map blk_header bs))
    /\ Forall (fun e => is_failure e = false /\ e <> EvClear)
         (snd (assignDownloadTask header_hash net_hashes net_headers net_bodies
                 sched Chain InsertChain remotes hashes numbers c)).
Proof.
  intros Hwf Hlen Hne Hrem Hdel Hacc. unfold assignDownloadTask.
  rewrite (push_tasks_all hashes numbers Hlen).
  set (ts := adjacent_tasks hashes numbers) in *.
  assert (Hwfts : Forall task_wf ts).
  { refine (push_tasks_wf _ hashes numbers [] ts Hwf _ (push_tasks_all hashes numbers Hlen)).
    constructor. }
  destruct (collect_round header_hash net_hashes net_headers net_bodies sched
              remotes ts Hwfts) as (d & Hd & Hinv & Hch).
  rewrite Hd.
  assert (Hdl : delivering_inv remotes ts d).
  { pose proof (delivering_inv_kept header_hash net_hashes net_headers net_bodies
                  remotes ts Hdel) as Hkept.
    refine (collect_keeps header_hash net_hashes net_headers net_bodies sched _ Hkept
              _ _ d _ Hd).
    apply (doTask_keeps header_hash net_hashes net_headers net_bodies _ _ Hkept).
    apply delivering_inv_init. }
  destruct Hdl as (_ & _ & _ & Hcov & Hcount & Hev).
  assert (Hrun : running d = []).
  { pose proof (collect_ends header_hash net_hashes net_headers net_bodies sched
                  _ _ _ Hd) as Hc0.
    destruct Hinv as (Hcnt & _). rewrite Hcnt in Hc0.
    destruct (running d); [reflexivity | cbn [length] in Hc0; lia]. }
  assert (Hq : taskes d = []).
  { destruct (collect_after_doTask header_hash net_hashes net_headers net_bodies sched
                _ _ _ Hd) as [y Hy].
    pose proof (doTask_saturates y) as Hsat. rewrite <- Hy in Hsat.
    destruct Hsat as [Hfull | [Hw | Ht]]; [| | exact Ht].
    - pose proof (collect_ends header_hash net_hashes net_headers net_bodies sched
                    _ _ _ Hd) as Hc0. unfold maxTask in Hfull. lia.
    - rewrite Hw, Hrun in Hcount. cbn [length] in Hcount.
      destruct remotes; [congruence | cbn [length] in Hcount; lia]. }
  assert (Hall : forall s, s ∈ removelast numbers -> is_Some (insertList d !! s)).
  { intros s Hs. apply list_elem_of_lookup in Hs. destruct Hs as [k Hk].
    destruct (adjacent_tasks_starts hashes numbers k s Hlen Hk) as (t & Ht & <-).
    destruct (Hcov t ltac:(apply list_elem_of_lookup; eexists; exact Ht))
      as [Hin | [[w Hin] | Hin]]; [| | exact Hin].
    - rewrite Hq in Hin. inversion Hin.
    - rewrite Hrun in Hin. inversion Hin. }
  destruct (present_prefix_all (insertList d) (removelast numbers) Hall)
    as (Hmiss & Hlenp & Hlook).
  destruct (last numbers) as [final |] eqn:Elast;
    [| apply last_None in Elast; congruence].
  destruct (insert_loop_accepting Chain InsertChain Hacc (removelast numbers) final
              (insertList d) c) as [Hfx Hres].
  rewrite Hmiss in Hres.
  destruct (insert_loop Chain InsertChain (removelast numbers) final (insertList d) c)
    as [[r c'] fx]. cbn [fst snd] in *.
  exists final, (present_prefix (insertList d) (removelast numbers)).
  split; [reflexivity |]. split; [exact Hres |]. split; [exact Hfx |].
  split.
  { rewrite Hlenp, removelast_firstn_len, length_take. lia. }
  split; [| exact Hev].
  intros k bs Hk. destruct (Hlook k bs Hk) as (s & Hs & Hins).
  destruct (Hch s bs Hins) as (_ & task & Hst & _ & _ & Hlink).
  exists s, task. split; [exact Hs | split; [exact Hst | exact Hlink]].
Qed.

(** The round of the examples: every chunk is delivered and inserted. *)
Lemma round_delivers_every_chunk_witness :
  exists (final : Z) (chunks : list (list Block)),
    last [1; 66; 131; 150] = Some final
    /\ fst (fst (fst (assignDownloadTask demo_header_hash demo_net_hashes
                        demo_net_headers demo_net_bodies (fun _ => 0%nat) (list Block)
                        demo_InsertChain [demo_best; demo_low]
                        [1001; 1066; 1131; 1150] [1; 66; 131; 150] [])))
       = Ok (final, None)
    /\ snd (fst (assignDownloadTask demo_header_hash demo_net_hashes
                   demo_net_headers demo_net_bodies (fun _ => 0%nat) (list Block)
                   demo_InsertChain [demo_best; demo_low]
                   [1001; 1066; 1131; 1150] [1; 66; 131; 150] []))
       = FxInsertChain <$> chunks
    /\ length chunks = (length [1; 66; 131; 150] - 1)%nat
    /\ (forall (k : nat) (bs : list Block),
           chunks !! k = Some bs ->
           exists (s : Z) (task : downloadTask),
             removelast [1; 66; 131; 150] !! k = Some s /\ startNumber task = s
             /\ hash_linked_chunk demo_header_hash task (map blk_header bs))
    /\ Forall (fun e => is_failure e = false /\ e <> EvClear)
         (snd (assignDownloadTask demo_header_hash demo_net_hashes
                 demo_net_headers demo_net_bodies (fun _ => 0%nat) (list Block)
                 demo_InsertChain [demo_best; demo_low]
                 [1001; 1066; 1131; 1150] [1; 66; 131; 150] [])).
Proof.
  apply (round_delivers_every_chunk demo_header_hash demo_net_hashes demo_net_headers
           demo_net_bodies (fun _ => 0%nat) (list Block) demo_InsertChain
           [demo_best; demo_low] [1001; 1066; 1131; 1150] [1; 66; 131; 150] []).
  - intros k a b Ha Hb.
    destruct k as [| [| [| [| k]]]]; cbn in Ha, Hb; try discriminate;
      injection Ha as <-; injection Hb as <-; lia.
  - reflexivity.
  - discriminate.
  - discriminate.
  - intros t w task' sent Ht Hw HDo.
    cbn in Ht.
    repeat (apply elem_of_cons in Ht; destruct Ht as [-> | Ht]);
      [| | | inversion Ht];
      repeat (apply elem_of_cons in Hw; destruct Hw as [-> | Hw]);
      try (inversion Hw; fail);
      vm_compute in HDo; injection HDo as <- _; discriminate.
  - intros c0 bs. reflexivity.
Defined.

(** ** Rounds that change nothing *)


